(* ===== verification/_CoqProject ===== *)
-Q . S2P
Prelude.v
Rounding.v
Binary64.v
Float64.v
GoTypes.v
Utf8.v
Json.v
FloatText.v
Decode.v
Monitor.v
GoSort.v
Selector.v
Provider.v
RateLimit.v
Resilient.v
Cache.v
Db.v
Logging.v
Sha256.v
Budget.v
Handler.v
Stages.v
Requests.v
Enforcement.v
Stream.v
Mock.v
Upstreams.v
Analytics.v
Admin.v
System.v
Config.v
Main.v
Simulate.v
