(* ===== verification/Prelude.v ===== *)
(** * Kenbun Gateway: a verification development

    Kenbun is an HTTP gateway, written in Go, in front of the APIs of language
    models.  A request to /v1/chat/completions carries the API key of a tenant;
    the gateway finds the tenant, enforces its budget and rate limit, answers
    from a cache if it can, and otherwise selects an upstream by health and
    latency, calls it with retries, logs the cost and caches the answer.
    Log events flow through Kafka to a processor that charges them to the
    tenants' budgets.  An admin API creates tenants, shows statistics and takes
    upstreams out of service.  This library models that program and proves
    what makes it correct, or shows where it is not.

    ** How the program is modelled

    Go code is translated into functions over explicit states.  An [int] or a
    [time.Duration] is a [Z] whose wrap-around is written out; a [float64] is a
    binary64 number that computes; a string is a string of bytes.  Effects are
    the state monad [M] of GoTypes, whose outcomes are [Returns] and [Panics];
    a panic keeps the state reached.  Each Go interface is a type class of
    operations, and what its clients rely on is a class of laws about it: the
    handler is verified against the classes, and each implementation in src/
    has an instance of them.  Libraries that are not in src/ - Redis, ristretto,
    Kafka, pgx, ClickHouse, go-openai, generative-ai-go, net/http's client - are
    classes without an instance from the program; their documented behaviour is
    a class of laws, with a concrete instance in a Scenario or InMemory module
    that the witnesses run.  Where Go leaves an order open - ranging over a map,
    [select], scheduling - it is an argument or a step relation.

    ** The files

    Foundations:
    - Prelude: this header, and lemmas and tactics that all files share;
    - Rounding, Binary64, Float64: the rounding of IEEE 754 on integers, the
      correctness of the Standard Library's SpecFloat with respect to it, and
      Go's comparisons and conversions with their order laws;
    - GoTypes: integers, durations, errors, panics and the monad, with [wp], its
      weakest precondition;
    - Utf8, Json, FloatText, Decode: strings as runes, encoding/json (printing,
      scanning, and decoding into variables), float64 as text;
    - GoSort: [sort.Slice]; Sha256: SHA-256 and hexadecimal.

    Components, each after the file of src/internal/ it models:
    - Monitor (router/router.go): [EWMA] has the methods of [EWMAMonitor];
    - Selector (router/selector.go): [LatencyAware.select] is [Select];
    - Provider (provider/provider.go): messages, the interface, [Codec] (JSON)
      and [Cost.EstimateCost];
    - RateLimit (ratelimit/ratelimit.go): [TB.Allow], [TB.backgroundSync];
    - Resilient (provider/resilient.go): [resilient_Chat], with time;
    - Stream (provider/resilient.go and router/handler.go): [ChatStream], its
      channels and the handler's loop, as the step relation [step];
    - Cache (cache/cache.go, cache/memory.go): [TwoTier] and [Memory];
    - Db (db/db.go): [TenantRepository], its laws and [Postgres];
    - Logging (logging/logging.go): [LogEvent], its [Codec] and [Multi];
    - Analytics (logging/clickhouse.go): [ClickHouse];
    - Budget (db/processor.go): [flush], and [step] for the loop of [Start];
    - Handler (router/handler.go): [Gateway.ServeHTTP] and what it calls, over
      the record [gateway] of the states of all parts; Stages: how far a request
      gets, and in which state ([stage], [refusal]); Requests: its theorems;
    - Mock, Upstreams (provider/mock.go, openai.go, anthropic.go, gemini.go,
      ollama.go): [Chat], and [ChatStream] as a goroutine ([Source] instance);
    - Admin (router/admin.go): the middleware, the handlers, the routes;
    - Config (config/config.go); Main (src/cmd/gateway/main.go): [main] as the
      events it causes, and the state it serves; Simulate
      (src/scripts/simulate.go): its requests, and [step] for its loop.

    Compositions:
    - Enforcement: the handler, its cache and the clock, against the class
      [FreshCacheLaws] of Cache, which [TwoTierCache] has;
    - System: the handler, the admin API, the logger and the budget processor
      over one repository; [reaches] interleaves their operations, [Main]
      provides its first state.

    ** What the theorems show

    - The gateway (Handler, Requests).  An upstream is only reached by a request
      whose key belongs to a tenant, which has budget left and a token, and whose
      allowlist admits it ([ServeHTTP_entitled]); in any sequence of requests
      nothing panics unless an upstream does ([ServeHTTP_never_panics]); the
      status of a refusal names the first check that failed, whatever the parts
      do ([ServeHTTP_refusals]); a synchronous request ends in one of six ways,
      with exactly these effects ([ServeHTTP_sync]), and with the in-memory cache
      it is replayed whatever is served in between ([ServeHTTP_replay]); the keys
      of the cache keep tenants and models apart ([cache_key_isolates]).
    - Streams (Stream, Mock, Upstreams).  In every interleaving the client
      receives a gapless prefix of what one attempt sent ([stream_delivers]),
      no channel is misused ([channels_are_disciplined]), and the body is what
      was delivered ([streamed_response]).  The model also shows defects: a
      stream is cut when its first chunk arrives ([mock_stream_truncated]),
      failures may be lost ([anthropic_stream_race]), a goroutine may wait for
      ever ([abandoned_stream_leaks]).
    - Resilience (Resilient).  [Chat] refines its contract - at most
      [maxRetries + 1] attempts, each with its deadline, with doubled waits -
      and terminates within an explicit time.
    - Health (Monitor, Selector).  The averages stay in range; the monitor
      refines one automaton per provider; seven errors trip a provider and
      sixteen successes bring it back; the selector takes the first of the
      fastest admissible providers.
    - The running gateway (System, Enforcement, Main).  In every interleaving of
      requests, admin calls and rounds of the processor, whatever is lost, each
      cent spent was earned: it comes from a batch of logged costs of admitted
      requests of the tenant, each read once, and a synchronous answer is logged
      at the price of its tokens ([spending_is_earned]).  A spent
      budget is enforced within fifteen minutes whatever was cached
      ([budget_enforced]).  What [main] serves is a first state of these
      executions, with the providers and the secret of the environment
      ([main_starts]).
    - Limits and money (RateLimit, Budget, Provider).  The requests admitted in
      any minute are bounded; a tenant that waits is admitted; the processor
      charges exactly the whole cents of each flush, for every order of events
      and failures; prices are monotone; fractions of cents are lost.
    - Data (Db, Logging, Provider, Config, Cache).  Tenants, events and requests
      survive the trip through JSON; the configuration is read as it was set;
      a cached value is never older than what its writers allowed plus the
      backfill.
    - Control (Admin, Main).  Only the admin secret changes anything, and
      creating a tenant, from the text of the request to the store, works; a
      Gemini client that could not be created is a nil pointer whose requests
      panic and whose streams end the process ([nil_gemini_panics]); one setting
      kills the process as it starts ([main_ticker]).
      The load generator keeps its pace and can always be stopped
      ([simulator_sends], [simulator_stops]).

    ** Fuel and bounds

    [parse_value] consumes fuel; [enough], twice the length of the text and one,
    is proved enough for printed values.  [shortest] tries 17 digits, which
    identify every binary64 number, and [decimal_exponent] 330 places, more than
    the smallest subnormal needs.  [math.Pow(2, i)] is exact for the attempts
    [i <= 62]; theorems about backoff assume no more retries than that ([main]
    has 2).  [drain] runs the mock's goroutine on its own with a bound that is
    proved enough.  The loop of [chat_loop] runs on the number of attempts left,
    which is its length.  In Enforcement, five minutes is the lifetime of a cached
    tenant and ten the backfill of the first tier.

    ** Not modelled

    - Locks: the methods that hold one are single steps.  In System and
      Enforcement a whole request is one step too; interleavings inside a request
      are those of Stream.
    - Kafka: the processor is given every message of the topic at most once, in
      any order; offsets that are committed late, and messages read again after
      a crash, are left out.
    - Time in Stream: timers may fire at any moment there; the attempts of
      [Chat] are modelled in time, in Resilient.
    - What third-party code does with its inputs: the Lua script that
      [backgroundSync] sends to Redis, the SQL texts and the schemas in scripts/,
      the CORS and chi middleware (their options and order are recorded),
      opening connections and serving HTTP.  A nil cache: [main_starts] leaves
      out the case in which ristretto fails.
    - A database statement that takes effect although it reports an error:
      [TenantRepositoryLaws] says that a failed statement changes nothing.
    - float64 on other architectures than amd64, where Go may fuse a product and
      a sum, and converts an out-of-range number differently ([f_to_int]).
    - godotenv: the environment is an argument of [Load]; what the budget
      processor prints; padding with runes outside ASCII.
    - The web interface in src/ui/. *)

From Stdlib Require Export ZArith Lia Bool String.
From stdpp Require Export base tactics option list numbers strings gmap fin_maps.

#[global] Open Scope Z_scope.

(** ** Case analysis on boolean comparisons of integers *)

(** Splits every comparison of integers in the goal and closes the cases
    that arithmetic refutes. *)
Ltac zbool := repeat match goal with
  | |- context [?a <=? ?b] => destruct (Z.leb_spec a b)
  | |- context [?a =? ?b] => destruct (Z.eqb_spec a b)
  | |- context [?a <? ?b] => destruct (Z.ltb_spec a b)
  end; simpl; try reflexivity; try (exfalso; lia); try lia.

(** ** Powers of two *)

Lemma pow2_pos k : 0 <= k -> 0 < 2 ^ k.
Proof. intros. apply Z.pow_pos_nonneg; lia. Qed.

(** ** Strings *)

Lemma append_assoc (s t u : string) : ((s ++ t) ++ u = s ++ (t ++ u))%string.
Proof. induction s as [|a s IH]; [done|exact (f_equal (String a) IH)]. Qed.

Lemma append_nil_r (s : string) : (s ++ "" = s)%string.
Proof. induction s as [|a s IH]; [done|exact (f_equal (String a) IH)]. Qed.
