(* ===== verification/Rounding.v ===== *)
(** * Rounding to nearest, ties to even, on the integers

    Correctly rounded arithmetic without real numbers: a non-negative rational
    is a pair [n / d], [rne n d] is the nearest integer (ties to even), and
    [rn n d] is the nearest value of the form [q * 2 ^ k] with a 53-bit [q].
    The results are what the rest of the development uses of rounding: it is
    monotone, exact on representable values, and within half a unit in the
    last place. *)

From S2P Require Import Prelude.
Local Open Scope Z_scope.

Definition rne (n d : Z) : Z :=
  let q := n / d in
  match (2 * (n mod d)) ?= d with
  | Lt => q
  | Gt => q + 1
  | Eq => if Z.even q then q else q + 1
  end.

Definition rn_shift (n d : Z) : Z := Z.max 0 (Z.log2 (n / d) + 1 - 53).
Definition rn (n d : Z) : Z :=
  let k := rn_shift n d in rne n (d * 2 ^ k) * 2 ^ k.
Definition rns (n d : Z) : Z := Z.sgn n * rn (Z.abs n) d.

Lemma rne_spec n d : 0 < d ->
  - d <= 2 * n - 2 * (rne n d * d) <= d /\
  (2 * n - 2 * (rne n d * d) = d \/ 2 * n - 2 * (rne n d * d) = - d ->
   Z.even (rne n d) = true).
Proof.
  intros Hd. unfold rne.
  pose proof (Z.div_mod n d ltac:(lia)) as E.
  pose proof (Z.mod_pos_bound n d Hd) as B.
  set (q := n / d) in *. set (r := n mod d) in *. clearbody q r.
  destruct (2 * r ?= d) eqn:C.
  - apply Z.compare_eq in C. destruct (Z.even q) eqn:Ev.
    + split; [nia | auto].
    + split; [nia | intros _]. rewrite Z.add_1_r, Z.even_succ, <- Z.negb_even, Ev. reflexivity.
  - rewrite Z.compare_lt_iff in C. split; [nia | nia].
  - rewrite Z.compare_gt_iff in C. split; [nia | nia].
Qed.

Lemma even_consecutive z : Z.even z = true -> Z.even (z + 1) = true -> False.
Proof. rewrite Z.add_1_r, Z.even_succ, <- Z.negb_even. intros ->. discriminate. Qed.

Lemma rne_mono n1 d1 n2 d2 : 0 < d1 -> 0 < d2 -> n1 * d2 <= n2 * d1 -> rne n1 d1 <= rne n2 d2.
Proof.
  intros H1 H2 L.
  destruct (rne_spec n1 d1 H1) as [A1 T1]. destruct (rne_spec n2 d2 H2) as [A2 T2].
  set (z1 := rne n1 d1) in *. set (z2 := rne n2 d2) in *. clearbody z1 z2.
  destruct (Z.le_gt_cases z1 z2) as [|G]; [assumption | exfalso].
  assert (B1 : (2 * z1 - 1) * d1 <= 2 * n1) by lia.
  assert (B2 : 2 * n2 <= (2 * z2 + 1) * d2) by lia.
  assert (C1 : (2 * z1 - 1) * (d1 * d2) <= 2 * n1 * d2) by nia.
  assert (C2 : 2 * n2 * d1 <= (2 * z2 + 1) * (d1 * d2)) by nia.
  assert (P : 0 < d1 * d2) by nia.
  assert (z1 = z2 + 1) by nia. subst z1.
  assert (E1 : 2 * n1 * d2 = (2 * z2 + 1) * (d1 * d2)) by nia.
  assert (F1 : 2 * n1 = (2 * z2 + 1) * d1) by nia.
  assert (F2 : 2 * n2 = (2 * z2 + 1) * d2) by nia.
  apply (even_consecutive z2); [apply T2; lia | apply T1; lia].
Qed.

Lemma rne_exact z d : 0 < d -> rne (z * d) d = z.
Proof.
  intros H. unfold rne. rewrite Z.div_mul, Z.mod_mul by lia.
  destruct (2 * 0 ?= d) eqn:C; auto; [apply Z.compare_eq in C | rewrite Z.compare_gt_iff in C]; lia.
Qed.

Lemma rne_le z n d : 0 < d -> n <= z * d -> rne n d <= z.
Proof. intros H L. rewrite <- (rne_exact z d H). apply rne_mono; nia. Qed.

Lemma rne_ge z n d : 0 < d -> z * d <= n -> z <= rne n d.
Proof. intros H L. rewrite <- (rne_exact z d H) at 1. apply rne_mono; nia. Qed.

Lemma rne_ext n1 d1 n2 d2 : 0 < d1 -> 0 < d2 -> n1 * d2 = n2 * d1 -> rne n1 d1 = rne n2 d2.
Proof. intros. apply Z.le_antisymm; apply rne_mono; lia. Qed.

Lemma rne_nonneg n d : 0 < d -> 0 <= n -> 0 <= rne n d.
Proof. intros. apply rne_ge; lia. Qed.

(** The binade of a quotient. *)
Lemma rn_shift_nonneg n d : 0 <= rn_shift n d.
Proof. unfold rn_shift. lia. Qed.

Lemma rn_shift_upper n d : 0 < d -> 0 <= n -> n < d * 2 ^ (53 + rn_shift n d).
Proof.
  intros Hd Hn. unfold rn_shift.
  assert (Q : n < d * (n / d + 1)).
  { pose proof (Z.div_mod n d ltac:(lia)). pose proof (Z.mod_pos_bound n d Hd). nia. }
  assert (n / d + 1 <= 2 ^ (53 + Z.max 0 (Z.log2 (n / d) + 1 - 53))).
  { assert (0 <= n / d) by (apply Z.div_pos; lia).
    destruct (Z.eq_dec (n / d) 0) as [->|]; [cbn; lia|].
    pose proof (Z.log2_spec (n / d) ltac:(lia)).
    pose proof (Z.log2_nonneg (n / d)).
    assert (2 ^ Z.succ (Z.log2 (n / d)) <= 2 ^ (53 + Z.max 0 (Z.log2 (n / d) + 1 - 53)))
      by (apply Z.pow_le_mono_r; lia).
    lia. }
  nia.
Qed.

Lemma rn_shift_lower n d : 0 < d -> 0 <= n -> 0 < rn_shift n d -> d * 2 ^ (52 + rn_shift n d) <= n.
Proof.
  intros Hd Hn Hk. unfold rn_shift in *.
  set (q := n / d) in *.
  assert (E : 52 + Z.max 0 (Z.log2 q + 1 - 53) = Z.log2 q) by lia. rewrite E.
  assert (0 <= q) by (apply Z.div_pos; lia).
  assert (0 < q). { destruct (Z.eq_dec q 0) as [Z0|]; [rewrite Z0 in Hk; cbn in Hk; lia | lia]. }
  pose proof (Z.log2_spec q ltac:(lia)).
  assert (d * q <= n) by (apply Z.mul_div_le; lia). nia.
Qed.

(** The shift is the unique one with the quotient in its binade. *)
Lemma rn_shift_unique n d k : 0 < d -> 0 <= n -> 0 <= k ->
  n < d * 2 ^ (53 + k) -> (0 < k -> d * 2 ^ (52 + k) <= n) -> rn_shift n d = k.
Proof.
  intros Hd Hn Hk Hu Hl.
  pose proof (rn_shift_nonneg n d) as P.
  pose proof (rn_shift_upper n d Hd Hn) as U. pose proof (rn_shift_lower n d Hd Hn) as L.
  set (k' := rn_shift n d) in *. clearbody k'.
  destruct (Z.lt_trichotomy k' k) as [C|[C|C]]; [exfalso | assumption | exfalso].
  - specialize (Hl ltac:(lia)).
    assert (2 ^ (53 + k') <= 2 ^ (52 + k)) by (apply Z.pow_le_mono_r; lia). nia.
  - specialize (L ltac:(lia)).
    assert (2 ^ (53 + k) <= 2 ^ (52 + k')) by (apply Z.pow_le_mono_r; lia). nia.
Qed.

Lemma rn_shift_ext n1 d1 n2 d2 : 0 < d1 -> 0 < d2 -> 0 <= n1 -> 0 <= n2 ->
  n1 * d2 = n2 * d1 -> rn_shift n1 d1 = rn_shift n2 d2.
Proof.
  intros. apply rn_shift_unique; auto using rn_shift_nonneg.
  - pose proof (rn_shift_upper n2 d2). nia.
  - intros Hk. pose proof (rn_shift_lower n2 d2 ltac:(lia) ltac:(lia) Hk). nia.
Qed.

Lemma rn_nonneg n d : 0 < d -> 0 <= n -> 0 <= rn n d.
Proof.
  intros. unfold rn. pose proof (pow2_pos _ (rn_shift_nonneg n d)).
  pose proof (rne_nonneg n (d * 2 ^ rn_shift n d)). nia.
Qed.

Lemma rn_upper n d : 0 < d -> 0 <= n -> rn n d <= 2 ^ (53 + rn_shift n d).
Proof.
  intros Hd Hn. unfold rn. pose proof (rn_shift_nonneg n d) as P.
  pose proof (rn_shift_upper n d Hd Hn) as U. pose proof (pow2_pos _ P).
  rewrite Z.pow_add_r in * by lia.
  assert (rne n (d * 2 ^ rn_shift n d) <= 2 ^ 53) by (apply rne_le; nia). nia.
Qed.

Lemma rn_lower n d : 0 < d -> 0 <= n -> 0 < rn_shift n d -> 2 ^ (52 + rn_shift n d) <= rn n d.
Proof.
  intros Hd Hn Hk. unfold rn.
  pose proof (rn_shift_lower n d Hd Hn Hk) as L. pose proof (pow2_pos (rn_shift n d) ltac:(lia)).
  rewrite Z.pow_add_r in * by lia.
  assert (2 ^ 52 <= rne n (d * 2 ^ rn_shift n d)) by (apply rne_ge; nia). nia.
Qed.

Lemma rn_mono n1 d1 n2 d2 : 0 < d1 -> 0 < d2 -> 0 <= n1 -> 0 <= n2 ->
  n1 * d2 <= n2 * d1 -> rn n1 d1 <= rn n2 d2.
Proof.
  intros H1 H2 P1 P2 L.
  pose proof (rn_shift_nonneg n1 d1). pose proof (rn_shift_nonneg n2 d2).
  destruct (Z.lt_trichotomy (rn_shift n1 d1) (rn_shift n2 d2)) as [C|[C|C]].
  - pose proof (rn_upper n1 d1 H1 P1). pose proof (rn_lower n2 d2 H2 P2 ltac:(lia)).
    assert (2 ^ (53 + rn_shift n1 d1) <= 2 ^ (52 + rn_shift n2 d2)) by (apply Z.pow_le_mono_r; lia).
    lia.
  - unfold rn. rewrite C. pose proof (pow2_pos (rn_shift n2 d2) ltac:(lia)).
    apply Z.mul_le_mono_nonneg_r; [lia|]. apply rne_mono; nia.
  - exfalso. pose proof (rn_shift_lower n1 d1 H1 P1 ltac:(lia)).
    pose proof (rn_shift_upper n2 d2 H2 P2).
    assert (2 ^ (53 + rn_shift n2 d2) <= 2 ^ (52 + rn_shift n1 d1)) by (apply Z.pow_le_mono_r; lia).
    assert (n1 * d2 < d1 * d2 * 2 ^ (52 + rn_shift n1 d1)) by nia. nia.
Qed.

Lemma rn_ext n1 d1 n2 d2 : 0 < d1 -> 0 < d2 -> 0 <= n1 -> 0 <= n2 ->
  n1 * d2 = n2 * d1 -> rn n1 d1 = rn n2 d2.
Proof. intros. apply Z.le_antisymm; apply rn_mono; lia. Qed.

Lemma rn_shift_unit_exact m k : 0 <= k -> 0 <= m < 2 ^ 53 -> (0 < k -> 2 ^ 52 <= m) ->
  rn_shift (m * 2 ^ k) 1 = k.
Proof.
  intros Hk Hm Hl. pose proof (pow2_pos k Hk).
  apply rn_shift_unique; rewrite ?Z.pow_add_r by lia; nia.
Qed.

(** Values of at most 53 significant bits are their own rounding. *)
Lemma rn_representable m k : 0 <= k -> 0 <= m <= 2 ^ 53 -> rn (m * 2 ^ k) 1 = m * 2 ^ k.
Proof.
  intros Hk Hm. pose proof (pow2_pos k Hk) as Pk.
  assert (X : exists q, m * 2 ^ k = q * 2 ^ rn_shift (m * 2 ^ k) 1).
  { pose proof (rn_shift_nonneg (m * 2 ^ k) 1) as Pj.
    pose proof (rn_shift_lower (m * 2 ^ k) 1 ltac:(lia) ltac:(nia)) as L.
    set (j := rn_shift (m * 2 ^ k) 1) in *. clearbody j.
    destruct (Z.le_gt_cases j k).
    - exists (m * 2 ^ (k - j)). rewrite <- Z.mul_assoc, <- Z.pow_add_r by lia. f_equal. f_equal. lia.
    - assert (U : m * 2 ^ k <= 2 ^ (53 + k)) by (rewrite Z.pow_add_r by lia; nia).
      specialize (L ltac:(lia)). rewrite Z.mul_1_l in L.
      assert (52 + j <= 53 + k) by (apply (Z.pow_le_mono_r_iff 2); lia).
      assert (j = k + 1) by lia. subst j.
      replace (52 + (k + 1)) with (53 + k) in L by lia.
      exists (2 ^ 52). rewrite <- Z.pow_add_r by lia. replace (52 + (k + 1)) with (53 + k) by lia. lia. }
  destruct X as [q E]. unfold rn. rewrite E at 1. rewrite Z.mul_1_l, rne_exact; [lia|].
  apply pow2_pos, rn_shift_nonneg.
Qed.

(** ** Signed rounding *)

Lemma rn_0 d : 0 < d -> rn 0 d = 0.
Proof.
  intros Hd. unfold rn. set (k := rn_shift 0 d). pose proof (pow2_pos k (rn_shift_nonneg 0 d)).
  replace (rne 0 (d * 2 ^ k)) with 0; [reflexivity|]. symmetry. apply (rne_exact 0). nia.
Qed.

Lemma rns_nonneg n d : 0 < d -> 0 <= n -> rns n d = rn n d.
Proof.
  intros Hd Hn. unfold rns. rewrite Z.abs_eq by assumption.
  destruct (Z.eq_dec n 0) as [->|]; [rewrite rn_0 by assumption; lia|].
  rewrite Z.sgn_pos by lia. lia.
Qed.

Lemma rns_neg n d : 0 < d -> n <= 0 -> rns n d = - rn (- n) d.
Proof.
  intros Hd Hn. unfold rns. rewrite Z.abs_neq by assumption.
  destruct (Z.eq_dec n 0) as [->|]; [rewrite rn_0 by assumption; lia|].
  rewrite Z.sgn_neg by lia. lia.
Qed.

Lemma rns_mono n1 d1 n2 d2 : 0 < d1 -> 0 < d2 -> n1 * d2 <= n2 * d1 -> rns n1 d1 <= rns n2 d2.
Proof.
  intros H1 H2 L. destruct (Z.le_gt_cases 0 n1) as [P1|P1], (Z.le_gt_cases 0 n2) as [P2|P2].
  - rewrite !rns_nonneg by lia. apply rn_mono; lia.
  - exfalso. nia.
  - rewrite (rns_neg n1), (rns_nonneg n2) by lia.
    pose proof (rn_nonneg (- n1) d1). pose proof (rn_nonneg n2 d2). lia.
  - rewrite !rns_neg by lia. assert (rn (- n2) d2 <= rn (- n1) d1) by (apply rn_mono; lia). lia.
Qed.

Lemma rns_ext n1 d1 n2 d2 : 0 < d1 -> 0 < d2 -> n1 * d2 = n2 * d1 -> rns n1 d1 = rns n2 d2.
Proof. intros. apply Z.le_antisymm; apply rns_mono; lia. Qed.

(** The rounding error is at most half a unit in the last place. *)
Lemma rn_error n d : 0 < d -> 0 <= n ->
  2 * Z.abs (rn n d * d - n) <= d * 2 ^ rn_shift n d.
Proof.
  intros Hd Hn. unfold rn. pose proof (pow2_pos _ (rn_shift_nonneg n d)) as P.
  set (k := rn_shift n d) in *. destruct (rne_spec n (d * 2 ^ k) ltac:(nia)) as [S _]. lia.
Qed.

(** Relative error at most [2 ^ -53] above the subnormal range. *)
Lemma rn_relative_error n d : 0 < d -> 0 <= n -> d * 2 ^ 52 <= n ->
  2 ^ 53 * Z.abs (rn n d * d - n) <= n.
Proof.
  intros Hd Hn Hl. pose proof (rn_error n d Hd Hn) as E. pose proof (rn_shift_nonneg n d) as P.
  destruct (Z.eq_dec (rn_shift n d) 0) as [Z0|].
  - rewrite Z0 in E. lia.
  - pose proof (rn_shift_lower n d Hd Hn ltac:(lia)) as L. rewrite Z.pow_add_r in L by lia. lia.
Qed.

Lemma rns_representable m k : 0 <= k -> - 2 ^ 53 <= m <= 2 ^ 53 -> rns (m * 2 ^ k) 1 = m * 2 ^ k.
Proof.
  intros Hk Hm. pose proof (pow2_pos k Hk). destruct (Z.le_gt_cases 0 m).
  - rewrite rns_nonneg by nia. apply rn_representable; lia.
  - rewrite rns_neg by nia. rewrite <- Z.mul_opp_l, rn_representable by lia. lia.
Qed.
