(* ===== verification/Binary64.v ===== *)
(** * binary64: the rounding of the IEEE 754 operations, characterised

    Go's [float64] is IEEE 754 binary64, modelled by the Standard Library's
    [SpecFloat] at precision 53 and exponent bound 1024, which computes.  The
    value of a number is counted in units of the smallest subnormal,
    [2 ^ -1074]: [units x] is an integer for every finite [x] (and plus or
    minus [big], [2 ^ 2098], at the infinities).  The theorems say that each
    operation returns the correctly rounded value of the exact result, in the
    terms of [Rounding]. *)

From S2P Require Import Prelude Rounding.
From Stdlib Require Import SpecFloat.
Local Open Scope Z_scope.
#[local] Arguments Z.mul : simpl never.
#[local] Arguments Z.add : simpl never.
#[local] Arguments Z.sub : simpl never.
#[local] Arguments Z.pow : simpl never.

Abbreviation float64 := spec_float.

Definition of_units (s : bool) (z : Z) : float64 :=
  if z =? 0 then S754_zero s
  else if z <? 2 ^ 2098 then
    let k := rn_shift z 1 in S754_finite s (Z.to_pos (z / 2 ^ k)) (k - 1074)
  else S754_infinity s.

Definition shr_rep (mrs : shr_record) (n d : Z) : Prop :=
  0 < d /\ 0 <= shr_m mrs /\
  exists r, n = shr_m mrs * d + r /\ 0 <= r < d /\
    shr_r mrs = (d <=? 2 * r) /\ shr_s mrs = (negb (r =? 0) && negb (2 * r =? d)).

Lemma shr_rep_nonneg mrs n d : shr_rep mrs n d -> 0 <= n.
Proof. intros (Hd & Hm & r & E & Hr & _). nia. Qed.

Lemma shr_1_rep mrs n d : shr_rep mrs n d -> shr_rep (shr_1 mrs) n (2 * d).
Proof.
  destruct mrs as [m r s]. intros (Hd & Hm & x & E & Hx & Er & Es). simpl in *.
  assert (S1 : (r || s) = negb (x =? 0)) by (subst r s; zbool).
  split; [lia|].
  destruct m as [|[p|p|]|p]; simpl; rewrite S1; try lia; (split; [lia|]).
  - exists x. repeat split; try lia; zbool.
  - exists (d + x). repeat split; try lia; zbool.
  - exists x. repeat split; try lia; zbool.
  - exists (d + x). repeat split; try lia; zbool.
Qed.

Lemma iter_pos_shr_rep p : forall mrs n d,
  shr_rep mrs n d -> shr_rep (iter_pos shr_1 p mrs) n (d * 2 ^ Z.pos p).
Proof.
  induction p as [p IH|p IH|]; intros mrs n d H; cbn [iter_pos].
  - apply shr_1_rep, IH, IH in H.
    replace (d * 2 ^ Z.pos p~1) with (2 * d * 2 ^ Z.pos p * 2 ^ Z.pos p); [assumption|].
    replace (Z.pos p~1) with (Z.pos p + Z.pos p + 1) by lia. rewrite !Z.pow_add_r by lia. lia.
  - apply IH, IH in H.
    replace (d * 2 ^ Z.pos p~0) with (d * 2 ^ Z.pos p * 2 ^ Z.pos p); [assumption|].
    replace (Z.pos p~0) with (Z.pos p + Z.pos p) by lia. rewrite !Z.pow_add_r by lia. lia.
  - apply shr_1_rep in H. replace (d * 2 ^ 1) with (2 * d) by lia. assumption.
Qed.

Lemma shr_rep_shift mrs e t n d : 0 <= t -> shr_rep mrs n d ->
  exists mrs', shr mrs e t = (mrs', e + t) /\ shr_rep mrs' n (d * 2 ^ t).
Proof.
  intros Ht H. destruct t as [|p|p]; [| |lia].
  - exists mrs. split; [unfold shr; f_equal; lia|]. rewrite Z.mul_1_r. assumption.
  - eexists. split; [reflexivity|]. apply iter_pos_shr_rep, H.
Qed.

Lemma shr_rep_round mrs n d : shr_rep mrs n d ->
  round_nearest_even (shr_m mrs) (loc_of_shr_record mrs) = rne n d.
Proof.
  destruct mrs as [m r s]. intros (Hd & Hm & x & E & Hx & Er & Es). simpl in *.
  assert (Q : n / d = m) by (symmetry; apply (Z.div_unique n d m x); lia).
  assert (R : n mod d = x) by (symmetry; apply (Z.mod_unique n d m x); lia).
  unfold rne. rewrite Q, R. subst r s.
  destruct (Z.compare_spec (2 * x) d); zbool.
Qed.

Lemma digits2_log2 m : Z.pos (digits2_pos m) = Z.log2 (Z.pos m) + 1.
Proof.
  induction m as [p IH|p IH|]; cbn [digits2_pos]; [| |reflexivity].
  - rewrite Pos2Z.inj_succ, IH, Pos2Z.inj_xI, Z.log2_succ_double by lia. lia.
  - rewrite Pos2Z.inj_succ, IH, Pos2Z.inj_xO, Z.log2_double by lia. lia.
Qed.

Lemma Zdigits2_bounds m : 0 < m -> 2 ^ (Zdigits2 m - 1) <= m < 2 ^ Zdigits2 m.
Proof.
  destruct m as [|p|p]; try lia. intros _. cbn [Zdigits2]. rewrite digits2_log2.
  pose proof (Z.log2_spec (Z.pos p) ltac:(lia)). rewrite Z.add_simpl_r. lia.
Qed.

Lemma Zdigits2_nonneg m : 0 <= Zdigits2 m.
Proof. destruct m; simpl; lia. Qed.

Lemma Zdigits2_upper m k : 0 <= k -> 0 <= m < 2 ^ k -> Zdigits2 m <= k.
Proof.
  intros Hk Hm. destruct (Z.eq_dec m 0) as [->|]; [simpl; lia|].
  destruct (Z.le_gt_cases (Zdigits2 m) k) as [|G]; [assumption | exfalso].
  pose proof (Zdigits2_bounds m ltac:(lia)).
  assert (2 ^ k <= 2 ^ (Zdigits2 m - 1)) by (apply Z.pow_le_mono_r; lia). lia.
Qed.

Lemma Zdigits2_unique m k : 0 < k -> 2 ^ (k - 1) <= m < 2 ^ k -> Zdigits2 m = k.
Proof.
  intros Hk Hm. pose proof (pow2_pos (k - 1) ltac:(lia)).
  pose proof (Zdigits2_upper m k ltac:(lia) ltac:(lia)).
  pose proof (Zdigits2_bounds m ltac:(lia)).
  destruct (Z.le_gt_cases k (Zdigits2 m)) as [|G]; [lia | exfalso].
  assert (2 ^ Zdigits2 m <= 2 ^ (k - 1)) by (apply Z.pow_le_mono_r; lia). lia.
Qed.

Abbreviation fexp64 := (fexp 53 1024).
Lemma fexp64_eq e : fexp64 e = Z.max (e - 53) (-1074).
Proof. reflexivity. Qed.

Lemma shr_rep_exact m : 0 <= m -> shr_rep (shr_record_of_loc m loc_Exact) m 1.
Proof.
  intros. split; [lia|]. split; [assumption|]. exists 0. simpl. repeat split; lia.
Qed.

(** The exponent at which [binary_round_aux] rounds is the shift of [rn]. *)
Lemma round_exponent m e n d n' d' c :
  0 < d' -> 0 <= n' -> 0 < d -> m * d <= n < (m + 1) * d -> 0 <= m ->
  0 <= c -> 0 <= c + e + 1074 -> n' * d * 2 ^ c = n * d' * 2 ^ (c + e + 1074) ->
  e <= fexp64 (Zdigits2 m + e) ->
  rn_shift n' d' = fexp64 (Zdigits2 m + e) + 1074.
Proof.
  intros Hd' Hn' Hd Hn Hm Hc Hce E He. rewrite fexp64_eq in *.
  pose proof (pow2_pos c Hc) as Pc. pose proof (pow2_pos _ Hce) as Pce.
  pose proof (Zdigits2_nonneg m) as Pg.
  set (g := Zdigits2 m) in *.
  assert (Um : m + 1 <= 2 ^ g).
  { destruct (Z.eq_dec m 0) as [->|]; [pose proof (pow2_pos g Pg); lia|].
    pose proof (Zdigits2_bounds m ltac:(lia)) as B. fold g in B. lia. }
  apply rn_shift_unique; try lia.
  - set (k := Z.max (g + e - 53) (-1074) + 1074).
    assert (2 ^ g * 2 ^ (c + e + 1074) <= 2 ^ (53 + k) * 2 ^ c).
    { rewrite <- !Z.pow_add_r by lia. apply Z.pow_le_mono_r; lia. }
    assert (P : 0 < d * 2 ^ c) by nia. apply (Z.mul_lt_mono_pos_r (d * 2 ^ c) _ _ P).
    assert (Pd : 0 < d * d') by nia.
    assert (S1 : n * (d' * 2 ^ (c + e + 1074)) < (m + 1) * d * (d' * 2 ^ (c + e + 1074)))
      by (apply Z.mul_lt_mono_pos_r; nia).
    assert (S2 : (m + 1) * (d * d') * 2 ^ (c + e + 1074) <= 2 ^ g * (d * d') * 2 ^ (c + e + 1074))
      by (apply Z.mul_le_mono_nonneg_r; [lia | apply Z.mul_le_mono_nonneg_r; lia]).
    assert (S3 : d * d' * (2 ^ g * 2 ^ (c + e + 1074)) <= d * d' * (2 ^ (53 + k) * 2 ^ c))
      by (apply Z.mul_le_mono_nonneg_l; lia).
    lia.
  - intros Hk. replace (Z.max (g + e - 53) (-1074)) with (g + e - 53) in * by lia.
    assert (0 < m). { destruct (Z.eq_dec m 0) as [Z0|]; [|lia]. subst m. simpl in g. lia. }
    pose proof (Zdigits2_bounds m ltac:(lia)) as B. fold g in B.
    assert (X : 2 ^ (52 + (g + e - 53 + 1074)) * 2 ^ c = 2 ^ (g - 1) * 2 ^ (c + e + 1074)).
    { assert (1 <= g) by (unfold g; destruct m; simpl; lia).
      rewrite <- !Z.pow_add_r by lia. f_equal. lia. }
    assert (P : 0 < d * 2 ^ c) by nia. apply (Z.mul_le_mono_pos_r _ _ (d * 2 ^ c) P).
    assert (S1 : 2 ^ (g - 1) * (d * (d' * 2 ^ (c + e + 1074))) <= m * (d * (d' * 2 ^ (c + e + 1074))))
      by (apply Z.mul_le_mono_nonneg_r; nia).
    assert (S2 : m * d * (d' * 2 ^ (c + e + 1074)) <= n * (d' * 2 ^ (c + e + 1074)))
      by (apply Z.mul_le_mono_nonneg_r; nia).
    assert (S3 : d * d' * (2 ^ (52 + (g + e - 53 + 1074)) * 2 ^ c) = d * d' * (2 ^ (g - 1) * 2 ^ (c + e + 1074)))
      by (rewrite X; reflexivity).
    lia.
Qed.

(** Decomposition of a representable magnitude. *)
Lemma of_units_finite s m k : 0 <= k -> 0 < m < 2 ^ 53 -> (0 < k -> 2 ^ 52 <= m) ->
  of_units s (m * 2 ^ k) =
    if k - 1074 <=? 971 then S754_finite s (Z.to_pos m) (k - 1074) else S754_infinity s.
Proof.
  intros Hk Hm Hl. unfold of_units. pose proof (pow2_pos k Hk).
  rewrite (rn_shift_unit_exact m k), Z.div_mul by lia.
  destruct (Z.eqb_spec (m * 2 ^ k) 0); [nia|].
  destruct (Z.leb_spec (k - 1074) 971).
  - assert (2 ^ 53 * 2 ^ k <= 2 ^ 2098) by (rewrite <- Z.pow_add_r by lia; apply Z.pow_le_mono_r; lia).
    destruct (Z.ltb_spec (m * 2 ^ k) (2 ^ 2098)); [reflexivity | nia].
  - assert (2 ^ 2098 <= 2 ^ 52 * 2 ^ k) by (rewrite <- Z.pow_add_r by lia; apply Z.pow_le_mono_r; lia).
    destruct (Z.ltb_spec (m * 2 ^ k) (2 ^ 2098)); [nia | reflexivity].
Qed.

(** The second normalisation of [binary_round_aux] yields the canonical form. *)
Lemma second_normalisation s m k : 0 <= k -> 0 <= m <= 2 ^ 53 -> (0 < k -> 2 ^ 52 <= m) ->
  (let '(mrs, e) := shr_fexp 53 1024 m (k - 1074) loc_Exact in
   match shr_m mrs with
   | Z0 => S754_zero s
   | Z.pos p => if e <=? 1024 - 53 then S754_finite s p e else S754_infinity s
   | Z.neg _ => S754_nan
   end) = of_units s (m * 2 ^ k).
Proof.
  intros Hk Hm Hl. unfold shr_fexp. rewrite fexp64_eq.
  destruct (Z.eq_dec m (2 ^ 53)) as [->|N].
  - set (t := Z.max _ _ - _). assert (t = 1) as -> by (unfold t; cbn [Zdigits2]; change (Zdigits2 (2 ^ 53)) with 54; lia).
    change (shr (shr_record_of_loc (2 ^ 53) loc_Exact) (k - 1074) 1)
      with (Build_shr_record (2 ^ 52) false false, k - 1074 + 1).
    cbn [shr_m]. replace (2 ^ 53 * 2 ^ k) with (2 ^ 52 * 2 ^ (k + 1)) by (rewrite Z.pow_add_r by lia; lia).
    rewrite of_units_finite by lia. replace (k + 1 - 1074) with (k - 1074 + 1) by lia. reflexivity.
  - assert (Zdigits2 m <= 53) by (apply Zdigits2_upper; lia).
    set (t := Z.max _ _ - _). assert (Ht : t <= 0) by (unfold t; lia).
    assert (Es : shr (shr_record_of_loc m loc_Exact) (k - 1074) t = (shr_record_of_loc m loc_Exact, k - 1074))
      by (destruct t; try lia; reflexivity).
    rewrite Es. cbn [shr_record_of_loc shr_m].
    destruct m as [|p|p]; [reflexivity| |lia].
    rewrite of_units_finite by lia. reflexivity.
Qed.

(** [binary_round_aux] computes the correctly rounded value. *)
Theorem binary_round_aux_correct s m e l n d n' d' c :
  shr_rep (shr_record_of_loc m l) n d ->
  0 < d' -> 0 <= n' -> 0 <= c -> 0 <= c + e + 1074 ->
  n' * d * 2 ^ c = n * d' * 2 ^ (c + e + 1074) ->
  e <= fexp64 (Zdigits2 m + e) ->
  binary_round_aux 53 1024 s m e l = of_units s (rn n' d').
Proof.
  intros R Hd' Hn' Hc Hce E He.
  assert (Em : shr_m (shr_record_of_loc m l) = m) by (destruct l as [|[]]; reflexivity).
  assert (D : 0 < d) by apply R.
  assert (Hm : 0 <= m) by (rewrite <- Em; apply R).
  assert (Hn : m * d <= n < (m + 1) * d) by (destruct R as (_ & _ & x & -> & Hx & _); rewrite Em; lia).
  pose proof (round_exponent m e n d n' d' c Hd' Hn' D Hn Hm Hc Hce E He) as K.
  unfold binary_round_aux, shr_fexp at 1.
  set (t := fexp64 (Zdigits2 m + e) - e) in *.
  destruct (shr_rep_shift (shr_record_of_loc m l) e t n d ltac:(lia) R) as (mrs & -> & R').
  rewrite (shr_rep_round _ _ _ R').
  pose proof (rn_shift_nonneg n' d') as Pk. set (k := rn_shift n' d') in *.
  replace (e + t) with (k - 1074) by lia.
  assert (Er : rne n (d * 2 ^ t) = rne n' (d' * 2 ^ k)).
  { pose proof (pow2_pos k Pk). pose proof (pow2_pos c Hc). pose proof (pow2_pos t ltac:(lia)).
    apply rne_ext; [nia|nia|].
    assert (X : 2 ^ (c + e + 1074) * 2 ^ t = 2 ^ k * 2 ^ c)
      by (rewrite <- !Z.pow_add_r by lia; f_equal; lia).
    assert (Y : n * (d' * 2 ^ k) * 2 ^ c = n' * (d * 2 ^ t) * 2 ^ c); [|nia].
    replace (n' * (d * 2 ^ t) * 2 ^ c) with (n' * d * 2 ^ c * 2 ^ t) by lia. rewrite E.
    replace (n * d' * 2 ^ (c + e + 1074) * 2 ^ t) with (n * d' * (2 ^ (c + e + 1074) * 2 ^ t)) by lia.
    rewrite X. lia. }
  rewrite Er. rewrite second_normalisation; [reflexivity|assumption| |].
  - pose proof (rn_upper n' d' Hd' Hn') as U. unfold rn in U. fold k in U.
    rewrite Z.pow_add_r in U by lia. pose proof (pow2_pos k Pk).
    split; [apply rne_nonneg; nia | nia].
  - intros Hk. pose proof (rn_lower n' d' Hd' Hn' Hk) as U. unfold rn in U. fold k in U.
    rewrite Z.pow_add_r in U by lia. pose proof (pow2_pos k Pk). nia.
Qed.

(** ** The operations *)

Definition fadd : float64 -> float64 -> float64 := SFadd 53 1024.
Definition fsub : float64 -> float64 -> float64 := SFsub 53 1024.
Definition fmul : float64 -> float64 -> float64 := SFmul 53 1024.
Definition fdiv : float64 -> float64 -> float64 := SFdiv 53 1024.

(** [float64(z)] of an integer. *)
Definition f_of_int (z : Z) : float64 := binary_normalize 53 1024 z 0 false.

(** ** Validity and value *)
Definition big : Z := 2 ^ 2098.
Definition one_u : Z := 2 ^ 1074.

Definition units (x : float64) : Z :=
  match x with
  | S754_zero _ => 0
  | S754_infinity s => cond_Zopp s big
  | S754_nan => 0
  | S754_finite s m e => cond_Zopp s (Z.pos m * 2 ^ (e + 1074))
  end.

Definition is_finite (x : float64) : bool :=
  match x with
  | S754_zero _ => true
  | S754_finite _ m e => valid_binary 53 1024 x
  | _ => false
  end.

Definition is_num (x : float64) : bool :=
  match x with
  | S754_nan => false
  | _ => valid_binary 53 1024 x
  end.

Lemma big_pos : 0 < big. Proof. apply pow2_pos; lia. Qed.
Lemma one_u_pos : 0 < one_u. Proof. apply pow2_pos; lia. Qed.
#[global] Opaque big one_u.

Lemma canonical s m e : valid_binary 53 1024 (S754_finite s m e) = true ->
  -1074 <= e <= 971 /\ Z.pos m < 2 ^ 53 /\ (-1074 < e -> 2 ^ 52 <= Z.pos m).
Proof.
  unfold valid_binary, bounded, canonical_mantissa. rewrite andb_true_iff.
  rewrite fexp64_eq. change (Z.pos (digits2_pos m)) with (Zdigits2 (Z.pos m)).
  rewrite Z.eqb_eq, Z.leb_le. intros [E L].
  pose proof (Zdigits2_bounds (Z.pos m) ltac:(lia)) as B.
  set (g := Zdigits2 (Z.pos m)) in *.
  assert (Hg : g <= 53) by lia.
  assert (2 ^ g <= 2 ^ 53) by (apply Z.pow_le_mono_r; lia).
  split; [lia|]. split; [lia|]. intros He.
  assert (g = 53) by lia. subst g. replace (Zdigits2 (Z.pos m)) with 53 in B by lia.
  change (53 - 1) with 52 in B. lia.
Qed.

Lemma canonical_valid s m e : -1074 <= e <= 971 -> Z.pos m < 2 ^ 53 ->
  (-1074 < e -> 2 ^ 52 <= Z.pos m) -> valid_binary 53 1024 (S754_finite s m e) = true.
Proof.
  intros He Hm Hl. unfold valid_binary, bounded, canonical_mantissa.
  change (Z.pos (digits2_pos m)) with (Zdigits2 (Z.pos m)). rewrite fexp64_eq.
  pose proof (Zdigits2_upper (Z.pos m) 53 ltac:(lia) ltac:(lia)).
  rewrite andb_true_iff, Z.eqb_eq, Z.leb_le. split; [|lia].
  destruct (Z.eq_dec e (-1074)); [lia|].
  rewrite (Zdigits2_unique (Z.pos m) 53) by lia. lia.
Qed.

Lemma pow_2098 : 2 ^ 2098 = big. Proof. reflexivity. Qed.

Lemma finite_units_lt s m e : valid_binary 53 1024 (S754_finite s m e) = true ->
  0 < Z.pos m * 2 ^ (e + 1074) < big.
Proof.
  intros V. destruct (canonical _ _ _ V) as (He & Hm & _).
  pose proof (pow2_pos (e + 1074) ltac:(lia)). split; [lia|].
  rewrite <- pow_2098.
  assert (2 ^ 53 * 2 ^ (e + 1074) <= 2 ^ 2098)
    by (rewrite <- Z.pow_add_r by lia; apply Z.pow_le_mono_r; lia).
  nia.
Qed.

Lemma is_finite_num x : is_finite x = true -> is_num x = true.
Proof. destruct x; simpl; congruence. Qed.

Lemma is_finite_units x : is_finite x = true -> - big < units x < big.
Proof.
  pose proof big_pos. destruct x as [s|s| |s m e]; simpl; try discriminate; [lia|].
  intros V. pose proof (finite_units_lt s m e V). destruct s; simpl; lia.
Qed.

Lemma is_num_units x : is_num x = true -> - big <= units x <= big.
Proof.
  pose proof big_pos. destruct x as [s|s| |s m e]; simpl; try discriminate; try (destruct s; simpl; lia).
  intros V. pose proof (finite_units_lt s m e V). destruct s; simpl; lia.
Qed.

Lemma is_num_finite x : is_num x = true -> - big < units x < big -> is_finite x = true.
Proof. destruct x as [s|s| |s m e]; simpl; try discriminate; auto. destruct s; simpl; lia. Qed.

Lemma magnitude_compare m1 e1 m2 e2 s1 s2 :
  valid_binary 53 1024 (S754_finite s1 m1 e1) = true -> valid_binary 53 1024 (S754_finite s2 m2 e2) = true ->
  match Z.compare e1 e2 with Lt => Lt | Gt => Gt | Eq => Pos.compare_cont Eq m1 m2 end
  = (Z.pos m1 * 2 ^ (e1 + 1074) ?= Z.pos m2 * 2 ^ (e2 + 1074)).
Proof.
  intros V1 V2. destruct (canonical _ _ _ V1) as (E1 & M1 & L1). destruct (canonical _ _ _ V2) as (E2 & M2 & L2).
  destruct (Z.compare_spec e1 e2) as [C|C|C].
  - subst e2. change (Pos.compare_cont Eq m1 m2) with (Z.pos m1 ?= Z.pos m2).
    apply Zmult_compare_compat_r. apply Z.lt_gt, pow2_pos. lia.
  - symmetry. rewrite Z.compare_lt_iff.
    assert (2 ^ 53 * 2 ^ (e1 + 1074) <= 2 ^ 52 * 2 ^ (e2 + 1074))
      by (rewrite <- !Z.pow_add_r by lia; apply Z.pow_le_mono_r; lia).
    pose proof (pow2_pos (e1 + 1074) ltac:(lia)). pose proof (pow2_pos (e2 + 1074) ltac:(lia)).
    specialize (L2 ltac:(lia)). nia.
  - symmetry. rewrite Z.compare_gt_iff.
    assert (2 ^ 53 * 2 ^ (e2 + 1074) <= 2 ^ 52 * 2 ^ (e1 + 1074))
      by (rewrite <- !Z.pow_add_r by lia; apply Z.pow_le_mono_r; lia).
    pose proof (pow2_pos (e1 + 1074) ltac:(lia)). pose proof (pow2_pos (e2 + 1074) ltac:(lia)).
    specialize (L1 ltac:(lia)). nia.
Qed.

Lemma compare_units x y : is_num x = true -> is_num y = true ->
  SFcompare x y = Some (units x ?= units y).
Proof.
  intros Hx Hy. pose proof big_pos as B.
  destruct x as [sx|sx| |sx mx ex], y as [sy|sy| |sy my ey]; simpl in Hx, Hy; try discriminate;
    cbn [SFcompare units];
    repeat match goal with
    | V : (bounded 53 1024 ?m ?e) = true |- _ => pose proof (finite_units_lt false m e V); revert V
    end; intros; f_equal; symmetry.
  all: try (destruct sx, sy; cbn [cond_Zopp];
            first [apply Z.compare_refl | rewrite Z.compare_lt_iff; lia | rewrite Z.compare_gt_iff; lia]).
  all: try (destruct sx; cbn [cond_Zopp];
            first [apply Z.compare_refl | rewrite Z.compare_lt_iff; lia | rewrite Z.compare_gt_iff; lia]).
  all: try (destruct sy; cbn [cond_Zopp];
            first [apply Z.compare_refl | rewrite Z.compare_lt_iff; lia | rewrite Z.compare_gt_iff; lia]).
  pose proof (magnitude_compare mx ex my ey false false Hx Hy) as C.
  destruct sx, sy; cbn [cond_Zopp].
  - rewrite Z.compare_opp, Z.compare_antisym, <- C. destruct (ex ?= ey); reflexivity.
  - rewrite Z.compare_lt_iff. lia.
  - rewrite Z.compare_gt_iff. lia.
  - symmetry. exact C.
Qed.

Definition clamp (z : Z) : Z := Z.max (- big) (Z.min z big).

(** Normal form of a representable magnitude. *)
Lemma rn_decompose n d : 0 < d -> 0 <= n ->
  rn n d = 0 \/ exists m k, rn n d = m * 2 ^ k /\ 0 <= k /\ 0 < m < 2 ^ 53 /\ (0 < k -> 2 ^ 52 <= m).
Proof.
  intros Hd Hn. pose proof (rn_shift_nonneg n d) as Pk.
  pose proof (rn_upper n d Hd Hn) as U. pose proof (rn_lower n d Hd Hn) as L.
  pose proof (rn_nonneg n d Hd Hn) as P0.
  set (k := rn_shift n d) in *. pose proof (pow2_pos k Pk).
  assert (E : rn n d = rne n (d * 2 ^ k) * 2 ^ k) by reflexivity.
  set (q := rne n (d * 2 ^ k)) in *. clearbody q.
  rewrite !Z.pow_add_r in * by lia.
  destruct (Z.eq_dec q 0) as [->|]; [left; lia | right].
  destruct (Z.eq_dec q (2 ^ 53)) as [->|].
  - exists (2 ^ 52), (k + 1). rewrite E, Z.pow_add_r by lia.
    repeat split; try lia.
  - exists q, k. rewrite E in *. repeat split; try lia; nia.
Qed.

Lemma units_of_rn s n d : 0 < d -> 0 <= n ->
  is_num (of_units s (rn n d)) = true /\
  units (of_units s (rn n d)) = cond_Zopp s (Z.min (rn n d) big).
Proof.
  intros Hd Hn. pose proof big_pos as B.
  destruct (rn_decompose n d Hd Hn) as [E|(m & k & E & Hk & Hm & Hl)]; rewrite E.
  { unfold of_units. simpl. split; [reflexivity|]. destruct s; simpl; lia. }
  rewrite of_units_finite by assumption. pose proof (pow2_pos k Hk).
  destruct (Z.leb_spec (k - 1074) 971).
  - assert (V : valid_binary 53 1024 (S754_finite s (Z.to_pos m) (k - 1074)) = true).
    { apply canonical_valid; rewrite ?Z2Pos.id by lia; lia. }
    split; [exact V|]. pose proof (finite_units_lt _ _ _ V).
    cbn [units]. rewrite Z2Pos.id in * by lia. replace (k - 1074 + 1074) with k in * by lia.
    f_equal. lia.
  - split; [reflexivity|]. cbn [units]. f_equal. rewrite Z.min_r; [reflexivity|].
    rewrite <- pow_2098.
    assert (2 ^ 2098 <= 2 ^ 52 * 2 ^ k) by (rewrite <- Z.pow_add_r by lia; apply Z.pow_le_mono_r; lia).
    nia.
Qed.

Lemma clamp_rns s n d : 0 < d -> 0 <= n ->
  cond_Zopp s (Z.min (rn n d) big) = clamp (rns (cond_Zopp s n) d).
Proof.
  intros Hd Hn. unfold clamp. pose proof big_pos. pose proof (rn_nonneg n d Hd Hn).
  destruct s; cbn [cond_Zopp]; [rewrite rns_neg, Z.opp_involutive by lia | rewrite rns_nonneg by lia]; lia.
Qed.

Definition rounds (x : float64) (n d : Z) : Prop :=
  is_num x = true /\ units x = clamp (rns n d).

Lemma rounds_of_units s n d : 0 < d -> 0 <= n -> rounds (of_units s (rn n d)) (cond_Zopp s n) d.
Proof. intros Hd Hn. destruct (units_of_rn s n d Hd Hn). split; [assumption|]. now rewrite <- clamp_rns. Qed.

Lemma shl_align_spec m e e' :
  exists j, 0 <= j /\ shl_align m e e' = (Z.to_pos (Z.pos m * 2 ^ j), e - j) /\
    (e' <= e -> j = e - e') /\ (e <= e' -> j = 0).
Proof.
  unfold shl_align. destruct (e' - e) as [|d|d] eqn:D.
  - exists 0. repeat split; try lia. f_equal; [|lia]. rewrite Z.mul_1_r. reflexivity.
  - exists 0. repeat split; try lia. f_equal; [|lia]. rewrite Z.mul_1_r. reflexivity.
  - exists (Z.pos d). repeat split; try lia. f_equal; [|lia].
    assert (H : Z.pos (Pos.iter xO m d) = Z.pos m * 2 ^ Z.pos d).
    { clear. induction d as [|d IH] using Pos.peano_ind.
      - simpl. lia.
      - rewrite Pos.iter_succ, Pos2Z.inj_succ, Z.pow_succ_r by lia. lia. }
    rewrite <- H. reflexivity.
Qed.

Lemma binary_round_correct s m e n c : 0 <= n -> 0 <= c -> 0 <= c + e + 1074 ->
  n * 2 ^ c = Z.pos m * 2 ^ (c + e + 1074) ->
  binary_round 53 1024 s m e = of_units s (rn n 1).
Proof.
  intros Hn Hc Hce E. unfold binary_round.
  set (f := fexp64 (Z.pos (digits2_pos m) + e)).
  destruct (shl_align_spec m e f) as (j & Hj & -> & J1 & J2).
  pose proof (pow2_pos j Hj).
  assert (P : Z.pos (Z.to_pos (Z.pos m * 2 ^ j)) = Z.pos m * 2 ^ j) by (rewrite Z2Pos.id; lia).
  rewrite P.
  assert (Dg : Zdigits2 (Z.pos m * 2 ^ j) = Zdigits2 (Z.pos m) + j).
  { pose proof (Zdigits2_bounds (Z.pos m) ltac:(lia)) as B.
    assert (1 <= Zdigits2 (Z.pos m)) by (simpl; lia).
    apply Zdigits2_unique; [lia|].
    replace (Zdigits2 (Z.pos m) + j - 1) with (Zdigits2 (Z.pos m) - 1 + j) by lia.
    rewrite !Z.pow_add_r by lia. nia. }
  apply (binary_round_aux_correct s _ _ _ (Z.pos m * 2 ^ j) 1 n 1 (c + j)); try lia.
  - apply shr_rep_exact. lia.
  - replace (c + j + (e - j) + 1074) with (c + e + 1074) by lia. rewrite (Z.pow_add_r 2 c j) by lia. nia.
  - rewrite Dg. change (Zdigits2 (Z.pos m)) with (Z.pos (digits2_pos m)).
    replace (Z.pos (digits2_pos m) + j + (e - j)) with (Z.pos (digits2_pos m) + e) by lia.
    fold f. destruct (Z.le_ge_cases f e); [rewrite J1 by lia; lia | rewrite J2 by lia; lia].
Qed.

Lemma binary_normalize_correct z e n c sz : 0 <= c -> 0 <= c + e + 1074 ->
  n * 2 ^ c = z * 2 ^ (c + e + 1074) ->
  rounds (binary_normalize 53 1024 z e sz) n 1.
Proof.
  intros Hc Hce E. pose proof (pow2_pos c Hc). pose proof (pow2_pos _ Hce).
  unfold binary_normalize. destruct z as [|p|p].
  - assert (n = 0) by nia. subst n. split; [reflexivity|]. pose proof big_pos. unfold rns, clamp.
    simpl. lia.
  - assert (0 < Z.pos p * 2 ^ (c + e + 1074)) by (apply Z.mul_pos_pos; lia).
    assert (Hn : 0 <= n) by nia.
    rewrite (binary_round_correct false p e n c) by lia.
    exact (rounds_of_units false n 1 ltac:(lia) Hn).
  - assert (0 < Z.pos p * 2 ^ (c + e + 1074)) by (apply Z.mul_pos_pos; lia).
    rewrite <- Pos2Z.opp_pos in E.
    assert (Hn : 0 <= - n) by nia.
    rewrite (binary_round_correct true p e (- n) c) by lia.
    pose proof (rounds_of_units true (- n) 1 ltac:(lia) Hn) as R.
    cbn [cond_Zopp] in R. rewrite Z.opp_involutive in R. exact R.
Qed.

(** ** The operations *)

Lemma one_u_eq : 2 ^ 1074 = one_u. Proof. reflexivity. Qed.

Lemma f_of_int_rounds z : rounds (f_of_int z) (z * one_u) 1.
Proof.
  apply (binary_normalize_correct z 0 _ 0); try lia.
  change (0 + 0 + 1074) with 1074. rewrite one_u_eq. lia.
Qed.

Lemma units_finite_aligned s m e ez : valid_binary 53 1024 (S754_finite s m e) = true -> ez <= e ->
  -1074 <= ez ->
  cond_Zopp s (Z.pos (fst (shl_align m e ez))) * 2 ^ (ez + 1074) = units (S754_finite s m e).
Proof.
  intros V He Hez. destruct (shl_align_spec m e ez) as (j & Hj & -> & J1 & _).
  rewrite J1 by assumption. cbn [fst units].
  pose proof (pow2_pos (e - ez) ltac:(lia)).
  rewrite Z2Pos.id by lia.
  assert (X : 2 ^ (e + 1074) = 2 ^ (e - ez) * 2 ^ (ez + 1074)) by (rewrite <- Z.pow_add_r by lia; f_equal; lia).
  rewrite X. destruct s; cbn [cond_Zopp]; lia.
Qed.

Lemma rn_exact m k : 0 <= k -> 0 <= m < 2 ^ 53 -> (0 < k -> 2 ^ 52 <= m) -> rn (m * 2 ^ k) 1 = m * 2 ^ k.
Proof.
  intros Hk Hm Hl. unfold rn. rewrite rn_shift_unit_exact by assumption.
  pose proof (pow2_pos k Hk). rewrite Z.mul_1_l, rne_exact by lia. reflexivity.
Qed.

(** A finite number is its own rounding. *)
Lemma rounds_self x : is_finite x = true -> rounds x (units x) 1.
Proof.
  intros F. pose proof (is_finite_units x F) as B. split; [now apply is_finite_num|].
  unfold rns, clamp. destruct x as [s|s| |s m e]; try discriminate; [reflexivity|].
  simpl in F. destruct (canonical s m e F) as (He & Hm & Hl). cbn [units] in *.
  assert (E : Z.abs (cond_Zopp s (Z.pos m * 2 ^ (e + 1074))) = Z.pos m * 2 ^ (e + 1074)).
  { pose proof (pow2_pos (e + 1074) ltac:(lia)). destruct s; cbn [cond_Zopp]; lia. }
  rewrite E, rn_exact by lia.
  pose proof (pow2_pos (e + 1074) ltac:(lia)).
  assert (0 < Z.pos m * 2 ^ (e + 1074)) by lia.
  destruct s; cbn [cond_Zopp] in *.
  - rewrite Z.sgn_neg by lia. lia.
  - rewrite Z.sgn_pos by lia. lia.
Qed.

Lemma rounds_eq x n1 d1 n2 d2 : rounds x n1 d1 -> n1 = n2 -> d1 = d2 -> rounds x n2 d2.
Proof. intros R -> ->. exact R. Qed.

Theorem fadd_rounds x y : is_finite x = true -> is_finite y = true ->
  rounds (fadd x y) (units x + units y) 1.
Proof.
  intros Fx Fy. pose proof (rounds_self x Fx) as Rx. pose proof (rounds_self y Fy) as Ry.
  destruct x as [sx|sx| |sx mx ex], y as [sy|sy| |sy my ey]; try discriminate.
  - eapply rounds_eq; [|reflexivity|reflexivity]. destruct sx, sy; exact Rx.
  - exact Ry.
  - cbn [units]. rewrite Z.add_0_r. exact Rx.
  - simpl in Fx, Fy. pose proof (canonical sx mx ex Fx) as (Ex & _). pose proof (canonical sy my ey Fy) as (Ey & _).
    unfold fadd, SFadd. set (ez := Z.min ex ey).
    apply (binary_normalize_correct _ ez _ 0); try lia.
    replace (0 + ez + 1074) with (ez + 1074) by lia. rewrite Z.pow_0_r, Z.mul_1_r, Z.mul_add_distr_r.
    rewrite (units_finite_aligned sx mx ex ez), (units_finite_aligned sy my ey ez) by (assumption || lia). lia.
Qed.

Theorem fsub_rounds x y : is_finite x = true -> is_finite y = true ->
  rounds (fsub x y) (units x - units y) 1.
Proof.
  intros Fx Fy. pose proof (rounds_self x Fx) as Rx.
  destruct x as [sx|sx| |sx mx ex], y as [sy|sy| |sy my ey]; try discriminate.
  - eapply rounds_eq; [|reflexivity|reflexivity]. destruct sx, sy; exact Rx.
  - apply (rounds_self (S754_finite (negb sy) my ey)) in Fy as Ry.
    eapply rounds_eq; [exact Ry| |reflexivity]. cbn [units]. destruct sy; cbn [negb cond_Zopp]; lia.
  - cbn [units]. rewrite Z.sub_0_r. exact Rx.
  - simpl in Fx, Fy. pose proof (canonical sx mx ex Fx) as (Ex & _). pose proof (canonical sy my ey Fy) as (Ey & _).
    unfold fsub, SFsub. set (ez := Z.min ex ey).
    apply (binary_normalize_correct _ ez _ 0); try lia.
    replace (0 + ez + 1074) with (ez + 1074) by lia. rewrite Z.pow_0_r, Z.mul_1_r, Z.mul_sub_distr_r.
    rewrite (units_finite_aligned sx mx ex ez), (units_finite_aligned sy my ey ez) by (assumption || lia). lia.
Qed.

Lemma rounds_zero s d : rounds (S754_zero s) 0 d.
Proof. split; [reflexivity|]. pose proof big_pos. unfold rns, clamp. cbn [units Z.sgn]. lia. Qed.

Lemma cond_Zopp_xor_mul sx sy a b :
  cond_Zopp (xorb sx sy) (a * b) = cond_Zopp sx a * cond_Zopp sy b.
Proof. destruct sx, sy; cbn [xorb cond_Zopp]; lia. Qed.

Theorem fmul_rounds x y : is_finite x = true -> is_finite y = true ->
  rounds (fmul x y) (units x * units y) one_u.
Proof.
  intros Fx Fy. pose proof one_u_pos as Pu.
  destruct x as [sx|sx| |sx mx ex], y as [sy|sy| |sy my ey]; try discriminate.
  - apply rounds_zero.
  - apply rounds_zero.
  - cbn [units]. rewrite Z.mul_0_r. apply rounds_zero.
  - simpl in Fx, Fy. pose proof (canonical sx mx ex Fx) as (Ex & Mx & Lx).
    pose proof (canonical sy my ey Fy) as (Ey & My & Ly).
    unfold fmul, SFmul. cbn [units]. rewrite <- cond_Zopp_xor_mul.
    pose proof (pow2_pos (ex + 1074) ltac:(lia)) as Px. pose proof (pow2_pos (ey + 1074) ltac:(lia)) as Py.
    set (n := Z.pos mx * 2 ^ (ex + 1074) * (Z.pos my * 2 ^ (ey + 1074))).
    assert (Hn : 0 <= n) by (unfold n; repeat apply Z.mul_nonneg_nonneg; lia).
    rewrite (binary_round_aux_correct (xorb sx sy) _ _ loc_Exact (Z.pos (mx * my)) 1 n one_u 1074).
    + apply rounds_of_units; assumption.
    + apply shr_rep_exact. lia.
    + assumption.
    + assumption.
    + lia.
    + lia.
    + replace (1074 + (ex + ey) + 1074) with (ex + 1074 + (ey + 1074)) by lia.
      rewrite Z.pow_add_r, one_u_eq, Pos2Z.inj_mul by lia. unfold n. lia.
    + rewrite fexp64_eq.
      destruct (Z.eq_dec ex (-1074)) as [->|]; [destruct (Z.eq_dec ey (-1074)) as [->|]|]; [lia| |].
      all: assert (2 ^ 52 <= Z.pos (mx * my)) by (rewrite Pos2Z.inj_mul; nia).
      all: assert (53 <= Zdigits2 (Z.pos (mx * my))); [|lia].
      all: pose proof (Zdigits2_bounds (Z.pos (mx * my)) ltac:(lia)) as B.
      all: destruct (Z.le_gt_cases 53 (Zdigits2 (Z.pos (mx * my)))) as [|G]; [assumption | exfalso].
      all: assert (2 ^ Zdigits2 (Z.pos (mx * my)) <= 2 ^ 52) by (apply Z.pow_le_mono_r; lia); lia.
Qed.

Lemma new_location_rep m' m2 : 0 < m2 -> 0 <= m' ->
  shr_rep (shr_record_of_loc (m' / m2) (new_location m2 (m' mod m2))) m' m2.
Proof.
  intros H2 H1. pose proof (Z.div_mod m' m2 ltac:(lia)) as E. pose proof (Z.mod_pos_bound m' m2 H2) as B.
  assert (0 <= m' / m2) by (apply Z.div_pos; lia).
  set (q := m' / m2) in *. set (r := m' mod m2) in *. clearbody q r.
  assert (X : exists l, new_location m2 r = l /\ shr_m (shr_record_of_loc q l) = q /\
     shr_r (shr_record_of_loc q l) = (m2 <=? 2 * r) /\
     shr_s (shr_record_of_loc q l) = (negb (r =? 0) && negb (2 * r =? m2))).
  { eexists. split; [reflexivity|]. unfold new_location, new_location_even, new_location_odd.
    destruct (Z.even m2) eqn:Ev.
    - destruct (Z.eqb_spec r 0) as [->|]; [cbn; repeat split; zbool|].
      destruct (Z.compare_spec (2 * r) m2); cbn [shr_record_of_loc shr_m shr_r shr_s]; repeat split; zbool.
    - destruct (Z.eqb_spec r 0) as [->|]; [cbn; repeat split; zbool|].
      assert (2 * r <> m2) by (intros <-; rewrite Z.even_mul in Ev; discriminate).
      destruct (Z.compare_spec (2 * r + 1) m2); cbn [shr_record_of_loc shr_m shr_r shr_s]; repeat split; zbool. }
  destruct X as (l & -> & X1 & X2 & X3). split; [lia|]. rewrite X1. split; [assumption|].
  exists r. repeat split; try assumption; lia.
Qed.

Lemma Zdigits2_lower m k : 0 <= k -> 2 ^ (k - 1) <= m -> 0 < m -> k <= Zdigits2 m.
Proof.
  intros Hk Hm Hp. destruct (Z.le_gt_cases k (Zdigits2 m)) as [|G]; [assumption | exfalso].
  pose proof (Zdigits2_bounds m Hp) as B.
  assert (2 ^ Zdigits2 m <= 2 ^ (k - 1)) by (apply Z.pow_le_mono_r; lia). lia.
Qed.

Lemma quotient_digits m1 m2 s : 0 < m1 -> 0 < m2 -> 0 <= s ->
  Zdigits2 m1 + s - Zdigits2 m2 <= Zdigits2 (m1 * 2 ^ s / m2).
Proof.
  intros H1 H2 Hs.
  pose proof (Zdigits2_bounds m1 H1) as B1. pose proof (Zdigits2_bounds m2 H2) as B2.
  pose proof (Zdigits2_nonneg (m1 * 2 ^ s / m2)) as Q0.
  assert (G1 : 1 <= Zdigits2 m1) by (destruct m1; simpl; lia).
  assert (G2 : 1 <= Zdigits2 m2) by (destruct m2; simpl; lia).
  set (d1 := Zdigits2 m1) in *. set (d2 := Zdigits2 m2) in *. clearbody d1 d2.
  destruct (Z.le_gt_cases (d1 + s - d2) 0); [lia|].
  pose proof (pow2_pos s Hs). pose proof (pow2_pos (d1 + s - d2 - 1) ltac:(lia)) as P.
  assert (Q : 2 ^ (d1 + s - d2 - 1) <= m1 * 2 ^ s / m2).
  { apply Z.div_le_lower_bound; [lia|].
    assert (X : 2 ^ d2 * 2 ^ (d1 + s - d2 - 1) = 2 ^ (d1 - 1) * 2 ^ s)
      by (rewrite <- !Z.pow_add_r by lia; f_equal; lia).
    nia. }
  apply Zdigits2_lower; lia.
Qed.

Theorem fdiv_rounds x y : is_finite x = true -> is_finite y = true -> units y <> 0 ->
  rounds (fdiv x y) (units x * Z.sgn (units y) * one_u) (Z.abs (units y)).
Proof.
  intros Fx Fy Hy. pose proof one_u_pos as Pu.
  destruct x as [sx|sx| |sx mx ex], y as [sy|sy| |sy my ey]; try discriminate; try (cbn in Hy; lia).
  { apply rounds_zero. }
  simpl in Fx, Fy. pose proof (canonical sx mx ex Fx) as (Ex & Mx & Lx).
  pose proof (canonical sy my ey Fy) as (Ey & My & Ly).
  unfold fdiv, SFdiv, SFdiv_core_binary.
  set (d1 := Zdigits2 (Z.pos mx)). set (d2 := Zdigits2 (Z.pos my)).
  set (e' := Z.min (fexp64 (d1 + ex - (d2 + ey))) (ex - ey)).
  set (s := ex - ey - e'). assert (Hs : 0 <= s) by lia.
  set (m' := match s with Z0 => Z.pos mx | Z.pos _ => Z.shiftl (Z.pos mx) s | Z.neg _ => 0 end).
  assert (Em : m' = Z.pos mx * 2 ^ s).
  { unfold m'. destruct s as [|p|p]; [lia| |lia]. rewrite Z.shiftl_mul_pow2 by lia. reflexivity. }
  clearbody m'. pose proof (pow2_pos s Hs).
  change (Z.div_eucl m' (Z.pos my)) with (Z.div_eucl m' (Z.pos my)).
  assert (De : Z.div_eucl m' (Z.pos my) = (m' / Z.pos my, m' mod Z.pos my)).
  { unfold Z.div, Z.modulo. destruct (Z.div_eucl m' (Z.pos my)); reflexivity. }
  rewrite De.
  pose proof (pow2_pos (ex + 1074) ltac:(lia)) as Px. pose proof (pow2_pos (ey + 1074) ltac:(lia)) as Py.
  set (n := Z.pos mx * 2 ^ (ex + 1074) * one_u). set (d := Z.pos my * 2 ^ (ey + 1074)).
  assert (Hn : 0 <= n) by (unfold n; repeat apply Z.mul_nonneg_nonneg; lia).
  assert (Hd : 0 < d) by (unfold d; apply Z.mul_pos_pos; lia).
  assert (Ea : Z.abs (units (S754_finite sy my ey)) = d) by (cbn [units]; fold d; destruct sy; cbn [cond_Zopp]; lia).
  assert (En : units (S754_finite sx mx ex) * Z.sgn (units (S754_finite sy my ey)) * one_u = cond_Zopp (xorb sx sy) n).
  { cbn [units]. fold d. assert (Z.sgn (cond_Zopp sy d) = cond_Zopp sy 1) as -> by (destruct sy; cbn [cond_Zopp]; lia).
    rewrite <- cond_Zopp_xor_mul. unfold n. destruct (xorb sx sy); cbn [cond_Zopp]; lia. }
  rewrite Ea, En.
  set (c := Z.max 0 (- (e' + 1074))).
  rewrite (binary_round_aux_correct (xorb sx sy) _ _ _ m' (Z.pos my) n d c).
  - apply rounds_of_units; assumption.
  - apply new_location_rep; lia.
  - assumption.
  - assumption.
  - lia.
  - lia.
  - unfold n, d. rewrite Em, <- one_u_eq.
    assert (X : 2 ^ (ex + 1074) * 2 ^ 1074 * 2 ^ c = 2 ^ s * 2 ^ (ey + 1074) * 2 ^ (c + e' + 1074)).
    { rewrite <- !Z.pow_add_r by lia. f_equal. lia. }
    transitivity (Z.pos mx * Z.pos my * (2 ^ (ex + 1074) * 2 ^ 1074 * 2 ^ c)); [lia|]. rewrite X. lia.
  - pose proof (quotient_digits (Z.pos mx) (Z.pos my) s ltac:(lia) ltac:(lia) Hs) as Hg.
    rewrite <- Em in Hg. fold d1 d2 in Hg. clearbody d1 d2.
    assert (F : e' <= Z.max (d1 + ex - (d2 + ey) - 53) (-1074)) by (unfold e'; rewrite fexp64_eq; lia).
    unfold s in Hg. rewrite fexp64_eq. clearbody e'. lia.
Qed.
