(* ===== verification/Float64.v ===== *)
(** * Float64: Go's float64 comparisons, conversions and the order laws

    The comparisons [x < y], [x <= y], [x == y] of Go on [float64], the
    conversions from and to [int] as amd64 computes them, and the laws the
    components use: every operation is monotone on finite arguments, so a bound
    on the result is obtained by computing the operation at the bounds. *)

From S2P Require Import Prelude Rounding Binary64.
From Stdlib Require Import SpecFloat.
Local Open Scope Z_scope.
#[local] Arguments Z.mul : simpl never.
#[local] Arguments Z.add : simpl never.
#[local] Arguments Z.sub : simpl never.
#[local] Arguments Z.pow : simpl never.

(** ** Comparisons and conversions *)

Definition feqb : float64 -> float64 -> bool := SFeqb.
Definition fltb : float64 -> float64 -> bool := SFltb.
Definition fleb : float64 -> float64 -> bool := SFleb.

#[export] Instance float64_eq_dec : EqDecision float64.
Proof. intros x y. unfold Decision. decide equality; (apply Bool.bool_dec || apply Pos.eq_dec || apply Z.eq_dec). Defined.

(** The constant [n / d], rounded once. *)
Definition f_const (n d : Z) : float64 := fdiv (f_of_int n) (f_of_int d).

(** [math.MaxFloat64] *)
Definition math_MaxFloat64 : float64 := SFmax_float 53 1024.

Definition min_int64 : Z := - 2 ^ 63.
Definition max_int64 : Z := 2 ^ 63 - 1.

(** The integer part, towards zero. *)
Definition f_trunc (x : float64) : Z :=
  match x with
  | S754_finite s m e => cond_Zopp s (if 0 <=? e then Z.pos m * 2 ^ e else Z.pos m / 2 ^ (- e))
  | _ => 0
  end.

(** [int(x)]: the integer part; out of range (and for NaN and infinities) the
    language leaves the value to the implementation, and amd64 gives the
    smallest [int64]. *)
Definition f_to_int (x : float64) : Z :=
  match x with
  | S754_nan | S754_infinity _ => min_int64
  | _ => let t := f_trunc x in
         if (min_int64 <=? t) && (t <=? max_int64) then t else min_int64
  end.

(** ** Order *)

Lemma fleb_units x y : is_num x = true -> is_num y = true -> fleb x y = (units x <=? units y).
Proof.
  intros Hx Hy. unfold fleb, SFleb. rewrite compare_units by assumption.
  unfold Z.leb. destruct (units x ?= units y); reflexivity.
Qed.

Lemma fltb_units x y : is_num x = true -> is_num y = true -> fltb x y = (units x <? units y).
Proof.
  intros Hx Hy. unfold fltb, SFltb. rewrite compare_units by assumption.
  unfold Z.ltb. destruct (units x ?= units y); reflexivity.
Qed.

Lemma feqb_units x y : is_num x = true -> is_num y = true -> feqb x y = (units x =? units y).
Proof.
  intros Hx Hy. unfold feqb, SFeqb. rewrite compare_units by assumption.
  rewrite Z.eqb_compare. destruct (units x ?= units y); reflexivity.
Qed.

Lemma clamp_mono a b : a <= b -> clamp a <= clamp b.
Proof. unfold clamp. lia. Qed.

Lemma rounds_mono x y n1 d1 n2 d2 : rounds x n1 d1 -> rounds y n2 d2 ->
  0 < d1 -> 0 < d2 -> n1 * d2 <= n2 * d1 -> units x <= units y.
Proof. intros [_ ->] [_ ->] H1 H2 L. apply clamp_mono, rns_mono; assumption. Qed.

Lemma rounds_nonneg x n d : rounds x n d -> 0 < d -> 0 <= n -> 0 <= units x.
Proof.
  intros [_ ->] Hd Hn. rewrite rns_nonneg by assumption.
  pose proof (rn_nonneg n d Hd Hn). pose proof big_pos. unfold clamp. lia.
Qed.

(** ** Monotonicity of the operations *)

Section mono.
Context (x1 x2 y1 y2 : float64).
Context (Fx1 : is_finite x1 = true) (Fx2 : is_finite x2 = true).
Context (Fy1 : is_finite y1 = true) (Fy2 : is_finite y2 = true).

Lemma fadd_mono : units x1 <= units x2 -> units y1 <= units y2 ->
  units (fadd x1 y1) <= units (fadd x2 y2).
Proof using Fx1 Fx2 Fy1 Fy2.
  intros. apply (rounds_mono _ _ _ _ _ _ (fadd_rounds x1 y1 Fx1 Fy1) (fadd_rounds x2 y2 Fx2 Fy2)); lia.
Qed.

Lemma fsub_mono : units x1 <= units x2 -> units y2 <= units y1 ->
  units (fsub x1 y1) <= units (fsub x2 y2).
Proof using Fx1 Fx2 Fy1 Fy2.
  intros. apply (rounds_mono _ _ _ _ _ _ (fsub_rounds x1 y1 Fx1 Fy1) (fsub_rounds x2 y2 Fx2 Fy2)); lia.
Qed.

Lemma fmul_mono : 0 <= units x1 -> 0 <= units y1 -> units x1 <= units x2 -> units y1 <= units y2 ->
  units (fmul x1 y1) <= units (fmul x2 y2).
Proof using Fx1 Fx2 Fy1 Fy2.
  intros. pose proof one_u_pos.
  apply (rounds_mono _ _ _ _ _ _ (fmul_rounds x1 y1 Fx1 Fy1) (fmul_rounds x2 y2 Fx2 Fy2)); try lia.
  apply Z.mul_le_mono_nonneg_r; [lia|]. apply Z.mul_le_mono_nonneg; lia.
Qed.

(** Quotients by one positive number keep the order. *)
Lemma fdiv_mono : 0 < units y1 -> units x1 <= units x2 ->
  units (fdiv x1 y1) <= units (fdiv x2 y1).
Proof using Fx1 Fx2 Fy1.
  intros Hy Hx. pose proof one_u_pos.
  apply (rounds_mono _ _ _ _ _ _ (fdiv_rounds x1 y1 Fx1 Fy1 ltac:(lia)) (fdiv_rounds x2 y1 Fx2 Fy1 ltac:(lia))); try lia.
  rewrite !Z.sgn_pos, !Z.abs_eq by lia.
  repeat (apply Z.mul_le_mono_nonneg_r; [lia|]). assumption.
Qed.
End mono.

Lemma f_of_int_num z : is_num (f_of_int z) = true.
Proof. apply f_of_int_rounds. Qed.

Lemma f_of_int_mono a b : a <= b -> units (f_of_int a) <= units (f_of_int b).
Proof.
  intros. pose proof one_u_pos.
  apply (rounds_mono _ _ _ _ _ _ (f_of_int_rounds a) (f_of_int_rounds b)); nia.
Qed.

(** Every [int64] converts to a finite number. *)
Lemma f_of_int_finite z : min_int64 <= z <= max_int64 -> is_finite (f_of_int z) = true.
Proof.
  intros Hz. apply is_num_finite; [apply f_of_int_num|].
  pose proof (f_of_int_mono min_int64 z ltac:(lia)). pose proof (f_of_int_mono z max_int64 ltac:(lia)).
  assert (- big < units (f_of_int min_int64)) by (vm_compute; reflexivity).
  assert (units (f_of_int max_int64) < big) by (vm_compute; reflexivity). lia.
Qed.

(** Integers of at most 53 bits convert exactly. *)
Lemma one_u_lt_big : 2 ^ 53 * one_u < big.
Proof. reflexivity. Qed.

Lemma f_of_int_exact z : - 2 ^ 53 <= z <= 2 ^ 53 -> units (f_of_int z) = z * one_u.
Proof.
  intros Hz. destruct (f_of_int_rounds z) as [_ ->]. rewrite <- one_u_eq, rns_representable by lia.
  rewrite one_u_eq. pose proof one_u_lt_big. pose proof one_u_pos. unfold clamp. nia.
Qed.

(** ** The truncation [int(x)] *)

Lemma f_trunc_units x : is_finite x = true -> f_trunc x = Z.quot (units x) one_u.
Proof.
  destruct x as [s|s| |s m e]; try discriminate; [intros _; reflexivity|].
  simpl. intros V. destruct (canonical s m e V) as (He & _).
  assert (E : (if 0 <=? e then Z.pos m * 2 ^ e else Z.pos m / 2 ^ (- e))
              = Z.quot (Z.pos m * 2 ^ (e + 1074)) one_u).
  { rewrite <- one_u_eq. pose proof (pow2_pos (e + 1074) ltac:(lia)).
    rewrite Z.quot_div_nonneg by lia. destruct (Z.leb_spec 0 e).
    - rewrite Z.pow_add_r, Z.mul_assoc, Z.div_mul by lia. reflexivity.
    - replace (2 ^ 1074) with (2 ^ (- e) * 2 ^ (e + 1074)) by (rewrite <- Z.pow_add_r by lia; f_equal; lia).
      rewrite Z.div_mul_cancel_r by (pose proof (pow2_pos (- e)); lia). reflexivity. }
  rewrite E. destruct s; cbn [cond_Zopp]; [|reflexivity].
  rewrite <- one_u_eq, Z.quot_opp_l by lia. reflexivity.
Qed.

Lemma f_to_int_units x : is_finite x = true ->
  min_int64 * one_u <= units x < 2 ^ 63 * one_u -> f_to_int x = Z.quot (units x) one_u.
Proof.
  intros F B. pose proof one_u_pos as U.
  assert (R : min_int64 <= f_trunc x <= max_int64).
  { rewrite (f_trunc_units x F). unfold min_int64, max_int64 in *.
    destruct (Z.le_gt_cases 0 (units x)).
    - rewrite Z.quot_div_nonneg by lia.
      assert (0 <= units x / one_u) by (apply Z.div_pos; lia).
      assert (units x / one_u < 2 ^ 63) by (apply Z.div_lt_upper_bound; lia). lia.
    - replace (units x) with (- - units x) by lia. rewrite Z.quot_opp_l, Z.quot_div_nonneg by lia.
      assert (0 <= - units x / one_u) by (apply Z.div_pos; lia).
      assert (- units x / one_u <= 2 ^ 63) by (apply Z.div_le_upper_bound; lia). lia. }
  rewrite <- (f_trunc_units x F).
  destruct x as [s|s| |s m e]; try discriminate F; unfold f_to_int; [reflexivity|].
  cbv zeta. destruct R as [R1 R2]. apply Z.leb_le in R1, R2. rewrite R1, R2. reflexivity.
Qed.

(** ** Intervals

    Since the operations are monotone, an interval of floats is mapped into the
    interval of the results at its ends, which are computed. *)

Record itv := Itv { lo : float64; hi : float64 }.

Definition inside (x : float64) (i : itv) : Prop :=
  is_finite x = true /\ is_finite (lo i) = true /\ is_finite (hi i) = true /\
  units (lo i) <= units x <= units (hi i).

(** [i] lies within [j], both with finite ends. *)
Definition within (i j : itv) : bool :=
  is_finite (lo i) && is_finite (hi i) && is_finite (lo j) && is_finite (hi j)
  && (units (lo j) <=? units (lo i)) && (units (hi i) <=? units (hi j)).

Definition proper (i : itv) : bool := is_finite (lo i) && is_finite (hi i).

Definition nonneg_itv (i : itv) : bool := 0 <=? units (lo i).

Definition iadd (i j : itv) : itv := Itv (fadd (lo i) (lo j)) (fadd (hi i) (hi j)).
Definition isub (i j : itv) : itv := Itv (fsub (lo i) (hi j)) (fsub (hi i) (lo j)).
Definition imul (i j : itv) : itv := Itv (fmul (lo i) (lo j)) (fmul (hi i) (hi j)).
Definition idivc (i : itv) (y : float64) : itv := Itv (fdiv (lo i) y) (fdiv (hi i) y).
Definition iconst (x : float64) : itv := Itv x x.
Definition iint (a b : Z) : itv := Itv (f_of_int a) (f_of_int b).

Lemma inside_intro x l h : is_num x = true -> is_finite l = true -> is_finite h = true ->
  units l <= units x <= units h -> inside x (Itv l h).
Proof.
  intros N Fl Fh B. unfold inside. cbn [lo hi]. repeat split; try assumption; try lia.
  apply is_num_finite; [assumption|].
  pose proof (is_finite_units l Fl). pose proof (is_finite_units h Fh). lia.
Qed.

Lemma inside_within x i j : inside x i -> within i j = true -> inside x j.
Proof.
  intros (Fx & _ & _ & B) W. unfold within in W.
  rewrite !andb_true_iff, !Z.leb_le in W. destruct W as [[[[[_ _] F1] F2] L1] L2].
  repeat split; try assumption; lia.
Qed.

Lemma inside_iconst x : is_finite x = true -> inside x (iconst x).
Proof. intros F. repeat split; try assumption; reflexivity. Qed.

Lemma fadd_inside x y i j : inside x i -> inside y j -> proper (iadd i j) = true ->
  inside (fadd x y) (iadd i j).
Proof.
  intros (Fx & Fl & Fh & B) (Fy & Gl & Gh & C) P. apply andb_true_iff in P as [P1 P2].
  apply inside_intro; [apply fadd_rounds; assumption|assumption|assumption|].
  split; apply fadd_mono; (assumption || lia).
Qed.

Lemma fsub_inside x y i j : inside x i -> inside y j -> proper (isub i j) = true ->
  inside (fsub x y) (isub i j).
Proof.
  intros (Fx & Fl & Fh & B) (Fy & Gl & Gh & C) P. apply andb_true_iff in P as [P1 P2].
  apply inside_intro; [apply fsub_rounds; assumption|assumption|assumption|].
  split; apply fsub_mono; (assumption || lia).
Qed.

Lemma fmul_inside x y i j : inside x i -> inside y j ->
  nonneg_itv i = true -> nonneg_itv j = true -> proper (imul i j) = true ->
  inside (fmul x y) (imul i j).
Proof.
  intros (Fx & Fl & Fh & B) (Fy & Gl & Gh & C) N1 N2 P.
  apply Z.leb_le in N1, N2. apply andb_true_iff in P as [P1 P2].
  apply inside_intro; [apply fmul_rounds; assumption|assumption|assumption|].
  split; apply fmul_mono; (assumption || lia).
Qed.

Lemma fdiv_inside x i y : inside x i -> is_finite y = true -> 0 < units y ->
  proper (idivc i y) = true -> inside (fdiv x y) (idivc i y).
Proof.
  intros (Fx & Fl & Fh & B) Fy Hy P. apply andb_true_iff in P as [P1 P2].
  apply inside_intro; [apply fdiv_rounds; (assumption || lia)|assumption|assumption|].
  split; apply fdiv_mono; (assumption || lia).
Qed.

Lemma f_of_int_inside z a b : a <= z <= b -> proper (iint a b) = true -> inside (f_of_int z) (iint a b).
Proof.
  intros Hz P. apply andb_true_iff in P as [P1 P2].
  apply inside_intro; [apply f_of_int_num|assumption|assumption|].
  split; apply f_of_int_mono; lia.
Qed.

Lemma inside_finite x i : inside x i -> is_finite x = true.
Proof. intros H. apply H. Qed.

Lemma inside_bounds x i : inside x i -> units (lo i) <= units x <= units (hi i).
Proof. intros H. apply H. Qed.

Lemma inside_num x i : inside x i -> is_num x = true.
Proof. intros H. apply is_finite_num, H. Qed.

(** The comparison with a number outside the interval is decided. *)
Lemma fltb_above x i c : inside x i -> is_num c = true -> units c < units (lo i) -> fltb c x = true.
Proof.
  intros H N L. rewrite fltb_units by eauto using inside_num.
  pose proof (inside_bounds _ _ H). apply Z.ltb_lt. lia.
Qed.

Lemma fltb_below x i c : inside x i -> is_num c = true -> units (hi i) <= units c -> fltb c x = false.
Proof.
  intros H N L. rewrite fltb_units by eauto using inside_num.
  pose proof (inside_bounds _ _ H). apply Z.ltb_ge. lia.
Qed.

(** A chain of [n] computed intervals followed by a closed one bounds every
    iteration of a function. *)
Section chain.
Context (g : float64 -> float64) (f : itv -> itv) (base : itv) (n : nat).

Definition chain (k : nat) : itv := Nat.iter k f base.

Context (chain_step : forall k x, (k < n)%nat -> inside x (chain k) -> inside (g x) (chain (S k))).
Context (chain_stay : forall x, inside x (chain n) -> inside (g x) (chain n)).

Lemma chain_iter j x : inside x base -> inside (Nat.iter j g x) (chain (Nat.min n j)).
Proof using chain_step chain_stay.
  intros Hx. induction j as [|j IH]; [rewrite Nat.min_0_r; exact Hx|].
  change (Nat.iter (S j) g x) with (g (Nat.iter j g x)).
  destruct (le_lt_dec n j).
  - rewrite Nat.min_l in * by lia. by apply chain_stay.
  - rewrite Nat.min_r in IH by lia. rewrite Nat.min_r by lia. by apply chain_step.
Qed.
End chain.

(** ** Validity of every result *)

(** A value the operations can produce: a NaN or a canonical number. *)
Definition valid (x : float64) : Prop := x = S754_nan \/ is_num x = true.

Lemma is_num_valid x : is_num x = true -> valid x.
Proof. by right. Qed.

Lemma rounds_valid x n d : rounds x n d -> valid x.
Proof. intros []. by right. Qed.

Lemma valid_finite x : valid x -> is_finite x = true \/ x = S754_nan \/ exists s, x = S754_infinity s.
Proof. intros [->|N]; [by auto|]. destruct x; simpl in N; eauto. Qed.

Lemma fadd_valid x y : valid x -> valid y -> valid (fadd x y).
Proof.
  intros Vx Vy. destruct (valid_finite x Vx) as [Fx|[->|[sx ->]]].
  - destruct (valid_finite y Vy) as [Fy|[->|[sy ->]]]; [by eapply rounds_valid, fadd_rounds|left; by destruct x|].
    right. by destruct x.
  - by left.
  - destruct y as [|[]| |]; destruct sx; (by left) || (by right).
Qed.

Lemma fsub_valid x y : valid x -> valid y -> valid (fsub x y).
Proof.
  intros Vx Vy. destruct (valid_finite x Vx) as [Fx|[->|[sx ->]]].
  - destruct (valid_finite y Vy) as [Fy|[->|[sy ->]]]; [by eapply rounds_valid, fsub_rounds|left; by destruct x|].
    right. by destruct x.
  - by left.
  - destruct y as [|[]| |]; destruct sx; (by left) || (by right).
Qed.

Lemma fmul_valid x y : valid x -> valid y -> valid (fmul x y).
Proof.
  intros Vx Vy. destruct (valid_finite x Vx) as [Fx|[->|[sx ->]]].
  - destruct (valid_finite y Vy) as [Fy|[->|[sy ->]]]; [by eapply rounds_valid, fmul_rounds|left; by destruct x|].
    destruct x; try discriminate; (by left) || (by right).
  - by left.
  - destruct y; (by left) || (by right).
Qed.

Lemma fdiv_valid x y : valid x -> is_finite y = true -> units y <> 0 -> valid (fdiv x y).
Proof.
  intros Vx Fy Hy. destruct (valid_finite x Vx) as [Fx|[->|[sx ->]]].
  - by eapply rounds_valid, fdiv_rounds.
  - by left.
  - destruct y; try discriminate; by right.
Qed.

(** A comparison that holds is between numbers. *)
Lemma fleb_true x y : valid x -> valid y -> fleb x y = true ->
  is_num x = true /\ is_num y = true /\ units x <= units y.
Proof.
  intros [->|Nx] [->|Ny].
  - discriminate.
  - discriminate.
  - unfold fleb, SFleb. by destruct x.
  - rewrite fleb_units by assumption. by rewrite Z.leb_le.
Qed.

Create HintDb float discriminated.
#[export] Hint Resolve fadd_valid fsub_valid fmul_valid fdiv_valid is_num_valid : float.
#[export] Hint Resolve fadd_inside fsub_inside fmul_inside fdiv_inside f_of_int_inside
  inside_iconst inside_finite inside_num is_finite_num f_of_int_num : float.

(** Closes a decidable side condition on constants by computation. *)
Ltac fcompute := vm_compute; first [reflexivity | congruence | (split; congruence)].

(** ** Bounds of rounded values *)

(** Rounding does not leave a range with representable ends. *)
Lemma rounds_upper x n d m k : rounds x n d -> 0 < d -> 0 <= k -> - 2 ^ 53 <= m <= 2 ^ 53 ->
  n <= m * 2 ^ k * d -> - big <= m * 2 ^ k <= big -> units x <= m * 2 ^ k.
Proof.
  intros [_ ->] Hd Hk Hm L B.
  assert (R : rns n d <= m * 2 ^ k) by (rewrite <- (rns_representable m k) by assumption; apply rns_mono; lia).
  pose proof big_pos. unfold clamp. lia.
Qed.

Lemma rounds_lower x n d m k : rounds x n d -> 0 < d -> 0 <= k -> - 2 ^ 53 <= m <= 2 ^ 53 ->
  m * 2 ^ k * d <= n -> - big <= m * 2 ^ k <= big -> m * 2 ^ k <= units x.
Proof.
  intros [_ ->] Hd Hk Hm L B.
  assert (R : m * 2 ^ k <= rns n d) by (rewrite <- (rns_representable m k) by assumption; apply rns_mono; lia).
  pose proof big_pos. unfold clamp. lia.
Qed.

(** An exactly representable result is exact. *)
Lemma rounds_exact x m k : rounds x (m * 2 ^ k) 1 -> 0 <= k -> - 2 ^ 53 <= m <= 2 ^ 53 ->
  - big <= m * 2 ^ k <= big -> units x = m * 2 ^ k.
Proof.
  intros [_ ->] Hk Hm B. rewrite rns_representable by assumption. unfold clamp. lia.
Qed.

(** Relative error of a rounding upwards, above the subnormal range. *)
Lemma rounds_relative x n d : rounds x n d -> 0 < d -> 0 <= n -> n = 0 \/ d * 2 ^ 52 <= n ->
  units x * (2 ^ 53 * d) <= n * (2 ^ 53 + 1).
Proof.
  intros [_ ->] Hd Hn C. rewrite rns_nonneg by assumption. pose proof big_pos.
  assert (R : rn n d * (2 ^ 53 * d) <= n * (2 ^ 53 + 1)).
  { destruct C as [->|C]; [rewrite rn_0 by assumption; lia|].
    pose proof (rn_relative_error n d Hd Hn C). lia. }
  assert (clamp (rn n d) <= rn n d) by (pose proof (rn_nonneg n d Hd Hn); unfold clamp; lia).
  assert (0 < 2 ^ 53 * d) by lia. nia.
Qed.

(** Absolute error of a rounding of a value below [2 ^ (53 + k)] units. *)
Lemma rounds_absolute x n k : rounds x n 1 -> 0 <= n -> 0 <= k -> n < 2 ^ (53 + k) ->
  2 * units x <= 2 * n + 2 ^ k.
Proof.
  intros [_ ->] Hn Hk L. rewrite rns_nonneg by lia. pose proof big_pos.
  pose proof (rn_error n 1 ltac:(lia) Hn) as E. pose proof (rn_nonneg n 1 ltac:(lia) Hn).
  assert (S : rn_shift n 1 <= k).
  { pose proof (rn_shift_nonneg n 1). destruct (Z.eq_dec (rn_shift n 1) 0) as [|N]; [lia|].
    pose proof (rn_shift_lower n 1 ltac:(lia) Hn ltac:(lia)) as Lo. rewrite Z.mul_1_l in Lo.
    assert (52 + rn_shift n 1 < 53 + k) by (apply (Z.pow_lt_mono_r_iff 2); lia). lia. }
  assert (2 ^ rn_shift n 1 <= 2 ^ k) by (apply Z.pow_le_mono_r; lia).
  unfold clamp. lia.
Qed.

(** Below [2 ^ 53], taking one away is exact. *)
Lemma fsub_one_exact x : is_finite x = true -> one_u <= units x < 2 ^ 53 * one_u ->
  units (fsub x (f_of_int 1)) = units x - one_u.
Proof.
  intros F B. pose proof one_u_pos as U.
  assert (F1 : is_finite (f_of_int 1) = true) by reflexivity.
  pose proof (fsub_rounds x _ F F1) as R. rewrite (f_of_int_exact 1), Z.mul_1_l in R by lia.
  destruct x as [s|s| |s m e]; try discriminate F; [cbn in B; lia|].
  simpl in F. destruct (canonical s m e F) as (He & Hm & Hl).
  pose proof (pow2_pos (e + 1074) ltac:(lia)) as P.
  destruct s; [cbn [units cond_Zopp] in B; nia|]. cbn [units cond_Zopp] in *.
  assert (Le : e <= 0).
  { destruct (Z.le_gt_cases e 0); [done|exfalso]. rewrite <- one_u_eq in B.
    assert (2 ^ 53 * 2 ^ 1074 <= 2 ^ 52 * 2 ^ (e + 1074))
      by (rewrite <- !Z.pow_add_r by lia; apply Z.pow_le_mono_r; lia).
    specialize (Hl ltac:(lia)). nia. }
  assert (E : one_u = 2 ^ (- e) * 2 ^ (e + 1074))
    by (rewrite <- one_u_eq, <- Z.pow_add_r by lia; f_equal; lia).
  pose proof (pow2_pos (- e) ltac:(lia)).
  rewrite E in *. rewrite <- Z.mul_sub_distr_r in *. pose proof one_u_lt_big. rewrite E in *.
  apply rounds_exact; [exact R|lia|nia|nia].
Qed.
