(* ===== verification/GoTypes.v ===== *)
(** * GoTypes: the values and effects of Go that the components share

    Machine integers and [time.Duration] as [Z] with their wrap-around, errors,
    panics, and the state monad in which handlers are written.  A panic keeps
    the state reached so far: what a handler did before it panicked stays done. *)

From Stdlib Require Import DecimalString DecimalZ.
From S2P Require Import Prelude Rounding Binary64 Float64.
Local Open Scope Z_scope.

(** ** Integers *)

(** Two's complement wrap-around of [int] and [int64]. *)
Definition wrap64 (z : Z) : Z := (z + 2 ^ 63) mod 2 ^ 64 - 2 ^ 63.

Definition is_int64 (z : Z) : Prop := min_int64 <= z <= max_int64.

#[export] Instance is_int64_dec z : Decision (is_int64 z).
Proof. unfold is_int64. apply _. Defined.

Lemma wrap64_range z : is_int64 (wrap64 z).
Proof.
  unfold is_int64, wrap64, min_int64, max_int64.
  pose proof (Z.mod_pos_bound (z + 2 ^ 63) (2 ^ 64) ltac:(lia)). lia.
Qed.

Lemma wrap64_id z : is_int64 z -> wrap64 z = z.
Proof.
  unfold is_int64, wrap64, min_int64, max_int64. intros.
  rewrite Z.mod_small by lia. lia.
Qed.

(** [strconv.Itoa] and [%d]. *)
Definition Itoa (z : Z) : string := NilEmpty.string_of_int (Z.to_int z).

Example Itoa_examples : (Itoa 0, Itoa 120, Itoa (-7)) = ("0", "120", "-7")%string.
Proof. reflexivity. Qed.

(** ** time *)

Definition Millisecond : Z := 1000000.
Definition Second : Z := 1000000000.
Definition Minute : Z := 60 * Second.
Definition Hour : Z := 60 * Minute.

(** [d.Milliseconds()]: [int64(d) / 1e6]. *)
Definition Milliseconds (d : Z) : Z := Z.quot d Millisecond.

(** [d.Seconds()]: [float64(d/Second) + float64(d%Second)/1e9]. *)
Definition Seconds (d : Z) : float64 :=
  fadd (f_of_int (Z.quot d Second)) (fdiv (f_of_int (Z.rem d Second)) (f_of_int 1000000000)).

(** [t.Sub(u)] on monotonic readings in nanoseconds: saturates. *)
Definition Time_Sub (t u : Z) : Z := Z.max min_int64 (Z.min (t - u) max_int64).

(** ** Errors and slices *)

(** An [error] value: a text, and the error that [%w] wraps. *)
Inductive error :=
  | Errorf (msg : string)
  | Wrapf (msg : string) (inner : error).

Definition Error (e : error) : string :=
  match e with Errorf msg | Wrapf msg _ => msg end.

#[export] Instance error_eq_dec : EqDecision error.
Proof. solve_decision. Defined.

(** A [[]byte]: [None] is the nil slice. *)
Abbreviation bytes := (option string).

(** A call that returns a pointer and an error. *)
Abbreviation result A := (A + error)%type.

(** ** Panics and state *)

Inductive panic :=
  | NilDereference
  | IndexOutOfRange (index length : Z)
  | NonPositiveInterval.

#[export] Instance panic_eq_dec : EqDecision panic.
Proof. solve_decision. Defined.

Inductive outcome (A : Type) :=
  | Returns (a : A)
  | Panics (p : panic).
Arguments Returns {A} a.
Arguments Panics {A} p.

(** [time.NewTicker(d)] *)
Definition NewTicker (d : Z) : outcome Z := if d <=? 0 then Panics NonPositiveInterval else Returns d.

#[export] Instance outcome_eq_dec `{EqDecision A} : EqDecision (outcome A).
Proof. solve_decision. Defined.

Definition M (S A : Type) : Type := S -> outcome A * S.

#[export] Instance M_ret S : MRet (M S) := fun A a s => (Returns a, s).
#[export] Instance M_bind S : MBind (M S) := fun A B k m s =>
  match m s with
  | (Returns a, s') => k a s'
  | (Panics p, s') => (Panics p, s')
  end.

Definition gets {S A} (f : S -> A) : M S A := fun s => (Returns (f s), s).
Definition modify {S} (f : S -> S) : M S unit := fun s => (Returns tt, f s).
Definition panics {S A} (p : panic) : M S A := fun s => (Panics p, s).

(** Runs an operation of a part [T] of the state. *)
Definition zoom {S T A} (get : S -> T) (put : T -> S -> S) (op : T -> A * T) : M S A :=
  fun s => let '(a, t) := op (get s) in (Returns a, put t s).

(** ** Reasoning about effects *)

(** [wp m Q s]: run from [s], [m] ends with an outcome and a state in [Q]. *)
Definition wp {S A} (m : M S A) (Q : outcome A -> S -> Prop) (s : S) : Prop := Q (fst (m s)) (snd (m s)).

(** What follows a returned value; a panic goes through. *)
Definition after {S A B} (k : A -> M S B) (Q : outcome B -> S -> Prop) (o : outcome A) : S -> Prop :=
  match o with Returns a => wp (k a) Q | Panics p => Q (Panics p) end.

Section wp.
Context {S : Type}.
Implicit Types s : S.

Lemma wp_run {A} (m : M S A) Q s o s' : wp m Q s -> m s = (o, s') -> Q o s'.
Proof. unfold wp. intros H E. by rewrite E in H. Qed.

Lemma wp_intro {A} (m : M S A) Q s : (forall o s', m s = (o, s') -> Q o s') -> wp m Q s.
Proof. unfold wp. intros H. destruct (m s) as [o s'] eqn:E. by apply H. Qed.

Lemma wp_mono {A} (m : M S A) (Q R : outcome A -> S -> Prop) s :
  wp m Q s -> (forall o s', Q o s' -> R o s') -> wp m R s.
Proof. unfold wp. auto. Qed.

Lemma wp_bind {A B} (m : M S A) (k : A -> M S B) Q s : wp m (after k Q) s -> wp (mbind k m) Q s.
Proof. unfold wp, after, mbind, M_bind. cbv beta. destruct (m s) as [[a|p] s']; intros Q'; exact Q'. Qed.

Lemma wp_ret {A} (a : A) (Q : outcome A -> S -> Prop) s : Q (Returns a) s -> wp (mret a) Q s.
Proof. done. Qed.

Lemma wp_gets {A} (f : S -> A) (Q : outcome A -> S -> Prop) s : Q (Returns (f s)) s -> wp (gets f) Q s.
Proof. done. Qed.

Lemma wp_modify (f : S -> S) (Q : outcome unit -> S -> Prop) s : Q (Returns tt) (f s) -> wp (modify f) Q s.
Proof. done. Qed.

Lemma wp_panics {A} p (Q : outcome A -> S -> Prop) s : Q (Panics p) s -> wp (panics p) Q s.
Proof. done. Qed.

Lemma wp_zoom {T A} (get : S -> T) (put : T -> S -> S) (op : T -> A * T) (Q : outcome A -> S -> Prop) s :
  Q (Returns (fst (op (get s)))) (put (snd (op (get s))) s) -> wp (zoom get put op) Q s.
Proof. unfold wp, zoom. by destruct (op (get s)). Qed.
End wp.

(** One step of symbolic execution. *)
Ltac wp_step :=
  cbn [after]; cbv beta;
  match goal with
  | |- wp (mbind _ _) _ _ => apply wp_bind
  | |- wp (mret _) _ _ => apply wp_ret
  | |- wp (gets _) _ _ => apply wp_gets
  | |- wp (modify _) _ _ => apply wp_modify
  | |- wp (panics _) _ _ => apply wp_panics
  | |- wp (zoom _ _ _) _ _ => apply wp_zoom
  end; cbn [after]; cbv beta.
