(* ===== verification/Utf8.v ===== *)
(** * Utf8: Go strings as runes

    A Go string is a string of bytes.  Iterating over it, or escaping it for
    JSON, decodes UTF-8: each step yields a well-formed sequence of one to four
    bytes, or a single byte that starts none.  [runes] is this decoding, with
    the bytes kept in the tokens, and [bytes_of] goes back. *)

From S2P Require Import Prelude.
From Stdlib Require Import Ascii.
Local Open Scope Z_scope.

Definition code (a : ascii) : Z := Z.of_N (N_of_ascii a).
Definition byte (z : Z) : ascii := ascii_of_N (Z.to_N z).

Lemma code_byte z : 0 <= z < 256 -> code (byte z) = z.
Proof. intros H. unfold code, byte. rewrite N_ascii_embedding by lia. lia. Qed.

(** A lower-case hexadecimal digit. *)
Definition hex_digit (n : Z) : ascii := if n <? 10 then byte (48 + n) else byte (87 + n).

Definition in_range (lo hi : Z) (a : ascii) : bool := (lo <=? code a) && (code a <=? hi).

(** A decoding step: an ASCII byte, a longer sequence, or an invalid byte. *)
Inductive tok :=
  | Asc (a : ascii)
  | Uni (s : string)
  | Bad (a : ascii).

#[export] Instance tok_eq_dec : EqDecision tok.
Proof. solve_decision. Defined.

Definition cont : ascii -> bool := in_range 128 191.

(** The well-formed sequences, by length. *)
Definition two (a b : ascii) : bool := in_range 194 223 a && cont b.
Definition three (a b c : ascii) : bool :=
  (((code a =? 224) && in_range 160 191 b) || (in_range 225 236 a && cont b)
   || ((code a =? 237) && in_range 128 159 b) || (in_range 238 239 a && cont b)) && cont c.
Definition four (a b c d : ascii) : bool :=
  (((code a =? 240) && in_range 144 191 b) || (in_range 241 243 a && cont b)
   || ((code a =? 244) && in_range 128 143 b)) && cont c && cont d.

Definition is_ascii (a : ascii) : bool := code a <? 128.

Fixpoint runes (s : string) : list tok :=
  match s with
  | EmptyString => []
  | String a s1 =>
      if is_ascii a then Asc a :: runes s1
      else match s1 with
      | EmptyString => Bad a :: runes s1
      | String b s2 =>
          if two a b then Uni (String a (String b "")) :: runes s2
          else match s2 with
          | EmptyString => Bad a :: runes s1
          | String c s3 =>
              if three a b c then Uni (String a (String b (String c ""))) :: runes s3
              else match s3 with
              | EmptyString => Bad a :: runes s1
              | String d s4 =>
                  if four a b c d then Uni (String a (String b (String c (String d "")))) :: runes s4
                  else Bad a :: runes s1
              end
          end
      end
  end.

Definition tok_bytes (t : tok) : string :=
  match t with Asc a | Bad a => String a "" | Uni s => s end.

Fixpoint bytes_of (ts : list tok) : string :=
  match ts with [] => ""%string | t :: ts => (tok_bytes t ++ bytes_of ts)%string end.

(** The tokens of valid text. *)
Definition well_formed (s : string) : bool :=
  match s with
  | String a (String b "") => two a b
  | String a (String b (String c "")) => three a b c
  | String a (String b (String c (String d ""))) => four a b c d
  | _ => false
  end.

Definition good (t : tok) : bool :=
  match t with Asc a => is_ascii a | Uni s => well_formed s | Bad _ => false end.

Definition valid_utf8 (s : string) : bool := forallb good (runes s).

Lemma bytes_of_runes s : bytes_of (runes s) = s.
Proof.
  remember (String.length s) as n eqn:E. assert (L : (String.length s <= n)%nat) by lia. clear E.
  revert s L. induction n as [|n IH]; intros [|a s1] L; simpl in L; try done; try lia.
  assert (I : forall u, (String.length u <= String.length s1)%nat -> bytes_of (runes u) = u) by (intros; apply IH; lia).
  clear IH L n. simpl. destruct (is_ascii a); [simpl; by rewrite I|].
  destruct s1 as [|b s2]; [done|]. destruct (two a b); [simpl; rewrite I; simpl; auto|].
  assert (B : bytes_of (Bad a :: runes (String b s2)) = String a (String b s2)).
  { cbn [bytes_of tok_bytes]. by rewrite I. }
  destruct s2 as [|c s3]; [exact B|]. destruct (three a b c); [simpl; rewrite I; simpl; auto|].
  destruct s3 as [|d s4]; [exact B|]. destruct (four a b c d); [simpl; rewrite I; simpl; auto|exact B].
Qed.

Lemma range_spec lo hi a : in_range lo hi a = true <-> lo <= code a <= hi.
Proof. unfold in_range. lia. Qed.

Lemma two_lead a b : two a b = true -> is_ascii a = false.
Proof. unfold two, in_range, is_ascii. lia. Qed.
Lemma three_lead a b c : three a b c = true -> is_ascii a = false /\ two a b = false.
Proof. unfold three, two, in_range, is_ascii. lia. Qed.
Lemma four_lead a b c d : four a b c d = true -> is_ascii a = false /\ two a b = false /\ three a b c = false.
Proof. unfold four, three, two, in_range, is_ascii. lia. Qed.

(** Valid tokens are found again, whatever follows. *)
Lemma runes_good t s : good t = true -> runes (tok_bytes t ++ s) = t :: runes s.
Proof.
  destruct t as [a|u|a]; simpl; [by intros ->| |done].
  destruct u as [|a [|b [|c [|d [|]]]]]; simpl; try done; intros G.
  - by rewrite (two_lead _ _ G), G.
  - destruct (three_lead _ _ _ G) as [-> ->]. by rewrite G.
  - destruct (four_lead _ _ _ _ G) as (-> & -> & ->). by rewrite G.
Qed.

Lemma runes_bytes_of ts s : forallb good ts = true -> runes (bytes_of ts ++ s) = ts ++ runes s.
Proof.
  induction ts as [|t ts IH]; simpl; [done|]. intros [G Gs]%andb_true_iff.
  rewrite append_assoc. by rewrite runes_good, IH.
Qed.

Lemma bytes_of_app ts us : bytes_of (ts ++ us) = (bytes_of ts ++ bytes_of us)%string.
Proof. induction ts as [|t ts IH]; simpl; [done|]. by rewrite IH, append_assoc. Qed.

(** ** From code points *)

Definition replacement : tok := Uni (String (byte 239) (String (byte 191) (String (byte 189) ""))).

(** [utf8.EncodeRune]; surrogates and values out of range give U+FFFD. *)
Definition encode_rune (r : Z) : tok :=
  if r <? 0 then replacement
  else if r <? 128 then Asc (byte r)
  else if r <? 2048 then Uni (String (byte (192 + r / 64)) (String (byte (128 + r mod 64)) ""))
  else if (55296 <=? r) && (r <=? 57343) then replacement
  else if r <? 65536 then
    Uni (String (byte (224 + r / 4096)) (String (byte (128 + r / 64 mod 64)) (String (byte (128 + r mod 64)) "")))
  else if r <? 1114112 then
    Uni (String (byte (240 + r / 262144)) (String (byte (128 + r / 4096 mod 64))
          (String (byte (128 + r / 64 mod 64)) (String (byte (128 + r mod 64)) ""))))
  else replacement.

Example encode_examples :
  (encode_rune 65, encode_rune 233, encode_rune 65533, encode_rune 128065)
  = (Asc "A", Uni (String (byte 195) (String (byte 169) "")), replacement,
     Uni (String (byte 240) (String (byte 159) (String (byte 145) (String (byte 129) ""))))).
Proof. reflexivity. Qed.

(** Go's conversion to valid UTF-8: an invalid byte becomes U+FFFD. *)
Definition fix_tok (t : tok) : tok := match t with Bad _ => replacement | _ => t end.
Definition to_valid (s : string) : string := bytes_of (fix_tok <$> runes s).

Lemma fix_good ts : forallb good ts = true -> fix_tok <$> ts = ts.
Proof.
  induction ts as [|t ts IH]; simpl; [done|]. intros [G Gs]%andb_true_iff. f_equal; [by destruct t|by apply IH].
Qed.

Lemma to_valid_id s : valid_utf8 s = true -> to_valid s = s.
Proof. intros V. unfold to_valid. rewrite fix_good by done. apply bytes_of_runes. Qed.
