(* ===== verification/Json.v ===== *)
(** * Json: encoding/json as the gateway uses it

    JSON texts are lists of runes ([Utf8.tok]).  [print] writes a value the way
    [json.Marshal] does (compact, with HTML characters escaped), [parse_value]
    reads one the way the decoder's scanner does, and [parse_print] is the round
    trip.  The decoding of values into Go variables follows: it sets what it
    can and remembers the first mismatch. *)

From Stdlib Require Import Ascii DecimalString DecimalZ DecimalFacts.
From S2P Require Import Prelude Rounding Binary64 Float64 GoTypes Utf8.
Local Open Scope Z_scope.

(** Numbers keep their text. *)
#[warnings="-register-all"]
Inductive json :=
  | JNull
  | JBool (b : bool)
  | JNum (lit : string)
  | JStr (s : string)
  | JArr (l : list json)
  | JObj (members : list (string * json)).

(** ** Characters *)

Definition DQUOTE : ascii := byte 34.
Definition BACKSLASH : ascii := byte 92.

Definition is_digit (a : ascii) : bool := in_range 48 57 a.

(** The value of a hexadecimal digit. *)
Definition hex_value (t : tok) : option Z :=
  match t with
  | Asc a =>
      if is_digit a then Some (code a - 48)
      else if in_range 97 102 a then Some (code a - 87)
      else if in_range 65 70 a then Some (code a - 55)
      else None
  | _ => None
  end.

Definition chars (s : string) : list tok := Asc <$> list_ascii_of_string s.

(** ** Writing *)

Definition unicode_escape (c : Z) : list tok :=
  chars "\u00" ++ [Asc (hex_digit (c / 16)); Asc (hex_digit (c mod 16))].

(** One rune of a string, with HTML characters escaped. *)
Definition escape (t : tok) : list tok :=
  match t with
  | Asc a =>
      if decide (a = DQUOTE \/ a = BACKSLASH) then [Asc BACKSLASH; Asc a]
      else if code a =? 8 then chars "\b"
      else if code a =? 12 then chars "\f"
      else if code a =? 10 then chars "\n"
      else if code a =? 13 then chars "\r"
      else if code a =? 9 then chars "\t"
      else if (code a <? 32) || (code a =? 60) || (code a =? 62) || (code a =? 38) then unicode_escape (code a)
      else [Asc a]
  | Uni s =>
      if decide (s = String (byte 226) (String (byte 128) (String (byte 168) ""))) then chars "\u2028"
      else if decide (s = String (byte 226) (String (byte 128) (String (byte 169) ""))) then chars "\u2029"
      else [t]
  | Bad _ => chars "\ufffd"
  end.

Definition quoted (s : string) : list tok := Asc DQUOTE :: flat_map escape (runes s) ++ [Asc DQUOTE].

(** Items separated by commas. *)
Fixpoint commas (l : list (list tok)) : list tok :=
  match l with
  | [] => []
  | [x] => x
  | x :: l => x ++ chars "," ++ commas l
  end.

Fixpoint print (v : json) : list tok :=
  match v with
  | JNull => chars "null"
  | JBool true => chars "true"
  | JBool false => chars "false"
  | JNum lit => chars lit
  | JStr s => quoted s
  | JArr l => chars "[" ++ commas (map print l) ++ chars "]"
  | JObj ms => chars "{" ++ commas (map (fun m => quoted (fst m) ++ chars ":" ++ print (snd m)) ms) ++ chars "}"
  end.

(** [json.Marshal], when nothing is unsupported. *)
Definition marshal (v : json) : string := bytes_of (print v).

(** ** Reading *)

Fixpoint skip_ws (ts : list tok) : list tok :=
  match ts with
  | Asc a :: ts' => if decide (code a = 32 \/ code a = 9 \/ code a = 10 \/ code a = 13) then skip_ws ts' else ts
  | _ => ts
  end.

Definition simple_escape (a : ascii) : option ascii :=
  if decide (a = DQUOTE \/ a = BACKSLASH \/ code a = 47) then Some a
  else if code a =? 98 then Some (byte 8)
  else if code a =? 102 then Some (byte 12)
  else if code a =? 110 then Some (byte 10)
  else if code a =? 114 then Some (byte 13)
  else if code a =? 116 then Some (byte 9)
  else None.

Definition hex4 (a b c d : tok) : option Z :=
  match hex_value a, hex_value b, hex_value c, hex_value d with
  | Some a, Some b, Some c, Some d => Some (((a * 16 + b) * 16 + c) * 16 + d)
  | _, _, _, _ => None
  end.

Definition is_surrogate (r : Z) : bool := (55296 <=? r) && (r <=? 57343).

(** [utf16.DecodeRune] *)
Definition pair_of_surrogates (r1 r2 : Z) : option Z :=
  if (55296 <=? r1) && (r1 <=? 56319) && (56320 <=? r2) && (r2 <=? 57343)
  then Some ((r1 - 55296) * 1024 + (r2 - 56320) + 65536) else None.

(** The rest of a string after its opening quote: its contents, and what
    follows the closing quote. *)
Fixpoint parse_string (ts : list tok) : option (list tok * list tok) :=
  let cons t r := match r with Some (s, rest) => Some (t :: s, rest) | None => None end in
  match ts with
  | [] => None
  | Asc a :: ts =>
      if decide (a = DQUOTE) then Some ([], ts)
      else if decide (a = BACKSLASH) then
        match ts with
        | Asc e :: ts1 =>
            if decide (code e = 117) then
              match ts1 with
              | h1 :: h2 :: h3 :: h4 :: ts2 =>
                  match hex4 h1 h2 h3 h4 with
                  | None => None
                  | Some r =>
                      if is_surrogate r then
                        match ts2 with
                        | Asc b :: Asc u :: g1 :: g2 :: g3 :: g4 :: ts3 =>
                            match (if decide (b = BACKSLASH /\ code u = 117) then hex4 g1 g2 g3 g4 else None) with
                            | Some r2 =>
                                match pair_of_surrogates r r2 with
                                | Some c => cons (encode_rune c) (parse_string ts3)
                                | None => cons replacement (parse_string ts2)
                                end
                            | None => cons replacement (parse_string ts2)
                            end
                        | _ => cons replacement (parse_string ts2)
                        end
                      else cons (encode_rune r) (parse_string ts2)
                  end
              | _ => None
              end
            else match simple_escape e with
                 | Some c => cons (Asc c) (parse_string ts1)
                 | None => None
                 end
        | _ => None
        end
      else if code a <? 32 then None
      else cons (Asc a) (parse_string ts)
  | Uni s :: ts => cons (Uni s) (parse_string ts)
  | Bad _ :: ts => cons replacement (parse_string ts)
  end.

Fixpoint digits (ts : list tok) : string * list tok :=
  match ts with
  | Asc a :: ts' => if is_digit a then let '(d, rest) := digits ts' in (String a d, rest) else ("", ts)
  | _ => ("", ts)
  end%string.

(** [0] or digits that do not start with [0]. *)
Definition parse_int_part (ts : list tok) : option (string * list tok) :=
  match ts with
  | Asc a :: ts' =>
      if code a =? 48 then Some (String a "", ts')
      else if is_digit a then Some (digits ts) else None
  | _ => None
  end.

Definition parse_frac (ts : list tok) : option (string * list tok) :=
  match ts with
  | Asc a :: ts' =>
      if code a =? 46 then
        let '(d, rest) := digits ts' in
        match d with EmptyString => None | _ => Some (String a d, rest) end
      else Some (""%string, ts)
  | _ => Some (""%string, ts)
  end.

Definition parse_exp (ts : list tok) : option (string * list tok) :=
  match ts with
  | Asc a :: ts' =>
      if (code a =? 101) || (code a =? 69) then
        let '(sign, ts'') :=
          match ts' with
          | Asc b :: r => if (code b =? 43) || (code b =? 45) then (String b "", r) else (""%string, ts')
          | _ => (""%string, ts')
          end in
        let '(d, rest) := digits ts'' in
        match d with EmptyString => None | _ => Some (String a (sign ++ d), rest) end
      else Some (""%string, ts)
  | _ => Some (""%string, ts)
  end.

Definition parse_number (ts : list tok) : option (string * list tok) :=
  let '(sign, ts) :=
    match ts with
    | Asc a :: r => if code a =? 45 then (String a "", r) else (""%string, ts)
    | _ => (""%string, ts)
    end in
  match parse_int_part ts with
  | None => None
  | Some (i, ts) =>
      match parse_frac ts with
      | None => None
      | Some (f, ts) =>
          match parse_exp ts with
          | None => None
          | Some (e, ts) => Some ((sign ++ i ++ f ++ e)%string, ts)
          end
      end
  end.

(** The given characters, and what follows. *)
Fixpoint expect (word ts : list tok) : option (list tok) :=
  match word, ts with
  | [], _ => Some ts
  | w :: word, t :: ts => if decide (w = t) then expect word ts else None
  | _, [] => None
  end.

Definition max_depth : Z := 10000.

(** [parse_value n d ts] reads a value at nesting depth [d]; [n] is fuel. *)
Fixpoint parse_value (n : nat) (d : Z) (ts : list tok) : option (json * list tok) :=
  match n with
  | O => None
  | S n =>
      match skip_ws ts with
      | Asc a :: rest =>
          if decide (a = DQUOTE) then
            match parse_string rest with Some (s, r) => Some (JStr (bytes_of s), r) | None => None end
          else if code a =? 91 then
            if max_depth <=? d then None else
            match skip_ws rest with
            | Asc b :: r => if code b =? 93 then Some (JArr [], r) else
                match parse_elements n (d + 1) rest with Some (l, r) => Some (JArr l, r) | None => None end
            | _ => None
            end
          else if code a =? 123 then
            if max_depth <=? d then None else
            match skip_ws rest with
            | Asc b :: r => if code b =? 125 then Some (JObj [], r) else
                match parse_members n (d + 1) rest with Some (l, r) => Some (JObj l, r) | None => None end
            | _ => None
            end
          else if code a =? 116 then (fun r => (JBool true, r)) <$> expect (chars "rue") rest
          else if code a =? 102 then (fun r => (JBool false, r)) <$> expect (chars "alse") rest
          else if code a =? 110 then (fun r => (JNull, r)) <$> expect (chars "ull") rest
          else match parse_number (Asc a :: rest) with
               | Some (lit, r) => Some (JNum lit, r)
               | None => None
               end
      | _ => None
      end
  end
with parse_elements (n : nat) (d : Z) (ts : list tok) : option (list json * list tok) :=
  match n with
  | O => None
  | S n =>
      match parse_value n d ts with
      | None => None
      | Some (v, ts) =>
          match skip_ws ts with
          | Asc b :: r =>
              if code b =? 93 then Some ([v], r)
              else if code b =? 44 then
                match parse_elements n d r with Some (l, r) => Some (v :: l, r) | None => None end
              else None
          | _ => None
          end
      end
  end
with parse_members (n : nat) (d : Z) (ts : list tok) : option (list (string * json) * list tok) :=
  match n with
  | O => None
  | S n =>
      match skip_ws ts with
      | Asc q :: ts =>
          if decide (q = DQUOTE) then
            match parse_string ts with
            | None => None
            | Some (k, ts) =>
                match skip_ws ts with
                | Asc c :: ts =>
                    if code c =? 58 then
                      match parse_value n d ts with
                      | None => None
                      | Some (v, ts) =>
                          match skip_ws ts with
                          | Asc b :: r =>
                              if code b =? 125 then Some ([(bytes_of k, v)], r)
                              else if code b =? 44 then
                                match parse_members n d r with
                                | Some (l, r) => Some ((bytes_of k, v) :: l, r)
                                | None => None
                                end
                              else None
                          | _ => None
                          end
                      end
                    else None
                | _ => None
                end
            end
          else None
      | _ => None
      end
  end.

(** Fuel that is enough for a text. *)
Definition enough (ts : list tok) : nat := S (2 * length ts).

(** [json.Unmarshal] takes one value and nothing but spaces after it; a
    [Decoder] takes one value and leaves the rest. *)
Definition decode_one (s : string) : option (json * list tok) :=
  let ts := runes s in parse_value (enough ts) 0 ts.

Definition unmarshal (s : string) : option json :=
  match decode_one s with
  | Some (v, rest) => match skip_ws rest with [] => Some v | _ => None end
  | None => None
  end.

(** JSON text with its quotes written as apostrophes. *)
Fixpoint dq (s : string) : string :=
  match s with
  | EmptyString => EmptyString
  | String a s => String (if decide (code a = 39) then DQUOTE else a) (dq s)
  end.

Example unmarshal_example :
  unmarshal (dq " {'a' : [1, -2.5e3, null], 'b\u0041':'x\n\ud83d\udc41'} ")
  = Some (JObj [("a", JArr [JNum "1"; JNum "-2.5e3"; JNull]);
                ("bA", JStr (String "x" (String (byte 10) (bytes_of [encode_rune 128065]))))])%string.
Proof. vm_compute. reflexivity. Qed.

Example unmarshal_rejects :
  (fun s => unmarshal (dq s)) <$> ["{'a':01}"; "[1,]"; "'a"; "1 2"; "{'a' 1}"; "-"; "tru"; "1."; ""]%string
  = replicate 9 None.
Proof. vm_compute. reflexivity. Qed.

Example marshal_example :
  marshal (JObj [("a<", JStr (dq "it's"%string)); ("n", JArr [JNum "1"; JNull])])%string
  = dq "{'a\u003c':'it\'s','n':[1,null]}".
Proof. vm_compute. reflexivity. Qed.

(** ** The round trip *)

(** Every rune is valid or a single invalid byte. *)
Definition rune_ok (t : tok) : bool := match t with Bad _ => true | _ => good t end.

Lemma escape_ascii a r : parse_string (escape (Asc a) ++ r) =
  match parse_string r with Some (s, rest) => Some (Asc a :: s, rest) | None => None end.
Proof. destruct a as [[] [] [] [] [] [] [] []]; reflexivity. Qed.

Lemma parse_escape t r : parse_string (escape t ++ r) =
  match parse_string r with Some (s, rest) => Some (fix_tok t :: s, rest) | None => None end.
Proof.
  destruct t as [a|s|a]; [apply escape_ascii| |reflexivity].
  unfold escape. case_decide as D; [subst s; reflexivity|]. case_decide as D'; [subst s; reflexivity|]. reflexivity.
Qed.

Lemma parse_escapes ts rest :
  parse_string (flat_map escape ts ++ Asc DQUOTE :: rest) = Some (fix_tok <$> ts, rest).
Proof.
  induction ts as [|t ts IH]; [reflexivity|]. simpl flat_map. by rewrite <- app_assoc, parse_escape, IH.
Qed.

(** *** Numbers *)

(** What may follow a number. *)
Definition number_end (ts : list tok) : bool :=
  match ts with
  | Asc a :: _ => negb (is_digit a || (code a =? 46) || (code a =? 101) || (code a =? 69))
  | _ => true
  end.

Definition num_ok (lit : string) : bool :=
  bool_decide (parse_number (chars lit) = Some (lit, [])) && forallb good (chars lit).

Lemma num_ok_parse lit : num_ok lit = true -> parse_number (chars lit) = Some (lit, []) /\ forallb good (chars lit) = true.
Proof. unfold num_ok. intros [N G]%andb_true_iff. split; [by apply bool_decide_eq_true in N|done]. Qed.

Lemma number_end_spec ts a r : number_end ts = true -> ts = Asc a :: r ->
  is_digit a = false /\ code a <> 46 /\ code a <> 101 /\ code a <> 69.
Proof.
  intros H ->. cbn [number_end] in H. rewrite negb_true_iff, !orb_false_iff, !Z.eqb_neq in H.
  by destruct H as [[[? ?] ?] ?].
Qed.

Section extend.
Context (rest : list tok) (E : number_end rest = true).

Lemma digits_extend ts : digits (ts ++ rest) = let '(d, r) := digits ts in (d, r ++ rest).
Proof using E.
  induction ts as [|t ts IH]; simpl.
  - destruct rest as [|[a|s|a] r]; try done. simpl.
    destruct (number_end_spec _ a r E eq_refl) as (-> & _). done.
  - destruct t as [a|s|a]; try done. destruct (is_digit a); [|done]. rewrite IH. by destruct (digits ts).
Qed.

Lemma int_part_extend ts x r : parse_int_part ts = Some (x, r) -> parse_int_part (ts ++ rest) = Some (x, r ++ rest).
Proof using E.
  destruct ts as [|[a|s|a] ts]; try done. unfold parse_int_part. cbn [app].
  destruct (code a =? 48); [by intros [= <- <-]|]. destruct (is_digit a); [|done].
  rewrite (app_comm_cons ts rest), digits_extend. destruct (digits (Asc a :: ts)). by intros [= <- <-].
Qed.

Lemma frac_extend ts x r : parse_frac ts = Some (x, r) -> parse_frac (ts ++ rest) = Some (x, r ++ rest).
Proof using E.
  destruct ts as [|[a|s|a] ts]; unfold parse_frac; cbn [app].
  - intros [= <- <-]. destruct rest as [|[a|s|a] r']; try done.
    destruct (number_end_spec _ a r' E eq_refl) as (_ & N & _). by rewrite (proj2 (Z.eqb_neq _ _) N).
  - destruct (code a =? 46); [|by intros [= <- <-]]. rewrite digits_extend.
    destruct (digits ts) as [[|d ds] r']; [done|]. by intros [= <- <-].
  - by intros [= <- <-].
  - by intros [= <- <-].
Qed.

Lemma exp_extend ts x r : parse_exp ts = Some (x, r) -> parse_exp (ts ++ rest) = Some (x, r ++ rest).
Proof using E.
  destruct ts as [|[a|s|a] ts]; unfold parse_exp; cbn [app].
  - intros [= <- <-]. destruct rest as [|[a|s|a] r']; try done.
    destruct (number_end_spec _ a r' E eq_refl) as (_ & _ & N1 & N2).
    by rewrite (proj2 (Z.eqb_neq _ _) N1), (proj2 (Z.eqb_neq _ _) N2).
  - destruct (_ || _); [|by intros [= <- <-]].
    assert (D : forall sg us, (let '(d, r0) := digits us in
        match d with EmptyString => None | _ => Some (String a (sg ++ d), r0) end) = Some (x, r) ->
      (let '(d, r0) := digits (us ++ rest) in
        match d with EmptyString => None | _ => Some (String a (sg ++ d), r0) end) = Some (x, r ++ rest)).
    { intros sg us. rewrite digits_extend. destruct (digits us) as [[|d ds] r']; [done|]. by intros [= <- <-]. }
    destruct ts as [|[b|s|b] ts]; cbn [app].
    + intros X. simpl in X. discriminate.
    + destruct (_ || _); [apply D|]. intros X. apply (D _ (Asc b :: ts)). exact X.
    + intros X. apply (D _ (Uni s :: ts)). exact X.
    + intros X. apply (D _ (Bad b :: ts)). exact X.
  - by intros [= <- <-].
  - by intros [= <- <-].
Qed.

Lemma number_extend ts x : parse_number ts = Some (x, []) -> parse_number (ts ++ rest) = Some (x, rest).
Proof using E.
  unfold parse_number.
  assert (D : forall sg us, us <> [] ->
    match parse_int_part us with
    | None => None
    | Some (i, ts) => match parse_frac ts with None => None | Some (f, ts) =>
        match parse_exp ts with None => None | Some (e, ts) => Some ((sg ++ i ++ f ++ e)%string, ts) end end end
      = Some (x, []) ->
    match parse_int_part (us ++ rest) with
    | None => None
    | Some (i, ts) => match parse_frac ts with None => None | Some (f, ts) =>
        match parse_exp ts with None => None | Some (e, ts) => Some ((sg ++ i ++ f ++ e)%string, ts) end end end
      = Some (x, rest)).
  { intros sg us _. destruct (parse_int_part us) as [[i t1]|] eqn:E1; [|done].
    rewrite (int_part_extend _ _ _ E1). destruct (parse_frac t1) as [[f t2]|] eqn:E2; [|done].
    rewrite (frac_extend _ _ _ E2). destruct (parse_exp t2) as [[e t3]|] eqn:E3; [|done].
    rewrite (exp_extend _ _ _ E3). by intros [= <- ->]. }
  destruct ts as [|[a|s|a] ts]; cbn [app]; try (intros X; simpl in X; discriminate).
  destruct (code a =? 45).
  - destruct ts as [|t ts]; [intros X; simpl in X; discriminate|]. by apply D.
  - intros X. apply (D ""%string (Asc a :: ts)); [done|exact X].
Qed.
End extend.

(** *** Values *)

(** Values that [print] writes as JSON: numbers are numbers, and the nesting is
    within the decoder's limit. *)
Fixpoint wf (d : Z) (v : json) : bool :=
  match v with
  | JNum lit => num_ok lit
  | JArr l => (d <? max_depth) && forallb (wf (d + 1)) l
  | JObj ms => (d <? max_depth) && forallb (fun m => wf (d + 1) (snd m)) ms
  | _ => true
  end.

(** What is read back: invalid bytes in strings have become U+FFFD. *)
Fixpoint coerce (v : json) : json :=
  match v with
  | JStr s => JStr (to_valid s)
  | JArr l => JArr (map coerce l)
  | JObj ms => JObj (map (fun m => (to_valid (fst m), coerce (snd m))) ms)
  | _ => v
  end.

Section json_rect.
Context (Q : json -> Prop) (Hnull : Q JNull) (Hbool : forall b, Q (JBool b)) (Hnum : forall l, Q (JNum l))
  (Hstr : forall s, Q (JStr s)) (Harr : forall l, Forall Q l -> Q (JArr l))
  (Hobj : forall ms, Forall (fun m => Q (snd m)) ms -> Q (JObj ms)).

(** Induction through the lists. *)
Fixpoint json_induction (v : json) : Q v :=
  match v with
  | JNull => Hnull
  | JBool b => Hbool b
  | JNum l => Hnum l
  | JStr s => Hstr s
  | JArr l => Harr l ((fix go l := match l return Forall Q l with
                        | [] => Forall_nil_2 _
                        | x :: l => Forall_cons_2 _ _ _ (json_induction x) (go l)
                        end) l)
  | JObj ms => Hobj ms ((fix go ms := match ms return Forall (fun m => Q (snd m)) ms with
                          | [] => Forall_nil_2 _
                          | m :: ms => Forall_cons_2 _ _ _ (json_induction (snd m)) (go ms)
                          end) ms)
  end.
End json_rect.

(** The first character of a printed value. *)
Definition starts_value (a : ascii) : Prop :=
  a = DQUOTE \/ is_digit a = true \/ code a = 45 \/ code a = 91 \/ code a = 123 \/
  code a = 116 \/ code a = 102 \/ code a = 110.

Lemma chars_cons a s : chars (String a s) = Asc a :: chars s.
Proof. reflexivity. Qed.

Lemma num_ok_head lit : num_ok lit = true ->
  exists a r, chars lit = Asc a :: r /\ (is_digit a = true \/ code a = 45).
Proof.
  intros [N _]%num_ok_parse. destruct lit as [|a s]; [discriminate|]. exists a, (chars s). split; [done|].
  rewrite chars_cons in N. unfold parse_number in N. destruct (code a =? 45) eqn:E1; [right; by apply Z.eqb_eq|left].
  unfold parse_int_part in N. destruct (code a =? 48) eqn:E2.
  - apply Z.eqb_eq in E2. unfold is_digit, in_range. lia.
  - by destruct (is_digit a).
Qed.

Lemma print_head d v : wf d v = true -> exists a r, print v = Asc a :: r /\ starts_value a.
Proof.
  unfold starts_value. destruct v as [|[]|lit|s|l|ms]; simpl; intros W; try (eexists _, _; split; [reflexivity|]; vm_compute; tauto).
  destruct (num_ok_head lit W) as (a & r & -> & H). exists a, r. split; [done|]. tauto.
Qed.

Lemma starts_not_ws a r : starts_value a -> skip_ws (Asc a :: r) = Asc a :: r.
Proof.
  unfold starts_value, is_digit, in_range. intros H. simpl. case_decide as D; [exfalso|done].
  assert (code DQUOTE = 34) by done. destruct H as [->|H]; lia.
Qed.

Lemma starts_not_close a : starts_value a -> (code a =? 93) = false /\ (code a =? 125) = false /\ (code a =? 44) = false.
Proof.
  unfold starts_value, is_digit, in_range. assert (code DQUOTE = 34) by done. intros [->|H']; lia.
Qed.

Lemma quoted_length s : (2 <= length (quoted s))%nat.
Proof. unfold quoted. simpl. rewrite length_app. simpl. lia. Qed.

Lemma parse_quoted s rest : exists r, quoted s ++ rest = Asc DQUOTE :: r /\
  parse_string r = Some (fix_tok <$> runes s, rest).
Proof.
  exists ((flat_map escape (runes s) ++ [Asc DQUOTE]) ++ rest). split; [done|]. rewrite <- app_assoc. apply parse_escapes.
Qed.

(** The parser on a value, a list of elements and a list of members. *)
Definition reads (v : json) : Prop := forall n d rest, wf d v = true -> number_end rest = true ->
  (length (print v) <= n)%nat -> parse_value n d (print v ++ rest) = Some (coerce v, rest).

Lemma parse_elements_print l : Forall reads l -> l <> [] -> forall n d rest, forallb (wf d) l = true ->
  (length (commas (map print l)) < n)%nat ->
  parse_elements n d (commas (map print l) ++ chars "]" ++ rest) = Some (map coerce l, rest).
Proof.
  induction 1 as [|v l Hv Hl IH]; [done|]. intros _ n d rest W N. simpl in W. apply andb_true_iff in W as [Wv W].
  destruct n as [|n]; [lia|]. cbn [parse_elements].
  destruct l as [|u l].
  - simpl commas. simpl in N. rewrite (Hv n d (chars "]" ++ rest)); [reflexivity|done|reflexivity|lia].
  - assert (E : commas (map print (v :: u :: l)) = print v ++ chars "," ++ commas (map print (u :: l))) by reflexivity.
    rewrite E in *. rewrite !length_app in N. change (length (chars ",")) with 1%nat in N.
    pose proof (IH ltac:(done) n d rest W ltac:(lia)) as IHt.
    set (tail := commas (map print (u :: l)) ++ chars "]" ++ rest) in *.
    replace ((print v ++ chars "," ++ commas (map print (u :: l))) ++ chars "]" ++ rest)
      with (print v ++ Asc "," :: tail) by (unfold tail; by rewrite <- !app_assoc).
    rewrite (Hv n d); [|done|reflexivity|lia]. clearbody tail. simpl. by rewrite IHt.
Qed.

Definition print_member (m : string * json) : list tok := quoted (fst m) ++ chars ":" ++ print (snd m).

Lemma parse_members_print ms : Forall (fun m => reads (snd m)) ms -> ms <> [] -> forall n d rest,
  forallb (fun m => wf d (snd m)) ms = true ->
  (length (commas (map print_member ms)) < n)%nat ->
  parse_members n d (commas (map print_member ms) ++ chars "}" ++ rest)
  = Some (map (fun m => (to_valid (fst m), coerce (snd m))) ms, rest).
Proof.
  induction 1 as [|[k v] ms Hv Hms IH]; [done|]. intros _ n d rest W N. simpl in W. apply andb_true_iff in W as [Wv W].
  destruct n as [|n]; [lia|].
  assert (Q : forall tail, number_end tail = true -> (length (print v) <= n)%nat ->
    parse_members (S n) d (print_member (k, v) ++ tail) =
    match skip_ws tail with
    | Asc b :: r =>
        if code b =? 125 then Some ([(to_valid k, coerce v)], r)
        else if code b =? 44 then
          match parse_members n d r with
          | Some (l, r) => Some ((to_valid k, coerce v) :: l, r)
          | None => None
          end
        else None
    | _ => None
    end).
  { intros tail T L. unfold print_member. cbn [fst snd]. rewrite <- !app_assoc.
    destruct (parse_quoted k (chars ":" ++ print v ++ tail)) as (r & -> & P).
    cbn [parse_members]. change (skip_ws (Asc DQUOTE :: r)) with (Asc DQUOTE :: r).
    cbv beta iota. rewrite decide_True by done. rewrite P.
    change (skip_ws (chars ":" ++ print v ++ tail)) with (Asc ":" :: print v ++ tail). cbv beta iota.
    change (code ":" =? 58) with true. cbv iota.
    cbn [snd] in Hv. rewrite (Hv n d tail Wv T L). reflexivity. }
  assert (Lk : (length (print v) < length (print_member (k, v)))%nat).
  { unfold print_member. rewrite !length_app. simpl. lia. }
  destruct ms as [|m ms].
  - simpl commas in *. rewrite Q; [reflexivity|reflexivity|lia].
  - assert (E : commas (map print_member ((k, v) :: m :: ms)) = print_member (k, v) ++ chars "," ++ commas (map print_member (m :: ms))) by reflexivity.
    rewrite E in *. rewrite !length_app in N. change (length (chars ",")) with 1%nat in N.
    pose proof (IH ltac:(done) n d rest W ltac:(lia)) as IHt.
    set (tail := commas (map print_member (m :: ms)) ++ chars "}" ++ rest) in *.
    replace ((print_member (k, v) ++ chars "," ++ commas (map print_member (m :: ms))) ++ chars "}" ++ rest)
      with (print_member (k, v) ++ Asc "," :: tail) by (unfold tail; by rewrite <- !app_assoc).
    rewrite Q; [|reflexivity|lia]. clearbody tail. simpl. by rewrite IHt.
Qed.

Lemma commas_head d l : l <> [] -> forallb (wf d) l = true ->
  exists a r, commas (map print l) = Asc a :: r /\ starts_value a.
Proof.
  destruct l as [|v l]; [done|]. intros _ W. simpl in W. apply andb_true_iff in W as [W _].
  destruct (print_head d v W) as (a & r & E & H). exists a.
  destruct l as [|u l]; [exists r; by split|].
  exists (r ++ chars "," ++ commas (map print (u :: l))). split; [|done].
  change (commas (map print (v :: u :: l))) with (print v ++ chars "," ++ commas (map print (u :: l))). by rewrite E.
Qed.

Lemma parse_print_value v : reads v.
Proof.
  induction v as [|b|lit|s|l IH|ms IH] using json_induction; intros n d rest W E N;
    (destruct n as [|n]; [exfalso; destruct (print_head d _ W) as (? & ? & P & _); rewrite P in N; simpl in N; lia|]).
  - reflexivity.
  - destruct b; reflexivity.
  - destruct (num_ok_head lit W) as (a & r & C & H). apply num_ok_parse in W as [W _].
    assert (X : parse_number (Asc a :: r ++ rest) = Some (lit, rest)).
    { rewrite app_comm_cons, <- C. by apply number_extend. }
    cbn [print coerce]. rewrite C. cbn [app parse_value].
    rewrite starts_not_ws by (unfold starts_value; tauto). cbv beta iota. rewrite X.
    unfold is_digit, in_range in H. rewrite decide_False.
    2: { intros ->. assert (code DQUOTE = 34) by done. lia. }
    by repeat (case_match eqn:Z0; [exfalso; apply Z.eqb_eq in Z0; lia|clear Z0]).
  - cbn [print coerce]. destruct (parse_quoted s rest) as (r & -> & P).
    cbn [parse_value]. rewrite starts_not_ws by (by left). cbv beta iota. rewrite decide_True by done. by rewrite P.
  - cbn [wf] in W. apply andb_true_iff in W as [Wd W]. apply Z.ltb_lt in Wd.
    assert (M : (max_depth <=? d) = false) by (by apply Z.leb_gt).
    destruct l as [|v l]; [simpl; by rewrite M|].
    destruct (commas_head (d + 1) (v :: l) ltac:(done) W) as (a & r & C & S).
    cbn [print coerce] in *. rewrite !length_app in N. change (length (chars "[")) with 1%nat in N.
    change (length (chars "]")) with 1%nat in N.
    pose proof (parse_elements_print (v :: l) IH ltac:(done) n (d + 1) rest W ltac:(lia)) as P.
    rewrite <- !app_assoc. rewrite C in *. cbn [app] in *.
    change (chars "[" ++ Asc a :: r ++ chars "]" ++ rest) with (Asc "[" :: Asc a :: r ++ chars "]" ++ rest).
    cbn [parse_value]. rewrite starts_not_ws by (right; vm_compute; tauto). cbv beta iota.
    rewrite decide_False by done. change (code "[" =? 91) with true. cbv iota. rewrite M, starts_not_ws by done.
    cbv beta iota. destruct (starts_not_close a S) as (-> & _ & _). by rewrite P.
  - cbn [wf] in W. apply andb_true_iff in W as [Wd W]. apply Z.ltb_lt in Wd.
    assert (M : (max_depth <=? d) = false) by (by apply Z.leb_gt).
    destruct ms as [|m ms]; [simpl; by rewrite M|].
    cbn [print coerce] in *. fold print_member in *. rewrite !length_app in N.
    change (length (chars "{")) with 1%nat in N. change (length (chars "}")) with 1%nat in N.
    pose proof (parse_members_print (m :: ms) IH ltac:(done) n (d + 1) rest W ltac:(lia)) as P.
    rewrite <- !app_assoc.
    assert (C : exists r, commas (map print_member (m :: ms)) = Asc DQUOTE :: r).
    { destruct ms; unfold print_member, quoted; simpl; eexists; reflexivity. }
    destruct C as (r & C). rewrite C in *. cbn [app] in *.
    change (chars "{" ++ Asc DQUOTE :: r ++ chars "}" ++ rest) with (Asc "{" :: Asc DQUOTE :: r ++ chars "}" ++ rest).
    cbn [parse_value]. rewrite starts_not_ws by (right; vm_compute; tauto). cbv beta iota.
    rewrite decide_False by done. change (code "{" =? 91) with false. change (code "{" =? 123) with true. cbv iota.
    rewrite M, starts_not_ws by (by left). cbv beta iota. change (code DQUOTE =? 125) with false. cbv iota.
    by rewrite P.
Qed.

(** *** Texts *)

Lemma runes_ok s : forallb rune_ok (runes s) = true.
Proof.
  remember (String.length s) as n eqn:E. assert (L : (String.length s <= n)%nat) by lia. clear E.
  revert s L. induction n as [|n IH]; intros [|a s1] L; simpl in L; try done; try lia.
  assert (I : forall u, (String.length u <= String.length s1)%nat -> forallb rune_ok (runes u) = true) by (intros; apply IH; lia).
  clear IH L n. simpl. destruct (is_ascii a) eqn:A; [simpl; by rewrite A, I|].
  destruct s1 as [|b s2]; [done|]. destruct (two a b) eqn:T2; [simpl; rewrite T2, I; simpl; auto|].
  assert (B : forallb rune_ok (Bad a :: runes (String b s2)) = true) by by apply I.
  destruct s2 as [|c s3]; [exact B|]. destruct (three a b c) eqn:T3; [simpl; rewrite T3, I; simpl; auto|].
  destruct s3 as [|d s4]; [exact B|]. destruct (four a b c d) eqn:T4; [simpl; rewrite T4, I; simpl; auto|exact B].
Qed.

Lemma escape_good t : rune_ok t = true -> forallb good (escape t) = true.
Proof.
  destruct t as [a|s|a]; [|unfold escape|done].
  - destruct a as [[] [] [] [] [] [] [] []]; vm_compute; done.
  - simpl. intros W. case_decide; [done|]. case_decide; [done|]. simpl. by rewrite W.
Qed.

Lemma forallb_flat_map {A B} (f : A -> list B) p q l : (forall a, p a = true -> forallb q (f a) = true) ->
  forallb p l = true -> forallb q (flat_map f l) = true.
Proof.
  intros H. induction l as [|a l IH]; simpl; [done|]. intros [P Ps]%andb_true_iff.
  by rewrite forallb_app, H, IH.
Qed.

Lemma quoted_good s : forallb good (quoted s) = true.
Proof.
  unfold quoted. simpl. rewrite forallb_app. apply andb_true_iff. split; [|done].
  apply (forallb_flat_map _ rune_ok); [apply escape_good|apply runes_ok].
Qed.

Lemma commas_good l : Forall (fun x => forallb good x = true) l -> forallb good (commas l) = true.
Proof.
  induction 1 as [|x l Hx Hl IH]; [done|]. destruct l as [|y l]; [done|].
  change (commas (x :: y :: l)) with (x ++ chars "," ++ commas (y :: l)). by rewrite !forallb_app, Hx, IH.
Qed.

Lemma print_good v : forall d, wf d v = true -> forallb good (print v) = true.
Proof.
  induction v as [|b|lit|s|l IH|ms IH] using json_induction; intros d W.
  - done.
  - by destruct b.
  - by apply num_ok_parse in W as [_ W].
  - apply quoted_good.
  - cbn [wf] in W. apply andb_true_iff in W as [_ W]. cbn [print]. rewrite !forallb_app.
    rewrite commas_good; [done|]. rewrite forallb_forall in W. apply Forall_forall. intros x (v & -> & I)%list_elem_of_fmap.
    rewrite Forall_forall in IH. apply (IH v I (d + 1)), W. by apply list_elem_of_In.
  - cbn [wf] in W. apply andb_true_iff in W as [_ W]. cbn [print]. rewrite !forallb_app.
    rewrite commas_good; [done|]. rewrite forallb_forall in W. apply Forall_forall. intros x (m & -> & I)%list_elem_of_fmap.
    rewrite Forall_forall in IH. rewrite !forallb_app, quoted_good. simpl.
    apply (IH m I (d + 1)), W. by apply list_elem_of_In.
Qed.

(** Reading back what was written, with anything that does not continue a
    number behind it. *)
Lemma decode_marshal v rest : wf 0 v = true -> number_end (runes rest) = true ->
  decode_one (marshal v ++ rest) = Some (coerce v, runes rest).
Proof.
  intros W E. unfold decode_one, marshal. rewrite runes_bytes_of by by apply (print_good v 0).
  apply parse_print_value; [done|done|]. unfold enough. rewrite length_app. lia.
Qed.

Lemma unmarshal_marshal v : wf 0 v = true -> unmarshal (marshal v) = Some (coerce v).
Proof.
  intros W. unfold unmarshal. rewrite <- (append_nil_r (marshal v)).
  by rewrite (decode_marshal v "") by done.
Qed.

(** *** Integers *)

(** [strconv.ParseInt(lit, 10, 64)] on the text of a number. *)
Definition parse_int (lit : string) : option Z :=
  match NilEmpty.int_of_string lit with
  | Some i => if decide (is_int64 (Z.of_int i)) then Some (Z.of_int i) else None
  | None => None
  end.

Lemma parse_Itoa z : is_int64 z -> parse_int (Itoa z) = Some z.
Proof.
  intros R. unfold parse_int, Itoa. rewrite NilEmpty.isi, DecimalZ.of_to. by rewrite decide_True.
Qed.

Lemma digits_uint u : digits (chars (NilEmpty.string_of_uint u)) = (NilEmpty.string_of_uint u, []).
Proof.
  induction u; [done|..]; cbn [NilEmpty.string_of_uint]; rewrite chars_cons; cbn [digits];
    (change (is_digit _) with true; cbv iota; by rewrite IHu).
Qed.

Lemma nzhead_not_D0 u w : Decimal.nzhead u <> Decimal.D0 w.
Proof. induction u; simpl; congruence. Qed.

(** Canonical digits: zero, or digits that do not start with zero. *)
Definition canonical_digits (u : Decimal.uint) : Prop :=
  u = Decimal.zero \/ (u <> Decimal.Nil /\ forall w, u <> Decimal.D0 w).

Lemma Itoa_canonical z : exists u, canonical_digits u /\
  (Itoa z = NilEmpty.string_of_uint u \/ Itoa z = String "-" (NilEmpty.string_of_uint u)).
Proof.
  unfold Itoa. assert (N : Decimal.norm (Z.to_int z) = Z.to_int z).
  { rewrite <- DecimalZ.to_of, DecimalZ.of_to. done. }
  destruct (Z.to_int z) as [u|u]; simpl in N; exists u; (split; [|by (left + right)]).
  - injection N as N. unfold canonical_digits, Decimal.unorm in *.
    pose proof (nzhead_not_D0 u) as H. destruct (Decimal.nzhead u) eqn:E; subst u;
      first [by left | by (exfalso; eapply H) | right; split; congruence].
  - right. pose proof (nzhead_not_D0 u) as H. destruct (Decimal.nzhead u); try discriminate N;
      injection N as <-; split; congruence.
Qed.

Lemma int_part_uint u : canonical_digits u ->
  parse_int_part (chars (NilEmpty.string_of_uint u)) = Some (NilEmpty.string_of_uint u, []).
Proof.
  intros [->|[N0 N1]]; [reflexivity|]. pose proof (digits_uint u) as D.
  destruct u; try done; [by destruct (N1 u)|..]; cbn [NilEmpty.string_of_uint] in *; rewrite chars_cons in *;
    unfold parse_int_part; rewrite D; reflexivity.
Qed.

Lemma uint_good u : forallb good (chars (NilEmpty.string_of_uint u)) = true.
Proof. induction u; [done|..]; cbn [NilEmpty.string_of_uint]; rewrite chars_cons; simpl; done. Qed.

Lemma num_ok_Itoa z : num_ok (Itoa z) = true.
Proof.
  destruct (Itoa_canonical z) as (u & C & E). pose proof (int_part_uint u C) as P. pose proof (uint_good u) as G.
  unfold num_ok. apply andb_true_iff. split.
  - apply bool_decide_eq_true. destruct E as [->| ->].
    + unfold parse_number. destruct u; try (by destruct C as [|[]]); cbn [NilEmpty.string_of_uint] in *;
        rewrite chars_cons in *; change (code _ =? 45) with false; cbv iota; rewrite P; cbv iota;
        cbn [parse_frac parse_exp]; by rewrite !append_nil_r.
    + rewrite chars_cons. unfold parse_number. change (code "-" =? 45) with true. cbv iota. rewrite P.
      cbn [parse_frac parse_exp]. by rewrite !append_nil_r.
  - destruct E as [->| ->]; [done|]. rewrite chars_cons. exact G.
Qed.
