(* ===== verification/FloatText.v ===== *)
(** * FloatText: float64 values as JSON numbers

    Reading is the correctly rounded conversion of strconv.ParseFloat; writing
    is the shortest text that reads back as the same value, in the notation
    that encoding/json chooses by the magnitude. *)

From Stdlib Require Import Ascii DecimalString SpecFloat.
From S2P Require Import Prelude Rounding Binary64 Float64 GoTypes Utf8 Json.
Local Open Scope Z_scope.

(** ** Reading *)

(** The quotient [n / d] of non-negative integers, rounded once. *)
Definition to_float (negative : bool) (n d : Z) : float64 := of_units negative (rn (n * 2 ^ 1074) d).

Definition digit_value (a : ascii) : Z := code a - 48.

Fixpoint digits_value (s : string) (acc : Z) : Z :=
  match s with EmptyString => acc | String a s => digits_value s (acc * 10 + digit_value a) end.

(** [m * 10 ^ e] *)
Definition scaled (negative : bool) (m e : Z) : float64 :=
  if 0 <=? e then to_float negative (m * 10 ^ e) 1 else to_float negative m (10 ^ (- e)).

(** The digits of an exponent, with its sign. *)
Definition exponent_value (ts : list tok) : Z :=
  match ts with
  | Asc b :: r =>
      if code b =? 45 then - digits_value (fst (digits r)) 0
      else if code b =? 43 then digits_value (fst (digits r)) 0
      else digits_value (fst (digits ts)) 0
  | _ => 0
  end.

(** [strconv.ParseFloat(lit, 64)] on the text of a number; [None] when it is
    out of range. *)
Definition parse_float (lit : string) : option float64 :=
  let ts := chars lit in
  let '(negative, ts) :=
    match ts with Asc a :: r => if code a =? 45 then (true, r) else (false, ts) | _ => (false, ts) end in
  let '(i, ts) := digits ts in
  let '(f, ts) :=
    match ts with Asc a :: r => if code a =? 46 then digits r else (""%string, ts) | _ => (""%string, ts) end in
  let e := match ts with Asc a :: r => if (code a =? 101) || (code a =? 69) then exponent_value r else 0 | _ => 0 end in
  let x := scaled negative (digits_value f (digits_value i 0)) (e - Z.of_nat (String.length f)) in
  if is_finite x then Some x else None.

Example parse_float_examples :
  parse_float <$> ["0"; "-1.5"; "0.1"; "2e3"; "1E-1"; "1e400"]%string
  = [Some (f_of_int 0); Some (fdiv (f_of_int (-3)) (f_of_int 2)); Some (f_const 1 10);
     Some (f_of_int 2000); Some (f_const 1 10); None].
Proof. vm_compute. reflexivity. Qed.

(** ** Writing *)

Fixpoint zeros (n : nat) : string := match n with O => "" | S n => String "0" (zeros n) end.

(** The decimal exponent [e] with [10 ^ (e - 1) <= n / d < 10 ^ e], for a
    quotient not below [10 ^ - fuel]. *)
Fixpoint decimal_exponent (fuel : nat) (n d : Z) : Z :=
  if d <=? n then Z.of_nat (String.length (Itoa (n / d)))
  else match fuel with O => 0 | S fuel => decimal_exponent fuel (n * 10) d - 1 end.

(** The digits [m] with the decimal point after the first [e] of them. *)
Definition fixed_notation (m e : Z) : string :=
  let s := Itoa m in
  let p := Z.of_nat (String.length s) in
  if p <=? e then s ++ zeros (Z.to_nat (e - p))
  else if 0 <? e then substring 0 (Z.to_nat e) s ++ "." ++ substring (Z.to_nat e) (Z.to_nat (p - e)) s
  else "0." ++ zeros (Z.to_nat (- e)) ++ s.

(** One digit before the point, and an exponent without leading zeros when it
    is negative, with two digits at least when it is positive. *)
Definition exponent_notation (m e : Z) : string :=
  let s := Itoa m in
  let x := e - 1 in
  substring 0 1 s ++ (if Z.of_nat (String.length s) <=? 1 then "" else "." ++ substring 1 (String.length s - 1) s)
  ++ (if x <? 0 then "e-" ++ Itoa (- x) else "e+" ++ (if x <? 10 then "0" else "") ++ Itoa x).

(** The [p] digits next to a value, below and above. *)
Definition candidates (n d e p : Z) : list Z :=
  let lo := if 0 <=? p - e then n * 10 ^ (p - e) / d else n / (d * 10 ^ (e - p)) in
  let twice_rest := if 0 <=? p - e then 2 * (n * 10 ^ (p - e) - lo * d) - d
                    else 2 * (n - lo * (d * 10 ^ (e - p))) - d * 10 ^ (e - p) in
  if (twice_rest <? 0) || ((twice_rest =? 0) && Z.even lo) then [lo; lo + 1] else [lo + 1; lo].

Definition notation (x : float64) (m p e : Z) : string :=
  let e := if m =? 10 ^ p then e + 1 else e in
  let m := if m =? 10 ^ p then 1 else m in
  let small := fltb (SFabs x) (f_const 1 1000000) in
  let large := fleb (f_of_int (10 ^ 21)) (SFabs x) in
  (match x with S754_finite true _ _ => "-" | _ => "" end)
  ++ (if small || large then exponent_notation m e else fixed_notation m e).

(** The first text, with [p] digits or more up to 17, that is a number and
    reads back as [x]. *)
Fixpoint shortest (fuel : nat) (x : float64) (n d e p : Z) : option string :=
  match fuel with
  | O => None
  | S fuel =>
      match list_find (fun m => parse_float (notation x m p e) = Some x /\ num_ok (notation x m p e) = true)
                      (candidates n d e p) with
      | Some (_, m) => Some (notation x m p e)
      | None => shortest fuel x n d e (p + 1)
      end
  end.

(** What encoding/json writes for a float64; infinities and NaN have no text. *)
Definition format_float (x : float64) : option string :=
  match x with
  | S754_zero s => Some (if s then "-0" else "0")
  | S754_finite s m e =>
      let n := Z.abs (units x) in
      shortest 17 x n (2 ^ 1074) (decimal_exponent 330 n (2 ^ 1074)) 1
  | _ => None
  end%string.

Example format_float_examples :
  format_float <$> [f_of_int 0; f_const 1 10; f_of_int 120; f_of_int (-3);
                    f_const 1 1000000; f_const 1 10000000; f_of_int (10 ^ 21);
                    f_const 5 100000000000; S754_infinity true]
  = [Some "0"; Some "0.1"; Some "120"; Some "-3";
     Some "0.000001"; Some "1e-7"; Some "1e+21";
     Some "5e-11"; None]%string.
Proof. vm_compute. reflexivity. Qed.

(** What was written reads back, and is a JSON number. *)
Lemma shortest_reads fuel x n d e p lit : shortest fuel x n d e p = Some lit ->
  parse_float lit = Some x /\ num_ok lit = true.
Proof.
  revert p. induction fuel as [|fuel IH]; intros p; simpl; [done|].
  destruct (list_find _ _) as [[i m]|] eqn:E; [|apply IH].
  intros [= <-]. by apply list_find_Some in E as (_ & H & _).
Qed.

Lemma format_float_reads x lit : format_float x = Some lit -> parse_float lit = Some x /\ num_ok lit = true.
Proof.
  destruct x as [[]|s| |s m e]; [intros [= <-]; split; by vm_compute..|done|done|].
  apply shortest_reads.
Qed.
