(* ===== verification/Decode.v ===== *)
(** * Decode: JSON values into Go variables

    A decoder updates a variable in place and says whether everything fitted:
    encoding/json skips what does not fit, goes on, and reports the first
    mismatch at the end.  Null leaves scalars and structs alone. *)

From Stdlib Require Import Ascii.
From S2P Require Import Prelude Rounding Binary64 Float64 GoTypes Utf8 Json FloatText.
Local Open Scope Z_scope.

Definition decoder (A : Type) : Type := json -> A -> A * bool.

Definition dec_string : decoder string := fun v old =>
  match v with JNull => (old, true) | JStr s => (s, true) | _ => (old, false) end.

Definition dec_bool : decoder bool := fun v old =>
  match v with JNull => (old, true) | JBool b => (b, true) | _ => (old, false) end.

Definition dec_int : decoder Z := fun v old =>
  match v with
  | JNull => (old, true)
  | JNum lit => match parse_int lit with Some z => (z, true) | None => (old, false) end
  | _ => (old, false)
  end.

Definition dec_float : decoder float64 := fun v old =>
  match v with
  | JNull => (old, true)
  | JNum lit => match parse_float lit with Some x => (x, true) | None => (old, false) end
  | _ => (old, false)
  end.

(** The elements of a slice: those it had are updated, new ones start at zero. *)
Fixpoint dec_elements {A} (dec : decoder A) (zero : A) (vs : list json) (old : list A) : list A * bool :=
  match vs with
  | [] => ([], true)
  | v :: vs =>
      let '(x, ok) := dec v (default zero (head old)) in
      let '(xs, oks) := dec_elements dec zero vs (tail old) in
      (x :: xs, ok && oks)
  end.

(** Slices; null gives nil. *)
Definition dec_slice {A} (dec : decoder A) (zero : A) : decoder (option (list A)) := fun v old =>
  match v with
  | JNull => (None, true)
  | JArr vs => let '(xs, ok) := dec_elements dec zero vs (default [] old) in (Some xs, ok)
  | _ => (old, false)
  end.

(** ** Structs *)

(** Folding of a name to upper case; U+017F and U+212A fold to S and K. *)
Definition fold_rune (t : tok) : tok :=
  match t with
  | Asc a => if in_range 97 122 a then Asc (byte (code a - 32)) else t
  | Uni s =>
      if decide (s = String (byte 197) (String (byte 191) "")) then Asc "S"
      else if decide (s = String (byte 226) (String (byte 132) (String (byte 170) ""))) then Asc "K"
      else t
  | Bad _ => replacement
  end.

Definition fold_name (s : string) : list tok := fold_rune <$> runes s.

Definition fields (A : Type) : Type := list (string * decoder A).

(** A field by its exact name, or by its name up to case. *)
Definition find_field {A} (fs : fields A) (key : string) : option (decoder A) :=
  match list_find (fun f => fst f = key) fs with
  | Some (_, f) => Some (snd f)
  | None =>
      match list_find (fun f => fold_name (fst f) = fold_name key) fs with
      | Some (_, f) => Some (snd f)
      | None => None
      end
  end.

(** The members in order; those that name no field are skipped. *)
Fixpoint dec_members {A} (fs : fields A) (ms : list (string * json)) (x : A) : A * bool :=
  match ms with
  | [] => (x, true)
  | (k, v) :: ms =>
      let '(x, ok) := match find_field fs k with Some dec => dec v x | None => (x, true) end in
      let '(x, oks) := dec_members fs ms x in (x, ok && oks)
  end.

Definition dec_struct {A} (fs : fields A) : decoder A := fun v old =>
  match v with
  | JNull => (old, true)
  | JObj ms => dec_members fs ms old
  | _ => (old, false)
  end.

(** A field of a struct, from its getter and setter. *)
Definition field {A B} (get : A -> B) (set : B -> A -> A) (dec : decoder B) : decoder A := fun v x =>
  let '(b, ok) := dec v (get x) in (set b x, ok).

(** A pointer: null makes it nil, anything else is decoded into what it points
    to, or into a new zero value. *)
Definition dec_pointer {A} (dec : decoder A) (zero : A) : decoder (option A) := fun v old =>
  match v with
  | JNull => (None, true)
  | _ => let '(x, ok) := dec v (default zero old) in (Some x, ok)
  end.

(** [json.Unmarshal(data, &x)]: the new value of [x] and whether there was no
    error.  A syntax error is found before anything is stored. *)
Definition Unmarshal {A} (dec : decoder A) (data : string) (x : A) : A * bool :=
  match unmarshal data with Some v => dec v x | None => (x, false) end.

(** [json.NewDecoder(r).Decode(&x)] *)
Definition Decode {A} (dec : decoder A) (body : string) (x : A) : A * bool :=
  match decode_one body with Some (v, _) => dec v x | None => (x, false) end.

Lemma Unmarshal_marshal {A} (dec : decoder A) v x : wf 0 v = true ->
  Unmarshal dec (marshal v) x = dec (coerce v) x.
Proof. intros W. unfold Unmarshal. by rewrite unmarshal_marshal. Qed.

Lemma Decode_marshal {A} (dec : decoder A) v rest x : wf 0 v = true -> number_end (runes rest) = true ->
  Decode dec (marshal v ++ rest) x = dec (coerce v) x.
Proof. intros W E. unfold Decode. by rewrite decode_marshal. Qed.

(** ** Scalars read back *)

Definition JInt (z : Z) : json := JNum (Itoa z).
Definition JStrings (l : option (list string)) : json :=
  match l with None => JNull | Some l => JArr (JStr <$> l) end.

Lemma dec_string_back s old : valid_utf8 s = true -> dec_string (coerce (JStr s)) old = (s, true).
Proof. intros V. simpl. by rewrite to_valid_id. Qed.

Lemma dec_int_back z old : is_int64 z -> dec_int (coerce (JInt z)) old = (z, true).
Proof. intros R. simpl. by rewrite parse_Itoa. Qed.

Lemma dec_strings_back l old : forallb valid_utf8 (default [] l) = true ->
  dec_slice dec_string "" (coerce (JStrings l)) old = (l, true).
Proof.
  destruct l as [l|]; [|done]. simpl. intros V. unfold dec_slice.
  assert (E : forall o, dec_elements dec_string ""%string (map coerce (JStr <$> l)) o = (l, true)).
  { induction l as [|s l IH]; intros o; [done|]. simpl in V. apply andb_true_iff in V as [V1 V].
    simpl. rewrite to_valid_id by done. by rewrite IH. }
  by rewrite E.
Qed.

Lemma wf_strings d l : d < max_depth -> wf d (JStrings l) = true.
Proof.
  intros D. destruct l as [l|]; [|done]. simpl. apply andb_true_iff. split; [by apply Z.ltb_lt|].
  apply forallb_forall. intros x I. apply list_elem_of_In, list_elem_of_fmap in I as (s & -> & _). done.
Qed.

(** ** Structs read back *)

Lemma dec_member_step {A} (fs : fields A) k v ms x dec y :
  find_field fs (to_valid k) = Some dec -> dec (coerce v) x = (y, true) ->
  dec_members fs (map (fun m => (to_valid (fst m), coerce (snd m))) ((k, v) :: ms)) x
  = dec_members fs (map (fun m => (to_valid (fst m), coerce (snd m))) ms) y.
Proof. intros F D. simpl. rewrite F, D. by destruct (dec_members fs _ y). Qed.

Lemma field_back {A B} (get : A -> B) set (dec : decoder B) v x b :
  dec v (get x) = (b, true) -> field get set dec v x = (set b x, true).
Proof. intros E. unfold field. by rewrite E. Qed.

Lemma dec_bool_back b old : dec_bool (coerce (JBool b)) old = (b, true).
Proof. reflexivity. Qed.

Lemma dec_elements_back {A} (dec : decoder A) zero (to : A -> json) (l : list A) :
  Forall (fun a => forall old, dec (coerce (to a)) old = (a, true)) l ->
  forall old, dec_elements dec zero (map coerce (to <$> l)) old = (l, true).
Proof. induction 1 as [|a l Ha Hl IH]; intros old; [done|]. simpl. by rewrite Ha, IH. Qed.

Lemma wf_array {A} d (to : A -> json) (l : list A) : d < max_depth ->
  (forall a, wf (d + 1) (to a) = true) -> wf d (JArr (to <$> l)) = true.
Proof.
  intros D W. simpl. apply andb_true_iff. split; [by apply Z.ltb_lt|].
  apply forallb_forall. intros x I. apply list_elem_of_In, list_elem_of_fmap in I as (s & -> & _). done.
Qed.

Lemma wf_object d ms : d < max_depth -> Forall (fun m => wf (d + 1) (snd m) = true) ms -> wf d (JObj ms) = true.
Proof.
  intros D F. simpl. apply andb_true_iff. split; [by apply Z.ltb_lt|].
  apply forallb_forall. intros m I. rewrite Forall_forall in F. by apply F, list_elem_of_In.
Qed.

Create HintDb json.
#[export] Hint Resolve dec_string_back dec_int_back dec_bool_back dec_strings_back field_back num_ok_Itoa : json.

(** Reads the members of a printed struct back, one after the other. *)
Ltac decode_members :=
  repeat (erewrite dec_member_step;
    [|reflexivity
     |cbn [snd]; apply field_back;
      first [apply dec_string_back | apply dec_int_back | apply dec_bool_back | apply dec_strings_back
            | solve [eauto with json]]; solve [eauto with json]]).
