(* ===== verification/Monitor.v ===== *)
(** * Monitor: provider health (internal/router/router.go)

    The interface [HealthMonitor] and its implementation [EWMAMonitor], which
    keeps exponentially weighted moving averages of latency and error rate in
    binary64.  Each method runs under the locks of the Go code, so an execution
    is a sequence of the operations below in some order; [now] is the reading
    of [time.Now] that [getMetrics] takes when it creates an entry. *)

From S2P Require Import Prelude Rounding Binary64 Float64 GoTypes.
From Stdlib Require Import SpecFloat.
Local Open Scope Z_scope.

Inductive ProviderState := StateHealthy | StateDegraded | StateUnhealthy.

#[export] Instance ProviderState_eq_dec : EqDecision ProviderState.
Proof. solve_decision. Defined.

(** The record of one provider; its mutex is the atomicity of the methods. *)
Record providerMetrics := {
  latencyEWMA : float64;
  errorRate : float64;
  lastUpdate : Z;
  alpha : float64
}.

Record EWMAMonitor := { metrics : gmap string providerMetrics }.

(** ** The interface *)

Class HealthMonitor (Mon : Type) := {
  RecordSuccess : Z -> string -> Z -> Mon -> Mon;
  RecordError : Z -> string -> Z -> Mon -> Mon;
  GetState : Z -> string -> Mon -> ProviderState * Mon;
  ForceFailure : Z -> string -> Mon -> Mon;
  (** the type assertion [monitor.( *EWMAMonitor)], and the interface value
      that holds the same monitor after a change *)
  as_EWMAMonitor : Mon -> option EWMAMonitor;
  of_EWMAMonitor : EWMAMonitor -> Mon
}.

(** What a client may rely on: reading does not change what is read, an
    operation on one provider leaves the others' state alone, and a forced
    failure is seen at once. *)
Class HealthMonitorLaws (Mon : Type) `{HealthMonitor Mon} := {
  observe : Mon -> string -> ProviderState;
  GetState_observe now p m : fst (GetState now p m) = observe m p;
  GetState_pure now p m q : observe (snd (GetState now p m)) q = observe m q;
  ForceFailure_observe now p m : observe (ForceFailure now p m) p = StateUnhealthy;
  ForceFailure_other now p m q : p <> q -> observe (ForceFailure now p m) q = observe m q;
  RecordSuccess_other now p l m q : p <> q -> observe (RecordSuccess now p l m) q = observe m q;
  RecordError_other now p c m q : p <> q -> observe (RecordError now p c m) q = observe m q
}.

(** ** The implementation *)

Module EWMA.

Definition NewEWMAMonitor : EWMAMonitor := {| metrics := ∅ |}.

(** The literals of the source. *)
Definition f_0 : float64 := f_of_int 0.
Definition f_1 : float64 := f_of_int 1.
Definition f_0_1 : float64 := f_const 1 10.
Definition f_0_2 : float64 := f_const 2 10.
Definition f_0_5 : float64 := f_const 5 10.
Definition f_5000 : float64 := f_of_int 5000.

Definition new_metrics (now : Z) : providerMetrics :=
  {| latencyEWMA := f_0; errorRate := f_0; lastUpdate := now; alpha := f_0_1 |}.

Definition getMetrics (now : Z) (provider : string) (m : EWMAMonitor) : providerMetrics * EWMAMonitor :=
  match metrics m !! provider with
  | Some pm => (pm, m)
  | None => let pm := new_metrics now in (pm, {| metrics := <[provider := pm]> (metrics m) |})
  end.

(** Writes through the pointer that [getMetrics] returned. *)
Definition store (provider : string) (pm : providerMetrics) (m : EWMAMonitor) : EWMAMonitor :=
  {| metrics := <[provider := pm]> (metrics m) |}.

(** The moving average of the source: [alpha*x + (1-alpha)*avg]. *)
Definition ewma (a x avg : float64) : float64 :=
  fadd (fmul a x) (fmul (fsub f_1 a) avg).

Definition on_success (latency : Z) (pm : providerMetrics) : providerMetrics :=
  let ms := f_of_int (Milliseconds latency) in
  {| latencyEWMA := if feqb (latencyEWMA pm) f_0 then ms else ewma (alpha pm) ms (latencyEWMA pm);
     errorRate := fmul (fsub f_1 (alpha pm)) (errorRate pm);
     lastUpdate := lastUpdate pm;
     alpha := alpha pm |}.

Definition on_error (pm : providerMetrics) : providerMetrics :=
  {| latencyEWMA := latencyEWMA pm;
     errorRate := ewma (alpha pm) f_1 (errorRate pm);
     lastUpdate := lastUpdate pm;
     alpha := alpha pm |}.

Definition on_force (pm : providerMetrics) : providerMetrics :=
  {| latencyEWMA := latencyEWMA pm; errorRate := f_1; lastUpdate := lastUpdate pm; alpha := alpha pm |}.

Definition RecordSuccess (now : Z) (provider : string) (latency : Z) (m : EWMAMonitor) : EWMAMonitor :=
  let '(pm, m) := getMetrics now provider m in store provider (on_success latency pm) m.

(** The status code is not used. *)
Definition RecordError (now : Z) (provider : string) (statusCode : Z) (m : EWMAMonitor) : EWMAMonitor :=
  let '(pm, m) := getMetrics now provider m in store provider (on_error pm) m.

Definition ForceFailure (now : Z) (provider : string) (m : EWMAMonitor) : EWMAMonitor :=
  let '(pm, m) := getMetrics now provider m in store provider (on_force pm) m.

(** [x > c] is [c < x]. *)
Definition state_of (pm : providerMetrics) : ProviderState :=
  if fltb f_0_5 (errorRate pm) then StateUnhealthy
  else if fltb f_0_2 (errorRate pm) || fltb f_5000 (latencyEWMA pm) then StateDegraded
  else StateHealthy.

Definition GetState (now : Z) (provider : string) (m : EWMAMonitor) : ProviderState * EWMAMonitor :=
  let '(pm, m) := getMetrics now provider m in (state_of pm, m).

(** The metrics a provider has, the defaults when it was never seen. *)
Definition metrics_of (m : EWMAMonitor) (provider : string) : providerMetrics :=
  default (new_metrics 0) (metrics m !! provider).

Definition health (m : EWMAMonitor) (provider : string) : ProviderState :=
  state_of (metrics_of m provider).

End EWMA.
Import EWMA(NewEWMAMonitor, f_0, f_1, f_0_1, f_0_2, f_0_5, f_5000, new_metrics, getMetrics,
  store, ewma, on_success, on_error, on_force, state_of, metrics_of).

#[export] Instance EWMAMonitor_HealthMonitor : HealthMonitor EWMAMonitor := {
  RecordSuccess := EWMA.RecordSuccess;
  RecordError := EWMA.RecordError;
  GetState := EWMA.GetState;
  ForceFailure := EWMA.ForceFailure;
  as_EWMAMonitor := Some;
  of_EWMAMonitor := id
}.

(** The scenario of router_test.go. *)
Example router_test_scenario :
  let m := EWMA.RecordSuccess 0 "p1" (100 * Millisecond) NewEWMAMonitor in
  let m' := Nat.iter 10 (EWMA.RecordError 0 "p1" 500) m in
  let m'' := Nat.iter 20 (EWMA.RecordSuccess 0 "p1" (50 * Millisecond)) m' in
  (EWMA.health NewEWMAMonitor "p1", latencyEWMA (metrics_of m "p1"), EWMA.health m' "p1", EWMA.health m'' "p1")
  = (StateHealthy, f_of_int 100, StateUnhealthy, StateHealthy).
Proof. vm_compute. reflexivity. Qed.

(** ** Equality of metrics up to the creation time *)

(** [lastUpdate] is written once and never read. *)
Definition pm_eq (a b : providerMetrics) : Prop :=
  latencyEWMA a = latencyEWMA b /\ errorRate a = errorRate b /\ alpha a = alpha b.

#[export] Instance pm_eq_equivalence : Equivalence pm_eq.
Proof.
  split; [by intros ?|by intros ?? (?&?&?)|].
  intros ??? (?&?&?) (?&?&?). unfold pm_eq. by repeat split; etrans.
Qed.

#[export] Instance state_of_proper : Proper (pm_eq ==> eq) state_of.
Proof. intros a b (E1 & E2 & _). unfold state_of. by rewrite E1, E2. Qed.

#[export] Instance on_success_proper l : Proper (pm_eq ==> pm_eq) (on_success l).
Proof. intros a b (E1 & E2 & E3). unfold pm_eq, on_success; simpl. by rewrite E1, E2, E3. Qed.

#[export] Instance on_error_proper : Proper (pm_eq ==> pm_eq) on_error.
Proof. intros a b (E1 & E2 & E3). unfold pm_eq, on_error; simpl. by rewrite E1, E2, E3. Qed.

#[export] Instance on_force_proper : Proper (pm_eq ==> pm_eq) on_force.
Proof. intros a b (E1 & E2 & E3). unfold pm_eq, on_force; simpl. by rewrite E1, E3. Qed.

(** ** The map of a monitor as a family of independent records *)

Lemma getMetrics_fst now p m : pm_eq (fst (getMetrics now p m)) (metrics_of m p).
Proof. unfold getMetrics, metrics_of. by destruct (metrics m !! p). Qed.

Lemma getMetrics_snd now p m q : pm_eq (metrics_of (snd (getMetrics now p m)) q) (metrics_of m q).
Proof.
  unfold getMetrics, metrics_of. destruct (metrics m !! p) eqn:E; simpl; [done|].
  destruct (decide (p = q)) as [->|]; [by rewrite lookup_insert_eq, E|by rewrite lookup_insert_ne].
Qed.

Lemma getMetrics_known now p m pm : metrics m !! p = Some pm -> getMetrics now p m = (pm, m).
Proof. unfold getMetrics. by intros ->. Qed.

Lemma metrics_of_store p pm m q :
  metrics_of (store p pm m) q = if decide (p = q) then pm else metrics_of m q.
Proof. unfold metrics_of, store; simpl. rewrite lookup_insert. by case_decide. Qed.

(** The effect of a method on the records of all providers. *)
Lemma update_metrics now p (f : providerMetrics -> providerMetrics) m q `{!Proper (pm_eq ==> pm_eq) f} :
  pm_eq (metrics_of (let '(pm, m') := getMetrics now p m in store p (f pm) m') q)
        (if decide (p = q) then f (metrics_of m q) else metrics_of m q).
Proof.
  pose proof (getMetrics_fst now p m) as E1. pose proof (getMetrics_snd now p m q) as E2.
  destruct (getMetrics now p m) as [pm m']; simpl in *. rewrite metrics_of_store.
  case_decide; [subst q; by f_equiv|done].
Qed.

Lemma EWMA_GetState_observe now p m : fst (EWMA.GetState now p m) = EWMA.health m p.
Proof.
  unfold EWMA.GetState, EWMA.health. pose proof (getMetrics_fst now p m) as E.
  destruct (getMetrics now p m); simpl in *. by rewrite E.
Qed.

Lemma EWMA_GetState_pure now p m q : EWMA.health (snd (EWMA.GetState now p m)) q = EWMA.health m q.
Proof.
  unfold EWMA.GetState, EWMA.health. pose proof (getMetrics_snd now p m q) as E.
  destruct (getMetrics now p m); simpl in *. by rewrite E.
Qed.

#[export] Instance EWMAMonitor_laws : HealthMonitorLaws EWMAMonitor.
Proof.
  refine {| observe := EWMA.health |}; simpl.
  - apply EWMA_GetState_observe.
  - apply EWMA_GetState_pure.
  - intros now p m. unfold EWMA.ForceFailure, EWMA.health.
    rewrite (update_metrics now p on_force m p), decide_True by done. done.
  - intros now p m q Hn. unfold EWMA.ForceFailure, EWMA.health.
    by rewrite (update_metrics now p on_force m q), decide_False.
  - intros now p l m q Hn. unfold EWMA.RecordSuccess, EWMA.health.
    by rewrite (update_metrics now p (on_success l) m q), decide_False.
  - intros now p c m q Hn. unfold EWMA.RecordError, EWMA.health.
    by rewrite (update_metrics now p on_error m q), decide_False.
Defined.

(** ** Executions *)

(** One call of a method; the events of one provider are its automaton's input. *)
Inductive event := Success (latency : Z) | Failure (statusCode : Z) | Forced | Read.

Record call := Call { at_time : Z; target : string; what : event }.

Definition step (c : call) (m : EWMAMonitor) : EWMAMonitor :=
  match what c with
  | Success l => EWMA.RecordSuccess (at_time c) (target c) l m
  | Failure s => EWMA.RecordError (at_time c) (target c) s m
  | Forced => EWMA.ForceFailure (at_time c) (target c) m
  | Read => snd (EWMA.GetState (at_time c) (target c) m)
  end.

Definition run (cs : list call) (m : EWMAMonitor) : EWMAMonitor := fold_left (flip step) cs m.

Definition pm_step (e : event) (pm : providerMetrics) : providerMetrics :=
  match e with
  | Success l => on_success l pm
  | Failure _ => on_error pm
  | Forced => on_force pm
  | Read => pm
  end.

Definition pm_run (es : list event) (pm : providerMetrics) : providerMetrics :=
  fold_left (flip pm_step) es pm.

(** The events of one provider in an execution. *)
Definition events_of (p : string) (cs : list call) : list event :=
  what <$> filter (fun c => target c = p) cs.

#[export] Instance pm_step_proper e : Proper (pm_eq ==> pm_eq) (pm_step e).
Proof. intros a b E. destruct e; simpl; by rewrite E. Qed.

#[export] Instance pm_run_proper es : Proper (pm_eq ==> pm_eq) (pm_run es).
Proof. induction es as [|e es IH]; intros a b E; simpl; [done|]. apply IH. by rewrite E. Qed.

Lemma step_metrics c m q :
  pm_eq (metrics_of (step c m) q)
        (if decide (target c = q) then pm_step (what c) (metrics_of m q) else metrics_of m q).
Proof.
  destruct c as [now p e]; destruct e; simpl.
  - apply (update_metrics now p (on_success latency) m q).
  - apply (update_metrics now p on_error m q).
  - apply (update_metrics now p on_force m q).
  - unfold step, EWMA.GetState; simpl. pose proof (getMetrics_snd now p m q) as E.
    destruct (getMetrics now p m); simpl in *. by case_decide.
Qed.

(** Whatever the interleaving, the record of a provider is the one its own events give. *)
Lemma monitor_projection cs m p :
  pm_eq (metrics_of (run cs m) p) (pm_run (events_of p cs) (metrics_of m p)).
Proof.
  revert m. induction cs as [|c cs IH]; intros m; [done|].
  change (run (c :: cs) m) with (run cs (step c m)).
  rewrite IH, (step_metrics c m p). unfold events_of. rewrite filter_cons.
  by case_decide.
Qed.

(** ** The invariant of the records *)

Definition rate_itv : itv := Itv f_0 f_1.
(** Every duration is below [2 ^ 44] milliseconds. *)
Definition latency_itv : itv := Itv f_0 (f_of_int (2 ^ 44)).

Record wf_metrics (pm : providerMetrics) : Prop := {
  wf_alpha : alpha pm = f_0_1;
  wf_rate : inside (errorRate pm) rate_itv;
  wf_latency : inside (latencyEWMA pm) latency_itv
}.

Definition sample_ok (e : event) : Prop :=
  match e with Success l => 0 <= l <= max_int64 | _ => True end.

(** One average of a sample from [i] and an average from [j]. *)
Definition ewma_itv (i j : itv) : itv :=
  iadd (imul (iconst f_0_1) i) (imul (iconst (fsub f_1 f_0_1)) j).
Definition fade_itv (j : itv) : itv := imul (iconst (fsub f_1 f_0_1)) j.

Definition ewma_side (i j : itv) : bool :=
  nonneg_itv i && nonneg_itv j && proper (imul (iconst f_0_1) i) && proper (fade_itv j) && proper (ewma_itv i j).

Lemma alpha_weights : is_finite f_0_1 = true /\ is_finite (fsub f_1 f_0_1) = true /\
  nonneg_itv (iconst f_0_1) = true /\ nonneg_itv (iconst (fsub f_1 f_0_1)) = true.
Proof. vm_compute. tauto. Qed.

Lemma fade_inside y j : inside y j -> nonneg_itv j && proper (fade_itv j) = true ->
  inside (fmul (fsub f_1 f_0_1) y) (fade_itv j).
Proof.
  intros Hy (N & P)%andb_true_iff. destruct alpha_weights as (_ & F & _ & W).
  apply fmul_inside; auto with float.
Qed.

Lemma ewma_inside x y i j : inside x i -> inside y j -> ewma_side i j = true ->
  inside (ewma f_0_1 x y) (ewma_itv i j).
Proof.
  intros Hx Hy S. unfold ewma_side in S. rewrite !andb_true_iff in S. destruct S as [[[[N1 N2] P1] P2] P3].
  destruct alpha_weights as (F & _ & W & _).
  apply fadd_inside; [apply fmul_inside; auto with float| |assumption].
  apply fade_inside; [assumption|]. by rewrite N2, P2.
Qed.

(** Averaging over intervals that the computed result stays within. *)
Lemma ewma_stays x y i j k : inside x i -> inside y j -> ewma_side i j = true ->
  within (ewma_itv i j) k = true -> inside (ewma f_0_1 x y) k.
Proof. intros. eapply inside_within; [by apply ewma_inside|assumption]. Qed.

Lemma fade_stays y j k : inside y j -> nonneg_itv j && proper (fade_itv j) = true ->
  within (fade_itv j) k = true -> inside (fmul (fsub f_1 f_0_1) y) k.
Proof. intros. eapply inside_within; [by apply fade_inside|assumption]. Qed.

Lemma Milliseconds_range l a b : 0 <= a -> a * Millisecond <= l <= b * Millisecond -> a <= Milliseconds l <= b.
Proof.
  unfold Milliseconds, Millisecond. intros. rewrite Z.quot_div_nonneg by lia.
  split; [apply Z.div_le_lower_bound|apply Z.div_le_upper_bound]; lia.
Qed.

Lemma sample_inside l : 0 <= l <= max_int64 -> inside (f_of_int (Milliseconds l)) latency_itv.
Proof.
  intros Hl. apply f_of_int_inside; [|by vm_compute].
  apply Milliseconds_range; unfold max_int64, Millisecond in *; lia.
Qed.

Lemma new_metrics_wf now : wf_metrics (new_metrics now).
Proof.
  split; [reflexivity| |]; simpl;
    (eapply inside_within; [apply (inside_iconst f_0); reflexivity|by vm_compute]).
Qed.

Lemma pm_step_wf e pm : sample_ok e -> wf_metrics pm -> wf_metrics (pm_step e pm).
Proof.
  intros Hs [Ha Hr Hl]. destruct e as [l|s| |]; [split|split|split|done]; simpl; try assumption.
  - rewrite Ha. apply (fade_stays _ rate_itv); [assumption|by vm_compute|by vm_compute].
  - destruct (feqb (latencyEWMA pm) f_0); [by apply sample_inside|]. rewrite Ha.
    apply (ewma_stays _ _ latency_itv latency_itv); [by apply sample_inside|assumption|by vm_compute|by vm_compute].
  - rewrite Ha.
    apply (ewma_stays _ _ (iconst f_1) rate_itv); [by apply inside_iconst|assumption|by vm_compute|by vm_compute].
  - eapply inside_within; [by apply (inside_iconst f_1)|by vm_compute].
Qed.

Lemma pm_run_wf es pm : Forall sample_ok es -> wf_metrics pm -> wf_metrics (pm_run es pm).
Proof.
  intros H. revert pm. induction H as [|e es He _ IH]; intros pm W; simpl; [done|].
  by apply IH, pm_step_wf.
Qed.

#[export] Instance wf_metrics_proper : Proper (pm_eq ==> iff) wf_metrics.
Proof.
  intros a b (E1 & E2 & E3). split; intros [A R L]; split; by rewrite ?E1, ?E2, ?E3 || by rewrite <- ?E1, <- ?E2, <- ?E3.
Qed.

Definition wf_monitor (m : EWMAMonitor) : Prop := forall p, wf_metrics (metrics_of m p).

Lemma NewEWMAMonitor_wf : wf_monitor NewEWMAMonitor.
Proof. intros p. apply new_metrics_wf. Qed.

Lemma events_of_samples p cs : Forall (fun c => sample_ok (what c)) cs -> Forall sample_ok (events_of p cs).
Proof.
  rewrite !Forall_forall. intros H e. unfold events_of. rewrite list_elem_of_fmap.
  intros (c & -> & (_ & Hc)%list_elem_of_filter). by apply H.
Qed.

Lemma run_wf cs m : Forall (fun c => sample_ok (what c)) cs -> wf_monitor m -> wf_monitor (run cs m).
Proof.
  intros H W p. rewrite monitor_projection. apply pm_run_wf; [by apply events_of_samples|apply W].
Qed.

(** ** How fast the state changes *)

(** What one event does to the error rate of a well-formed record. *)
Definition rate_step (e : event) (r : float64) : float64 :=
  match e with
  | Success _ => fmul (fsub f_1 f_0_1) r
  | Failure _ => ewma f_0_1 f_1 r
  | Forced => f_1
  | Read => r
  end.

Lemma errorRate_step e pm : alpha pm = f_0_1 -> errorRate (pm_step e pm) = rate_step e (errorRate pm).
Proof. intros A. destruct e; simpl; by rewrite ?A. Qed.

Lemma alpha_step e pm : alpha (pm_step e pm) = alpha pm.
Proof. by destruct e. Qed.

Definition is_failure (e : event) : bool := match e with Failure _ => true | _ => false end.
Definition is_success (e : event) : bool := match e with Success _ => true | _ => false end.
Definition is_read (e : event) : bool := match e with Read => true | _ => false end.

Definition count (k : event -> bool) (es : list event) : nat := length (filter (fun e => Is_true (k e)) es).

Lemma events_of_cons p c cs :
  events_of p (c :: cs) = if decide (target c = p) then what c :: events_of p cs else events_of p cs.
Proof. unfold events_of. rewrite filter_cons. by case_decide. Qed.

Lemma events_of_replicate now p e n : events_of p (replicate n (Call now p e)) = replicate n e.
Proof.
  induction n as [|n IH]; [done|]. simpl. rewrite events_of_cons, IH. by rewrite decide_True.
Qed.

Lemma count_cons k e es : count k (e :: es) = if k e then S (count k es) else count k es.
Proof. unfold count. rewrite filter_cons. case_decide; destruct (k e); done. Qed.

Lemma count_replicate k e n : k e = true -> count k (replicate n e) = n.
Proof. intros K. induction n as [|n IH]; [done|]. simpl. by rewrite count_cons, K, IH. Qed.

(** Runs of one kind of event, reads in between, iterate one function. *)
Lemma rate_run k g es pm : alpha pm = f_0_1 ->
  (forall e r, Is_true (k e) -> rate_step e r = g r) ->
  Forall (fun e => Is_true (k e) \/ e = Read) es -> ~ Is_true (k Read) ->
  errorRate (pm_run es pm) = Nat.iter (count k es) g (errorRate pm).
Proof.
  intros A G H R. revert pm A. induction H as [|e es He _ IH]; intros pm A; [done|].
  change (pm_run (e :: es) pm) with (pm_run es (pm_step e pm)).
  rewrite IH by (by rewrite alpha_step). rewrite errorRate_step by assumption.
  unfold count. rewrite filter_cons. case_decide as K.
  - rewrite (G e _ K). simpl. by rewrite Nat.iter_swap.
  - destruct He as [He| ->]; [done|reflexivity].
Qed.

Definition fail_step (r : float64) : float64 := ewma f_0_1 f_1 r.
Definition fade_step (r : float64) : float64 := fmul (fsub f_1 f_0_1) r.

Abbreviation fail_chain := (chain (ewma_itv (iconst f_1)) rate_itv).
Abbreviation fade_chain := (chain fade_itv rate_itv).

Lemma fail_iter j r : inside r rate_itv -> inside (Nat.iter j fail_step r) (fail_chain (Nat.min 7 j)).
Proof.
  apply chain_iter.
  - intros k x Hk Hx. apply ewma_inside; [by apply inside_iconst|assumption|].
    do 7 (destruct k as [|k]; [by vm_compute|]). lia.
  - intros x Hx. apply (ewma_stays _ _ (iconst f_1) (fail_chain 7));
      [by apply inside_iconst|assumption|by vm_compute|by vm_compute].
Qed.

Lemma fade_iter j r : inside r rate_itv -> inside (Nat.iter j fade_step r) (fade_chain (Nat.min 16 j)).
Proof.
  apply chain_iter.
  - intros k x Hk Hx. apply fade_inside; [assumption|].
    do 16 (destruct k as [|k]; [by vm_compute|]). lia.
  - intros x Hx. apply (fade_stays _ (fade_chain 16)); [assumption|by vm_compute|by vm_compute].
Qed.

(** Latencies of at most five seconds keep the average at most five seconds. *)
Definition quick_itv : itv := Itv f_0 f_5000.

Definition quick (e : event) : Prop :=
  match e with Success l => 0 <= l <= 5000 * Millisecond | Read => True | _ => False end.

Lemma quick_sample l : 0 <= l <= 5000 * Millisecond -> inside (f_of_int (Milliseconds l)) quick_itv.
Proof.
  intros Hl. apply (f_of_int_inside _ 0 5000); [|by vm_compute]. apply Milliseconds_range; lia.
Qed.

Lemma quick_run es pm : wf_metrics pm -> Forall quick es -> inside (latencyEWMA pm) quick_itv ->
  inside (latencyEWMA (pm_run es pm)) quick_itv.
Proof.
  intros [A _ _] H. revert pm A. induction H as [|e es He _ IH]; intros pm A L; [done|].
  change (pm_run (e :: es) pm) with (pm_run es (pm_step e pm)).
  apply IH; [by rewrite alpha_step|].
  destruct e as [l| | |]; simpl in *; try done.
  destruct (feqb (latencyEWMA pm) f_0); [by apply quick_sample|]. rewrite A.
  apply (ewma_stays _ _ quick_itv quick_itv); [by apply quick_sample|assumption|by vm_compute|by vm_compute].
Qed.

Lemma observe_EWMA (m : EWMAMonitor) p : observe m p = state_of (metrics_of m p).
Proof. reflexivity. Qed.

(** The thresholds, read on intervals. *)
Lemma state_unhealthy pm : inside (errorRate pm) (fail_chain 7) -> state_of pm = StateUnhealthy.
Proof.
  intros H. unfold state_of. erewrite fltb_above; [done|exact H|by vm_compute|by vm_compute].
Qed.

Lemma state_healthy pm : inside (errorRate pm) (fade_chain 16) -> inside (latencyEWMA pm) quick_itv ->
  state_of pm = StateHealthy.
Proof.
  intros H L. unfold state_of.
  erewrite fltb_below; [|exact H|by vm_compute|by vm_compute].
  erewrite fltb_below; [|exact H|by vm_compute|by vm_compute].
  by erewrite fltb_below; [|exact L|by vm_compute|by vm_compute].
Qed.

(** C24: In every execution of the monitor (any interleaving of calls, latencies
    any non-negative durations), every provider's record stays well formed: the
    smoothing factor is the float64 0.1, the error rate is a finite float64
    between 0 and 1, and the average latency is finite, not negative and at
    most 2^44 milliseconds; so no comparison ever meets a NaN. *)
Theorem monitor_invariant cs p :
  Forall (fun c => sample_ok (what c)) cs ->
  wf_metrics (metrics_of (run cs NewEWMAMonitor) p).
Proof. intros H. apply run_wf; [exact H|exact NewEWMAMonitor_wf]. Qed.

(** C26: From any reachable state, seven failures of a provider with no success in
    between (other providers' calls interleaved at will) make it unhealthy. *)
Theorem seven_errors_trip cs m p :
  wf_monitor m ->
  Forall (fun e => is_failure e = true \/ e = Read) (events_of p cs) ->
  (7 <= count is_failure (events_of p cs))%nat ->
  observe (run cs m) p = StateUnhealthy.
Proof.
  intros W H N. rewrite observe_EWMA, monitor_projection. apply state_unhealthy.
  rewrite (rate_run is_failure fail_step).
  - replace 7%nat with (Nat.min 7 (count is_failure (events_of p cs))) by lia.
    apply fail_iter, W.
  - apply W.
  - by intros [].
  - eapply Forall_impl; [exact H|]. intros e [->|]; auto.
  - by intros [].
Qed.

(** C27: From any reachable state whose average latency is at most five seconds,
    sixteen successes of at most five seconds each bring the provider back to
    healthy, whatever its error rate was. *)
Theorem sixteen_successes_recover cs m p :
  wf_monitor m ->
  fleb (latencyEWMA (metrics_of m p)) f_5000 = true ->
  Forall quick (events_of p cs) ->
  (16 <= count is_success (events_of p cs))%nat ->
  observe (run cs m) p = StateHealthy.
Proof.
  intros W L H N. rewrite observe_EWMA, monitor_projection. apply state_healthy.
  - rewrite (rate_run is_success fade_step).
    + replace 16%nat with (Nat.min 16 (count is_success (events_of p cs))) by lia.
      apply fade_iter, W.
    + apply W.
    + by intros [].
    + eapply Forall_impl; [exact H|]. intros []; simpl; intros; auto; done.
    + by intros [].
  - apply quick_run; [apply W|assumption|]. destruct (W p) as [_ _ Hl].
    rewrite fleb_units in L by eauto with float. apply Z.leb_le in L.
    pose proof (inside_bounds _ _ Hl) as B. apply inside_intro; eauto with float. by destruct B.
Qed.

(** What a fresh provider shows after [n] failures in a row. *)
Definition fresh_after (n : nat) : ProviderState :=
  if (n <=? 2)%nat then StateHealthy else if (n <=? 6)%nat then StateDegraded else StateUnhealthy.

(** A provider never seen before stays healthy for two failures in a row,
    is degraded from the third and unhealthy from the seventh on. *)
Theorem fresh_provider_errors now code p n :
  observe (Nat.iter n (RecordError now p code) NewEWMAMonitor) p = fresh_after n.
Proof.
  assert (E : Nat.iter n (RecordError now p code) NewEWMAMonitor
              = run (replicate n (Call now p (Failure code))) NewEWMAMonitor).
  { generalize NewEWMAMonitor. induction n as [|n IH]; intros m; [done|].
    rewrite Nat.iter_succ_r, IH. done. }
  rewrite E, observe_EWMA, monitor_projection, events_of_replicate.
  change (metrics_of NewEWMAMonitor p) with (new_metrics 0).
  destruct (le_lt_dec 7 n) as [L|L].
  - assert (C : fresh_after n = StateUnhealthy) by (unfold fresh_after; by do 7 (destruct n as [|n]; [lia|])).
    rewrite C. apply state_unhealthy. rewrite (rate_run is_failure fail_step); [|done|by intros []| |by intros []].
    + rewrite count_replicate by done. replace 7%nat with (Nat.min 7 n) by lia. apply fail_iter, new_metrics_wf.
    + apply Forall_replicate. by left.
  - do 7 (destruct n as [|n]; [by vm_compute|]). lia.
Qed.

(** C25: The monitor, a map of records shared by every goroutine, refines a
    product of independent automata: after any interleaving of calls on any
    providers, the state reported for a provider is the state its own events
    give, in their order, from the record it started with. *)
Theorem monitor_refines_automata cs m p now :
  fst (GetState now p (run cs m)) = state_of (pm_run (events_of p cs) (metrics_of m p)).
Proof. rewrite GetState_observe, observe_EWMA. by rewrite monitor_projection. Qed.

(** ** Instances of the hypotheses *)

Definition outage : list call :=
  Call 0 "b" (Success (3 * Millisecond)) :: replicate 7 (Call 1 "a" (Failure 500)).

Lemma monitor_invariant_witness : wf_metrics (metrics_of (run outage NewEWMAMonitor) "a").
Proof. apply monitor_invariant. repeat constructor; vm_compute; congruence. Defined.

Lemma seven_errors_trip_witness : observe (run outage NewEWMAMonitor) "a" = StateUnhealthy.
Proof.
  apply seven_errors_trip.
  - exact NewEWMAMonitor_wf.
  - vm_compute. repeat constructor.
  - vm_compute. lia.
Defined.

Definition recovery : list call := replicate 16 (Call 2 "a" (Success (50 * Millisecond))).

Lemma sixteen_successes_recover_witness :
  observe (run recovery (run outage NewEWMAMonitor)) "a" = StateHealthy.
Proof.
  apply sixteen_successes_recover.
  - apply run_wf; [|exact NewEWMAMonitor_wf]. repeat constructor; vm_compute; congruence.
  - vm_compute. reflexivity.
  - unfold recovery. rewrite events_of_replicate. apply Forall_replicate. split; vm_compute; congruence.
  - vm_compute. lia.
Defined.
