(* ===== verification/GoSort.v ===== *)
(** * GoSort: sort.Slice

    [sort.Slice] of the Go standard library runs insertion sort on slices of at
    most twelve elements, translated below, and pattern-defeating quicksort on
    longer ones, of which only the documented contract is used: the class
    [LargeSort].  The head of a slice sorted by [less] is what the selector
    takes; [sort_Slice_head] says which element it is. *)

From S2P Require Import Prelude.
From Stdlib Require Import Sorting.Permutation.
Local Open Scope Z_scope.

(** A strict weak order given as a boolean function on [D]. *)
Record strict_weak {A} (D : A -> Prop) (less : A -> A -> bool) : Prop := {
  sw_irrefl x : D x -> less x x = false;
  sw_trans x y z : D x -> D y -> D z -> less x y = true -> less y z = true -> less x z = true;
  sw_weak x y z : D x -> D y -> D z -> less x y = true -> less x z = true \/ less z y = true
}.

(** No element is less than an earlier one. *)
Fixpoint ordered {A} (less : A -> A -> bool) (l : list A) : Prop :=
  match l with
  | [] => True
  | x :: l' => Forall (fun y => less y x = false) l' /\ ordered less l'
  end.

Class LargeSort := large_sort : forall {A}, (A -> A -> bool) -> list A -> list A.

(** The contract of the standard library for long slices: a rearrangement,
    sorted when [less] is a strict weak order; no stability. *)
Class LargeSortLaws `{LargeSort} := {
  large_sort_perm A (less : A -> A -> bool) l : Permutation (large_sort less l) l;
  large_sort_ordered A (less : A -> A -> bool) l :
    strict_weak (fun x => x ∈ l) less -> ordered less (large_sort less l)
}.

Section insertion.
Context {A : Type} (less : A -> A -> bool).

(** The inner loop: [x] moves towards the front of the sorted prefix, here
    given in reverse, while it is less than the element before it. *)
Fixpoint insert_back (x : A) (prefix : list A) : list A :=
  match prefix with
  | [] => [x]
  | y :: prefix' => if less x y then y :: insert_back x prefix' else x :: y :: prefix'
  end.

(** [insertionSort_func]: the outer loop over the elements in order. *)
Definition insertion_sort (l : list A) : list A :=
  rev (fold_left (fun prefix x => insert_back x prefix) l []).

Lemma insert_back_perm x l : Permutation (insert_back x l) (x :: l).
Proof.
  induction l as [|y l IH]; [done|]. simpl. destruct (less x y); [|done].
  rewrite IH. constructor.
Qed.

Lemma fold_insert_perm l acc :
  Permutation (fold_left (fun prefix x => insert_back x prefix) l acc) (l ++ acc).
Proof.
  revert acc. induction l as [|x l IH]; intros acc; [done|]. simpl. rewrite IH, insert_back_perm.
  symmetry. apply Permutation_middle.
Qed.

Lemma insertion_sort_perm l : Permutation (insertion_sort l) l.
Proof. unfold insertion_sort. by rewrite <- Permutation_rev, fold_insert_perm, app_nil_r. Qed.

(** The leftmost least element, found by one pass. *)
Definition first_min (x : A) (l : list A) : A :=
  fold_left (fun best y => if less y best then y else best) l x.

Context (D : A -> Prop) (SW : strict_weak D less).

(** [prefix] is in reverse order and [m], its last element, is least. *)
Definition least_last (prefix : list A) (m : A) : Prop :=
  last prefix = Some m /\ Forall D prefix /\ Forall (fun y => less y m = false) prefix.

Lemma insert_back_last x l m : D x -> least_last l m ->
  least_last (insert_back x l) (if less x m then x else m).
Proof using SW.
  destruct SW as [IR TR WK]. intros Dx (Hl & HD & Hm).
  assert (Dm : D m) by (rewrite Forall_forall in HD; apply HD, last_Some_elem_of, Hl).
  assert (HD' : Forall D (insert_back x l)) by (rewrite insert_back_perm; auto).
  split; [|split; [done|]].
  - clear HD'. induction l as [|y l IH]; [done|]. simpl.
    apply Forall_cons in HD as [Dy HD], Hm as [Hy Hm].
    destruct l as [|z l].
    + injection Hl as ->. simpl. by destruct (less x m).
    + assert (Hl' : last (z :: l) = Some m) by exact Hl.
      specialize (IH Hl' HD Hm). destruct (less x y) eqn:E.
      * destruct (insert_back x (z :: l)) as [|w k] eqn:F;
          [simpl in F; by destruct (less x z)|]. exact IH.
      * assert (Z0 : less x m = false); [|by rewrite Z0].
        destruct (less x m) eqn:F; [|done].
        destruct (WK x m y Dx Dm Dy F); congruence.
  - rewrite insert_back_perm. apply Forall_cons. destruct (less x m) eqn:E.
    + split; [by apply IR|]. rewrite Forall_forall in *. intros y Hy.
      destruct (less y x) eqn:F; [|done].
      rewrite <- (Hm y Hy). symmetry. eauto.
    + by split.
Qed.

Lemma fold_insert_last l acc m : Forall D l -> least_last acc m ->
  least_last (fold_left (fun prefix x => insert_back x prefix) l acc)
             (fold_left (fun best y => if less y best then y else best) l m).
Proof using SW.
  revert acc m. induction l as [|x l IH]; intros acc m H L; [done|].
  apply Forall_cons in H as [Dx H]. simpl. apply IH; [done|]. by apply insert_back_last.
Qed.

Lemma last_head_rev (l : list A) : last l = head (rev l).
Proof.
  induction l as [|x l IH] using rev_ind; [done|].
  by rewrite rev_app_distr, last_snoc.
Qed.

(** Insertion sort puts the leftmost least element first. *)
Lemma insertion_sort_head x l : Forall D (x :: l) ->
  head (insertion_sort (x :: l)) = Some (first_min x l) /\
  Forall (fun y => less y (first_min x l) = false) (x :: l).
Proof using SW.
  intros H. apply Forall_cons in H as [Dx H].
  destruct (fold_insert_last l [x] x H) as (L & _ & F).
  { split; [done|]. split; [by repeat constructor|]. constructor; [by apply SW|done]. }
  split; [unfold insertion_sort; by rewrite <- last_head_rev|].
  rewrite fold_insert_perm in F. rewrite Permutation_app_comm in F. exact F.
Qed.

(** A prefix in reverse: no element is less than one after it. *)
Fixpoint rordered (l : list A) : Prop :=
  match l with
  | [] => True
  | x :: l' => Forall (fun y => less x y = false) l' /\ rordered l'
  end.

Lemma insert_back_rordered x l : D x -> Forall D l -> rordered l -> rordered (insert_back x l).
Proof using SW.
  destruct SW as [IR TR WK]. intros Dx. induction l as [|y l IH]; intros HD O; [by repeat constructor|].
  apply Forall_cons in HD as [Dy HD]. destruct O as [Hy O]. simpl. destruct (less x y) eqn:E.
  - split; [|by apply IH]. rewrite insert_back_perm. constructor; [|done].
    destruct (less y x) eqn:F; [|done]. rewrite <- (IR x Dx). symmetry. eauto.
  - split; [|done]. constructor; [done|]. rewrite Forall_forall in *. intros z Hz.
    destruct (less x z) eqn:F; [|done]. destruct (WK x z y) as [G|G]; auto; [congruence|].
    rewrite <- (Hy z Hz). symmetry. exact G.
Qed.

Lemma ordered_snoc l x : ordered less l -> Forall (fun y => less x y = false) l -> ordered less (l ++ [x]).
Proof.
  induction l as [|y l IH]; intros O F; [by repeat constructor|].
  apply Forall_cons in F as [F1 F]. destruct O as [O1 O]. split; [|by apply IH].
  apply Forall_app; split; [done|]. by constructor.
Qed.

Lemma rordered_rev l : rordered l -> ordered less (rev l).
Proof.
  induction l as [|x l IH]; [done|]. intros [F O]. simpl. apply ordered_snoc; [by apply IH|].
  by rewrite <- Permutation_rev.
Qed.

Lemma insertion_sort_ordered l : Forall D l -> ordered less (insertion_sort l).
Proof using SW.
  intros H. apply rordered_rev.
  assert (G : forall acc, Forall D acc -> rordered acc ->
    rordered (fold_left (fun prefix x => insert_back x prefix) l acc)); [|by apply G].
  induction H as [|x l Dx H IH]; intros acc HA O; [done|]. simpl. apply IH.
  - rewrite insert_back_perm. by constructor.
  - by apply insert_back_rordered.
Qed.
End insertion.

(** A sort that fulfils the contract, to evaluate the model on. *)
Module InsertionAsLargeSort.
#[local] Instance sort : LargeSort := @insertion_sort.
#[local] Instance laws : LargeSortLaws.
Proof.
  split; intros A less l.
  - apply insertion_sort_perm.
  - intros SW. apply (insertion_sort_ordered less _ SW). by apply Forall_forall.
Qed.
End InsertionAsLargeSort.

Section sort_Slice.
Context {LS : LargeSort}.

Definition sort_Slice {A} (less : A -> A -> bool) (l : list A) : list A :=
  if (length l <=? 12)%nat then insertion_sort less l else large_sort less l.

Context {LSL : LargeSortLaws}.

Lemma sort_Slice_perm {A} (less : A -> A -> bool) l : Permutation (sort_Slice less l) l.
Proof using LSL. unfold sort_Slice. case_match; [apply insertion_sort_perm|apply large_sort_perm]. Qed.

(** The head of the sorted slice is an element that none is less than. *)
Lemma sort_Slice_head {A} (less : A -> A -> bool) l x : strict_weak (fun x => x ∈ l) less ->
  head (sort_Slice less l) = Some x -> x ∈ l /\ Forall (fun y => less y x = false) l.
Proof using LSL.
  intros SW Hx. assert (M : x ∈ l).
  { rewrite <- (sort_Slice_perm less l). destruct (sort_Slice less l); simplify_eq/=. by left. }
  split; [done|]. unfold sort_Slice in Hx. case_match.
  - destruct l as [|y l]; [done|].
    destruct (insertion_sort_head less _ SW y l) as [Hh F]; [by apply Forall_forall|].
    rewrite Hx in Hh. injection Hh as ->. done.
  - pose proof (large_sort_perm A less l) as P. pose proof (large_sort_ordered A less l SW) as O.
    destruct (large_sort less l) as [|y k]; [done|]. simpl in Hx. injection Hx as ->.
    rewrite <- P. constructor; [by apply SW|apply O].
Qed.
End sort_Slice.
