(* ===== verification/Selector.v ===== *)
(** * Selector: choosing an upstream (internal/router/selector.go)

    [Select] keeps the providers that the allowlist admits and the monitor does
    not report unhealthy, sorts them by average latency and returns the first.
    It is written against the [HealthMonitor] interface; reading the monitor
    may create default entries, so the monitor is threaded through. *)

From S2P Require Import Prelude Rounding Binary64 Float64 GoTypes GoSort Monitor.
From Stdlib Require Import SpecFloat Sorting.Permutation.
Local Open Scope Z_scope.

Class Named (P : Type) := provider_name : P -> string.

Class ProviderSelector (Mon P : Type) := {
  Select : Z -> list P -> list string -> Mon -> option P * Mon
}.

Module LatencyAware.
Section select.
Context {Mon P : Type} `{HealthMonitor Mon} `{Named P} `{LargeSort}.

(** The inner loop over the allowlist; an empty one allows every name. *)
Definition allowed (allowlist : list string) (name : string) : bool :=
  match allowlist with
  | [] => true
  | _ => existsb (String.eqb name) allowlist
  end.

(** The filtering loop. *)
Fixpoint filter_candidates (now : Z) (allowlist : list string) (providers candidates : list P) (m : Mon)
    : list P * Mon :=
  match providers with
  | [] => (candidates, m)
  | p :: ps =>
      if allowed allowlist (provider_name p) then
        let '(st, m) := GetState now (provider_name p) m in
        filter_candidates now allowlist ps
          (if decide (st = StateUnhealthy) then candidates else candidates ++ [p]) m
      else filter_candidates now allowlist ps candidates m
  end.

Definition getLatency (now : Z) (name : string) (m : Mon) : float64 * Mon :=
  match as_EWMAMonitor m with
  | None => (f_of_int 0, m)
  | Some e =>
      let '(pm, e) := EWMA.getMetrics now name e in
      (if feqb (latencyEWMA pm) EWMA.f_0 then math_MaxFloat64 else latencyEWMA pm, of_EWMAMonitor e)
  end.

(** The comparison that [sort.Slice] is given.  The candidates have entries in
    the monitor by then, so reading them does not change it. *)
Definition less (now : Z) (m : Mon) (p q : P) : bool :=
  fltb (fst (getLatency now (provider_name p) m)) (fst (getLatency now (provider_name q) m)).

Definition select (now : Z) (providers : list P) (allowlist : list string) (m : Mon) : option P * Mon :=
  let '(candidates, m) := filter_candidates now allowlist providers [] m in
  match candidates with
  | [] => (None, m)
  | _ => (head (sort_Slice (less now m) candidates), m)
  end.
End select.
End LatencyAware.
Import LatencyAware.

#[export] Instance LatencyAwareSelector `{HealthMonitor Mon} `{Named P} `{LargeSort} : ProviderSelector Mon P :=
  {| Select := LatencyAware.select |}.

(** What a selector promises: it chooses a configured provider that the
    allowlist admits and that is not reported unhealthy, and it changes no
    reported state. *)
Class ProviderSelectorLaws (Mon P : Type) `{HealthMonitorLaws Mon} `{Named P} `{ProviderSelector Mon P} := {
  Select_chosen now ps allowlist (m : Mon) (p : P) : fst (Select now ps allowlist m) = Some p ->
    p ∈ ps /\ (allowlist = [] \/ provider_name p ∈ allowlist) /\ observe m (provider_name p) <> StateUnhealthy;
  Select_observe now (ps : list P) allowlist (m : Mon) q : observe (snd (Select now ps allowlist m)) q = observe m q
}.

(** ** Against the interface of the monitor *)

Section interface.
Context {Mon P : Type} `{HL : HealthMonitorLaws Mon} `{Named P} `{LSL : LargeSortLaws}.

(** What makes a provider a candidate. *)
Definition eligible (allowlist : list string) (m : Mon) (p : P) : bool :=
  allowed allowlist (provider_name p) && negb (bool_decide (observe m (provider_name p) = StateUnhealthy)).

Lemma filter_candidates_spec now allowlist ps acc (m : Mon) :
  let '(cs, m') := filter_candidates now allowlist ps acc m in
  cs = acc ++ List.filter (eligible allowlist m) ps /\ forall q, observe m' q = observe m q.
Proof using HL.
  revert acc m. induction ps as [|p ps IH]; intros acc m; simpl; [by rewrite app_nil_r|].
  unfold eligible at 1. destruct (allowed allowlist (provider_name p)); simpl; [|apply IH].
  pose proof (GetState_observe now (provider_name p) m) as E.
  pose proof (GetState_pure now (provider_name p) m) as Pu.
  destruct (GetState now (provider_name p) m) as [st m1]; simpl in *. subst st.
  specialize (IH (if decide (observe m (provider_name p) = StateUnhealthy) then acc else acc ++ [p]) m1).
  destruct (filter_candidates now allowlist ps _ m1) as [cs m2]. destruct IH as [-> Q].
  split; [|intros q; by rewrite Q].
  assert (X : List.filter (eligible allowlist m1) ps = List.filter (eligible allowlist m) ps)
    by (apply List.filter_ext; intros a; unfold eligible; by rewrite Pu).
  rewrite X. case_decide as D; [rewrite bool_decide_true by done|rewrite bool_decide_false by done];
    simpl; [done|by rewrite <- app_assoc].
Qed.

Lemma select_candidates now ps allowlist (m : Mon) :
  exists m', select now ps allowlist m =
    (head (sort_Slice (less now m') (List.filter (eligible allowlist m) ps)), m')
    /\ forall q, observe m' q = observe m q.
Proof using HL LSL.
  unfold select. pose proof (filter_candidates_spec now allowlist ps [] m) as S.
  destruct (filter_candidates now allowlist ps [] m) as [cs m']. destruct S as [-> Q].
  exists m'. split; [|done]. simpl. destruct (List.filter (eligible allowlist m) ps) eqn:E; [|done].
  assert (Z0 : sort_Slice (less now m') [] = []) by (apply Permutation_nil; symmetry; apply sort_Slice_perm).
  by rewrite Z0.
Qed.

Lemma eligible_spec allowlist (m : Mon) p : eligible allowlist m p = true <->
  (allowlist = [] \/ provider_name p ∈ allowlist) /\ observe m (provider_name p) <> StateUnhealthy.
Proof.
  unfold eligible, allowed. rewrite andb_true_iff, negb_true_iff, bool_decide_eq_false.
  f_equiv. destruct allowlist as [|a l]; [naive_solver|]. rewrite existsb_exists. split.
  - intros (x & I & ->%String.eqb_eq). right. by apply list_elem_of_In.
  - intros [|I]; [done|]. exists (provider_name p). split; [by apply list_elem_of_In|by apply String.eqb_eq].
Qed.

Lemma select_chosen now ps allowlist (m : Mon) (p : P) : fst (select now ps allowlist m) = Some p ->
  p ∈ ps /\ (allowlist = [] \/ provider_name p ∈ allowlist) /\ observe m (provider_name p) <> StateUnhealthy.
Proof using HL LSL.
  destruct (select_candidates now ps allowlist m) as (m' & -> & Q). simpl. intros E.
  assert (I : p ∈ List.filter (eligible allowlist m) ps).
  { rewrite <- (sort_Slice_perm (less now m')). destruct (sort_Slice _ _); simplify_eq/=. by left. }
  apply list_elem_of_In, filter_In in I as [I L]. rewrite eligible_spec in L.
  split; [by apply list_elem_of_In|done].
Qed.

#[export] Instance LatencyAwareSelector_laws : ProviderSelectorLaws Mon P.
Proof using HL LSL.
  split; [apply select_chosen|]. intros now ps allowlist m q. simpl.
  by destruct (select_candidates now ps allowlist m) as (m' & -> & Q).
Qed.

(** C28: Whatever monitor implements the interface, the selector returns a
    configured provider that the tenant's allowlist admits (an empty list admits
    all) and that the monitor does not report unhealthy; it returns none exactly
    when there is no such provider; and it leaves every reported state alone. *)
Theorem Select_sound now ps allowlist (m : Mon) :
  let '(r, m') := LatencyAware.select now ps allowlist m in
  match r with
  | Some p => p ∈ ps /\ (allowlist = [] \/ provider_name p ∈ allowlist)
              /\ observe m (provider_name p) <> StateUnhealthy
  | None => forall p, p ∈ ps -> allowlist = [] \/ provider_name p ∈ allowlist ->
              observe m (provider_name p) = StateUnhealthy
  end /\ forall q, observe m' q = observe m q.
Proof using HL LSL.
  pose proof (select_chosen now ps allowlist m) as Ch.
  destruct (select_candidates now ps allowlist m) as (m' & E0 & Q). rewrite E0 in *. split; [|done].
  destruct (head _) as [p|] eqn:E; [by apply Ch|].
  intros p I A. destruct (decide (observe m (provider_name p) = StateUnhealthy)) as [|N]; [done|exfalso].
  assert (J : p ∈ List.filter (eligible allowlist m) ps)
      by (apply list_elem_of_In, filter_In; split; [by apply list_elem_of_In|by apply eligible_spec]).
    rewrite <- (sort_Slice_perm (less now m')) in J. destruct (sort_Slice _ _); [by inversion J|done].
Qed.
End interface.

(** ** With the EWMA monitor *)

Section ewma.
Context {P : Type} `{Named P} `{LSL : LargeSortLaws}.
Implicit Types m : EWMAMonitor.

(** The latency the selector compares: the average, or the greatest float64
    while there is none. *)
Definition score m (p : P) : float64 :=
  let l := latencyEWMA (EWMA.metrics_of m (provider_name p)) in
  if feqb l EWMA.f_0 then math_MaxFloat64 else l.

Definition explored m (p : P) : bool :=
  negb (feqb (latencyEWMA (EWMA.metrics_of m (provider_name p))) EWMA.f_0).

Lemma getLatency_score now m p : fst (getLatency now (provider_name p) m) = score m p.
Proof.
  unfold getLatency, score; simpl. destruct (getMetrics_fst now (provider_name p) m) as [E _].
  destruct (EWMA.getMetrics now (provider_name p) m); simpl in *. by rewrite E.
Qed.

Lemma less_score now m (p q : P) : less now m p q = fltb (score m p) (score m q).
Proof. unfold less. by rewrite !getLatency_score. Qed.

(** Comparing providers that have entries leaves the monitor as it is. *)
Lemma getLatency_stable now m name : is_Some (metrics m !! name) -> snd (getLatency now name m) = m.
Proof. unfold getLatency; simpl. intros [pm E]. by rewrite (getMetrics_known now name m pm E). Qed.

Lemma filter_candidates_metrics now allowlist ps acc m :
  forall q, pm_eq (EWMA.metrics_of (snd (filter_candidates now allowlist ps acc m)) q) (EWMA.metrics_of m q).
Proof.
  revert acc m. induction ps as [|p ps IH]; intros acc m q; simpl; [done|].
  destruct (allowed allowlist (provider_name p)); [|apply IH].
  unfold EWMA.GetState. pose proof (getMetrics_snd now (provider_name p) m q) as E.
  destruct (EWMA.getMetrics now (provider_name p) m) as [pm m1]; simpl in *. by rewrite IH, E.
Qed.

(** After the filtering loop every candidate has an entry, so the comparisons
    of the sort are pure. *)
Lemma filter_candidates_known now allowlist ps acc m :
  Forall (fun p => is_Some (metrics m !! provider_name p)) acc ->
  let '(cs, m') := filter_candidates now allowlist ps acc m in
  Forall (fun p => is_Some (metrics m' !! provider_name p)) cs.
Proof.
  revert acc m. induction ps as [|p ps IH]; intros acc m A; simpl; [done|].
  destruct (allowed allowlist (provider_name p)); [|by apply IH].
  assert (K : forall q, is_Some (metrics m !! q) -> is_Some (metrics (snd (EWMA.getMetrics now (provider_name p) m)) !! q)).
  { intros q S. unfold EWMA.getMetrics. destruct (metrics m !! provider_name p); [done|]. simpl.
    rewrite lookup_insert. by case_decide. }
  assert (N : is_Some (metrics (snd (EWMA.getMetrics now (provider_name p) m)) !! provider_name p)).
  { unfold EWMA.getMetrics. destruct (metrics m !! provider_name p) eqn:E; simpl; [by rewrite E|].
    by rewrite lookup_insert_eq. }
  unfold EWMA.GetState. destruct (EWMA.getMetrics now (provider_name p) m) as [pm m1]. simpl in *.
  apply IH. assert (A1 : Forall (fun p => is_Some (metrics m1 !! provider_name p)) acc)
    by (eapply Forall_impl; [exact A|]; intros; by apply K).
  case_decide; [done|]. apply Forall_app. auto.
Qed.

Lemma select_score now ps allowlist m p :
  score (snd (select now ps allowlist m)) p = score m p.
Proof.
  unfold select. pose proof (filter_candidates_metrics now allowlist ps [] m (provider_name p)) as [E _].
  destruct (filter_candidates now allowlist ps [] m) as [[|c cs] m']; simpl in *; unfold score; by rewrite E.
Qed.

Lemma score_num m p : wf_monitor m -> is_num (score m p) = true.
Proof.
  intros W. unfold score. case_match; [done|]. destruct (W (provider_name p)) as [_ _ L].
  by eapply inside_num.
Qed.

Lemma score_order m (D : P -> Prop) now : wf_monitor m -> strict_weak D (less now m).
Proof.
  intros W. split.
  - intros x _. rewrite less_score, fltb_units by by apply score_num. apply Z.ltb_irrefl.
  - intros x y z _ _ _. rewrite !less_score, !fltb_units by by apply score_num. rewrite !Z.ltb_lt. lia.
  - intros x y z _ _ _. rewrite !less_score, !fltb_units by by apply score_num. rewrite !Z.ltb_lt. lia.
Qed.

Lemma select_wf now ps allowlist m : wf_monitor m -> wf_monitor (snd (select now ps allowlist m)).
Proof.
  intros W q. unfold select. pose proof (filter_candidates_metrics now allowlist ps [] m q) as E.
  destruct (filter_candidates now allowlist ps [] m) as [[|c cs] m']; simpl in *; rewrite E; apply W.
Qed.

(** The chosen provider, on the list of the eligible ones. *)
Lemma select_choice now ps allowlist m p : wf_monitor m ->
  fst (select now ps allowlist m) = Some p ->
  p ∈ List.filter (eligible allowlist m) ps /\
  Forall (fun q => fltb (score m q) (score m p) = false) (List.filter (eligible allowlist m) ps).
Proof using LSL.
  intros W S. pose proof (select_wf now ps allowlist m W) as W'.
  pose proof (select_score now ps allowlist m) as Sc.
  destruct (select_candidates now ps allowlist m) as (m' & E & _). rewrite E in *. simpl in *.
  destruct (sort_Slice_head (less now m') _ p (score_order m' _ now W') S) as [I F].
  split; [done|]. eapply Forall_impl; [exact F|]. intros q. cbn beta. by rewrite less_score, !Sc.
Qed.

(** With the EWMA monitor in any reachable state, the provider selected has
    the least average latency of all eligible ones, where a provider without an
    average counts as math.MaxFloat64. *)
Theorem Select_fastest now ps allowlist m p q :
  wf_monitor m ->
  fst (Select now ps allowlist m) = Some p ->
  q ∈ ps -> eligible allowlist m q = true ->
  fleb (score m p) (score m q) = true.
Proof using LSL.
  intros W S I L. destruct (select_choice now ps allowlist m p W S) as [_ F].
  rewrite Forall_forall in F. specialize (F q).
  rewrite fltb_units, Z.ltb_ge in F by by apply score_num.
  rewrite fleb_units, Z.leb_le by by apply score_num.
  apply F, list_elem_of_In, filter_In. split; [by apply list_elem_of_In|done].
Qed.

(** C29: At most twelve providers (the gateway has four) are ordered stably: the
    first of the fastest eligible providers, in configuration order, is taken. *)
Theorem Select_first_of_fastest now ps allowlist m c cs :
  wf_monitor m -> (length ps <= 12)%nat ->
  List.filter (eligible allowlist m) ps = c :: cs ->
  fst (Select now ps allowlist m) = Some (first_min (fun p q => fltb (score m p) (score m q)) c cs).
Proof using LSL.
  intros W Len E. simpl. pose proof (select_wf now ps allowlist m W) as W'.
  pose proof (select_score now ps allowlist m) as Sc.
  destruct (select_candidates now ps allowlist m) as (m' & Es & _). rewrite Es in *. simpl in *.
  rewrite E. unfold sort_Slice.
  assert (L : (length (c :: cs) <=? 12)%nat = true).
  { apply Nat.leb_le. rewrite <- E. pose proof (List.filter_length_le (eligible allowlist m) ps). lia. }
  rewrite L. destruct (insertion_sort_head (less now m') (fun _ => True) (score_order m' _ now W') c cs) as [-> _];
    [by apply Forall_true|].
  f_equal. unfold first_min. generalize c. clear - Sc. induction cs as [|x xs IH]; intros b; [done|].
  simpl. rewrite less_score, !Sc. apply IH.
Qed.

Lemma explored_score m p : wf_monitor m -> explored m p = true -> units (score m p) <= units (f_of_int (2 ^ 44)).
Proof.
  intros W. unfold explored, score. rewrite negb_true_iff. intros ->.
  destruct (W (provider_name p)) as [_ _ L]. apply (inside_bounds _ _ L).
Qed.

Lemma unexplored_score m p : explored m p = false -> score m p = math_MaxFloat64.
Proof. unfold explored, score. rewrite negb_false_iff. by intros ->. Qed.

(** While an eligible provider with a recorded latency exists, a provider
    without one (never tried, or measured under one millisecond) is never
    selected, however slow the others are. *)
Theorem Select_starves_unexplored now ps allowlist m p q :
  wf_monitor m ->
  q ∈ ps -> eligible allowlist m q = true -> explored m q = true ->
  fst (Select now ps allowlist m) = Some p ->
  explored m p = true.
Proof using LSL.
  intros W I L X S. destruct (explored m p) eqn:E; [done|exfalso].
  destruct (select_choice now ps allowlist m p W S) as [_ F].
  assert (J : q ∈ List.filter (eligible allowlist m) ps)
    by (apply list_elem_of_In, filter_In; split; [by apply list_elem_of_In|done]).
  rewrite Forall_forall in F. specialize (F q J).
  rewrite fltb_units, Z.ltb_ge in F by by apply score_num.
  rewrite (unexplored_score m p E) in F. pose proof (explored_score m q W X).
  assert (units (f_of_int (2 ^ 44)) < units math_MaxFloat64) by by vm_compute. lia.
Qed.
End ewma.

(** ** Instances of the hypotheses *)

Module Scenario.
Import InsertionAsLargeSort.
#[local] Existing Instance InsertionAsLargeSort.sort.
#[local] Existing Instance InsertionAsLargeSort.laws.
#[local] Instance string_named : Named string := id.

(** "openai" answers in 200 ms, "gemini" in 100 ms, "ollama" was never tried
    and "anthropic" failed ten times. *)
Definition history : list call :=
  [Call 0 "openai" (Success (200 * Millisecond)); Call 1 "gemini" (Success (100 * Millisecond))]
  ++ replicate 10 (Call 2 "anthropic" (Failure 500)).

Definition monitor : EWMAMonitor := run history EWMA.NewEWMAMonitor.

Definition names : list string := ["openai"; "anthropic"; "gemini"; "ollama"]%string.

Lemma monitor_wf : wf_monitor monitor.
Proof. apply run_wf; [|exact NewEWMAMonitor_wf]. repeat constructor; vm_compute; congruence. Defined.
End Scenario.

Section witnesses.
#[local] Existing Instance InsertionAsLargeSort.sort.
#[local] Existing Instance InsertionAsLargeSort.laws.
#[local] Existing Instance Scenario.string_named.

Lemma Select_sound_witness : observe Scenario.monitor "openai"%string <> StateUnhealthy.
Proof.
  pose proof (Select_sound 3 Scenario.names ["openai"; "anthropic"]%string Scenario.monitor) as H.
  assert (E : fst (LatencyAware.select 3 Scenario.names ["openai"; "anthropic"]%string Scenario.monitor)
              = Some "openai"%string) by (vm_compute; reflexivity).
  destruct (LatencyAware.select 3 Scenario.names ["openai"; "anthropic"]%string Scenario.monitor) as [r m'].
  cbn [fst] in E. subst r. destruct H as [(_ & _ & H) _]. exact H.
Defined.

Lemma Select_fastest_witness :
  fleb (score Scenario.monitor "gemini"%string) (score Scenario.monitor "openai"%string) = true.
Proof.
  apply (Select_fastest 3 Scenario.names [] Scenario.monitor "gemini"%string "openai"%string).
  - exact Scenario.monitor_wf.
  - vm_compute. reflexivity.
  - apply list_elem_of_In. left. reflexivity.
  - vm_compute. reflexivity.
Defined.

Lemma Select_first_of_fastest_witness :
  fst (Select 3 Scenario.names [] Scenario.monitor) = Some "gemini"%string.
Proof.
  rewrite (Select_first_of_fastest 3 Scenario.names [] Scenario.monitor "openai" ["gemini"; "ollama"]%string).
  - vm_compute. reflexivity.
  - exact Scenario.monitor_wf.
  - simpl. lia.
  - vm_compute. reflexivity.
Defined.

Lemma Select_starves_unexplored_witness : explored Scenario.monitor "gemini"%string = true.
Proof.
  apply (Select_starves_unexplored 3 Scenario.names [] Scenario.monitor "gemini"%string "openai"%string).
  - exact Scenario.monitor_wf.
  - apply list_elem_of_In. left. reflexivity.
  - vm_compute. reflexivity.
  - vm_compute. reflexivity.
  - vm_compute. reflexivity.
Defined.
End witnesses.
