(* ===== verification/Provider.v ===== *)
(** * Provider: messages, the provider interface and prices
    (internal/provider/provider.go)

    The request and response types, the interface of an upstream, and
    [EstimateCost] in binary64.  A context is represented by the instant at
    which it is done and the error it then reports; the world a provider runs
    in has a clock. *)

From S2P Require Import Prelude Rounding Binary64 Float64 GoTypes Utf8 Json FloatText Decode.
From Stdlib Require Import SpecFloat.
Local Open Scope Z_scope.

Record Message := { Role : string; Content : string }.

Record ChatRequest := {
  req_Model : string;
  req_Messages : option (list Message);
  req_Stream : bool
}.

(** The messages; a nil slice has none. *)
Definition messages_of (r : ChatRequest) : list Message := default [] (req_Messages r).

Record ChatResponse := {
  resp_Content : string;
  resp_Model : string;
  resp_Provider : string;
  resp_PromptTokens : Z;
  resp_CompletionTokens : Z
}.

Record ChatChunk := {
  chunk_Content : string;
  chunk_FinishReason : string;
  chunk_PromptTokens : Z;
  chunk_CompletionTokens : Z
}.

#[export] Instance Message_eq_dec : EqDecision Message.
Proof. solve_decision. Defined.
#[export] Instance ChatRequest_eq_dec : EqDecision ChatRequest.
Proof. solve_decision. Defined.
#[export] Instance ChatResponse_eq_dec : EqDecision ChatResponse.
Proof. solve_decision. Defined.
#[export] Instance ChatChunk_eq_dec : EqDecision ChatChunk.
Proof. solve_decision. Defined.

(** ** JSON of requests and responses *)

Module Codec.

Definition zero_Message : Message := {| Role := ""; Content := "" |}.
Definition zero_Request : ChatRequest := {| req_Model := ""; req_Messages := None; req_Stream := false |}.
Definition zero_Response : ChatResponse :=
  {| resp_Content := ""; resp_Model := ""; resp_Provider := ""; resp_PromptTokens := 0; resp_CompletionTokens := 0 |}.

Definition Message_fields : fields Message := [
  ("role", field Role (fun s m => {| Role := s; Content := Content m |}) dec_string);
  ("content", field Content (fun s m => {| Role := Role m; Content := s |}) dec_string)
]%string.

Definition Request_fields : fields ChatRequest := [
  ("model", field req_Model (fun s r => {| req_Model := s; req_Messages := req_Messages r; req_Stream := req_Stream r |}) dec_string);
  ("messages", field req_Messages
     (fun l r => {| req_Model := req_Model r; req_Messages := l; req_Stream := req_Stream r |})
     (dec_slice (dec_struct Message_fields) zero_Message));
  ("stream", field req_Stream (fun b r => {| req_Model := req_Model r; req_Messages := req_Messages r; req_Stream := b |}) dec_bool)
]%string.

Definition json_Message (m : Message) : json :=
  JObj [("role", JStr (Role m)); ("content", JStr (Content m))]%string.

Definition json_Messages (ms : option (list Message)) : json :=
  match ms with None => JNull | Some l => JArr (json_Message <$> l) end.

(** What a client sends. *)
Definition json_Request (r : ChatRequest) : json :=
  JObj [("model", JStr (req_Model r)); ("messages", json_Messages (req_Messages r));
        ("stream", JBool (req_Stream r))]%string.

(** What the gateway answers. *)
Definition json_Response (r : ChatResponse) : json :=
  JObj [("content", JStr (resp_Content r)); ("model", JStr (resp_Model r)); ("provider", JStr (resp_Provider r));
        ("prompt_tokens", JInt (resp_PromptTokens r)); ("completion_tokens", JInt (resp_CompletionTokens r))]%string.

End Codec.

(** Text in UTF-8. *)
Definition valid_Message (m : Message) : bool := valid_utf8 (Role m) && valid_utf8 (Content m).
Definition valid_Request (r : ChatRequest) : bool := valid_utf8 (req_Model r) && forallb valid_Message (messages_of r).

Lemma Message_back m old : valid_Message m = true ->
  dec_struct Codec.Message_fields (coerce (Codec.json_Message m)) old = (m, true).
Proof.
  intros [V1 V2]%andb_true_iff. unfold dec_struct, Codec.json_Message. cbn [coerce].
  decode_members. by destruct m.
Qed.

Lemma Messages_back ms old : forallb valid_Message (default [] ms) = true ->
  dec_slice (dec_struct Codec.Message_fields) Codec.zero_Message (coerce (Codec.json_Messages ms)) old = (ms, true).
Proof.
  destruct ms as [l|]; [|done]. intros V. unfold dec_slice, Codec.json_Messages. cbn [coerce]. rewrite dec_elements_back; [done|].
  apply Forall_forall. intros m I o. apply Message_back. rewrite forallb_forall in V. by apply V, list_elem_of_In.
Qed.

(** A request is read as it was sent: decoding the JSON text of a request in
    UTF-8, whatever follows it in the body, gives the model, every message in
    order and the streaming flag back, with no error. *)
Theorem Request_roundtrip r rest :
  valid_Request r = true -> number_end (runes rest) = true ->
  Decode (dec_struct Codec.Request_fields) (marshal (Codec.json_Request r) ++ rest) Codec.zero_Request = (r, true).
Proof.
  intros [V1 V2]%andb_true_iff E. rewrite Decode_marshal; [|..|done].
  - unfold dec_struct, Codec.json_Request. cbn [coerce]. decode_members.
    erewrite dec_member_step; [|reflexivity|].
    2: { cbn [snd]. by apply field_back, Messages_back. }
    decode_members. by destruct r.
  - apply wf_object; [done|]. repeat constructor. destruct (req_Messages r); [by apply wf_array|done].
Qed.

Lemma Request_roundtrip_witness :
  let r := {| req_Model := "gpt-4o"; req_Stream := true;
              req_Messages := Some [{| Role := "user"; Content := dq "it's 'quoted'" |}] |}%string in
  Decode (dec_struct Codec.Request_fields) (marshal (Codec.json_Request r) ++ " trailing") Codec.zero_Request = (r, true).
Proof. apply (Request_roundtrip _ " trailing"); reflexivity. Defined.

(** ** Contexts and clocks *)

(** When the context is done, and what [ctx.Err()] then returns. *)
Record context := { done_at : option (Z * error) }.

Definition Background : context := {| done_at := None |}.
Definition DeadlineExceeded : error := Errorf "context deadline exceeded".
Definition Canceled : error := Errorf "context canceled".

(** A world with a clock (nanoseconds) that can be waited on. *)
Class Clock (W : Type) := {
  now : W -> Z;
  wait_until : Z -> W -> W
}.

Class ClockLaws (W : Type) `{Clock W} := {
  now_wait_until t w : now (wait_until t w) = Z.max t (now w)
}.

(** [ctx.Err()] *)
Definition ctx_Err (ctx : context) (t : Z) : option error :=
  match done_at ctx with
  | Some (d, e) => if d <=? t then Some e else None
  | None => None
  end.

(** [context.WithTimeout(ctx, d)] at instant [t]: done when the parent is, or
    at [t + d], whichever comes first. *)
Definition WithTimeout (ctx : context) (d t : Z) : context :=
  match done_at ctx with
  | Some (p, e) => if p <=? t + d then ctx else {| done_at := Some (t + d, DeadlineExceeded) |}
  | None => {| done_at := Some (t + d, DeadlineExceeded) |}
  end.

(** ** The interface *)

Class Provider (W P : Type) := {
  Name : P -> string;
  Chat : P -> context -> ChatRequest -> M W (result ChatResponse)
}.

(** ** Prices *)

Module Cost.

(** The rates of a model in cents per thousand tokens: prompt, completion. *)
Definition rates (model : string) : float64 * float64 :=
  if decide (model = "gpt-4o"%string) then (f_const 5 10, f_const 15 10)
  else if decide (model = "claude-3-sonnet"%string) then (f_const 3 10, f_const 15 10)
  else (f_const 1 10, f_const 2 10).

Definition f_1000 : float64 := f_of_int 1000.

Definition EstimateCost (model : string) (promptTokens completionTokens : Z) : float64 :=
  let '(promptRate, completionRate) := rates model in
  fadd (fdiv (fmul (f_of_int promptTokens) promptRate) f_1000)
       (fdiv (fmul (f_of_int completionTokens) completionRate) f_1000).

(** The cost of token counts in ranges, on intervals. *)
Definition cost_itv (model : string) (i j : itv) : itv :=
  let '(pr, cr) := rates model in
  iadd (idivc (imul i (iconst pr)) f_1000) (idivc (imul j (iconst cr)) f_1000).

Definition cost_side (model : string) (i j : itv) : bool :=
  let '(pr, cr) := rates model in
  nonneg_itv i && nonneg_itv j && is_finite pr && is_finite cr
  && nonneg_itv (iconst pr) && nonneg_itv (iconst cr)
  && proper (imul i (iconst pr)) && proper (imul j (iconst cr))
  && proper (idivc (imul i (iconst pr)) f_1000) && proper (idivc (imul j (iconst cr)) f_1000)
  && proper (cost_itv model i j).

Lemma EstimateCost_inside model p c a b a' b' :
  a <= p <= b -> a' <= c <= b' ->
  proper (iint a b) = true -> proper (iint a' b') = true ->
  cost_side model (iint a b) (iint a' b') = true ->
  inside (EstimateCost model p c) (cost_itv model (iint a b) (iint a' b')).
Proof.
  intros Hp Hc P1 P2. unfold cost_side, cost_itv, EstimateCost. destruct (rates model) as [pr cr].
  rewrite !andb_true_iff. intros (((((((((( ? & ?) & ?) & ?) & ?) & ?) & ?) & ?) & ?) & ?) & ?).
  apply fadd_inside; [apply fdiv_inside..|assumption]; try assumption; try reflexivity;
    apply fmul_inside; auto with float.
Qed.

Lemma rates_cases model (Q : float64 * float64 -> Prop) :
  Q (f_const 5 10, f_const 15 10) -> Q (f_const 3 10, f_const 15 10) -> Q (f_const 1 10, f_const 2 10) ->
  Q (rates model).
Proof. intros. unfold rates. by repeat case_decide. Qed.

Lemma cost_side_full model : cost_side model (iint 0 max_int64) (iint 0 max_int64) = true.
Proof. unfold cost_side, cost_itv. apply (rates_cases model); by vm_compute. Qed.

Lemma full_range : proper (iint 0 max_int64) = true.
Proof. by vm_compute. Qed.

End Cost.
Import Cost.

(** One term of the sum: [float64(tokens) * rate / 1000.0]. *)
Definition term (tokens : Z) (rate : float64) : float64 := fdiv (fmul (f_of_int tokens) rate) f_1000.

Definition rate_ok (r : float64) : bool :=
  is_finite r && nonneg_itv (iconst r) && proper (imul (iint 0 max_int64) (iconst r))
  && proper (idivc (imul (iint 0 max_int64) (iconst r)) f_1000).

Lemma rates_ok model : rate_ok (fst (rates model)) && rate_ok (snd (rates model)) = true.
Proof. apply (rates_cases model (fun r => rate_ok (fst r) && rate_ok (snd r) = true)); by vm_compute. Qed.

Lemma product_finite n r : 0 <= n <= max_int64 -> rate_ok r = true -> is_finite (fmul (f_of_int n) r) = true.
Proof.
  intros Hn R. unfold rate_ok in R. rewrite !andb_true_iff in R. destruct R as [[[R1 R2] R3] R4].
  apply (inside_finite _ (imul (iint 0 max_int64) (iconst r))), fmul_inside; auto using full_range with float.
Qed.

Lemma term_mono n n' r : 0 <= n <= n' -> n' <= max_int64 -> rate_ok r = true ->
  units (term n r) <= units (term n' r).
Proof.
  intros Hn Hn' R. pose proof R as R'. unfold rate_ok in R'. rewrite !andb_true_iff in R'. destruct R' as [[[R1 R2] R3] R4].
  apply Z.leb_le in R2. cbn [lo iconst] in R2.
  assert (F : forall m, 0 <= m <= max_int64 -> is_finite (f_of_int m) = true)
    by (intros; apply f_of_int_finite; unfold min_int64; lia).
  apply fdiv_mono; try (apply product_finite; [lia|assumption]); [reflexivity|reflexivity|].
  apply fmul_mono; try (apply F; lia); try assumption; try lia; [|apply f_of_int_mono; lia].
  transitivity (units (f_of_int 0)); [by vm_compute|apply f_of_int_mono; lia].
Qed.

Lemma EstimateCost_terms model p c :
  EstimateCost model p c = fadd (term p (fst (rates model))) (term c (snd (rates model))).
Proof. unfold EstimateCost, term. by destruct (rates model). Qed.

Lemma term_finite n r : 0 <= n <= max_int64 -> rate_ok r = true -> is_finite (term n r) = true.
Proof.
  intros Hn R. pose proof R as R'. unfold rate_ok in R'. rewrite !andb_true_iff in R'. destruct R' as [[[R1 R2] R3] R4].
  eapply inside_finite, fdiv_inside; [|reflexivity|reflexivity|exact R4].
  apply fmul_inside; auto using full_range with float.
Qed.

Lemma cost_floor model :
  units (f_of_int 0) <= units (lo (cost_itv model (iint 0 max_int64) (iint 0 max_int64))).
Proof.
  unfold cost_itv. pattern (rates model). apply rates_cases; by vm_compute.
Qed.

(** C34: The estimated cost of any model and any non-negative token counts of an
    [int] is a finite, non-negative float64, and more tokens never cost less. *)
Theorem EstimateCost_monotone model p c p' c' :
  0 <= p <= p' -> p' <= max_int64 -> 0 <= c <= c' -> c' <= max_int64 ->
  is_finite (EstimateCost model p c) = true /\
  fleb (f_of_int 0) (EstimateCost model p c) = true /\
  fleb (EstimateCost model p c) (EstimateCost model p' c') = true.
Proof.
  intros Hp Hp' Hc Hc'.
  assert (I : forall a b, 0 <= a <= max_int64 -> 0 <= b <= max_int64 ->
    inside (EstimateCost model a b) (cost_itv model (iint 0 max_int64) (iint 0 max_int64)))
    by (intros; apply EstimateCost_inside; auto using full_range, cost_side_full).
  pose proof (I p c ltac:(lia) ltac:(lia)) as I1. pose proof (I p' c' ltac:(lia) ltac:(lia)) as I2.
  split; [eauto with float|].
  rewrite !fleb_units by eauto with float. rewrite !Z.leb_le. split.
  - pose proof (inside_bounds _ _ I1). etrans; [apply (cost_floor model)|apply H].
  - rewrite !EstimateCost_terms. destruct (andb_prop _ _ (rates_ok model)) as [R1 R2].
    apply fadd_mono; try (apply term_finite; (assumption || lia)); apply term_mono; (assumption || lia).
Qed.

Lemma EstimateCost_monotone_witness :
  is_finite (EstimateCost "gpt-4o" 10 20) = true /\
  fleb (f_of_int 0) (EstimateCost "gpt-4o" 10 20) = true /\
  fleb (EstimateCost "gpt-4o" 10 20) (EstimateCost "gpt-4o" 1000 2000) = true.
Proof. apply (EstimateCost_monotone "gpt-4o" 10 20 1000 2000); unfold max_int64; lia. Defined.

(** The prices of the comment, and the price the code uses by default. *)
Example cost_examples :
  (EstimateCost "gpt-4o" 1000 1000, EstimateCost "other" 1000 0, EstimateCost "other" 0 1000)
  = (f_of_int 2, f_const 1 10, f_const 2 10).
Proof. by vm_compute. Qed.
