(* ===== verification/RateLimit.v ===== *)
(** * RateLimit: the local token buckets (internal/ratelimit/ratelimit.go)

    [Allow] refills and charges the bucket of a tenant under one lock; tokens
    are binary64 numbers.  [backgroundSync] reports to Redis and never changes
    a bucket.  The readings of [time.Now] are arguments: [created] is the one
    taken when the bucket is new, [now] the one taken for the refill. *)

From S2P Require Import Prelude Rounding Binary64 Float64 GoTypes.
From Stdlib Require Import SpecFloat.
Local Open Scope Z_scope.

(** The outcome of a check; [ResetAt] is never set. *)
Record Result := {
  Allowed : bool;
  Limit : Z;
  Remaining : Z;
  ResetAt : option Z;
  RetryAfter : Z
}.

#[export] Instance Result_eq_dec : EqDecision Result.
Proof. solve_decision. Defined.

Class Limiter (L : Type) := {
  Allow : Z -> Z -> string -> Z -> L -> result Result * L
}.

Record localBucket := { tokens : float64; last : Z }.

Record TokenBucket := {
  buckets : gmap string localBucket;
  syncInterval : Z
}.

Module TB.

Definition NewTokenBucket (syncInterval : Z) : TokenBucket :=
  {| buckets := ∅; syncInterval := syncInterval |}.

Definition f_1 : float64 := f_of_int 1.
Definition f_10 : float64 := f_of_int 10.
Definition f_60 : float64 := f_of_int 60.

(** A new bucket holds a tenth of the limit, at least one token. *)
Definition initialTokens (limit : Z) : float64 :=
  let initial := fdiv (f_of_int limit) f_10 in
  if fltb initial f_1 then f_1 else initial.

Definition new_bucket (created limit : Z) : localBucket :=
  {| tokens := initialTokens limit; last := created |}.

(** Refill by elapsed time, at most up to the limit. *)
Definition refill (limit now : Z) (b : localBucket) : localBucket :=
  let refillRate := fdiv (f_of_int limit) f_60 in
  let duration := Seconds (Time_Sub now (last b)) in
  let t := fadd (tokens b) (fmul duration refillRate) in
  {| tokens := if fltb (f_of_int limit) t then f_of_int limit else t; last := now |}.

Definition allowed_result (limit : Z) (t : float64) : Result :=
  {| Allowed := true; Limit := limit; Remaining := f_to_int t; ResetAt := None; RetryAfter := 0 |}.

Definition denied_result (limit : Z) : Result :=
  {| Allowed := false; Limit := limit; Remaining := 0; ResetAt := None; RetryAfter := Second |}.

(** Refill, then take one token if there is one. *)
Definition charge (limit now : Z) (b : localBucket) : Result * localBucket :=
  let b := refill limit now b in
  if fleb f_1 (tokens b) then
    let t := fsub (tokens b) f_1 in
    (allowed_result limit t, {| tokens := t; last := last b |})
  else (denied_result limit, b).

Definition Allow (created now : Z) (tenantID : string) (limit : Z) (tb : TokenBucket)
    : result Result * TokenBucket :=
  let bucket := default (new_bucket created limit) (buckets tb !! tenantID) in
  let '(r, bucket) := charge limit now bucket in
  (inl r, {| buckets := <[tenantID := bucket]> (buckets tb); syncInterval := syncInterval tb |}).

(** ** Background synchronisation *)

(** The script is run with the tenants as keys and, as arguments, a usage of
    1.0 and a limit of 1000.0 for each. *)
Record EvalCall := { eval_keys : list string; eval_args : list float64 }.

(** The goroutine starts with its ticker. *)
Definition start_sync (tb : TokenBucket) : outcome Z := NewTicker (syncInterval tb).

(** One tick: [keys] is the order in which the map is ranged over. *)
Definition backgroundSync (keys : list string) (tb : TokenBucket) : option EvalCall * TokenBucket :=
  let snapshot := tokens <$> buckets tb in
  if decide (size snapshot = 0%nat) then (None, tb)
  else (Some {| eval_keys := keys;
                eval_args := ((fun _ => f_of_int 1) <$> keys) ++ ((fun _ => f_of_int 1000) <$> keys) |}, tb).

(** The orders in which Go may range over the snapshot. *)
Definition range_order (keys : list string) (tb : TokenBucket) : Prop :=
  Permutation keys (elements (dom (buckets tb))).

End TB.
Import TB(NewTokenBucket, f_1, f_10, f_60, initialTokens, new_bucket, refill, charge, allowed_result, denied_result).

#[export] Instance TokenBucket_Limiter : Limiter TokenBucket := {| Allow := TB.Allow |}.

(** A tenant of ten requests per minute: one token at first, refused at once,
    admitted six seconds later. *)
Example allow_example :
  let '(r1, tb) := TB.Allow 0 0 "t" 10 (NewTokenBucket 0) in
  let '(r2, tb) := TB.Allow 0 1000 "t" 10 tb in
  let '(r3, tb) := TB.Allow 0 (6 * Second) "t" 10 tb in
  (r1, r2, r3) = (inl (allowed_result 10 (f_of_int 0)), inl (denied_result 10), inl (allowed_result 10 (f_of_int 0))).
Proof. vm_compute. reflexivity. Qed.

(** ** Executions *)

(** One call of [Allow]. *)
Record allow_call := { c_created : Z; c_now : Z; c_tenant : string; c_limit : Z }.

Fixpoint run (cs : list allow_call) (tb : TokenBucket) : list (result Result) * TokenBucket :=
  match cs with
  | [] => ([], tb)
  | c :: cs =>
      let '(r, tb) := TB.Allow (c_created c) (c_now c) (c_tenant c) (c_limit c) tb in
      let '(rs, tb) := run cs tb in (r :: rs, tb)
  end.

(** Every bucket satisfies [I]. *)
Definition buckets_all (I : localBucket -> Prop) (tb : TokenBucket) : Prop :=
  forall t b, buckets tb !! t = Some b -> I b.

Lemma NewTokenBucket_all I s : buckets_all I (NewTokenBucket s).
Proof. intros t b. simpl. by rewrite lookup_empty. Qed.

Lemma Allow_all (I : localBucket -> Prop) created now t limit tb :
  (forall b, b = new_bucket created limit \/ I b -> I (snd (charge limit now b))) ->
  buckets_all I tb -> buckets_all I (snd (TB.Allow created now t limit tb)).
Proof.
  intros C W u b. unfold TB.Allow.
  specialize (C (default (new_bucket created limit) (buckets tb !! t))).
  destruct (charge limit now _) as [r b'] eqn:E; simpl in *.
  rewrite lookup_insert. case_decide; [|apply W]. intros [= <-]. apply C.
  destruct (buckets tb !! t) eqn:F; simpl; [right; by eapply W|by left].
Qed.

(** ** Validity *)

Definition valid_bucket (b : localBucket) : Prop := valid (tokens b).

Lemma f_of_int_valid z : valid (f_of_int z).
Proof. auto with float. Qed.

Lemma Seconds_valid d : valid (Seconds d).
Proof. unfold Seconds. apply fadd_valid; [apply f_of_int_valid|]. apply fdiv_valid; [apply f_of_int_valid|by vm_compute|by vm_compute]. Qed.

Lemma initialTokens_valid limit : valid (initialTokens limit).
Proof.
  unfold initialTokens. case_match; [by right|].
  apply fdiv_valid; [apply f_of_int_valid|by vm_compute|by vm_compute].
Qed.

Lemma refill_valid limit now b : valid_bucket b -> valid_bucket (refill limit now b).
Proof.
  intros V. unfold valid_bucket, refill; simpl. case_match; [apply f_of_int_valid|].
  apply fadd_valid; [done|]. apply fmul_valid; [apply Seconds_valid|].
  apply fdiv_valid; [apply f_of_int_valid|by vm_compute|by vm_compute].
Qed.

Lemma charge_valid limit now b : valid_bucket b -> valid_bucket (snd (charge limit now b)).
Proof.
  intros V%(refill_valid limit now). unfold charge. case_match; [|done].
  apply fsub_valid; [done|by right].
Qed.

Lemma Allow_valid created now t limit tb :
  buckets_all valid_bucket tb -> buckets_all valid_bucket (snd (TB.Allow created now t limit tb)).
Proof.
  apply Allow_all. intros b [->|V]; apply charge_valid; [apply initialTokens_valid|done].
Qed.

(** After the refill there are never more tokens than the limit. *)
Lemma refill_capped limit now b : valid_bucket b -> is_num (tokens (refill limit now b)) = true ->
  units (tokens (refill limit now b)) <= units (f_of_int limit).
Proof.
  unfold refill; simpl. intros V N. case_match eqn:E; [done|].
  rewrite fltb_units in E by auto with float. by apply Z.ltb_ge in E.
Qed.

Lemma charge_spec limit now b : valid_bucket b ->
  (Allowed (fst (charge limit now b)) = true /\ is_num (tokens (refill limit now b)) = true /\
     units f_1 <= units (tokens (refill limit now b)) /\
     charge limit now b = (allowed_result limit (fsub (tokens (refill limit now b)) f_1),
                           {| tokens := fsub (tokens (refill limit now b)) f_1; last := now |}))
  \/ (Allowed (fst (charge limit now b)) = false /\ fleb f_1 (tokens (refill limit now b)) = false /\
     charge limit now b = (denied_result limit, refill limit now b)).
Proof.
  intros V%(refill_valid limit now). unfold charge. destruct (fleb f_1 _) eqn:E; [left|by right].
  apply fleb_true in E as (_ & N & L); [|by right|exact V]. by repeat split.
Qed.

Lemma Allow_fst created now t limit tb :
  fst (TB.Allow created now t limit tb) =
  inl (fst (charge limit now (default (new_bucket created limit) (buckets tb !! t)))).
Proof. unfold TB.Allow. by destruct (charge limit now _). Qed.

Lemma bucket_valid created t limit tb : buckets_all valid_bucket tb ->
  valid_bucket (default (new_bucket created limit) (buckets tb !! t)).
Proof.
  intros W. destruct (buckets tb !! t) eqn:F; simpl; [by eapply W|apply initialTokens_valid].
Qed.

Lemma run_valid cs tb : buckets_all valid_bucket tb -> buckets_all valid_bucket (snd (run cs tb)).
Proof.
  revert tb. induction cs as [|c cs IH]; intros tb W; [done|]. simpl.
  pose proof (Allow_valid (c_created c) (c_now c) (c_tenant c) (c_limit c) tb W) as W'.
  destruct (TB.Allow _ _ _ _ _) as [r tb']. specialize (IH tb' W').
  by destruct (run cs tb').
Qed.

(** The limiter never returns an error, and a tenant whose limit is zero or
    negative is refused whatever happened before: after any sequence of calls,
    for any tenants, limits and clock readings. *)
Theorem Allow_nonpositive_limit cs sync created now t limit :
  limit <= 0 ->
  fst (TB.Allow created now t limit (snd (run cs (NewTokenBucket sync)))) = inl (denied_result limit).
Proof.
  intros H. rewrite Allow_fst. f_equal.
  set (tb := snd (run cs (NewTokenBucket sync))).
  assert (W : buckets_all valid_bucket tb) by apply run_valid, NewTokenBucket_all.
  set (b := default _ _). assert (V : valid_bucket b) by by apply bucket_valid.
  destruct (charge_spec limit now b V) as [(_ & N & L & _)|(_ & _ & ->)]; [exfalso|done].
  pose proof (refill_capped limit now b V N).
  pose proof (f_of_int_mono limit 0 H).
  assert (units (f_of_int 0) < units f_1) by by vm_compute. lia.
Qed.

(** ** Buckets of tenants with a positive limit *)

(** A finite number of tokens, not negative. *)
Definition good_bucket (b : localBucket) : Prop :=
  is_finite (tokens b) = true /\ 0 <= units (tokens b) <= units (f_of_int max_int64).

Lemma good_valid b : good_bucket b -> valid_bucket b.
Proof. intros [F _]. right. by apply is_finite_num. Qed.

Definition duration_itv : itv := Itv (f_of_int 0) (f_of_int (2 ^ 34)).

Lemma Time_Sub_range t u : u <= t -> 0 <= Time_Sub t u <= max_int64.
Proof. unfold Time_Sub, min_int64, max_int64. lia. Qed.

Lemma Second_split d : 0 <= d ->
  d = Z.quot d Second * Second + Z.rem d Second /\ 0 <= Z.quot d Second /\ 0 <= Z.rem d Second < Second.
Proof.
  intros Hd. pose proof (Z.quot_rem d Second ltac:(done)). pose proof (Z.rem_bound_pos d Second Hd ltac:(done)).
  split; [lia|]. split; [|done]. apply Z.quot_pos; [done|]. unfold Second. lia.
Qed.

Lemma fraction_inside d : 0 <= d ->
  inside (fdiv (f_of_int (Z.rem d Second)) (f_of_int 1000000000)) (idivc (iint 0 999999999) (f_of_int 1000000000)).
Proof.
  intros Hd. destruct (Second_split d Hd) as (_ & _ & R). unfold Second in *.
  apply fdiv_inside; [|by vm_compute|by vm_compute|by vm_compute].
  apply f_of_int_inside; [lia|by vm_compute].
Qed.

Lemma Seconds_inside d : 0 <= d <= max_int64 -> inside (Seconds d) duration_itv.
Proof.
  intros Hd. destruct (Second_split d ltac:(lia)) as (E & Q & R).
  apply (inside_within _ (iadd (iint 0 9223372036) (idivc (iint 0 999999999) (f_of_int 1000000000)))); [|by vm_compute].
  apply fadd_inside; [|apply fraction_inside; lia|by vm_compute].
  apply f_of_int_inside; [|by vm_compute]. unfold Second, max_int64 in *. lia.
Qed.

Lemma f_of_int_finite64 z : 0 <= z <= max_int64 -> is_finite (f_of_int z) = true.
Proof. intros. apply f_of_int_finite. unfold min_int64. lia. Qed.

Lemma Seconds_lower d k : 0 <= k -> k * Second <= d <= max_int64 ->
  units (f_of_int k) <= units (Seconds d).
Proof.
  intros Hk Hd. assert (Hd0 : 0 <= d) by (unfold Second in Hd; lia).
  destruct (Second_split d Hd0) as (E & Q & R). pose proof (fraction_inside d Hd0) as Fr.
  assert (Fk : is_finite (f_of_int k) = true) by (apply f_of_int_finite64; unfold Second in *; lia).
  assert (Fq : is_finite (f_of_int (Z.quot d Second)) = true) by (apply f_of_int_finite64; unfold Second in *; lia).
  apply (rounds_mono _ _ _ _ _ _ (rounds_self _ Fk) (fadd_rounds _ _ Fq (inside_finite _ _ Fr))); [lia|lia|].
  pose proof (inside_bounds _ _ Fr) as [B _].
  assert (0 <= units (lo (idivc (iint 0 999999999) (f_of_int 1000000000)))) by by vm_compute.
  assert (Hkq : k <= Z.quot d Second) by (unfold Second in *; lia).
  pose proof (f_of_int_mono k (Z.quot d Second) Hkq). lia.
Qed.

(** The rate of a limit between two others. *)
Lemma rate_inside limit a b : 0 <= a <= limit -> limit <= b <= max_int64 ->
  inside (fdiv (f_of_int limit) f_60) (idivc (iint a b) f_60).
Proof.
  intros Ha Hb.
  assert (F : forall z, 0 <= z <= max_int64 -> is_finite (fdiv (f_of_int z) f_60) = true).
  { intros z Hz. apply (inside_finite _ (idivc (iint 0 max_int64) f_60)).
    apply fdiv_inside; [|by vm_compute|by vm_compute|by vm_compute].
    apply f_of_int_inside; [lia|by vm_compute]. }
  apply fdiv_inside; [|by vm_compute|by vm_compute|].
  - apply f_of_int_inside; [lia|]. unfold proper; simpl. by rewrite !f_of_int_finite64 by lia.
  - unfold proper; simpl. by rewrite !F by lia.
Qed.

Definition tokens_itv : itv := Itv (f_of_int 0) (f_of_int max_int64).

Lemma good_inside b : good_bucket b -> inside (tokens b) tokens_itv.
Proof.
  intros [F B]. apply inside_intro; [by apply is_finite_num|by vm_compute|by vm_compute|].
  by replace (units (f_of_int 0)) with 0 by by vm_compute.
Qed.

(** What the refill adds, and the sum before the cap. *)
Definition increment (limit now : Z) (b : localBucket) : float64 :=
  fmul (Seconds (Time_Sub now (last b))) (fdiv (f_of_int limit) f_60).

Lemma increment_inside limit now b : 0 <= limit <= max_int64 -> last b <= now ->
  inside (increment limit now b) (imul duration_itv (idivc (iint 0 max_int64) f_60)).
Proof.
  intros Hl Hn. apply fmul_inside; [by apply Seconds_inside, Time_Sub_range| |by vm_compute|by vm_compute|by vm_compute].
  apply rate_inside; lia.
Qed.

Lemma sum_inside limit now b : 0 <= limit <= max_int64 -> last b <= now -> good_bucket b ->
  inside (fadd (tokens b) (increment limit now b))
         (iadd tokens_itv (imul duration_itv (idivc (iint 0 max_int64) f_60))).
Proof.
  intros. apply fadd_inside; [by apply good_inside|by apply increment_inside|by vm_compute].
Qed.

Lemma refill_tokens limit now b : tokens (refill limit now b) =
  (if fltb (f_of_int limit) (fadd (tokens b) (increment limit now b))
   then f_of_int limit else fadd (tokens b) (increment limit now b)).
Proof. reflexivity. Qed.

Lemma refill_good limit now b : 0 <= limit <= max_int64 -> last b <= now -> good_bucket b ->
  is_finite (tokens (refill limit now b)) = true /\
  0 <= units (tokens (refill limit now b)) <= units (f_of_int limit).
Proof.
  intros Hl Hn G. pose proof (sum_inside limit now b Hl Hn G) as I. rewrite refill_tokens.
  assert (Fl : is_finite (f_of_int limit) = true) by by apply f_of_int_finite64.
  assert (P : 0 <= units (f_of_int limit)).
  { replace 0 with (units (f_of_int 0)) by by vm_compute. apply f_of_int_mono. lia. }
  destruct (fltb _ _) eqn:E; [by split|]. rewrite fltb_units in E by eauto with float. apply Z.ltb_ge in E.
  split; [eauto with float|]. split; [|done]. pose proof (inside_bounds _ _ I) as [B _].
  etrans; [|exact B]. by vm_compute.
Qed.

Lemma charge_good limit now b : 0 <= limit <= max_int64 -> last b <= now -> good_bucket b ->
  good_bucket (snd (charge limit now b)).
Proof.
  intros Hl Hn G. destruct (refill_good limit now b Hl Hn G) as [F [B1 B2]].
  pose proof (f_of_int_mono limit max_int64 ltac:(lia)) as M.
  destruct (charge_spec limit now b (good_valid b G)) as [(_ & _ & L & ->)|(_ & _ & ->)]; simpl.
  - assert (F1 : is_finite f_1 = true) by by vm_compute.
    assert (I : inside (fsub (tokens (refill limit now b)) f_1) tokens_itv).
    { pose proof (proj1 (fsub_rounds _ f_1 F F1)) as N.
      apply inside_intro; [done|by vm_compute|by vm_compute|].
      replace (units (f_of_int 0)) with (units (fsub f_1 f_1)) by by vm_compute.
      split; [by apply fsub_mono|].
      etrans; [apply (fsub_mono _ (f_of_int max_int64) f_1 f_1)|]; try done; try lia; by vm_compute. }
    split; [eauto with float|]. pose proof (inside_bounds _ _ I) as B.
    replace (units (lo tokens_itv)) with 0 in B by by vm_compute. exact B.
  - split; [done|]. lia.
Qed.

Lemma initial_good created limit : 0 <= limit <= max_int64 -> good_bucket (new_bucket created limit).
Proof.
  intros Hl. unfold good_bucket, new_bucket, initialTokens; simpl.
  assert (I : inside (fdiv (f_of_int limit) f_10) (idivc (iint 0 max_int64) f_10)).
  { apply fdiv_inside; [|by vm_compute|by vm_compute|by vm_compute]. apply f_of_int_inside; [lia|by vm_compute]. }
  destruct (fltb _ _); [split; [by vm_compute|split; by vm_compute]|].
  split; [eauto with float|]. pose proof (inside_bounds _ _ I) as [B1 B2].
  split; [etrans; [|exact B1]; by vm_compute|etrans; [exact B2|]; by vm_compute].
Qed.

(** ** Timed executions *)

(** Clock readings never go back. *)
Fixpoint timed (t : Z) (cs : list allow_call) : Prop :=
  match cs with
  | [] => True
  | c :: cs => t <= c_created c <= c_now c /\ timed (c_now c) cs
  end.

(** The limits used for a tenant; nothing is asked of the other tenants. *)
Definition limits_ok (t : string) (cs : list allow_call) : Prop :=
  Forall (fun c => c_tenant c = t -> 0 <= c_limit c <= max_int64) cs.

(** The bucket of the tenant, if any, is good and was last touched before [t0]. *)
Definition good_for (t : string) (t0 : Z) (tb : TokenBucket) : Prop :=
  forall b, buckets tb !! t = Some b -> good_bucket b /\ last b <= t0.

Lemma charge_last limit now b : last (snd (charge limit now b)) = now.
Proof. unfold charge. by case_match. Qed.

(** The bucket a call works on. *)
Definition bucket_for (created limit : Z) (t : string) (tb : TokenBucket) : localBucket :=
  default (new_bucket created limit) (buckets tb !! t).

Lemma bucket_for_good t0 created now limit t tb :
  good_for t t0 tb -> t0 <= created <= now -> 0 <= limit <= max_int64 ->
  good_bucket (bucket_for created limit t tb) /\ last (bucket_for created limit t tb) <= now.
Proof.
  intros W Ht Hl. unfold bucket_for. destruct (buckets tb !! t) as [b|] eqn:E; simpl.
  - destruct (W b E). split; [done|lia].
  - split; [by apply initial_good|lia].
Qed.

Lemma Allow_buckets created now t limit tb :
  buckets (snd (TB.Allow created now t limit tb))
  = <[t := snd (charge limit now (bucket_for created limit t tb))]> (buckets tb).
Proof. unfold TB.Allow. fold (bucket_for created limit t tb). by destruct (charge limit now _). Qed.

Lemma Allow_good_for u t0 created now limit t tb :
  good_for u t0 tb -> t0 <= created <= now -> (t = u -> 0 <= limit <= max_int64) ->
  good_for u now (snd (TB.Allow created now t limit tb)).
Proof.
  intros W Ht Hl b. rewrite Allow_buckets, lookup_insert. case_decide as D.
  - subst u. intros [= <-]. destruct (bucket_for_good t0 created now limit t tb W Ht (Hl eq_refl)) as [G L].
    split; [apply charge_good; auto|]. rewrite charge_last. lia.
  - intros X. destruct (W b X). split; [done|lia].
Qed.

(** The time of the last call. *)
Definition end_time (t0 : Z) (cs : list allow_call) : Z := fold_left (fun _ c => c_now c) cs t0.

Lemma run_cons c cs tb : run (c :: cs) tb =
  (fst (TB.Allow (c_created c) (c_now c) (c_tenant c) (c_limit c) tb)
     :: fst (run cs (snd (TB.Allow (c_created c) (c_now c) (c_tenant c) (c_limit c) tb))),
   snd (run cs (snd (TB.Allow (c_created c) (c_now c) (c_tenant c) (c_limit c) tb)))).
Proof. simpl. destruct (TB.Allow _ _ _ _ tb); simpl. by destruct (run cs _). Qed.

Lemma run_good_for t t0 cs tb : good_for t t0 tb -> timed t0 cs -> limits_ok t cs ->
  good_for t (end_time t0 cs) (snd (run cs tb)).
Proof.
  revert t0 tb. induction cs as [|c cs IH]; intros t0 tb W T L; [done|].
  destruct T as [Ht T]. apply Forall_cons in L as [Lc L].
  rewrite run_cons. apply (IH (c_now c)); [|done|done]. by apply (Allow_good_for _ t0).
Qed.

Lemma new_good_for t t0 sync : good_for t t0 (NewTokenBucket sync).
Proof. intros b. simpl. by rewrite lookup_empty. Qed.

(** What a result tells the client, given the tokens left in the bucket. *)
Definition result_spec (limit : Z) (r : Result) (left_over : float64) : Prop :=
  Limit r = limit /\
  if Allowed r
  then Remaining r = Z.quot (units left_over) one_u /\ 0 <= Remaining r < limit /\ RetryAfter r = 0
  else Remaining r = 0 /\ RetryAfter r = Second /\ fltb left_over f_1 = true.

Lemma charge_result limit now b : 0 <= limit <= 2 ^ 53 -> good_bucket b -> last b <= now ->
  result_spec limit (fst (charge limit now b)) (tokens (snd (charge limit now b))).
Proof.
  intros Hl G L. destruct (refill_good limit now b ltac:(unfold max_int64; lia) L G) as [F [B1 B2]].
  pose proof (charge_good limit now b ltac:(unfold max_int64; lia) L G) as G'.
  pose proof one_u_pos as U.
  assert (F1 : is_finite f_1 = true) by by vm_compute.
  assert (U1 : units f_1 = one_u) by (rewrite <- (Z.mul_1_l one_u); by apply (f_of_int_exact 1)).
  destruct (charge_spec limit now b (good_valid b G)) as [(_ & _ & L1 & E)|(_ & E1 & E)];
    rewrite E in *; cbn [fst snd tokens] in *; set (x := tokens (refill limit now b)) in *; clearbody x; clear E.
  - destruct G' as [F' B']. cbn [tokens] in F', B'.
    assert (X : units (fsub x f_1) <= (limit - 1) * one_u).
    { rewrite (f_of_int_exact limit) in B2 by lia.
      apply (rounds_upper _ _ _ (limit - 1) 1074 (fsub_rounds _ _ F F1)); rewrite ?U1, ?one_u_eq in *; try lia.
      pose proof one_u_lt_big. nia. }
    assert (R : f_to_int (fsub x f_1) = Z.quot (units (fsub x f_1)) one_u).
    { apply f_to_int_units; [done|]. unfold min_int64. nia. }
    unfold result_spec, allowed_result; cbn [Limit Allowed Remaining RetryAfter].
    split; [done|]. rewrite R. split; [done|]. split; [|done].
    rewrite Z.quot_div_nonneg by lia. split; [apply Z.div_pos; lia|].
    apply Z.div_lt_upper_bound; [lia|]. nia.
  - unfold result_spec, denied_result; cbn [Limit Allowed Remaining RetryAfter].
    split; [done|]. split; [done|]. split; [done|]. rewrite fltb_units by (by apply is_finite_num || done).
    rewrite fleb_units in E1 by (by apply is_finite_num || done).
    apply Z.leb_gt in E1. by apply Z.ltb_lt.
Qed.

(** C23: In every execution with a clock that does not go back, for every tenant
    whose own limits are in range and whatever the other tenants do, the
    tenant's bucket holds a finite, non-negative number of tokens, and each
    check reports exactly what it did: admitted with the whole tokens left,
    fewer than the limit and at least zero, or refused with a second to wait
    and less than one token in the bucket. *)
Theorem Allow_result cs sync created now t limit :
  timed 0 cs -> limits_ok t cs ->
  end_time 0 cs <= created <= now -> 0 <= limit <= 2 ^ 53 ->
  let tb := snd (run cs (NewTokenBucket sync)) in
  exists r b, fst (TB.Allow created now t limit tb) = inl r /\
    buckets (snd (TB.Allow created now t limit tb)) !! t = Some b /\
    good_bucket b /\ last b = now /\ result_spec limit r (tokens b).
Proof.
  intros T L Ht Hl tb. assert (Hl' : 0 <= limit <= max_int64) by (unfold max_int64; lia).
  pose proof (run_good_for t 0 cs _ (new_good_for t 0 sync) T L) as W. fold tb in W.
  destruct (bucket_for_good _ created now limit t tb W Ht Hl') as [G La].
  exists (fst (charge limit now (bucket_for created limit t tb))), (snd (charge limit now (bucket_for created limit t tb))).
  rewrite Allow_fst, Allow_buckets, lookup_insert_eq. split; [done|]. split; [done|].
  split; [by apply charge_good|]. split; [apply charge_last|by apply charge_result].
Qed.

(** ** Liveness: a waiting tenant is admitted *)

(** The least limit that earns a token in [k] seconds. *)
Definition least_limit (k : Z) : Z := (60 + k - 1) / k.

Lemma token_table k : 1 <= k <= 60 ->
  fleb f_1 (fmul (f_of_int k) (fdiv (f_of_int (least_limit k)) f_60)) = true.
Proof.
  intros Hk.
  assert (T : forallb (fun k => fleb f_1 (fmul (f_of_int k) (fdiv (f_of_int (least_limit k)) f_60)))
                      (Z.of_nat <$> List.seq 1 60) = true) by by vm_compute.
  rewrite forallb_forall in T. apply T. apply list_elem_of_In, list_elem_of_fmap.
  exists (Z.to_nat k). split; [lia|]. apply list_elem_of_In, in_seq. lia.
Qed.

Lemma increment_lower limit now b k : 1 <= k <= 60 -> 60 <= k * limit -> limit <= max_int64 ->
  last b + k * Second <= now -> units f_1 <= units (increment limit now b).
Proof.
  intros Hk HL Hm Hn.
  assert (Lk : 1 <= least_limit k <= limit).
  { unfold least_limit. split; [apply Z.div_le_lower_bound; lia|].
    assert ((60 + k - 1) / k < limit + 1); [|lia]. apply Z.div_lt_upper_bound; [lia|]. nia. }
  pose proof (token_table k Hk) as T.
  assert (D : k * Second <= Time_Sub now (last b) <= max_int64)
    by (unfold Time_Sub, min_int64, max_int64, Second in *; lia).
  pose proof (Seconds_inside (Time_Sub now (last b)) ltac:(unfold Second in *; lia)) as I1.
  assert (R1 : inside (fdiv (f_of_int (least_limit k)) f_60) (idivc (iint 0 max_int64) f_60)) by (apply rate_inside; lia).
  assert (R2 : inside (fdiv (f_of_int limit) f_60) (idivc (iint 0 max_int64) f_60)) by (apply rate_inside; lia).
  assert (Fk : is_finite (f_of_int k) = true) by (apply f_of_int_finite64; unfold max_int64; lia).
  assert (P : 0 <= units (lo (idivc (iint 0 max_int64) f_60))) by by vm_compute.
  apply fleb_true in T as (_ & _ & T); [|by right|].
  2: { apply fmul_valid; [auto with float|]. right. eauto with float. }
  etrans; [exact T|]. apply fmul_mono; eauto with float.
  - replace 0 with (units (f_of_int 0)) by by vm_compute. apply f_of_int_mono. lia.
  - pose proof (inside_bounds _ _ R1). lia.
  - apply Seconds_lower; lia.
  - apply fdiv_mono; [apply f_of_int_finite64; lia|apply f_of_int_finite64; lia|by vm_compute|by vm_compute|].
    apply f_of_int_mono. lia.
Qed.

Lemma refill_one limit now b : 1 <= limit <= max_int64 -> last b <= now -> good_bucket b ->
  units f_1 <= units (increment limit now b) \/ units f_1 <= units (tokens b) ->
  units f_1 <= units (tokens (refill limit now b)).
Proof.
  intros Hl Hn G H. rewrite refill_tokens. case_match.
  - apply (f_of_int_mono 1 limit). lia.
  - pose proof (inside_finite _ _ (increment_inside limit now b ltac:(lia) Hn)) as Fi. destruct G as [F B].
    pose proof (inside_bounds _ _ (increment_inside limit now b ltac:(lia) Hn)) as [Bi _].
    assert (0 <= units (lo (imul duration_itv (idivc (iint 0 max_int64) f_60)))) by by vm_compute.
    apply (rounds_mono _ _ _ _ _ _ (rounds_self f_1 eq_refl) (fadd_rounds _ _ F Fi)); lia.
Qed.

Lemma initial_one created limit : 1 <= limit <= max_int64 -> units f_1 <= units (tokens (new_bucket created limit)).
Proof.
  intros Hl. simpl. unfold initialTokens. destruct (fltb _ _) eqn:E; [done|].
  rewrite fltb_units in E; [by apply Z.ltb_ge in E| |done].
  apply fdiv_rounds; [apply f_of_int_finite64; lia|by vm_compute|by vm_compute].
Qed.

(** C22: A tenant with a positive limit is admitted on its first request, and
    again whenever [k] whole seconds (1 to 60) have passed since its previous
    request and [k] seconds are worth a token ([k * limit >= 60]): no request
    waits for more than a minute, and float64 rounding never delays one. *)
Theorem Allow_after_waiting cs sync created now t limit k :
  timed 0 cs -> limits_ok t cs -> end_time 0 cs <= created <= now ->
  limit <= max_int64 -> 1 <= k <= 60 -> 60 <= k * limit ->
  let tb := snd (run cs (NewTokenBucket sync)) in
  (forall b, buckets tb !! t = Some b -> last b + k * Second <= now) ->
  exists r, fst (TB.Allow created now t limit tb) = inl r /\ Allowed r = true.
Proof.
  intros T L Ht Hm Hk HL tb Hb. assert (Hl : 1 <= limit) by nia.
  pose proof (run_good_for t 0 cs _ (new_good_for t 0 sync) T L) as W. fold tb in W.
  destruct (bucket_for_good _ created now limit t tb W Ht) as [G La]; [lia|].
  rewrite Allow_fst. fold (bucket_for created limit t tb). eexists. split; [done|].
  assert (H : units f_1 <= units (tokens (refill limit now (bucket_for created limit t tb)))).
  { apply refill_one; [lia|done|done|]. unfold bucket_for. destruct (buckets tb !! t) as [b|]; simpl.
    - left. apply (increment_lower _ _ _ k); try done. by apply Hb.
    - right. apply (initial_one created). lia. }
  unfold charge. rewrite fleb_units; [|done|].
  - rewrite (proj2 (Z.leb_le _ _)) by exact H. done.
  - apply is_finite_num, refill_good; [lia|done|done].
Qed.

(** ** At most twice the limit in a minute *)

Lemma idiv_upper a c : 0 <= a <= max_int64 -> 1 <= c <= 1000000000 -> a = 0 \/ 1 <= a ->
  units (fdiv (f_of_int a) (f_of_int c)) * (2 ^ 53 * c) <= units (f_of_int a) * (2 ^ 53 + 1).
Proof.
  intros Ha Hc A. pose proof one_u_pos as U. pose proof (f_of_int_exact c ltac:(lia)) as Ec.
  pose proof (f_of_int_mono 0 a ltac:(lia)) as M0. replace (units (f_of_int 0)) with 0 in M0 by by vm_compute.
  assert (Fa : is_finite (f_of_int a) = true) by by apply f_of_int_finite64.
  assert (Fc : is_finite (f_of_int c) = true) by (apply f_of_int_finite64; unfold max_int64; lia).
  pose proof (fdiv_rounds _ _ Fa Fc ltac:(nia)) as R.
  rewrite Ec, Z.sgn_pos, Z.abs_eq, Z.mul_1_r in R by nia.
  apply rounds_relative in R; [|nia|nia|].
  - apply (Z.mul_le_mono_pos_r _ _ one_u); [done|]. lia.
  - destruct A as [->|A]; [left; replace (units (f_of_int 0)) with 0 by (by vm_compute); lia|right].
    pose proof (f_of_int_mono 1 a A) as M. rewrite (f_of_int_exact 1), Z.mul_1_l in M by lia.
    assert (1000000000 * 2 ^ 52 <= one_u) by by vm_compute. nia.
Qed.

Definition least_quotient : Z := units (fdiv (f_of_int 1) (f_of_int 1000000000)).

(** Lower bound of a positive quotient of integers. *)
Lemma idiv_lower a c : 1 <= a <= max_int64 -> 1 <= c <= 1000000000 ->
  least_quotient <= units (fdiv (f_of_int a) (f_of_int c)).
Proof.
  unfold least_quotient.  intros Ha Hc. pose proof one_u_pos as U.
  pose proof (f_of_int_exact c ltac:(lia)) as Ec. pose proof (f_of_int_exact 1000000000 ltac:(lia)) as Em.
  pose proof (f_of_int_mono 1 a ltac:(lia)) as M. rewrite (f_of_int_exact 1) in M by lia.
  assert (F : forall z, 0 <= z <= max_int64 -> is_finite (f_of_int z) = true) by apply f_of_int_finite64.
  assert (Fc : is_finite (f_of_int c) = true) by (apply F; unfold max_int64; lia).
  pose proof (fdiv_rounds _ _ (F 1 ltac:(done)) (F 1000000000 ltac:(done)) ltac:(lia)) as R1.
  pose proof (fdiv_rounds _ _ (F a ltac:(lia)) Fc ltac:(nia)) as R2.
  rewrite ?Ec, ?Em, ?(f_of_int_exact 1), ?Z.sgn_pos, ?Z.abs_eq, ?Z.mul_1_r, ?Z.mul_1_l in * by nia.
  apply (rounds_mono _ _ _ _ _ _ R1 R2); [lia|nia|].
  assert (c * one_u <= 1000000000 * one_u) by nia.
  apply Z.mul_le_mono_nonneg; nia.
Qed.

Lemma f_mono0 a : 0 <= a -> 0 <= units (f_of_int a).
Proof. intros. replace 0 with (units (f_of_int 0)) by by vm_compute. by apply f_of_int_mono. Qed.

Lemma least_quotient_bounds : 2 ^ 1040 <= least_quotient /\ 2 ^ 52 * one_u <= least_quotient * least_quotient.
Proof. split; by vm_compute. Qed.
#[local] Opaque least_quotient.

(** Seconds of a duration up to a minute: relative error. *)
Lemma Seconds_upper d : 0 <= d <= Minute ->
  units (Seconds d) * (2 ^ 53 * 2 ^ 53 * 1000000000) <= d * one_u * ((2 ^ 53 + 1) * (2 ^ 53 + 1))
  /\ (d = 0 /\ units (Seconds d) = 0 \/ least_quotient <= units (Seconds d)).
Proof.
  intros Hd. destruct (Second_split d ltac:(lia)) as (E & Q & R). unfold Seconds.
  pose proof (fraction_inside d ltac:(lia)) as Fr. pose proof one_u_pos as U.
  set (q := Z.quot d Second) in *. set (r := Z.rem d Second) in *. clearbody q r.
  assert (Hq : q <= 60) by (unfold Minute, Second in *; lia). unfold Second in *.
  pose proof (f_of_int_exact q ltac:(lia)) as Eq. pose proof (f_of_int_exact r ltac:(lia)) as Er.
  assert (Fq : is_finite (f_of_int q) = true) by (apply f_of_int_finite64; unfold max_int64; lia).
  pose proof (idiv_upper r 1000000000 ltac:(unfold max_int64; lia) ltac:(lia) ltac:(lia)) as Up. rewrite Er in Up.
  pose proof (inside_bounds _ _ Fr) as [Lo _].
  replace (units (lo (idivc (iint 0 999999999) (f_of_int 1000000000)))) with 0 in Lo by by vm_compute.
  assert (C : r = 0 \/ least_quotient <= units (fdiv (f_of_int r) (f_of_int 1000000000))).
  { destruct (Z.eq_dec r 0); [by left|right]. apply idiv_lower; unfold max_int64; lia. }
  assert (C0 : r = 0 -> units (fdiv (f_of_int r) (f_of_int 1000000000)) = 0) by (intros ->; by vm_compute).
  pose proof (fadd_rounds _ _ Fq (inside_finite _ _ Fr)) as A.
  set (x := fdiv (f_of_int r) (f_of_int 1000000000)) in *. clearbody x.
  rewrite Eq in A. destruct least_quotient_bounds as [Q1 Q2].
  assert (Bu : 2 ^ 1040 <= one_u) by by vm_compute.
  assert (P : 2 ^ 52 <= 2 ^ 1040) by (apply Z.pow_le_mono_r; lia).
  set (B := 2 ^ 1040) in *. clearbody B.
  split.
  - apply rounds_relative in A; [|lia|nia|destruct (Z.eq_dec q 0); [destruct C as [C|C]|]; [left; rewrite C0 by done; lia|right; lia|right; nia]].
    nia.
  - destruct (Z.eq_dec d 0) as [D|D]; [left; split; [done|]|right].
    + destruct A as [_ ->]. rewrite C0 by lia. replace q with 0 by lia. by vm_compute.
    + destruct C as [C|C]; [|transitivity (units x); [done|]; by apply (rounds_mono _ _ _ _ _ _ (rounds_self x (inside_finite _ _ Fr)) A); lia].
      transitivity (units (f_of_int 1)); [|apply (rounds_mono _ _ _ _ _ _ (rounds_self (f_of_int 1) eq_refl) A)]; try lia.
      * by vm_compute.
      * rewrite (f_of_int_exact 1) by lia. nia.
Qed.

(** Product of two positive numbers with relative errors. *)
Lemma fmul_upper x y : is_finite x = true -> is_finite y = true -> least_quotient <= units y ->
  units x = 0 \/ least_quotient <= units x ->
  units (fmul x y) * (2 ^ 53 * one_u) <= units x * units y * (2 ^ 53 + 1).
Proof.
  intros Fx Fy Hy Hx. destruct least_quotient_bounds as [Q1 Q2]. pose proof one_u_pos.
  assert (P : 0 < 2 ^ 1040) by (apply Z.pow_pos_nonneg; lia). set (B := 2 ^ 1040) in *. clearbody B.
  apply (rounds_relative _ _ _ (fmul_rounds x y Fx Fy)); [done|nia|].
  destruct Hx as [->|Hx]; [left; lia|right]. assert (least_quotient * least_quotient <= units x * units y); nia.
Qed.

(** Combining the errors of the conversion, the rate and the product. *)
Lemma increment_combine i s r d l u e : 0 < u -> e = 2 ^ 53 -> 0 <= s -> 0 <= r -> 0 <= d -> 0 <= l ->
  s * (e * e * 1000000000) <= d * u * ((e + 1) * (e + 1)) -> r * (e * 60) <= l * u * (e + 1) ->
  i * (e * u) <= s * r * (e + 1) -> i * (60000000000 * 2 ^ 50) <= d * l * u * (2 ^ 50 + 1).
Proof.
  intros Hu He Hs Hr Hd Hl A B C. assert (E : 0 < e) by lia.
  assert (AB : s * (e * e * 1000000000) * (r * (e * 60)) <= d * u * ((e + 1) * (e + 1)) * (l * u * (e + 1)))
    by (apply Z.mul_le_mono_nonneg; nia).
  assert (M : i * (e * e * e * e * 60000000000) <= d * l * u * ((e + 1) * (e + 1) * (e + 1) * (e + 1))).
  { apply (Z.mul_le_mono_pos_r _ _ u); [done|].
    transitivity ((s * (e * e * 1000000000) * (r * (e * 60))) * (e + 1)).
    - replace (i * (e * e * e * e * 60000000000) * u) with (i * (e * u) * (e * e * e * 60000000000)) by ring.
      replace (s * (e * e * 1000000000) * (r * (e * 60)) * (e + 1)) with (s * r * (e + 1) * (e * e * e * 60000000000)) by ring.
      apply Z.mul_le_mono_nonneg_r; nia.
    - replace (d * l * u * ((e + 1) * (e + 1) * (e + 1) * (e + 1)) * u)
        with (d * u * ((e + 1) * (e + 1)) * (l * u * (e + 1)) * (e + 1)) by ring.
      apply Z.mul_le_mono_nonneg_r; lia. }
  subst e. assert (0 <= d * l * u) by (repeat apply Z.mul_nonneg_nonneg; lia).
  set (x := d * l * u) in *. clearbody x. lia.
Qed.

(** What an interval [d] adds to a bucket, up to the rounding errors. *)
Definition earned (limit d : Z) : Z := d * limit * one_u * (2 ^ 50 + 1).

Lemma increment_upper limit now b : 1 <= limit <= 2 ^ 53 -> 0 <= now - last b <= Minute ->
  units (increment limit now b) * (60000000000 * 2 ^ 50) <= earned limit (now - last b).
Proof.
  intros Hl Hd. unfold increment, earned. set (d := now - last b) in *.
  replace (Time_Sub now (last b)) with d by (unfold Time_Sub, min_int64, max_int64, Minute, Second in *; lia).
  destruct (Seconds_upper d Hd) as [SU SL]. pose proof one_u_pos as U.
  assert (Fs : is_finite (Seconds d) = true).
  { eapply inside_finite, Seconds_inside. unfold max_int64, Minute, Second in *. lia. }
  assert (Fr : is_finite (fdiv (f_of_int limit) f_60) = true) by (eapply inside_finite, (rate_inside limit 0 max_int64); unfold max_int64; lia).
  pose proof (idiv_upper limit 60 ltac:(unfold max_int64; lia) ltac:(lia) ltac:(lia)) as RU.
  pose proof (idiv_lower limit 60 ltac:(unfold max_int64; lia) ltac:(lia)) as RL.
  rewrite (f_of_int_exact limit) in RU by lia. change (f_of_int 60) with f_60 in RU, RL.
  pose proof (fmul_upper _ _ Fs Fr RL ltac:(lia)) as MU. destruct least_quotient_bounds as [Q1 _].
  assert (Q0 : 0 <= least_quotient) by (etrans; [|exact Q1]; apply Z.pow_nonneg; lia).
  set (S := units (Seconds d)) in *. set (R := units (fdiv (f_of_int limit) f_60)) in *.
  set (I := units (fmul _ _)) in *. clearbody S R I.
  apply (increment_combine I S R d limit one_u (2 ^ 53)); lia.
Qed.

(** One token, when a request was admitted. *)
Definition spent (r : Result) : Z := if Allowed r then one_u else 0.

Lemma f_1_units : units f_1 = one_u.
Proof. rewrite <- (Z.mul_1_l one_u). by apply (f_of_int_exact 1). Qed.

(** A check does not create tokens. *)
Lemma charge_conserves limit now b : 0 <= limit <= 2 ^ 52 -> good_bucket b -> last b <= now ->
  units (tokens (snd (charge limit now b))) + spent (fst (charge limit now b))
  = units (tokens (refill limit now b)).
Proof.
  intros Hl G L. destruct (refill_good limit now b ltac:(unfold max_int64; lia) L G) as [F [B1 B2]].
  rewrite (f_of_int_exact limit) in B2 by lia. pose proof one_u_pos. unfold spent.
  destruct (charge_spec limit now b (good_valid b G)) as [(_ & _ & L1 & E)|(_ & E1 & E)];
    rewrite E; cbn [fst snd tokens Allowed allowed_result denied_result]; [|lia].
  rewrite f_1_units in L1. change f_1 with (f_of_int 1). rewrite fsub_one_exact; [lia|done|nia].
Qed.

(** What a refill adds. *)
Definition scale : Z := 60000000000 * 2 ^ 50.

Lemma refill_earned limit now b : 1 <= limit <= 2 ^ 31 -> good_bucket b ->
  units (tokens b) <= limit * one_u -> 0 <= now - last b <= Minute ->
  scale * units (tokens (refill limit now b))
  <= scale * (units (tokens b) + 2 ^ 1053) + earned limit (now - last b).
Proof.
  intros Hl G Ht Hd. assert (L : last b <= now) by lia.
  pose proof (increment_upper limit now b ltac:(lia) Hd) as I. unfold scale.
  pose proof (inside_finite _ _ (increment_inside limit now b ltac:(unfold max_int64; lia) L)) as Fi.
  pose proof (inside_bounds _ _ (increment_inside limit now b ltac:(unfold max_int64; lia) L)) as [Bi _].
  assert (P : 0 <= units (lo (imul duration_itv (idivc (iint 0 max_int64) f_60)))) by by vm_compute.
  destruct G as [F [B _]]. pose proof (fadd_rounds _ _ F Fi) as A. pose proof one_u_pos as U.
  assert (Le : units (tokens (refill limit now b)) <= units (fadd (tokens b) (increment limit now b))).
  { rewrite refill_tokens. case_match eqn:E; [|done]. rewrite fltb_units in E; [lia| |apply A].
    apply is_finite_num, f_of_int_finite64. unfold max_int64. lia. }
  apply (rounds_absolute _ _ 1054) in A; [| |lia|].
  - replace (2 ^ 1054) with (2 * 2 ^ 1053) in A by (rewrite <- Z.pow_succ_r by lia; done). lia.
  - lia.
  - replace (2 ^ (53 + 1054)) with (2 ^ 33 * one_u) by (rewrite <- one_u_eq, <- Z.pow_add_r by lia; done).
    unfold earned in I. assert (D : (now - last b) * limit * one_u <= 60000000000 * 2 ^ 31 * one_u).
    { apply Z.mul_le_mono_nonneg_r; [lia|]. unfold Minute, Second in Hd. nia. }
    assert (T : limit * one_u <= 2 ^ 31 * one_u) by (apply Z.mul_le_mono_nonneg_r; lia).
    assert (I' : units (increment limit now b) * (60000000000 * 2 ^ 50) <= 60000000000 * 2 ^ 31 * one_u * (2 ^ 50 + 1))
      by (etrans; [exact I|]; apply Z.mul_le_mono_nonneg_r; lia).
    clear I. lia.
Qed.

Lemma charge_earned limit now b : 1 <= limit <= 2 ^ 31 -> good_bucket b ->
  units (tokens b) <= limit * one_u -> 0 <= now - last b <= Minute ->
  scale * (units (tokens (snd (charge limit now b))) + spent (fst (charge limit now b)))
  <= scale * (units (tokens b) + 2 ^ 1053) + earned limit (now - last b).
Proof.
  intros Hl G Ht Hd. rewrite charge_conserves by (done || lia). by apply refill_earned.
Qed.

Lemma charge_capped limit now b : 1 <= limit <= 2 ^ 31 -> good_bucket b -> last b <= now ->
  units (tokens (snd (charge limit now b))) + spent (fst (charge limit now b)) <= limit * one_u.
Proof.
  intros Hl G L. rewrite charge_conserves by (done || lia). rewrite <- (f_of_int_exact limit) by lia.
  by apply refill_good; [unfold max_int64; lia|..].
Qed.

(** *** A window of executions *)

Definition allowed (r : result Result) : bool := match r with inl r => Allowed r | inr _ => false end.

(** The requests of a tenant, and those admitted. *)
Definition requests (t : string) (cs : list allow_call) : list allow_call :=
  filter (fun c => c_tenant c = t) cs.

Fixpoint admitted (t : string) (cs : list allow_call) (rs : list (result Result)) : Z :=
  match cs, rs with
  | c :: cs, r :: rs => (if decide (c_tenant c = t) then if allowed r then 1 else 0 else 0) + admitted t cs rs
  | _, _ => 0
  end.

(** All the requests of the tenant have the limit [l] and are made before [e]. *)
Definition in_window (t : string) (l e : Z) (cs : list allow_call) : Prop :=
  Forall (fun c => c_tenant c = t -> c_limit c = l /\ c_now c <= e) cs.

Lemma spent_allowed r : spent r = one_u * (if Allowed r then 1 else 0).
Proof. unfold spent. destruct (Allowed r); lia. Qed.

Lemma earned_split l a b e : earned l (b - a) + earned l (e - b) = earned l (e - a).
Proof. unfold earned. ring. Qed.

(** From a bucket in the window, the admitted requests are paid from its tokens
    and from what is earned up to the end of the window. *)
Lemma run_earned t l e cs : 1 <= l <= 2 ^ 31 -> forall t0 b tb, buckets tb !! t = Some b ->
  good_bucket b -> last b <= t0 -> units (tokens b) <= l * one_u ->
  timed t0 cs -> in_window t l e cs -> e - last b <= Minute -> last b <= e ->
  scale * (one_u * admitted t cs (fst (run cs tb)))
  <= scale * (units (tokens b) + 2 ^ 1053 * Z.of_nat (length (requests t cs))) + earned l (e - last b).
Proof.
  intros Hl. induction cs as [|c cs IH]; intros t0 b tb E G L Cap T W He Hb.
  { simpl. unfold scale, earned. destruct G as [_ [B _]]. pose proof one_u_pos. nia. }
  destruct T as [Ht T]. apply Forall_cons in W as [Wc W]. rewrite run_cons. simpl admitted.
  unfold requests. rewrite filter_cons. fold (requests t cs).
  set (tb' := snd (TB.Allow _ _ _ _ tb)). destruct (decide (c_tenant c = t)) as [D|D].
  - destruct (Wc D) as [Lc Nc]. rewrite Allow_fst, D, Lc, E. simpl allowed.
    pose proof (charge_earned l (c_now c) b Hl G Cap ltac:(lia)) as Q.
    pose proof (charge_capped l (c_now c) b Hl G ltac:(lia)) as C.
    pose proof (charge_good l (c_now c) b ltac:(unfold max_int64; lia) ltac:(lia) G) as G'.
    rewrite spent_allowed in Q, C. pose proof (earned_split l (last b) (c_now c) e) as S.
    assert (E' : buckets tb' !! t = Some (snd (charge l (c_now c) b))).
    { subst tb'. rewrite Allow_buckets, D, Lc, lookup_insert_eq. unfold bucket_for. by rewrite E. }
    pose proof (charge_last l (c_now c) b) as La.
    set (b' := snd (charge l (c_now c) b)) in *. set (n := if Allowed _ then 1 else 0) in *.
    specialize (IH (c_now c) b' tb' E' G' ltac:(lia)). rewrite La in IH.
    assert (0 <= n) by (subst n; case_match; lia). pose proof one_u_pos.
    specialize (IH ltac:(nia) T W ltac:(lia) ltac:(lia)).
    cbn [length]. rewrite Nat2Z.inj_succ. set (X := 2 ^ 1053) in *. clearbody X n. lia.
  - rewrite Z.add_0_l. apply (IH (c_now c)); try done; try lia.
    subst tb'. rewrite Allow_buckets. by rewrite lookup_insert_ne.
Qed.

Lemma run_window t l s e cs : 1 <= l <= 2 ^ 31 -> e - s <= Minute -> forall t0 tb, good_for t t0 tb ->
  timed t0 cs -> in_window t l e cs -> Forall (fun c => c_tenant c = t -> s <= c_now c) cs ->
  Z.of_nat (length (requests t cs)) <= 2 ^ 20 ->
  admitted t cs (fst (run cs tb)) <= 2 * l.
Proof.
  intros Hl He. induction cs as [|c cs IH]; intros t0 tb G T W S N; [simpl; lia|].
  destruct T as [Ht T]. apply Forall_cons in W as [Wc W]. apply Forall_cons in S as [Sc S].
  rewrite run_cons. simpl admitted. unfold requests in N. rewrite filter_cons in N. fold (requests t cs) in N.
  pose proof (Allow_good_for t t0 (c_created c) (c_now c) (c_limit c) (c_tenant c) tb G Ht) as G2.
  destruct (decide (c_tenant c = t)) as [D|D].
  - destruct (Wc D) as [Lc Nc]. rewrite Lc, D in *. specialize (Sc eq_refl). clear IH G2.
    assert (Hl' : 0 <= l <= max_int64) by (unfold max_int64; lia).
    destruct (bucket_for_good t0 (c_created c) (c_now c) l t tb G Ht Hl') as [Gb Lb].
    rewrite Allow_fst. fold (bucket_for (c_created c) l t tb). simpl allowed.
    set (b := bucket_for (c_created c) l t tb) in *.
    pose proof (charge_capped l (c_now c) b Hl Gb Lb) as C. rewrite spent_allowed in C.
    assert (E : buckets (snd (TB.Allow (c_created c) (c_now c) t l tb)) !! t = Some (snd (charge l (c_now c) b)))
      by (by rewrite Allow_buckets, lookup_insert_eq).
    set (tb' := snd (TB.Allow _ _ _ _ tb)) in *. pose proof (charge_last l (c_now c) b) as La.
    pose proof (charge_good l (c_now c) b Hl' Lb Gb) as G'.
    set (b' := snd (charge l (c_now c) b)) in *. set (n := if Allowed _ then 1 else 0) in *.
    assert (0 <= n) by (subst n; case_match; lia). pose proof one_u_pos.
    pose proof (run_earned t l e cs Hl (c_now c) b' tb' E G' ltac:(lia) ltac:(nia) T W ltac:(lia) ltac:(lia)) as R.
    rewrite La in R. cbn [length] in N. rewrite Nat2Z.inj_succ in N.
    assert (Q : earned l (e - c_now c) <= 60000000000 * l * one_u * (2 ^ 50 + 1)).
    { unfold earned. do 2 (apply Z.mul_le_mono_nonneg_r; [lia|]). unfold Minute, Second in He. nia. }
    assert (Z.of_nat (length (requests t cs)) * 2 ^ 1053 * 2 <= one_u).
    { transitivity (2 ^ 20 * 2 ^ 1053 * 2); [|by vm_compute]. do 2 (apply Z.mul_le_mono_nonneg_r; [lia|]). lia. }
    unfold scale in R. set (X := 2 ^ 1053) in *. clearbody X n. nia.
  - rewrite Z.add_0_l. by apply (IH (c_now c)); [apply G2|..].
Qed.

(** C8: A tenant of constant limit [l] is never admitted more than [2 * l] times
    in a window of a minute, whatever happened before the window, however the
    requests are spread in it (up to [2 ^ 20] of them) and whatever the other
    tenants do: the rounding errors of the float64 arithmetic never add up to
    one more request. *)
Theorem Allow_window cs ws sync t l s :
  1 <= l <= 2 ^ 31 -> timed 0 cs -> timed (end_time 0 cs) ws -> limits_ok t cs ->
  Forall (fun c => c_tenant c = t -> c_limit c = l /\ s <= c_now c <= s + Minute) ws ->
  Z.of_nat (length (requests t ws)) <= 2 ^ 20 ->
  admitted t ws (fst (run ws (snd (run cs (NewTokenBucket sync))))) <= 2 * l.
Proof.
  intros Hl T T' L W N. apply (run_window t l s (s + Minute) ws Hl ltac:(lia) (end_time 0 cs)); [|done|..|done].
  - by apply run_good_for; [apply new_good_for|..].
  - eapply Forall_impl; [exact W|]. intros c H D. destruct (H D). split; [done|lia].
  - eapply Forall_impl; [exact W|]. intros c H D. destruct (H D). lia.
Qed.

(** A synchronisation never changes a bucket, and it tells Redis nothing
    about the tenants: whatever the requests admitted so far, and in whatever
    order the map is ranged over, the script is run with every known tenant
    once, a usage of 1 and a limit of 1000 for each; it is not run at all when
    there is no tenant. *)
Theorem backgroundSync_placeholders cs sync keys :
  let tb := snd (run cs (NewTokenBucket sync)) in
  TB.range_order keys tb ->
  snd (TB.backgroundSync keys tb) = tb /\
  (fst (TB.backgroundSync keys tb) = None <-> buckets tb = ∅) /\
  forall e, fst (TB.backgroundSync keys tb) = Some e ->
    TB.eval_keys e = keys /\ NoDup keys /\ (forall t, t ∈ keys <-> is_Some (buckets tb !! t)) /\
    length (TB.eval_args e) = (2 * length keys)%nat /\
    (forall i, (i < length keys)%nat -> TB.eval_args e !! i = Some (f_of_int 1)
       /\ TB.eval_args e !! (length keys + i)%nat = Some (f_of_int 1000)).
Proof.
  intros tb O. clearbody tb. clear cs sync. unfold TB.backgroundSync.
  rewrite map_size_fmap. case_decide as D.
  { apply map_size_empty_inv in D. by repeat split. }
  split; [done|]. split. { split; [done|]. intros E. rewrite E, map_size_empty in D. done. }
  intros e [= <-]. simpl. split; [done|]. unfold TB.range_order in O.
  split; [rewrite O; apply NoDup_elements|].
  split. { intros t. rewrite O, elem_of_elements. apply elem_of_dom. }
  split. { rewrite length_app, !length_fmap. lia. }
  intros i Hi. split.
  - rewrite lookup_app_l by (by rewrite length_fmap). rewrite list_lookup_fmap.
    destruct (lookup_lt_is_Some_2 keys i Hi) as [x ->]. done.
  - rewrite lookup_app_r by (rewrite length_fmap; lia). rewrite length_fmap, list_lookup_fmap.
    replace (length keys + i - length keys)%nat with i by lia.
    destruct (lookup_lt_is_Some_2 keys i Hi) as [x ->]. done.
Qed.

(** ** Scenarios *)

Module Scenario.

Definition call (t : string) (limit at_s : Z) : allow_call :=
  {| c_created := at_s * Second; c_now := at_s * Second; c_tenant := t; c_limit := limit |}.

(** A tenant of ten requests a minute that waits until its bucket is full,
    spends it at once and then spends every token it earns. *)
Definition history : list allow_call := [call "other" (-5) 0; call "t" 10 0].
Definition burst : list allow_call :=
  replicate 10 (call "t" 10 120) ++ ((fun i => call "t" 10 (120 + 6 * i)) <$> [1; 2; 3; 4; 5; 6; 7; 8; 9; 10]).

Definition state : TokenBucket := snd (run history (NewTokenBucket 0)).

End Scenario.

(** Closes the conditions of the scenarios. *)
Ltac scenario :=
  unfold limits_ok;
  repeat match goal with
  | |- Forall _ _ => constructor
  | |- _ = _ -> _ => let H := fresh in intros H; try (vm_compute in H; discriminate H)
  end; vm_compute; repeat split; congruence.

Lemma Allow_nonpositive_limit_witness :
  fst (TB.Allow 0 (9 * Second) "t" (-1) Scenario.state) = inl (denied_result (-1)).
Proof. by apply (Allow_nonpositive_limit Scenario.history 0 0 (9 * Second) "t" (-1)).  Defined.

Lemma Allow_result_witness : exists r b,
  fst (TB.Allow 0 (9 * Second) "t" 10 Scenario.state) = inl r /\ Allowed r = true /\
  good_bucket b /\ last b = 9 * Second /\ result_spec 10 r (tokens b).
Proof.
  pose proof (Allow_result Scenario.history 0 0 (9 * Second) "t" 10) as H.
  assert (A : allowed (fst (TB.Allow 0 (9 * Second) "t" 10 Scenario.state)) = true) by by vm_compute.
  unfold Scenario.state in *. destruct H as (r & b & E & _ & G & L & R); [scenario..|].
  exists r, b. rewrite E in *. exact (conj eq_refl (conj A (conj G (conj L R)))).
Defined.

Lemma Allow_after_waiting_witness : exists r,
  fst (TB.Allow (6 * Second) (6 * Second) "t" 10 Scenario.state) = inl r /\ Allowed r = true.
Proof.
  assert (A : (last <$> buckets Scenario.state !! "t"%string) = Some 0) by by vm_compute.
  unfold Scenario.state in *.
  pose proof (Allow_after_waiting Scenario.history 0 (6 * Second) (6 * Second) "t" 10 6) as H; cbv zeta in H.
  apply H; [scenario..|]. intros b E. rewrite E in A. injection A as ->. by vm_compute.
Defined.

(** The bound is reached: twenty of the twenty requests. *)
Lemma Allow_window_witness :
  admitted "t" Scenario.burst (fst (run Scenario.burst Scenario.state)) = 20 /\
  admitted "t" Scenario.burst (fst (run Scenario.burst Scenario.state)) <= 2 * 10.
Proof.
  split; [by vm_compute|]. unfold Scenario.state.
  pose proof (Allow_window Scenario.history Scenario.burst 0 "t" 10 (120 * Second)) as H.
  apply H; try scenario.
Defined.

Lemma backgroundSync_placeholders_witness :
  fst (TB.backgroundSync ["t"; "other"]%string Scenario.state)
  = Some {| TB.eval_keys := ["t"; "other"]%string; TB.eval_args := [f_of_int 1; f_of_int 1; f_of_int 1000; f_of_int 1000] |} /\
  snd (TB.backgroundSync ["t"; "other"]%string Scenario.state) = Scenario.state.
Proof.
  assert (A : fst (TB.backgroundSync ["t"; "other"]%string Scenario.state)
    = Some {| TB.eval_keys := ["t"; "other"]%string; TB.eval_args := [f_of_int 1; f_of_int 1; f_of_int 1000; f_of_int 1000] |})
    by by vm_compute.
  assert (O : elements (dom (buckets Scenario.state)) = ["t"; "other"]%string
              \/ elements (dom (buckets Scenario.state)) = ["other"; "t"]%string) by (vm_compute; auto).
  unfold Scenario.state in *. split; [exact A|].
  pose proof (backgroundSync_placeholders Scenario.history 0 ["t"; "other"]%string) as H; cbv zeta in H.
  apply H. unfold TB.range_order. destruct O as [-> | ->]; [done|constructor].
Defined.
