(* ===== verification/Resilient.v ===== *)
(** * Resilient: retries, timeouts and backoff (internal/provider/resilient.go)

    [ResilientProvider] wraps a provider: [Chat] tries it up to
    [maxRetries + 1] times, each time with its own deadline, and waits between
    the attempts.  The model is generic in the world and in the wrapped
    provider; the attempts are observed through a provider that records them. *)

From S2P Require Import Prelude Rounding Binary64 Float64 GoTypes Provider.
From Stdlib Require Import SpecFloat.
Local Open Scope Z_scope.

Record ResilientProvider (P : Type) := {
  base : P;
  maxRetries : Z;
  timeout : Z;
  retryDelay : Z
}.
Arguments base {P} _.
Arguments maxRetries {P} _.
Arguments timeout {P} _.
Arguments retryDelay {P} _.

Definition NewResilientProvider {P} (base : P) (maxRetries timeout : Z) : ResilientProvider P :=
  {| base := base; maxRetries := maxRetries; timeout := timeout; retryDelay := 100 * Millisecond |}.

(** [math.Pow(2, float64(i))] for [i >= 0]: a power of two is exact. *)
Definition math_Pow_2 (i : Z) : float64 := binary_normalize 53 1024 1 i false.

(** [time.Duration(math.Pow(2, float64(i))) * p.retryDelay] *)
Definition backoff {P} (p : ResilientProvider P) (i : Z) : Z :=
  wrap64 (f_to_int (math_Pow_2 i) * retryDelay p).

(** "provider %s failed after %d retries: %w" *)
Definition retries_error (name : string) (maxRetries : Z) (lastErr : option error) : error :=
  let text e := ("provider " ++ name ++ " failed after " ++ Itoa maxRetries ++ " retries: " ++ e)%string in
  match lastErr with
  | Some e => Wrapf (text (Error e)) e
  | None => Errorf (text "%!w(<nil>)")
  end.

Section chat.
Context {W P : Type} `{Clock W} `{Provider W P}.

(** When both channels of the [select] are ready, [timer_first i] says which
    case is taken after attempt [i]. *)
Context (timer_first : Z -> bool).

(** The [select] after attempt [i]: [None] to continue, or [ctx.Err()]. *)
Definition wait_backoff (p : ResilientProvider P) (ctx : context) (i : Z) : M W (option error) :=
  t ← gets now;
  let fires := t + Z.max 0 (backoff p i) in
  match done_at ctx with
  | Some (d, e) =>
      if (d <? fires) || (d =? fires) && negb (timer_first i)
      then modify (wait_until d);; mret (Some e)
      else modify (wait_until fires);; mret None
  | None => modify (wait_until fires);; mret None
  end.

(** The loop from attempt [i] on, with [n] attempts left. *)
Fixpoint chat_loop (p : ResilientProvider P) (ctx : context) (req : ChatRequest)
    (n : nat) (i : Z) (lastErr : option error) : M W (result ChatResponse) :=
  match n with
  | O => mret (inr (retries_error (Name (base p)) (maxRetries p) lastErr))
  | S n =>
      t ← gets now;
      resp ← Chat (base p) (WithTimeout ctx (timeout p) t) req;
      match resp with
      | inl r => mret (inl r)
      | inr err =>
          t ← gets now;
          match ctx_Err ctx t with
          | Some _ => mret (inr err)
          | None =>
              if i <? maxRetries p then
                e ← wait_backoff p ctx i;
                match e with
                | Some e => mret (inr e)
                | None => chat_loop p ctx req n (i + 1) (Some err)
                end
              else chat_loop p ctx req n (i + 1) (Some err)
          end
      end
  end.

(** [for i := 0; i <= p.maxRetries; i++], below the maximal [int]. *)
Definition resilient_Chat (p : ResilientProvider P) (ctx : context) (req : ChatRequest)
    : M W (result ChatResponse) :=
  chat_loop p ctx req (Z.to_nat (maxRetries p + 1)) 0 None.

#[export] Instance Resilient_Provider : Provider W (ResilientProvider P) := {|
  Name := fun p => Name (base p);
  Chat := resilient_Chat
|}.
End chat.

(** ** The backoff schedule *)

Lemma Pow_2_table i : 0 <= i <= 62 -> f_to_int (math_Pow_2 i) = 2 ^ i.
Proof.
  intros Hi.
  assert (T : forallb (fun i => f_to_int (math_Pow_2 i) =? 2 ^ i) (Z.of_nat <$> List.seq 0 63) = true)
    by by vm_compute.
  rewrite forallb_forall in T. apply Z.eqb_eq, T, list_elem_of_In, list_elem_of_fmap.
  exists (Z.to_nat i). split; [lia|]. apply list_elem_of_In, in_seq. lia.
Qed.

Lemma backoff_exact {P} (p : ResilientProvider P) i :
  0 <= i <= 62 -> 0 <= retryDelay p -> 2 ^ i * retryDelay p <= max_int64 ->
  backoff p i = 2 ^ i * retryDelay p.
Proof.
  intros Hi Hr Hb. unfold backoff. rewrite Pow_2_table by done. apply wrap64_id.
  unfold is_int64, min_int64 in *. split; [|done]. transitivity 0; [lia|]. apply Z.mul_nonneg_nonneg; lia.
Qed.

(** ** Observed attempts *)

Record attempt := {
  a_start : Z;
  a_ctx : context;
  a_result : result ChatResponse;
  a_end : Z
}.

(** A world that also keeps the attempts made so far, and a provider that
    records its calls in it. *)
Abbreviation recording W := (W * list attempt)%type.

#[export] Instance recording_Clock {W} `{Clock W} : Clock (recording W) := {|
  now := fun w => now w.1;
  wait_until := fun t w => (wait_until t w.1, w.2)
|}.

#[export] Instance recording_ClockLaws {W} `{ClockLaws W} : ClockLaws (recording W).
Proof. split. intros t [w l]. exact (now_wait_until t w). Qed.

#[export] Instance recording_Provider {W P} `{Clock W} `{Provider W P} : Provider (recording W) P := {|
  Name := Name;
  Chat := fun p ctx req '(w, log) =>
    match Chat p ctx req w with
    | (Returns r, w') =>
        (Returns r, (w', log ++ [{| a_start := now w; a_ctx := ctx; a_result := r; a_end := now w' |}]))
    | (Panics e, w') => (Panics e, (w', log))
    end
|}.

(** What a finished call promises about its attempts [tr], the first being
    attempt [i], and the instant [t] at which it returns. *)
Section promise.
Context {P : Type} (name : string) (p : ResilientProvider P) (ctx : context).

(** Attempt [b] follows attempt [a], number [j]: [a] failed while the
    request was live, and the backoff has been waited for exactly. *)
Definition retried (j : Z) (a b : attempt) : Prop :=
  (exists e, a_result a = inr e) /\ ctx_Err ctx (a_end a) = None /\
  a_start b = a_end a + Z.max 0 (backoff p j).

(** How the last attempt [a], number [j], gives the outcome. *)
Inductive outcome_of (j : Z) (a : attempt) : result ChatResponse -> Z -> Prop :=
  | succeeded r : a_result a = inl r -> outcome_of j a (inl r) (a_end a)
  | request_done e c : a_result a = inr e -> ctx_Err ctx (a_end a) = Some c ->
      outcome_of j a (inr e) (a_end a)
  | done_in_backoff e d c : a_result a = inr e -> j < maxRetries p ->
      done_at ctx = Some (d, c) -> a_end a < d <= a_end a + Z.max 0 (backoff p j) ->
      outcome_of j a (inr c) d
  | exhausted e : a_result a = inr e -> ctx_Err ctx (a_end a) = None -> j = maxRetries p ->
      outcome_of j a (inr (retries_error name (maxRetries p) (Some e))) (a_end a).

Definition promised (i : Z) (tr : list attempt) (res : result ChatResponse) (t : Z) : Prop :=
  Z.of_nat (length tr) + i <= maxRetries p + 1 /\
  Forall (fun a => a_ctx a = WithTimeout ctx (timeout p) (a_start a)) tr /\
  (forall k a b, tr !! k = Some a -> tr !! S k = Some b -> retried (i + Z.of_nat k) a b) /\
  exists k a, length tr = S k /\ tr !! k = Some a /\ outcome_of (i + Z.of_nat k) a res t.
End promise.

Lemma promised_cons {P} name (p : ResilientProvider P) ctx i a tr res t :
  a_ctx a = WithTimeout ctx (timeout p) (a_start a) ->
  (forall b, head tr = Some b -> retried p ctx i a b) ->
  promised name p ctx (i + 1) tr res t -> promised name p ctx i (a :: tr) res t.
Proof.
  intros C R (L & F & S & k & z & Lk & E & O).
  split; [simpl; lia|]. split; [by constructor|]. split.
  - intros [|j] x y X Y; simpl in X, Y.
    + injection X as <-. rewrite Z.add_0_r. apply R. by destruct tr.
    + replace (i + Z.of_nat (Datatypes.S j)) with (i + 1 + Z.of_nat j) by lia. by apply S.
  - exists (Datatypes.S k), z. simpl. split; [by f_equal|]. split; [done|].
    replace (i + Z.of_nat (Datatypes.S k)) with (i + 1 + Z.of_nat k) by lia. done.
Qed.

Lemma promised_last {P} name (p : ResilientProvider P) ctx i a res t :
  i <= maxRetries p -> a_ctx a = WithTimeout ctx (timeout p) (a_start a) ->
  outcome_of name p ctx i a res t -> promised name p ctx i [a] res t.
Proof.
  intros Hi C O. split; [simpl; lia|]. split; [by constructor|]. split.
  - intros [|k] x y X Y; simpl in Y; discriminate.
  - exists 0%nat, a. split; [done|]. split; [done|]. simpl. by rewrite Z.add_0_r.
Qed.

Lemma ctx_Err_None ctx t d e : done_at ctx = Some (d, e) -> ctx_Err ctx t = None -> t < d.
Proof. unfold ctx_Err. intros ->. case_match eqn:E; [done|]. intros _. by apply Z.leb_gt in E. Qed.

(** The two ways out of the backoff. *)
Lemma wait_backoff_cases {W P} `{ClockLaws W} timer_first (p : ResilientProvider P) ctx i w :
  ctx_Err ctx (now w) = None ->
  (let u := now w + Z.max 0 (backoff p i) in
   wait_backoff timer_first p ctx i w = (Returns None, wait_until u w) /\ now (wait_until u w) = u /\
   forall d e, done_at ctx = Some (d, e) -> u <= d) \/
  (exists d e, wait_backoff timer_first p ctx i w = (Returns (Some e), wait_until d w) /\
     now (wait_until d w) = d /\ done_at ctx = Some (d, e) /\ now w < d <= now w + Z.max 0 (backoff p i)).
Proof.
  intros C. unfold wait_backoff, mbind, M_bind, gets, modify, mret, M_ret. cbn.
  destruct (done_at ctx) as [[d e]|] eqn:D.
  - pose proof (ctx_Err_None _ _ _ _ D C). destruct (_ || _) eqn:E.
    + right. exists d, e. rewrite now_wait_until. split; [done|]. split; [lia|]. split; [done|].
      apply orb_true_iff in E as [E|E]; [|apply andb_prop in E as [E _]]; zbool; lia.
    + left. rewrite now_wait_until. split; [done|]. split; [lia|]. intros ? ? [= <- <-].
      apply orb_false_iff in E as [E _]. lia.
  - left. rewrite now_wait_until. split; [done|]. split; [lia|]. intros ? ? [=].
Qed.

Section keeps.
Context {W P : Type} `{ClockLaws W} `{Provider W P} (timer_first : Z -> bool).

Lemma chat_loop_promise p ctx req n : forall i lastErr w log r w' log',
  i + Z.of_nat n = maxRetries p + 1 -> 0 <= i ->
  chat_loop timer_first p ctx req n i lastErr (w, log) = (Returns r, (w', log')) ->
  match n with
  | O => r = inr (retries_error (Name (base p)) (maxRetries p) lastErr) /\ w' = w /\ log' = log
  | S _ => exists tr, log' = log ++ tr /\ (exists a, head tr = Some a /\ a_start a = now w) /\
      promised (Name (base p)) p ctx i tr r (now w')
  end.
Proof.
  induction n as [|n IH]; intros i lastErr w log r w' log' Hn Hi.
  { simpl. unfold mret, M_ret. by intros [= <- <- <-]. }
  simpl chat_loop. unfold mbind at 1, M_bind at 1, gets at 1. unfold mbind at 1, M_bind at 1. simpl Chat.
  destruct (Chat (base p) _ req w) as [[res|e] w1]; [|discriminate].
  set (a := {| a_start := now w |}).
  assert (Ha : a_ctx a = WithTimeout ctx (timeout p) (a_start a)) by done.
  assert (Last : forall r w'' log'', outcome_of (Name (base p)) p ctx i a r (now w'') ->
    log'' = log ++ [a] -> exists tr, log'' = log ++ tr /\ (exists a, head tr = Some a /\ a_start a = now w) /\
      promised (Name (base p)) p ctx i tr r (now w'')).
  { intros r0 w'' log'' O ->. exists [a]. split; [done|]. split; [by exists a|].
    apply promised_last; [lia|done|done]. }
  destruct res as [res|err].
  { unfold mret, M_ret. intros [= <- <- <-]. apply Last; [by apply (succeeded _ _ _ _ a)|done]. }
  unfold mbind at 1, M_bind at 1, gets at 1. cbn [now recording_Clock fst].
  destruct (ctx_Err ctx (now w1)) as [c|] eqn:C.
  { unfold mret, M_ret. intros [= <- <- <-]. apply Last; [by apply (request_done _ _ _ _ a err c)|done]. }
  destruct (i <? maxRetries p) eqn:Hlt; zbool.
  - unfold mbind at 1, M_bind at 1.
    pose proof (wait_backoff_cases (W:=recording W) timer_first p ctx i (w1, log ++ [a])) as Wt.
    destruct (Wt C)
      as [(E & U & V)|(d & c & E & U & D & B)]; rewrite E; cbn -[chat_loop] in *.
    + intros X. destruct n as [|n]; [lia|].
      specialize (IH (i + 1) (Some err) _ _ _ _ _ ltac:(lia) ltac:(lia) X) as (tr & -> & (b & Hb & Sb) & Pr).
      exists (a :: tr). rewrite <- app_assoc. split; [done|]. split; [by exists a|].
      apply promised_cons; [done| |done]. intros b' Hb'. rewrite Hb in Hb'. injection Hb' as <-.
      split; [by exists err|]. split; [done|]. by rewrite Sb.
    + unfold mret, M_ret. intros [= <- <- <-]. apply Last; [|done]. rewrite U. apply (done_in_backoff _ _ _ _ a err d c); done || lia.
  - intros X. assert (n = 0%nat) as -> by lia.
    destruct (IH (i + 1) (Some err) _ _ _ _ _ ltac:(lia) ltac:(lia) X) as (-> & -> & ->).
    apply Last; [|done]. apply exhausted; [done|done|lia].
Qed.
End keeps.

(** C14: The contract of [Chat], for any wrapped provider in any world: between
    one and [maxRetries + 1] attempts are made, each under its own deadline of
    [timeout]; an attempt is retried only when it failed and the request is
    still live, exactly after its backoff; a success is returned at once and
    unchanged; a failure is returned when the request is done, during an
    attempt (with the provider's error) or during a backoff (with the
    context's), or when the attempts are exhausted, wrapping the last error. *)
Theorem Chat_contract {W P} `{ClockLaws W} `{Provider W P} timer_first
    (p : ResilientProvider P) ctx req (w : W) r w' tr :
  0 <= maxRetries p ->
  resilient_Chat timer_first p ctx req (w, []) = (Returns r, (w', tr)) ->
  promised (Name (base p)) p ctx 0 tr r (now w') /\
  exists a, head tr = Some a /\ a_start a = now w.
Proof.
  intros Hm E. unfold resilient_Chat in E.
  pose proof (chat_loop_promise timer_first p ctx req (Z.to_nat (maxRetries p + 1)) 0 None w [] r w' tr) as L.
  specialize (L ltac:(lia) ltac:(lia) E).
  destruct (Z.to_nat (maxRetries p + 1)) eqn:N; [lia|].
  destruct L as (tr' & -> & Hd & Pr). done.
Qed.

(** ** Time *)

(** A provider that stops when its context is done: it returns, and no later
    than the context's deadline. *)
Class ObeysDeadline (W P : Type) `{Clock W} `{Provider W P} := {
  Chat_obeys (p : P) ctx req (w : W) : exists r w', Chat p ctx req w = (Returns r, w') /\ now w <= now w' /\
    forall d e, done_at ctx = Some (d, e) -> now w' <= Z.max (now w) d
}.

(** The longest time left with [n] attempts from attempt [i] on. *)
Definition time_left {P} (p : ResilientProvider P) (n : nat) (i : Z) : Z :=
  Z.of_nat n * timeout p + (2 ^ (i + Z.of_nat n - 1) - 2 ^ i) * retryDelay p.

Lemma time_left_S {P} (p : ResilientProvider P) n i : 0 <= i ->
  time_left p (S (S n)) i = timeout p + 2 ^ i * retryDelay p + time_left p (S n) (i + 1).
Proof.
  intros Hi. unfold time_left.
  replace (i + Z.of_nat (S (S n)) - 1) with (i + 1 + Z.of_nat (S n) - 1) by lia.
  rewrite (Z.pow_add_r 2 i 1) by lia. change (2 ^ 1) with 2. nia.
Qed.

Lemma time_left_1 {P} (p : ResilientProvider P) i : time_left p 1 i = timeout p.
Proof. unfold time_left. replace (i + Z.of_nat 1 - 1) with i by lia. lia. Qed.

Lemma WithTimeout_deadline ctx d t : exists u e, done_at (WithTimeout ctx d t) = Some (u, e) /\ u <= t + d /\
  (forall v c, done_at ctx = Some (v, c) -> u <= v).
Proof.
  unfold WithTimeout. destruct (done_at ctx) as [[v c]|] eqn:D.
  - case_match eqn:L; zbool.
    + exists v, c. rewrite D. split; [done|]. split; [lia|]. by intros ? ? [= <- <-].
    + eexists _, _. split; [done|]. split; [lia|]. intros ? ? [= <- <-]. lia.
  - eexists _, _. split; [done|]. split; [lia|]. intros ? ? [=].
Qed.

Section bounded.
Context {W P : Type} `{ClockLaws W} `{Provider W P} `{!ObeysDeadline W P} (timer_first : Z -> bool).

(** One attempt: it ends within the timeout, and when the request is done. *)
Lemma attempt_time (p : P) ctx req d (w : W) : 0 <= d -> exists r w',
  Chat p (WithTimeout ctx d (now w)) req w = (Returns r, w') /\ now w <= now w' <= now w + d /\
  forall u c, done_at ctx = Some (u, c) -> now w' <= Z.max (now w) u.
Proof.
  intros Hd. destruct (Chat_obeys p (WithTimeout ctx d (now w)) req w) as (r & w' & E & L & B).
  destruct (WithTimeout_deadline ctx d (now w)) as (u & e & D & U & V). specialize (B u e D).
  exists r, w'. split; [done|]. split; [lia|]. intros v c Dv. specialize (V v c Dv). lia.
Qed.

Lemma chat_loop_time p ctx req n : forall i lastErr w,
  0 <= timeout p -> 0 <= retryDelay p -> 2 ^ maxRetries p * retryDelay p <= max_int64 -> maxRetries p <= 62 ->
  i + Z.of_nat (S n) = maxRetries p + 1 -> 0 <= i ->
  exists r w', chat_loop timer_first p ctx req (S n) i lastErr w = (Returns r, w') /\
    now w <= now w' <= now w + time_left p (S n) i /\
    forall u c, done_at ctx = Some (u, c) -> now w' <= Z.max (now w) u.
Proof.
  induction n as [|n IH]; intros i lastErr w Ht Hr Hb Hm Hn Hi; set (m := S _);
    cbn [chat_loop m]; subst m; unfold mbind at 1, M_bind at 1, gets at 1; unfold mbind at 1, M_bind at 1;
    destruct (attempt_time (base p) ctx req (timeout p) w Ht) as (res & w1 & -> & L & B).
  - rewrite time_left_1. destruct res as [res|err]; [by exists (inl res), w1|].
    unfold mbind at 1, M_bind at 1, gets at 1. destruct (ctx_Err ctx (now w1)); [by eexists _, w1|].
    assert ((i <? maxRetries p) = false) as -> by (apply Z.ltb_ge; lia).
    cbn [chat_loop]. by eexists _, w1.
  - rewrite time_left_S by done. assert (0 <= 2 ^ i) by (apply Z.pow_nonneg; lia).
    assert (T : 0 <= time_left p (S n) (i + 1)).
    { unfold time_left. apply Z.add_nonneg_nonneg; [nia|]. apply Z.mul_nonneg_nonneg; [|done].
      assert (2 ^ (i + 1) <= 2 ^ (i + 1 + Z.of_nat (S n) - 1)) by (apply Z.pow_le_mono_r; lia). lia. }
    destruct res as [res|err]; [exists (inl res), w1; split; [done|]; split; [nia|done]|].
    unfold mbind at 1, M_bind at 1, gets at 1.
    destruct (ctx_Err ctx (now w1)) as [c|] eqn:C; [eexists _, w1; split; [done|]; split; [nia|done]|].
    assert ((i <? maxRetries p) = true) as -> by (apply Z.ltb_lt; lia).
    assert (2 ^ i <= 2 ^ maxRetries p) by (apply Z.pow_le_mono_r; lia).
    assert (Bk : backoff p i = 2 ^ i * retryDelay p) by (apply backoff_exact; [lia|done|nia]).
    unfold mbind at 1, M_bind at 1.
    destruct (wait_backoff_cases timer_first p ctx i w1 C) as [(E & U & V)|(d & e & E & U & D & Bd)];
      rewrite E; rewrite Bk in *; cbn -[chat_loop time_left] in *.
    + set (w2 := wait_until _ w1) in *.
      destruct (IH (i + 1) (Some err) w2 Ht Hr Hb Hm ltac:(lia) ltac:(lia)) as (r & w' & E' & L' & B').
      exists r, w'. split; [exact E'|]. split; [nia|]. intros u c D. specialize (B u c D). specialize (B' u c D).
      specialize (V u c D). lia.
    + eexists _, _. split; [done|]. rewrite U. split; [nia|]. intros u c' D'. rewrite D in D'.
      injection D' as <- <-. lia.
Qed.
End bounded.

(** C15: [Chat] terminates, in bounded time: over a provider that stops when its
    context is done, whatever the provider answers and whichever case a
    [select] takes, [Chat] returns a response or an error, within
    [maxRetries + 1] timeouts and [2 ^ maxRetries - 1] delays, and no later
    than the request is done.  With the values of main.go (two retries,
    thirty seconds) the bound is 90.3 seconds. *)
Theorem Chat_terminates {W P} `{ClockLaws W} `{Provider W P} `{!ObeysDeadline W P} timer_first
    (p : ResilientProvider P) ctx req (w : W) :
  0 <= timeout p -> 0 <= retryDelay p -> 0 <= maxRetries p <= 62 ->
  2 ^ maxRetries p * retryDelay p <= max_int64 ->
  exists r w', resilient_Chat timer_first p ctx req w = (Returns r, w') /\
    now w <= now w' <= now w + (maxRetries p + 1) * timeout p + (2 ^ maxRetries p - 1) * retryDelay p /\
    forall u c, done_at ctx = Some (u, c) -> now w' <= Z.max (now w) u.
Proof.
  intros Ht Hr Hm Hb. unfold resilient_Chat. destruct (Z.to_nat (maxRetries p + 1)) as [|n] eqn:N; [lia|].
  destruct (chat_loop_time timer_first p ctx req n 0 None w) as (r & w' & E & L & B); try done; try lia.
  exists r, w'. split; [exact E|]. split; [|exact B]. unfold time_left in L.
  replace (0 + Z.of_nat (S n) - 1) with (maxRetries p) in L by lia.
  replace (Z.of_nat (S n)) with (maxRetries p + 1) in L by lia. change (2 ^ 0) with 1 in L. lia.
Qed.

(** ** A scenario: a provider that hangs until its deadline *)

Module Scenario.

(** The world is a clock. *)
#[export] Instance clock : Clock Z := {| now := fun w => w; wait_until := Z.max |}.
#[export] Instance clock_laws : ClockLaws Z.
Proof. split. done. Qed.

(** Always times out, except that it answers at once from instant [p] on. *)
#[export] Instance hanging : Provider Z Z := {|
  Name := fun _ => "hanging"%string;
  Chat := fun p ctx req w =>
    if p <=? w then (Returns (inl {| resp_Content := "ok"; resp_Model := req_Model req; resp_Provider := "hanging";
                                     resp_PromptTokens := 1; resp_CompletionTokens := 1 |}), w)
    else match done_at ctx with
         | Some (d, e) => (Returns (inr e), Z.max w d)
         | None => (Returns (inr DeadlineExceeded), w)
         end
|}.

#[export] Instance hanging_obeys : ObeysDeadline Z Z.
Proof.
  split. intros p ctx req w. simpl. destruct (p <=? w).
  { eexists _, w. split; [done|]. split; [lia|]. lia. }
  destruct (done_at ctx) as [[d e]|].
  - eexists _, _. split; [done|]. split; [lia|]. intros ? ? [= <- <-]. lia.
  - eexists _, _. split; [done|]. split; [lia|]. intros ? ? [=].
Qed.

Definition gateway (up_at : Z) : ResilientProvider Z := NewResilientProvider up_at 2 (30 * Second).
Definition request : ChatRequest := {| req_Model := "m"; req_Messages := None; req_Stream := false |}.
Definition timer : Z -> bool := fun _ => true.

End Scenario.
Import (hints) Scenario.

(** The bound is reached; it exceeds the write timeout of the server (60 s). *)
Lemma Chat_terminates_witness :
  now (snd (resilient_Chat Scenario.timer (Scenario.gateway (100 * Second)) Background Scenario.request 0))
    = 3 * (30 * Second) + 300 * Millisecond /\
  exists r w', resilient_Chat Scenario.timer (Scenario.gateway (100 * Second)) Background Scenario.request 0
    = (Returns r, w') /\ 0 <= now w' <= 0 + (2 + 1) * (30 * Second) + (2 ^ 2 - 1) * (100 * Millisecond).
Proof.
  split; [by vm_compute|].
  destruct (Chat_terminates Scenario.timer (Scenario.gateway (100 * Second)) Background Scenario.request 0)
    as (r & w' & E & B & _); [by vm_compute..|]. exists r, w'. by split.
Defined.

(** Two attempts time out, the third succeeds. *)
Lemma Chat_contract_witness : exists r tr,
  resilient_Chat Scenario.timer (Scenario.gateway (60 * Second)) Background Scenario.request (0, [])
    = (Returns (inl r), (60300000000, tr)) /\ length tr = 3%nat /\
  promised "hanging" (Scenario.gateway (60 * Second)) Background 0 tr (inl r) 60300000000.
Proof.
  eexists _, _. split; [vm_compute; reflexivity|]. split; [done|].
  refine (proj1 (Chat_contract (W:=Z) Scenario.timer (Scenario.gateway (60 * Second)) Background Scenario.request 0
    _ 60300000000 _ _ _)); by vm_compute.
Defined.
