(* ===== verification/Cache.v ===== *)
(** * Cache: the two-tier cache and its in-memory stand-in
    (internal/cache/cache.go, internal/cache/memory.go)

    [TwoTierCache] reads through an in-process ristretto cache into Redis and
    writes to both; [MemoryCache] is a plain map.  Ristretto and Redis are
    parameters, with what their documentation promises as laws.  Time is the
    argument [t] of the operations: the instant at which they run. *)

From S2P Require Import Prelude Rounding Binary64 Float64 GoTypes Provider.
Local Open Scope Z_scope.

(** [Get] returns a slice (nil for a miss) and an error. *)
Class Cache (C : Type) := {
  Get : Z -> context -> string -> C -> (bytes * option error) * C;
  Set_ : Z -> context -> string -> bytes -> Z -> C -> option error * C
}.

(** A [[]byte] as a store that has no nil keeps it. *)
Definition contents (v : bytes) : string := default ""%string v.

(** What a client may rely on: [stored c k s] says that the cache may answer
    [s] for [k]; only a [Set_] of that key makes it true. *)
Class CacheLaws (C : Type) `{Cache C} := {
  stored : C -> string -> string -> Prop;
  Get_stored t ctx k c s : fst (fst (Get t ctx k c)) = Some s -> stored c k s;
  Get_keeps t ctx k c k' s : stored (snd (Get t ctx k c)) k' s -> stored c k' s;
  Set_keeps t ctx k v ttl c k' s : 0 < ttl -> stored (snd (Set_ t ctx k v ttl c)) k' s ->
    stored c k' s \/ (k' = k /\ s = contents v)
}.

(** ** The in-memory stand-in *)

Record MemoryCache := { data : gmap string bytes }.

Module Memory.

Definition NewMemoryCache : MemoryCache := {| data := ∅ |}.

(** A missing key gives the zero value of a slice, nil. *)
Definition Get (t : Z) (ctx : context) (key : string) (m : MemoryCache) : (bytes * option error) * MemoryCache :=
  match data m !! key with
  | None => ((None, None), m)
  | Some val => ((val, None), m)
  end.

Definition Set_ (t : Z) (ctx : context) (key : string) (value : bytes) (ttl : Z) (m : MemoryCache)
    : option error * MemoryCache :=
  (None, {| data := <[key := value]> (data m) |}).

End Memory.

#[export] Instance MemoryCache_Cache : Cache MemoryCache := {| Get := Memory.Get; Set_ := Memory.Set_ |}.

#[export] Instance MemoryCache_laws : CacheLaws MemoryCache.
Proof.
  refine {| stored := fun m k s => data m !! k = Some (Some s) |}.
  - intros t ctx k c s. simpl. unfold Memory.Get. case_match eqn:E; simpl; [|done]. by intros ->.
  - intros t ctx k c k' s. simpl. unfold Memory.Get. by case_match.
  - intros t ctx k v ttl c k' s _. simpl. rewrite lookup_insert. case_decide; [|by left].
    intros [= ->]. by right.
Defined.

(** ** Ristretto and Redis *)

(** Hit or miss; [SetWithTTL key value cost ttl] may drop the entry. *)
Class Ristretto (L : Type) := {
  l1_Get : Z -> string -> L -> option bytes * L;
  l1_SetWithTTL : Z -> string -> bytes -> Z -> Z -> L -> bool * L
}.

(** [redis.Nil] is its own error. *)
Inductive redis_reply := RedisNil | RedisError (e : error) | RedisBytes (s : string).

Class Redis (R : Type) := {
  redis_Get : Z -> context -> string -> R -> redis_reply * R;
  redis_Set : Z -> context -> string -> bytes -> Z -> R -> option error * R
}.

Record TwoTierCache (L R : Type) := { l1 : L; redis : R }.
Arguments Build_TwoTierCache {L R} _ _.
Arguments l1 {L R} _.
Arguments redis {L R} _.

Module TwoTier.
Section two_tier.
Context {L R : Type} `{Ristretto L} `{Redis R}.

(** [ristretto.NewCache] may fail. *)
Definition NewTwoTierCache (redisClient : R) (newCache : result L) : result (TwoTierCache L R) :=
  match newCache with
  | inr err => inr err
  | inl l => inl {| l1 := l; redis := redisClient |}
  end.

Definition Get (t : Z) (ctx : context) (key : string) (c : TwoTierCache L R)
    : (bytes * option error) * TwoTierCache L R :=
  let '(hit, l) := l1_Get t key (l1 c) in
  match hit with
  | Some val => ((val, None), {| l1 := l; redis := redis c |})
  | None =>
      let '(reply, r) := redis_Get t ctx key (redis c) in
      match reply with
      | RedisNil => ((None, None), {| l1 := l; redis := r |})
      | RedisError err => ((None, Some err), {| l1 := l; redis := r |})
      | RedisBytes val =>
          let '(_, l) := l1_SetWithTTL t key (Some val) 1 (Minute * 10) l in
          ((Some val, None), {| l1 := l; redis := r |})
      end
  end.

Definition Set_ (t : Z) (ctx : context) (key : string) (value : bytes) (ttl : Z) (c : TwoTierCache L R)
    : option error * TwoTierCache L R :=
  let '(_, l) := l1_SetWithTTL t key value 1 ttl (l1 c) in
  let '(err, r) := redis_Set t ctx key value ttl (redis c) in
  (err, {| l1 := l; redis := r |}).

#[export] Instance TwoTierCache_Cache : Cache (TwoTierCache L R) := {| Cache.Get := Get; Cache.Set_ := Set_ |}.
End two_tier.
End TwoTier.
Export (hints) TwoTier.

(** *** What their documentation promises *)

(** An entry [(k, v)] that lives until [e] is only made by a [SetWithTTL] of it
    with a positive lifetime, and is not returned after [e]. *)
Class RistrettoLaws (L : Type) `{Ristretto L} := {
  l1_holds : L -> string -> string -> Z -> Prop;
  l1_Get_holds t k l s : fst (l1_Get t k l) = Some (Some s) -> exists e, l1_holds l k s e /\ t <= e;
  l1_Get_keeps t k l k' s e : l1_holds (snd (l1_Get t k l)) k' s e -> l1_holds l k' s e;
  l1_Set_keeps t k v cost ttl l k' s e : 0 < ttl ->
    l1_holds (snd (l1_SetWithTTL t k v cost ttl l)) k' s e ->
    l1_holds l k' s e \/ (k' = k /\ s = contents v /\ e = t + ttl)
}.

Class RedisLaws (R : Type) `{Redis R} := {
  redis_holds : R -> string -> string -> Z -> Prop;
  redis_Get_holds t ctx k r s : fst (redis_Get t ctx k r) = RedisBytes s -> exists e, redis_holds r k s e /\ t <= e;
  redis_Get_keeps t ctx k r k' s e : redis_holds (snd (redis_Get t ctx k r)) k' s e -> redis_holds r k' s e;
  redis_Set_keeps t ctx k v ttl r k' s e : 0 < ttl ->
    redis_holds (snd (redis_Set t ctx k v ttl r)) k' s e ->
    redis_holds r k' s e \/ (k' = k /\ s = contents v /\ e = t + ttl)
}.

#[export] Instance TwoTierCache_laws {L R} `{RistrettoLaws L} `{RedisLaws R} : CacheLaws (TwoTierCache L R).
Proof.
  refine {| stored := fun c k s => exists e, l1_holds (l1 c) k s e \/ redis_holds (redis c) k s e |}.
  - intros t ctx k c s. simpl. unfold TwoTier.Get. pose proof (l1_Get_holds t k (l1 c) s) as A.
    destruct (l1_Get t k (l1 c)) as [[v|] l]; simpl in *.
    { intros ->. destruct (A eq_refl) as (e & X & _). eauto. }
    pose proof (redis_Get_holds t ctx k (redis c) s) as B.
    destruct (redis_Get t ctx k (redis c)) as [[|err|v] r]; [done..|].
    destruct (l1_SetWithTTL _ _ _ _ _ l). simpl in *. intros [= ->]. destruct (B eq_refl) as (e & X & _). eauto.
  - intros t ctx k c k' s. simpl. unfold TwoTier.Get. pose proof (l1_Get_keeps t k (l1 c) k' s) as A.
    destruct (l1_Get t k (l1 c)) as [[v|] l]; simpl in *.
    { intros (e & [X|X]); eauto. }
    pose proof (redis_Get_keeps t ctx k (redis c) k' s) as B.
    pose proof (redis_Get_holds t ctx k (redis c)) as C.
    destruct (redis_Get t ctx k (redis c)) as [[|err|v] r]; simpl in *; try (intros (e & [X|X]); by eauto).
    pose proof (l1_Set_keeps t k (Some v) 1 (Minute * 10) l k' s) as D.
    destruct (l1_SetWithTTL _ _ _ _ _ l) as [ok l']. simpl in *. intros (e & [X|X]); [|eauto].
    destruct (D e ltac:(done) X) as [Y|(-> & -> & _)]; [eauto|].
    destruct (C v eq_refl) as (e' & Y & _). eauto.
  - intros t ctx k v ttl c k' s P. simpl. unfold TwoTier.Set_.
    pose proof (fun e => l1_Set_keeps t k v 1 ttl (l1 c) k' s e P) as A.
    destruct (l1_SetWithTTL _ _ _ _ _ _) as [ok l].
    pose proof (fun e => redis_Set_keeps t ctx k v ttl (redis c) k' s e P) as B.
    destruct (redis_Set _ _ _ _ _ _) as [err r]; simpl in *.
    intros (e & [X|X]).
    + destruct (A e X) as [Y|(-> & -> & _)]; [left; eauto|by right].
    + destruct (B e X) as [Y|(-> & -> & _)]; [left; eauto|by right].
Defined.

(** ** How long an entry may be served *)

(** [fresh c k s e]: the cache may still answer [s] for [k] at [e].  Only a
    [Set_] makes that true, and only for the lifetime that it asked for and
    [slack] more; reading may move an entry to another tier, but not extend
    what was true. *)
Class FreshCacheLaws (C : Type) `{Cache C} (slack : Z) := {
  fresh : C -> string -> string -> Z -> Prop;
  Get_fresh t ctx k c s : fst (fst (Get t ctx k c)) = Some s -> exists e, fresh c k s e /\ t <= e;
  Get_keeps_fresh t ctx k c k' s e : fresh (snd (Get t ctx k c)) k' s e -> exists e', fresh c k' s e' /\ e <= e';
  Set_keeps_fresh t ctx k v ttl c k' s e : 0 < ttl -> fresh (snd (Set_ t ctx k v ttl c)) k' s e ->
    (exists e', fresh c k' s e' /\ e <= e') \/ (k' = k /\ s = contents v /\ e <= t + ttl + slack)
}.

Definition backfill : Z := 10 * Minute.

#[export] Instance TwoTierCache_fresh {L R} `{RistrettoLaws L} `{RedisLaws R} : FreshCacheLaws (TwoTierCache L R) backfill.
Proof.
  refine {| fresh := fun c k s e => l1_holds (l1 c) k s e \/ redis_holds (redis c) k s (e - backfill) |}.
  - intros t ctx k c s. simpl. unfold TwoTier.Get. pose proof (l1_Get_holds t k (l1 c) s) as A.
    destruct (l1_Get t k (l1 c)) as [[v|] l]; simpl in *.
    { intros ->. destruct (A eq_refl) as (e & X & Le). eauto. }
    pose proof (redis_Get_holds t ctx k (redis c) s) as B.
    destruct (redis_Get t ctx k (redis c)) as [[|err|v] r]; [done..|].
    destruct (l1_SetWithTTL _ _ _ _ _ l). simpl in *. intros [= ->]. destruct (B eq_refl) as (e & X & Le).
    exists (e + backfill). rewrite Z.add_simpl_r. split; [by right|]. unfold backfill, Minute, Second. lia.
  - intros t ctx k c k' s e. simpl. unfold TwoTier.Get. pose proof (l1_Get_keeps t k (l1 c) k' s e) as A.
    destruct (l1_Get t k (l1 c)) as [[v|] l]; simpl in *; [intros [X|X]; exists e; (split; [|done]); auto|].
    pose proof (redis_Get_keeps t ctx k (redis c) k' s (e - backfill)) as B.
    pose proof (redis_Get_holds t ctx k (redis c)) as Hd.
    destruct (redis_Get t ctx k (redis c)) as [[|err|v] r]; simpl in *; try (intros [X|X]; exists e; (split; [|done]); auto; fail).
    pose proof (l1_Set_keeps t k (Some v) 1 (Minute * 10) l k' s e ltac:(done)) as D.
    destruct (l1_SetWithTTL _ _ _ _ _ l) as [ok l']. simpl in *. intros [X|X]; [|exists e; split; [auto|lia]].
    destruct (D X) as [Y|(-> & -> & ->)]; [exists e; split; [auto|lia]|]. destruct (Hd v eq_refl) as (e' & Y & Le).
    exists (e' + backfill). rewrite Z.add_simpl_r. split; [by right|]. unfold backfill. lia.
  - intros t ctx k v ttl c k' s e P. simpl. unfold TwoTier.Set_.
    pose proof (l1_Set_keeps t k v 1 ttl (l1 c) k' s e P) as A. destruct (l1_SetWithTTL _ _ _ _ _ _) as [ok l].
    pose proof (redis_Set_keeps t ctx k v ttl (redis c) k' s (e - backfill) P) as B.
    destruct (redis_Set _ _ _ _ _ _) as [err r]; simpl in *. intros [X|X].
    + destruct (A X) as [Y|(-> & -> & ->)]; [left; exists e; split; [auto|lia]|]. right. repeat split. unfold backfill, Minute, Second. lia.
    + destruct (B X) as [Y|(-> & -> & E)]; [left; exists e; split; [auto|lia]|]. right. repeat split. lia.
Defined.

(** ** Histories of a gateway that shares its Redis with others *)

Inductive cache_op :=
  | OGet (key : string)
  | OSet (key : string) (value : bytes) (ttl : Z)
  | ORemoteSet (key : string) (value : bytes) (ttl : Z).

Section histories.
Context {L R : Type} `{RistrettoLaws L} `{RedisLaws R} (ctx : context).

Definition exec (t : Z) (op : cache_op) (c : TwoTierCache L R) : TwoTierCache L R :=
  match op with
  | OGet k => snd (TwoTier.Get t ctx k c)
  | OSet k v ttl => snd (TwoTier.Set_ t ctx k v ttl c)
  | ORemoteSet k v ttl => {| l1 := l1 c; redis := snd (redis_Set t ctx k v ttl (redis c)) |}
  end.

Definition exec_all (ops : list (Z * cache_op)) (c : TwoTierCache L R) : TwoTierCache L R :=
  fold_left (fun c '(t, op) => exec t op c) ops c.

(** Somebody wrote [s] under [k] at [t] with lifetime [ttl]. *)
Definition written (ops : list (Z * cache_op)) (k s : string) (t ttl : Z) : Prop :=
  exists v, contents v = s /\ ((t, OSet k v ttl) ∈ ops \/ (t, ORemoteSet k v ttl) ∈ ops).

Definition positive_ttls (ops : list (Z * cache_op)) : Prop :=
  Forall (fun '(_, op) => match op with OGet _ => True | OSet _ _ ttl | ORemoteSet _ _ ttl => 0 < ttl end) ops.

(** Entries of Redis live as long as they were set to; those of L1 up to ten
    minutes longer, when they were filled from Redis. *)
Definition accounted (ops : list (Z * cache_op)) (c : TwoTierCache L R) : Prop :=
  (forall k s e, redis_holds (redis c) k s e -> exists t ttl, written ops k s t ttl /\ e <= t + ttl) /\
  (forall k s e, l1_holds (l1 c) k s e -> exists t ttl, written ops k s t ttl /\ e <= t + ttl + 10 * Minute).

Lemma written_mono ops ops' k s t ttl : ops ⊆ ops' -> written ops k s t ttl -> written ops' k s t ttl.
Proof. intros S (v & E & [I|I]); exists v; (split; [done|]); [left|right]; by apply S. Qed.

(** The two stores, one operation at a time. *)
Lemma accounted_step ops t op c : accounted ops c ->
  match op with OGet _ => True | OSet _ _ ttl | ORemoteSet _ _ ttl => 0 < ttl end ->
  accounted (ops ++ [(t, op)]) (exec t op c).
Proof.
  intros [A1 A2] P. set (ops' := ops ++ _).
  assert (M : forall k s t ttl, written ops k s t ttl -> written ops' k s t ttl)
    by (intros *; apply written_mono; set_solver).
  assert (B1 : forall k s e, redis_holds (redis c) k s e -> exists t ttl, written ops' k s t ttl /\ e <= t + ttl).
  { intros k s e X. destruct (A1 k s e X) as (u & d & Wr & Le). eauto. }
  assert (B2 : forall k s e, l1_holds (l1 c) k s e -> exists t ttl, written ops' k s t ttl /\ e <= t + ttl + 10 * Minute).
  { intros k s e X. destruct (A2 k s e X) as (u & d & Wr & Le). eauto. }
  clear A1 A2 M. destruct op as [k|k v ttl|k v ttl]; simpl.
  - unfold TwoTier.Get. destruct (l1_Get t k (l1 c)) as [hit l] eqn:E1.
    assert (C2 : forall k' s e, l1_holds l k' s e -> l1_holds (l1 c) k' s e).
    { intros k' s e X. apply (l1_Get_keeps t k). by rewrite E1. }
    destruct hit as [v|]; [split; eauto|].
    destruct (redis_Get t ctx k (redis c)) as [reply r] eqn:E2.
    assert (C1 : forall k' s e, redis_holds r k' s e -> redis_holds (redis c) k' s e).
    { intros k' s e X. apply (redis_Get_keeps t ctx k). by rewrite E2. }
    destruct reply as [|err|s]; [split; eauto..|].
    destruct (l1_SetWithTTL _ _ _ _ _ l) as [ok l'] eqn:E3. split; [eauto|].
    intros k' s' e X. simpl in X.
    destruct (l1_Set_keeps t k (Some s) 1 (Minute * 10) l k' s' e ltac:(done)) as [Y|(-> & -> & ->)]; [by rewrite E3|eauto|].
    destruct (redis_Get_holds t ctx k (redis c) s) as (e & Y & Te); [by rewrite E2|].
    destruct (B1 _ _ _ Y) as (u & d & Wr & Le). exists u, d. split; [done|]. lia.
  - unfold TwoTier.Set_. destruct (l1_SetWithTTL t k v 1 ttl (l1 c)) as [ok l] eqn:E1.
    destruct (redis_Set t ctx k v ttl (redis c)) as [err r] eqn:E2.
    assert (Wn : written ops' k (contents v) t ttl) by (exists v; split; [done|left; set_solver]).
    split; intros k' s e X; simpl in X.
    + destruct (redis_Set_keeps t ctx k v ttl (redis c) k' s e P) as [Y|(-> & -> & ->)]; [by rewrite E2|eauto|].
      exists t, ttl. split; [done|lia].
    + destruct (l1_Set_keeps t k v 1 ttl (l1 c) k' s e P) as [Y|(-> & -> & ->)]; [by rewrite E1|eauto|].
      exists t, ttl. split; [done|]. unfold Minute, Second. lia.
  - assert (Wn : written ops' k (contents v) t ttl) by (exists v; split; [done|right; set_solver]).
    split; [|done]. intros k' s e X; simpl in X.
    destruct (redis_Set_keeps t ctx k v ttl (redis c) k' s e P) as [Y|(-> & -> & ->)]; [done|eauto|].
    exists t, ttl. split; [done|lia].
Qed.

Lemma accounted_run ops : forall done c, accounted done c -> positive_ttls ops ->
  accounted (done ++ ops) (exec_all ops c).
Proof.
  induction ops as [|[t op] ops IH]; intros done c A P; [by rewrite app_nil_r|].
  apply Forall_cons in P as [P1 P]. rewrite cons_middle, app_assoc. simpl. apply IH; [|exact P].
  by apply accounted_step.
Qed.
End histories.

(** C30: What [TwoTierCache.Get] returns was written under that key, by this
    gateway or by another one that shares its Redis, and its lifetime ended at
    most ten minutes ago: the backfill of the first tier extends the lifetime
    of an entry by up to ten minutes, and by no more, in every history. *)
Theorem TwoTier_staleness {L R} `{RistrettoLaws L} `{RedisLaws R} ctx ops (c : TwoTierCache L R) t key s :
  (forall k v e, ~ l1_holds (l1 c) k v e) -> (forall k v e, ~ redis_holds (redis c) k v e) ->
  positive_ttls ops ->
  fst (fst (TwoTier.Get t ctx key (exec_all ctx ops c))) = Some s ->
  exists u ttl, written ops key s u ttl /\ t <= u + ttl + 10 * Minute.
Proof.
  intros E1 E2 P G. assert (A : accounted [] c) by (split; intros k v e X; exfalso; [by eapply E2|by eapply E1]).
  apply (accounted_run ctx ops) in A as [A1 A2]; [|done]. simpl in A1, A2.
  set (c' := exec_all ctx ops c) in *. revert G. unfold TwoTier.Get.
  pose proof (l1_Get_holds t key (l1 c') s) as X1.
  destruct (l1_Get t key (l1 c')) as [[v|] l]; simpl in *.
  { intros ->. destruct (X1 eq_refl) as (e & X & Le). destruct (A2 _ _ _ X) as (u & d & Wr & Ud).
    exists u, d. split; [done|lia]. }
  pose proof (redis_Get_holds t ctx key (redis c') s) as X2.
  destruct (redis_Get t ctx key (redis c')) as [[|err|v] r]; [done..|].
  destruct (l1_SetWithTTL _ _ _ _ _ l). simpl in *. intros [= ->].
  destruct (X2 eq_refl) as (e & X & Le). destruct (A1 _ _ _ X) as (u & d & Wr & Ud).
  exists u, d. split; [done|]. unfold Minute, Second. lia.
Qed.

(** ** The in-memory cache *)

Fixpoint memory_exec (ctx : context) (ops : list (Z * cache_op)) (m : MemoryCache) : MemoryCache :=
  match ops with
  | [] => m
  | (t, OGet k) :: ops => memory_exec ctx ops (snd (Memory.Get t ctx k m))
  | (t, OSet k v ttl) :: ops => memory_exec ctx ops (snd (Memory.Set_ t ctx k v ttl m))
  | (t, ORemoteSet _ _ _) :: ops => memory_exec ctx ops m
  end.

(** The last value written under a key by this process. *)
Definition last_written (key : string) (ops : list (Z * cache_op)) : bytes :=
  fold_left (fun v '(_, op) =>
    match op with
    | OGet _ | ORemoteSet _ _ _ => v
    | OSet k v' _ => if decide (k = key) then v' else v
    end) ops None.

Lemma memory_exec_lookup ctx key ops : forall m v, default None (data m !! key) = v ->
  default None (data (memory_exec ctx ops m) !! key)
  = fold_left (fun v '(_, op) =>
      match op with
      | OGet _ | ORemoteSet _ _ _ => v
      | OSet k v' _ => if decide (k = key) then v' else v
      end) ops v.
Proof.
  induction ops as [|[t [k|k v' ttl|k v' ttl]] ops IH]; intros m v E; simpl; [done|..]; apply IH; simpl.
  - unfold Memory.Get. by case_match.
  - rewrite lookup_insert. by case_decide.
  - done.
Qed.

(** The in-memory cache is a register per key: after any history [Get]
    never fails and returns the last value written under the key, or nil when
    there is none - at any later time, because the lifetimes are ignored and
    nothing ever expires or is evicted. *)
Theorem Memory_last_written ctx ops t key :
  fst (Memory.Get t ctx key (memory_exec ctx ops Memory.NewMemoryCache)) = (last_written key ops, None).
Proof.
  pose proof (memory_exec_lookup ctx key ops Memory.NewMemoryCache None) as E.
  simpl in E. rewrite lookup_empty in E. specialize (E eq_refl). unfold last_written. rewrite <- E.
  unfold Memory.Get. by destruct (data _ !! key).
Qed.

(** ** A concrete instance of both stores *)

(** A map of entries with their ends of life. *)
Record Timed := { entries : gmap string (string * Z) }.

Definition timed_get (t : Z) (k : string) (s : Timed) : option string :=
  match entries s !! k with
  | Some (v, e) => if t <=? e then Some v else None
  | None => None
  end.
Definition timed_set (t : Z) (k : string) (v : bytes) (ttl : Z) (s : Timed) : Timed :=
  {| entries := <[k := (contents v, t + ttl)]> (entries s) |}.

#[export] Instance Timed_Ristretto : Ristretto Timed := {|
  l1_Get := fun t k s => (Some <$> timed_get t k s, s);
  l1_SetWithTTL := fun t k v cost ttl s => (true, timed_set t k v ttl s)
|}.

#[export] Instance Timed_Redis : Redis Timed := {|
  redis_Get := fun t ctx k s => (match timed_get t k s with Some v => RedisBytes v | None => RedisNil end, s);
  redis_Set := fun t ctx k v ttl s => (None, timed_set t k v ttl s)
|}.

Definition timed_holds (s : Timed) (k v : string) (e : Z) : Prop := entries s !! k = Some (v, e).

Lemma timed_get_holds t k s v : timed_get t k s = Some v -> exists e, timed_holds s k v e /\ t <= e.
Proof.
  unfold timed_get, timed_holds. destruct (entries s !! k) as [[v' e]|]; [|done].
  case_match eqn:E; [|done]. intros [= ->]. exists e. split; [done|]. by apply Z.leb_le.
Qed.

Lemma timed_set_holds t k v ttl s k' v' e : timed_holds (timed_set t k v ttl s) k' v' e ->
  timed_holds s k' v' e \/ (k' = k /\ v' = contents v /\ e = t + ttl).
Proof.
  unfold timed_holds. simpl. rewrite lookup_insert. case_decide; [|by left]. intros [= <- <-]. by right.
Qed.

#[export] Instance Timed_RistrettoLaws : RistrettoLaws Timed.
Proof.
  refine {| l1_holds := timed_holds |}.
  - intros t k l s. simpl. destruct (timed_get t k l) eqn:E; [|done]. simpl. intros [= ->]. by apply timed_get_holds.
  - done.
  - intros t k v cost ttl l k' s e _. apply timed_set_holds.
Defined.

#[export] Instance Timed_RedisLaws : RedisLaws Timed.
Proof.
  refine {| redis_holds := timed_holds |}.
  - intros t ctx k l s. simpl. destruct (timed_get t k l) eqn:E; [|done]. intros [= ->]. by apply timed_get_holds.
  - done.
  - intros t ctx k v ttl l k' s e _. apply timed_set_holds.
Defined.

(** An entry of five minutes, read after four and replaced in Redis by another
    gateway after five, is still answered, from the first tier, after thirteen. *)
Module Scenario.
Definition empty : TwoTierCache Timed Timed := {| l1 := {| entries := ∅ |}; redis := {| entries := ∅ |} |}.
Definition history : list (Z * cache_op) :=
  [(0, ORemoteSet "k" (Some "old"%string) (5 * Minute)); (4 * Minute, OGet "k");
   (5 * Minute, ORemoteSet "k" (Some "new"%string) (5 * Minute))].
End Scenario.

Lemma TwoTier_staleness_witness :
  fst (TwoTier.Get (13 * Minute) Background "k" (exec_all Background Scenario.history Scenario.empty))
    = (Some "old"%string, None) /\
  exists u ttl, written Scenario.history "k" "old" u ttl /\ 13 * Minute <= u + ttl + 10 * Minute.
Proof.
  split; [by vm_compute|].
  apply (TwoTier_staleness Background Scenario.history Scenario.empty (13 * Minute) "k" "old").
  - intros k v e. unfold Scenario.empty; simpl. unfold timed_holds; simpl. by rewrite lookup_empty.
  - intros k v e. unfold Scenario.empty; simpl. unfold timed_holds; simpl. by rewrite lookup_empty.
  - repeat constructor.
  - by vm_compute.
Defined.
