(* ===== verification/Db.v ===== *)
(** * Db: tenants and their repository (internal/db/db.go)

    [TenantRepository] is what the gateway, the admin API and the budget
    processor ask of the tenant store, with its laws; [PostgresClient] is its
    implementation over a pgx pool.  The pool is a parameter: it is given the
    queries of the source and answers with rows. *)

From S2P Require Import Prelude Rounding Binary64 Float64 GoTypes Utf8 Json FloatText Decode Provider.
Local Open Scope Z_scope.

(** [ProviderAllowlist] is a slice: [None] is nil, which is marshalled as null. *)
Record Tenant := {
  ID : string;
  TName : string;
  APIKeyHash : string;
  RateLimitRPM : Z;
  BudgetCents : Z;
  SpentCents : Z;
  ProviderAllowlist : option (list string);
  IsActive : bool
}.

#[export] Instance Tenant_eq_dec : EqDecision Tenant.
Proof. solve_decision. Defined.

(** ** JSON of a tenant, as the gateway caches it *)

Module Codec.

Definition zero_Tenant : Tenant :=
  {| ID := ""; TName := ""; APIKeyHash := ""; RateLimitRPM := 0; BudgetCents := 0; SpentCents := 0;
     ProviderAllowlist := None; IsActive := false |}.

Definition json_Tenant (t : Tenant) : json :=
  JObj [("id", JStr (ID t)); ("name", JStr (TName t)); ("api_key_hash", JStr (APIKeyHash t));
        ("rate_limit_rpm", JInt (RateLimitRPM t)); ("budget_cents", JInt (BudgetCents t));
        ("spent_cents", JInt (SpentCents t)); ("provider_allowlist", JStrings (ProviderAllowlist t));
        ("is_active", JBool (IsActive t))]%string.

Definition set_ID s t := {| ID := s; TName := TName t; APIKeyHash := APIKeyHash t; RateLimitRPM := RateLimitRPM t;
  BudgetCents := BudgetCents t; SpentCents := SpentCents t; ProviderAllowlist := ProviderAllowlist t; IsActive := IsActive t |}.
Definition set_Name s t := {| ID := ID t; TName := s; APIKeyHash := APIKeyHash t; RateLimitRPM := RateLimitRPM t;
  BudgetCents := BudgetCents t; SpentCents := SpentCents t; ProviderAllowlist := ProviderAllowlist t; IsActive := IsActive t |}.
Definition set_APIKeyHash s t := {| ID := ID t; TName := TName t; APIKeyHash := s; RateLimitRPM := RateLimitRPM t;
  BudgetCents := BudgetCents t; SpentCents := SpentCents t; ProviderAllowlist := ProviderAllowlist t; IsActive := IsActive t |}.
Definition set_RateLimitRPM z t := {| ID := ID t; TName := TName t; APIKeyHash := APIKeyHash t; RateLimitRPM := z;
  BudgetCents := BudgetCents t; SpentCents := SpentCents t; ProviderAllowlist := ProviderAllowlist t; IsActive := IsActive t |}.
Definition set_BudgetCents z t := {| ID := ID t; TName := TName t; APIKeyHash := APIKeyHash t; RateLimitRPM := RateLimitRPM t;
  BudgetCents := z; SpentCents := SpentCents t; ProviderAllowlist := ProviderAllowlist t; IsActive := IsActive t |}.
Definition set_SpentCents z t := {| ID := ID t; TName := TName t; APIKeyHash := APIKeyHash t; RateLimitRPM := RateLimitRPM t;
  BudgetCents := BudgetCents t; SpentCents := z; ProviderAllowlist := ProviderAllowlist t; IsActive := IsActive t |}.
Definition set_ProviderAllowlist l t := {| ID := ID t; TName := TName t; APIKeyHash := APIKeyHash t; RateLimitRPM := RateLimitRPM t;
  BudgetCents := BudgetCents t; SpentCents := SpentCents t; ProviderAllowlist := l; IsActive := IsActive t |}.
Definition set_IsActive b t := {| ID := ID t; TName := TName t; APIKeyHash := APIKeyHash t; RateLimitRPM := RateLimitRPM t;
  BudgetCents := BudgetCents t; SpentCents := SpentCents t; ProviderAllowlist := ProviderAllowlist t; IsActive := b |}.

Definition Tenant_fields : fields Tenant := [
  ("id", field ID set_ID dec_string); ("name", field TName set_Name dec_string);
  ("api_key_hash", field APIKeyHash set_APIKeyHash dec_string);
  ("rate_limit_rpm", field RateLimitRPM set_RateLimitRPM dec_int);
  ("budget_cents", field BudgetCents set_BudgetCents dec_int);
  ("spent_cents", field SpentCents set_SpentCents dec_int);
  ("provider_allowlist", field ProviderAllowlist set_ProviderAllowlist (dec_slice dec_string ""));
  ("is_active", field IsActive set_IsActive dec_bool)]%string.

(** [json.Marshal(tenant)] of a non-nil pointer, and [json.Unmarshal(cached, &tenant)]
    into a nil one: [None] is a nil pointer. *)
Definition marshal_Tenant (t : Tenant) : string := marshal (json_Tenant t).
Definition unmarshal_Tenant (data : string) : option Tenant :=
  fst (Unmarshal (dec_pointer (dec_struct Tenant_fields) zero_Tenant) data None).

End Codec.

(** Text in UTF-8, and integers of Go's [int]. *)
Definition valid_Tenant (t : Tenant) : Prop :=
  valid_utf8 (ID t) = true /\ valid_utf8 (TName t) = true /\ valid_utf8 (APIKeyHash t) = true /\
  is_int64 (RateLimitRPM t) /\ is_int64 (BudgetCents t) /\ is_int64 (SpentCents t) /\
  forallb valid_utf8 (default [] (ProviderAllowlist t)) = true.

#[export] Instance valid_Tenant_dec t : Decision (valid_Tenant t).
Proof. unfold valid_Tenant. apply _. Defined.

Lemma json_Tenant_wf t : wf 0 (Codec.json_Tenant t) = true.
Proof.
  apply wf_object; [done|].
  repeat (constructor; cbn [snd]; [first [reflexivity | apply num_ok_Itoa | by apply wf_strings]|]). constructor.
Qed.

Lemma Tenant_back t old : valid_Tenant t ->
  dec_struct Codec.Tenant_fields (coerce (Codec.json_Tenant t)) old = (t, true).
Proof.
  intros (V1 & V2 & V3 & V4 & V5 & V6 & V7). unfold dec_struct, Codec.json_Tenant. cbn [coerce].
  decode_members. by destruct t.
Qed.

Lemma unmarshal_marshal_Tenant t : valid_Tenant t -> Codec.unmarshal_Tenant (Codec.marshal_Tenant t) = Some t.
Proof.
  intros V. unfold Codec.unmarshal_Tenant, Codec.marshal_Tenant. rewrite Unmarshal_marshal by apply json_Tenant_wf.
  unfold dec_pointer. change (coerce (Codec.json_Tenant t)) with (JObj (map (fun m => (to_valid (fst m), coerce (snd m)))
    (match Codec.json_Tenant t with JObj ms => ms | _ => [] end))).
  pose proof (Tenant_back t (default Codec.zero_Tenant None) V) as B.
  change (dec_struct Codec.Tenant_fields (JObj (map (fun m => (to_valid (fst m), coerce (snd m)))
    (match Codec.json_Tenant t with JObj ms => ms | _ => [] end))) (default Codec.zero_Tenant None) = (t, true)) in B.
  by rewrite B.
Qed.

(** C31: A tenant survives the cache: unmarshalling what was marshalled gives the
    same tenant, for every tenant with text in UTF-8 and integers of 64 bits,
    a nil allowlist and an empty one staying apart.  A cached [null], which no
    tenant produces, unmarshals to a nil pointer. *)
Theorem Tenant_roundtrip t :
  valid_Tenant t -> Codec.unmarshal_Tenant (Codec.marshal_Tenant t) = Some t /\ Codec.unmarshal_Tenant "null" = None.
Proof. intros V. split; [by apply unmarshal_marshal_Tenant|by vm_compute]. Qed.

Lemma Tenant_roundtrip_witness :
  let t := {| ID := "t-1"; TName := dq "A & 'B' <C>"; APIKeyHash := "2c76"; RateLimitRPM := 100; BudgetCents := -5;
              SpentCents := 0; ProviderAllowlist := Some ["openai"; "gemini"]; IsActive := true |}%string in
  Codec.unmarshal_Tenant (Codec.marshal_Tenant t) = Some t /\ Codec.unmarshal_Tenant "null" = None.
Proof. apply Tenant_roundtrip. by apply (bool_decide_unpack (valid_Tenant _)). Defined.

(** ** The repository *)

Class TenantRepository (D : Type) := {
  GetTenantByAPIKeyHash : context -> string -> D -> result Tenant * D;
  GetAllTenants : context -> D -> result (list Tenant) * D;
  CreateTenant : context -> string -> string -> Z -> Z -> option (list string) -> D -> result Tenant * D;
  UpdateTenantSpend : context -> string -> Z -> D -> option error * D;
  Close : D -> D
}.

(** [cents] more spent by the tenant [id]. *)
Definition spend (id : string) (cents : Z) (t : Tenant) : Tenant :=
  if decide (ID t = id)
  then {| ID := ID t; TName := TName t; APIKeyHash := APIKeyHash t; RateLimitRPM := RateLimitRPM t;
          BudgetCents := BudgetCents t; SpentCents := SpentCents t + cents;
          ProviderAllowlist := ProviderAllowlist t; IsActive := IsActive t |}
  else t.

(** The contract of a repository: a table of tenants; lookups by hash find one
    of them and change nothing, an update that succeeds adds to the spend of one
    tenant, a creation that succeeds adds the tenant that it was given, and
    failures change nothing: a statement that the database commits although its
    acknowledgement is lost is not among the failures. *)
Class TenantRepositoryLaws (D : Type) `{TenantRepository D} := {
  tenants : D -> list Tenant;
  Find_keeps ctx hash d : tenants (snd (GetTenantByAPIKeyHash ctx hash d)) = tenants d;
  Find_found ctx hash d t : fst (GetTenantByAPIKeyHash ctx hash d) = inl t ->
    t ∈ tenants d /\ APIKeyHash t = hash;
  All_keeps ctx d : tenants (snd (GetAllTenants ctx d)) = tenants d;
  All_found ctx d ts : fst (GetAllTenants ctx d) = inl ts -> Forall (fun t => t ∈ tenants d) ts;
  Create_adds ctx name hash rpm budget allow d t :
    fst (CreateTenant ctx name hash rpm budget allow d) = inl t ->
    tenants (snd (CreateTenant ctx name hash rpm budget allow d)) = tenants d ++ [t] /\
    TName t = name /\ APIKeyHash t = hash /\ RateLimitRPM t = rpm /\ BudgetCents t = budget /\
    SpentCents t = 0 /\ ProviderAllowlist t = allow;
  Create_fails ctx name hash rpm budget allow d e :
    fst (CreateTenant ctx name hash rpm budget allow d) = inr e ->
    tenants (snd (CreateTenant ctx name hash rpm budget allow d)) = tenants d;
  Update_spends ctx id cents d : fst (UpdateTenantSpend ctx id cents d) = None ->
    tenants (snd (UpdateTenantSpend ctx id cents d)) = spend id cents <$> tenants d;
  Update_fails ctx id cents d e : fst (UpdateTenantSpend ctx id cents d) = Some e ->
    tenants (snd (UpdateTenantSpend ctx id cents d)) = tenants d
}.

(** ** PostgreSQL *)

Inductive sql_arg :=
  | SqlText (s : string)
  | SqlInt (z : Z)
  | SqlTextArray (l : option (list string)).

(** The eight columns of a row, as [Scan] stores them. *)
Record Columns := {
  c_id : string; c_name : string; c_api_key_hash : string; c_rate_limit_rpm : Z;
  c_budget_cents : Z; c_spent_cents : Z; c_provider_allowlist : option (list string); c_is_active : bool
}.

(** [Exec]; [QueryRow] with its [Scan]; [Query] with what [Scan] gives for each
    row that [Next] finds, until it finds no more. *)
Class Pool (Q : Type) := {
  pool_Exec : context -> string -> list sql_arg -> Q -> option error * Q;
  pool_QueryRow : context -> string -> list sql_arg -> Q -> result Columns * Q;
  pool_Query : context -> string -> list sql_arg -> Q -> result (list (result Columns)) * Q;
  pool_Close : Q -> Q
}.

Record PostgresClient (Q : Type) := { pool : Q }.
Arguments Build_PostgresClient {Q} _.
Arguments pool {Q} _.

Module Postgres.

Definition update_query : string := "UPDATE tenants SET spent_cents = spent_cents + $1 WHERE id = $2".

Definition by_hash_query : string :=
"SELECT id, name, api_key_hash, rate_limit_rpm, budget_cents, spent_cents, provider_allowlist, is_active 
              FROM tenants WHERE api_key_hash = $1 LIMIT 1".

Definition all_query : string :=
"SELECT id, name, api_key_hash, rate_limit_rpm, budget_cents, spent_cents, provider_allowlist, is_active FROM tenants ORDER BY created_at DESC".

Definition insert_query : string :=
"INSERT INTO tenants (name, api_key_hash, rate_limit_rpm, budget_cents, provider_allowlist) 
              VALUES ($1, $2, $3, $4, $5) 
              RETURNING id, name, api_key_hash, rate_limit_rpm, budget_cents, spent_cents, provider_allowlist, is_active".

(** [Scan] into the fields of a [Tenant]. *)
Definition scan (c : Columns) : Tenant :=
  {| ID := c_id c; TName := c_name c; APIKeyHash := c_api_key_hash c; RateLimitRPM := c_rate_limit_rpm c;
     BudgetCents := c_budget_cents c; SpentCents := c_spent_cents c;
     ProviderAllowlist := c_provider_allowlist c; IsActive := c_is_active c |}.

(** The loop over the rows. *)
Fixpoint scan_rows (rows : list (result Columns)) (acc : list Tenant) : result (list Tenant) :=
  match rows with
  | [] => inl acc
  | inr err :: _ => inr err
  | inl c :: rows => scan_rows rows (acc ++ [scan c])
  end.

Section postgres.
Context {Q : Type} `{Pool Q}.

(** [New]: the outcomes of [ParseConfig] and of [NewWithConfig]. *)
Definition New (parsed : result unit) (connected : result Q) : result (PostgresClient Q) :=
  match parsed with
  | inr err => inr (Wrapf ("unable to parse database url: " ++ Error err) err)
  | inl _ =>
      match connected with
      | inr err => inr (Wrapf ("unable to create connection pool: " ++ Error err) err)
      | inl p => inl {| pool := p |}
      end
  end.

Definition Close (c : PostgresClient Q) : PostgresClient Q := {| pool := pool_Close (pool c) |}.

Definition UpdateTenantSpend (ctx : context) (tenantID : string) (cents : Z) (c : PostgresClient Q)
    : option error * PostgresClient Q :=
  let '(err, p) := pool_Exec ctx update_query [SqlInt cents; SqlText tenantID] (pool c) in
  (err, {| pool := p |}).

Definition GetTenantByAPIKeyHash (ctx : context) (hash : string) (c : PostgresClient Q)
    : result Tenant * PostgresClient Q :=
  let '(row, p) := pool_QueryRow ctx by_hash_query [SqlText hash] (pool c) in
  (match row with inr err => inr err | inl t => inl (scan t) end, {| pool := p |}).

Definition GetAllTenants (ctx : context) (c : PostgresClient Q) : result (list Tenant) * PostgresClient Q :=
  let '(rows, p) := pool_Query ctx all_query [] (pool c) in
  (match rows with inr err => inr err | inl rows => scan_rows rows [] end, {| pool := p |}).

Definition CreateTenant (ctx : context) (name keyHash : string) (rpm budget : Z)
    (allowlist : option (list string)) (c : PostgresClient Q) : result Tenant * PostgresClient Q :=
  let '(row, p) := pool_QueryRow ctx insert_query
    [SqlText name; SqlText keyHash; SqlInt rpm; SqlInt budget; SqlTextArray allowlist] (pool c) in
  (match row with inr err => inr err | inl t => inl (scan t) end, {| pool := p |}).

#[export] Instance Postgres_Repository : TenantRepository (PostgresClient Q) := {|
  Db.GetTenantByAPIKeyHash := GetTenantByAPIKeyHash;
  Db.GetAllTenants := GetAllTenants;
  Db.CreateTenant := CreateTenant;
  Db.UpdateTenantSpend := UpdateTenantSpend;
  Db.Close := Close
|}.
End postgres.
End Postgres.
Export (hints) Postgres.

(** ** The contract, from what PostgreSQL does with the queries *)

Definition add_spent (id : string) (cents : Z) (c : Columns) : Columns :=
  if decide (c_id c = id)
  then {| c_id := c_id c; c_name := c_name c; c_api_key_hash := c_api_key_hash c; c_rate_limit_rpm := c_rate_limit_rpm c;
          c_budget_cents := c_budget_cents c; c_spent_cents := c_spent_cents c + cents;
          c_provider_allowlist := c_provider_allowlist c; c_is_active := c_is_active c |}
  else c.

Class PoolLaws (Q : Type) `{Pool Q} := {
  table : Q -> list Columns;
  update_ok ctx id cents q :
    fst (pool_Exec ctx Postgres.update_query [SqlInt cents; SqlText id] q) = None ->
    table (snd (pool_Exec ctx Postgres.update_query [SqlInt cents; SqlText id] q)) = add_spent id cents <$> table q;
  update_error ctx id cents q e :
    fst (pool_Exec ctx Postgres.update_query [SqlInt cents; SqlText id] q) = Some e ->
    table (snd (pool_Exec ctx Postgres.update_query [SqlInt cents; SqlText id] q)) = table q;
  by_hash_keeps ctx hash q :
    table (snd (pool_QueryRow ctx Postgres.by_hash_query [SqlText hash] q)) = table q;
  by_hash_found ctx hash q c :
    fst (pool_QueryRow ctx Postgres.by_hash_query [SqlText hash] q) = inl c ->
    c ∈ table q /\ c_api_key_hash c = hash;
  all_keeps ctx q : table (snd (pool_Query ctx Postgres.all_query [] q)) = table q;
  all_found ctx q rows : fst (pool_Query ctx Postgres.all_query [] q) = inl rows ->
    Forall (fun r => match r with inl c => c ∈ table q | inr _ => True end) rows;
  insert_ok ctx name hash rpm budget allow q c :
    let r := pool_QueryRow ctx Postgres.insert_query
               [SqlText name; SqlText hash; SqlInt rpm; SqlInt budget; SqlTextArray allow] q in
    fst r = inl c ->
    table (snd r) = table q ++ [c] /\ c_name c = name /\ c_api_key_hash c = hash /\ c_rate_limit_rpm c = rpm /\
    c_budget_cents c = budget /\ c_spent_cents c = 0 /\ c_provider_allowlist c = allow;
  insert_error ctx name hash rpm budget allow q e :
    let r := pool_QueryRow ctx Postgres.insert_query
               [SqlText name; SqlText hash; SqlInt rpm; SqlInt budget; SqlTextArray allow] q in
    fst r = inr e -> table (snd r) = table q
}.

Lemma scan_add_spent id cents c : Postgres.scan (add_spent id cents c) = spend id cents (Postgres.scan c).
Proof. unfold Postgres.scan, add_spent, spend; simpl. by case_decide. Qed.

Lemma scan_rows_found (l : list Tenant) rows : forall acc ts,
  Postgres.scan_rows rows acc = inl ts -> Forall (fun t => t ∈ l) acc ->
  Forall (fun r => match r with inl c => Postgres.scan c ∈ l | inr _ => True end) rows ->
  Forall (fun t => t ∈ l) ts.
Proof.
  induction rows as [|[c|e] rows IH]; simpl; intros acc ts E A F; [by injection E as <-| |done].
  apply Forall_cons in F as [F1 F]. apply (IH _ _ E); [|done]. apply Forall_app. by split; [|constructor].
Qed.

(** All the rows, in order, unless one cannot be scanned. *)
Lemma scan_rows_inl rows : forall acc ts, Postgres.scan_rows rows acc = inl ts <->
  exists cs, rows = inl <$> cs /\ ts = acc ++ (Postgres.scan <$> cs).
Proof.
  induction rows as [|[c|e] rows IH]; simpl; intros acc ts.
  - split; [intros [= <-]; exists []; by rewrite app_nil_r|].
    intros ([|] & E & ->); [by rewrite app_nil_r|discriminate].
  - rewrite IH. split; intros (cs & E & ->).
    + exists (c :: cs). simpl. by rewrite E, <- app_assoc.
    + destruct cs as [|c' cs]; [discriminate|]. injection E as -> ->. exists cs. simpl. by rewrite <- app_assoc.
  - split; [done|]. intros ([|] & E & _); discriminate.
Qed.

#[export] Instance Postgres_laws {Q} `{PoolLaws Q} : TenantRepositoryLaws (PostgresClient Q).
Proof.
  refine {| tenants := fun c => Postgres.scan <$> table (pool c) |}; simpl.
  - intros ctx hash d. unfold Postgres.GetTenantByAPIKeyHash. pose proof (by_hash_keeps ctx hash (pool d)) as K.
    destruct (pool_QueryRow _ _ _ _); simpl in *. by rewrite K.
  - intros ctx hash d t. unfold Postgres.GetTenantByAPIKeyHash. pose proof (by_hash_found ctx hash (pool d)) as K.
    destruct (pool_QueryRow _ _ _ _) as [[c|e] p]; simpl in *; [|done]. intros [= <-].
    destruct (K c eq_refl) as [I E]. split; [by apply list_elem_of_fmap_2|done].
  - intros ctx d. unfold Postgres.GetAllTenants. pose proof (all_keeps ctx (pool d)) as K.
    destruct (pool_Query _ _ _ _); simpl in *. by rewrite K.
  - intros ctx d ts. unfold Postgres.GetAllTenants. pose proof (all_found ctx (pool d)) as K.
    destruct (pool_Query _ _ _ _) as [[rows|e] p]; simpl in *; [|done]. intros E.
    apply (scan_rows_found _ _ _ _ E); [constructor|]. eapply Forall_impl; [by apply K|].
    intros [c|]; [apply list_elem_of_fmap_2|done].
  - intros ctx name hash rpm budget allow d t. unfold Postgres.CreateTenant.
    pose proof (insert_ok ctx name hash rpm budget allow (pool d)) as K. cbv zeta in K.
    destruct (pool_QueryRow _ _ _ _) as [[c|e] p]; simpl in *; [|done]. intros [= <-].
    destruct (K c eq_refl) as (E & A). rewrite E, fmap_app. by split.
  - intros ctx name hash rpm budget allow d e. unfold Postgres.CreateTenant.
    pose proof (insert_error ctx name hash rpm budget allow (pool d)) as K. cbv zeta in K.
    destruct (pool_QueryRow _ _ _ _) as [[c|e'] p]; simpl in *; [done|]. intros _. by rewrite (K e' eq_refl).
  - intros ctx id cents d. unfold Postgres.UpdateTenantSpend. pose proof (update_ok ctx id cents (pool d)) as K.
    destruct (pool_Exec _ _ _ _); simpl in *. intros ->. rewrite K by done.
    rewrite <- !list_fmap_compose. apply list_fmap_ext. intros i c _. apply scan_add_spent.
  - intros ctx id cents d e. unfold Postgres.UpdateTenantSpend. pose proof (update_error ctx id cents (pool d) e) as K.
    destruct (pool_Exec _ _ _ _); simpl in *. intros ->. by rewrite K.
Defined.

(** ** A concrete pool: a table in memory that can be down *)

Record Table := { rows : list Columns; up : bool }.

Definition connection_refused : error := Errorf "connection refused".
Definition no_rows : error := Errorf "no rows in result set".

Module InMemory.

Definition exec (ctx : context) (query : string) (args : list sql_arg) (q : Table) : option error * Table :=
  if up q then
    match args with
    | [SqlInt cents; SqlText id] =>
        if decide (query = Postgres.update_query)
        then (None, {| rows := add_spent id cents <$> rows q; up := up q |})
        else (Some no_rows, q)
    | _ => (Some no_rows, q)
    end
  else (Some connection_refused, q).

Definition new_row (id name hash : string) (rpm budget : Z) (allow : option (list string)) : Columns :=
  {| c_id := id; c_name := name; c_api_key_hash := hash; c_rate_limit_rpm := rpm; c_budget_cents := budget;
     c_spent_cents := 0; c_provider_allowlist := allow; c_is_active := true |}.

(** Identifiers are the numbers of the rows. *)
Definition query_row (ctx : context) (query : string) (args : list sql_arg) (q : Table) : result Columns * Table :=
  if up q then
    match args with
    | [SqlText hash] =>
        match list_find (fun c => c_api_key_hash c = hash) (rows q) with
        | Some (_, c) => (inl c, q)
        | None => (inr no_rows, q)
        end
    | [SqlText name; SqlText hash; SqlInt rpm; SqlInt budget; SqlTextArray allow] =>
        if decide (Forall (fun c => c_api_key_hash c <> hash) (rows q)) then
          let c := new_row (Itoa (Z.of_nat (length (rows q)))) name hash rpm budget allow in
          (inl c, {| rows := rows q ++ [c]; up := up q |})
        else (inr (Errorf "duplicate key value violates unique constraint"), q)
    | _ => (inr no_rows, q)
    end
  else (inr connection_refused, q).

Definition query (ctx : context) (query : string) (args : list sql_arg) (q : Table)
    : result (list (result Columns)) * Table :=
  if up q then (inl (inl <$> reverse (rows q)), q) else (inr connection_refused, q).

End InMemory.

#[export] Instance Table_Pool : Pool Table := {|
  pool_Exec := InMemory.exec;
  pool_QueryRow := InMemory.query_row;
  pool_Query := InMemory.query;
  pool_Close := fun q => {| rows := rows q; up := false |}
|}.

#[export] Instance Table_laws : PoolLaws Table.
Proof.
  refine {| table := rows |}; simpl.
  - intros ctx id cents q. unfold InMemory.exec. by destruct (up q).
  - intros ctx id cents q e. unfold InMemory.exec. by destruct (up q).
  - intros ctx hash q. unfold InMemory.query_row. destruct (up q); [|done]. by destruct (list_find _ _) as [[]|].
  - intros ctx hash q c. unfold InMemory.query_row. destruct (up q); [|done].
    destruct (list_find _ _) as [[i c']|] eqn:E; [|done]. intros [= ->].
    apply list_find_Some in E as (L & E & _). split; [by eapply list_elem_of_lookup_2|done].
  - intros ctx q. unfold InMemory.query. by destruct (up q).
  - intros ctx q rs. unfold InMemory.query. destruct (up q); [|done]. intros [= <-].
    apply Forall_fmap, Forall_forall. intros c. simpl. by rewrite elem_of_reverse.
  - intros ctx name hash rpm budget allow q c. unfold InMemory.query_row. destruct (up q); [|done].
    case_decide; [|done]. by intros [= <-].
  - intros ctx name hash rpm budget allow q e. unfold InMemory.query_row. destruct (up q); [|done].
    by case_decide.
Defined.
