(* ===== verification/Logging.v ===== *)
(** * Logging: log events and the multi-logger (internal/logging/logging.go)

    A [LogEvent] is marshalled and written to Kafka ([Log]), for the budget
    processor and the analytics store, and published on Redis ([Broadcast]),
    for the dashboard.  Both clients are parameters.  [TopicLogger] is what the
    consumers of the topic may rely on. *)

From S2P Require Import Prelude Rounding Binary64 Float64 GoTypes Utf8 Json FloatText Decode Provider.
From Stdlib Require Import SpecFloat.
Local Open Scope Z_scope.

Record LogEvent := {
  RequestID : string;
  TenantID : string;
  ev_Provider : string;
  ev_Model : string;
  ev_PromptTokens : Z;
  ev_CompletionTokens : Z;
  CostCents : float64;
  LatencyMs : Z;
  Status : Z;
  Cached : bool;
  Timestamp : Z
}.

#[export] Instance LogEvent_eq_dec : EqDecision LogEvent.
Proof. solve_decision. Defined.

Class Logger (L : Type) := {
  Log : context -> LogEvent -> L -> option error * L;
  Broadcast : context -> LogEvent -> L -> option error * L;
  Logger_Close : L -> option error * L
}.

(** ** JSON of an event *)

Module Codec.

Definition zero_LogEvent : LogEvent :=
  {| RequestID := ""; TenantID := ""; ev_Provider := ""; ev_Model := ""; ev_PromptTokens := 0;
     ev_CompletionTokens := 0; CostCents := f_of_int 0; LatencyMs := 0; Status := 0; Cached := false; Timestamp := 0 |}.

Definition json_LogEvent (e : LogEvent) (cost : string) : json :=
  JObj [("request_id", JStr (RequestID e)); ("tenant_id", JStr (TenantID e)); ("provider", JStr (ev_Provider e));
        ("model", JStr (ev_Model e)); ("prompt_tokens", JInt (ev_PromptTokens e));
        ("completion_tokens", JInt (ev_CompletionTokens e)); ("cost_cents", JNum cost);
        ("latency_ms", JInt (LatencyMs e)); ("status", JInt (Status e)); ("cached", JBool (Cached e));
        ("timestamp", JInt (Timestamp e))]%string.

Definition unsupported_value : error := Errorf "json: unsupported value".

(** [json.Marshal(event)]: a cost that is not finite is not supported. *)
Definition marshal_LogEvent (e : LogEvent) : result string :=
  match format_float (CostCents e) with
  | Some cost => inl (marshal (json_LogEvent e cost))
  | None => inr unsupported_value
  end.

Definition set_RequestID s e := {| RequestID := s; TenantID := TenantID e; ev_Provider := ev_Provider e; ev_Model := ev_Model e;
  ev_PromptTokens := ev_PromptTokens e; ev_CompletionTokens := ev_CompletionTokens e; CostCents := CostCents e;
  LatencyMs := LatencyMs e; Status := Status e; Cached := Cached e; Timestamp := Timestamp e |}.
Definition set_TenantID s e := {| RequestID := RequestID e; TenantID := s; ev_Provider := ev_Provider e; ev_Model := ev_Model e;
  ev_PromptTokens := ev_PromptTokens e; ev_CompletionTokens := ev_CompletionTokens e; CostCents := CostCents e;
  LatencyMs := LatencyMs e; Status := Status e; Cached := Cached e; Timestamp := Timestamp e |}.
Definition set_Provider s e := {| RequestID := RequestID e; TenantID := TenantID e; ev_Provider := s; ev_Model := ev_Model e;
  ev_PromptTokens := ev_PromptTokens e; ev_CompletionTokens := ev_CompletionTokens e; CostCents := CostCents e;
  LatencyMs := LatencyMs e; Status := Status e; Cached := Cached e; Timestamp := Timestamp e |}.
Definition set_Model s e := {| RequestID := RequestID e; TenantID := TenantID e; ev_Provider := ev_Provider e; ev_Model := s;
  ev_PromptTokens := ev_PromptTokens e; ev_CompletionTokens := ev_CompletionTokens e; CostCents := CostCents e;
  LatencyMs := LatencyMs e; Status := Status e; Cached := Cached e; Timestamp := Timestamp e |}.
Definition set_PromptTokens z e := {| RequestID := RequestID e; TenantID := TenantID e; ev_Provider := ev_Provider e; ev_Model := ev_Model e;
  ev_PromptTokens := z; ev_CompletionTokens := ev_CompletionTokens e; CostCents := CostCents e;
  LatencyMs := LatencyMs e; Status := Status e; Cached := Cached e; Timestamp := Timestamp e |}.
Definition set_CompletionTokens z e := {| RequestID := RequestID e; TenantID := TenantID e; ev_Provider := ev_Provider e; ev_Model := ev_Model e;
  ev_PromptTokens := ev_PromptTokens e; ev_CompletionTokens := z; CostCents := CostCents e;
  LatencyMs := LatencyMs e; Status := Status e; Cached := Cached e; Timestamp := Timestamp e |}.
Definition set_CostCents x e := {| RequestID := RequestID e; TenantID := TenantID e; ev_Provider := ev_Provider e; ev_Model := ev_Model e;
  ev_PromptTokens := ev_PromptTokens e; ev_CompletionTokens := ev_CompletionTokens e; CostCents := x;
  LatencyMs := LatencyMs e; Status := Status e; Cached := Cached e; Timestamp := Timestamp e |}.
Definition set_LatencyMs z e := {| RequestID := RequestID e; TenantID := TenantID e; ev_Provider := ev_Provider e; ev_Model := ev_Model e;
  ev_PromptTokens := ev_PromptTokens e; ev_CompletionTokens := ev_CompletionTokens e; CostCents := CostCents e;
  LatencyMs := z; Status := Status e; Cached := Cached e; Timestamp := Timestamp e |}.
Definition set_Status z e := {| RequestID := RequestID e; TenantID := TenantID e; ev_Provider := ev_Provider e; ev_Model := ev_Model e;
  ev_PromptTokens := ev_PromptTokens e; ev_CompletionTokens := ev_CompletionTokens e; CostCents := CostCents e;
  LatencyMs := LatencyMs e; Status := z; Cached := Cached e; Timestamp := Timestamp e |}.
Definition set_Cached b e := {| RequestID := RequestID e; TenantID := TenantID e; ev_Provider := ev_Provider e; ev_Model := ev_Model e;
  ev_PromptTokens := ev_PromptTokens e; ev_CompletionTokens := ev_CompletionTokens e; CostCents := CostCents e;
  LatencyMs := LatencyMs e; Status := Status e; Cached := b; Timestamp := Timestamp e |}.
Definition set_Timestamp z e := {| RequestID := RequestID e; TenantID := TenantID e; ev_Provider := ev_Provider e; ev_Model := ev_Model e;
  ev_PromptTokens := ev_PromptTokens e; ev_CompletionTokens := ev_CompletionTokens e; CostCents := CostCents e;
  LatencyMs := LatencyMs e; Status := Status e; Cached := Cached e; Timestamp := z |}.

Definition LogEvent_fields : fields LogEvent := [
  ("request_id", field RequestID set_RequestID dec_string); ("tenant_id", field TenantID set_TenantID dec_string);
  ("provider", field ev_Provider set_Provider dec_string); ("model", field ev_Model set_Model dec_string);
  ("prompt_tokens", field ev_PromptTokens set_PromptTokens dec_int);
  ("completion_tokens", field ev_CompletionTokens set_CompletionTokens dec_int);
  ("cost_cents", field CostCents set_CostCents dec_float); ("latency_ms", field LatencyMs set_LatencyMs dec_int);
  ("status", field Status set_Status dec_int); ("cached", field Cached set_Cached dec_bool);
  ("timestamp", field Timestamp set_Timestamp dec_int)]%string.

(** [json.Unmarshal(m.Value, &event)] into a zero event. *)
Definition unmarshal_LogEvent (data : string) : LogEvent * bool :=
  Unmarshal (dec_struct LogEvent_fields) data zero_LogEvent.

End Codec.

Definition valid_LogEvent (e : LogEvent) : Prop :=
  valid_utf8 (RequestID e) = true /\ valid_utf8 (TenantID e) = true /\ valid_utf8 (ev_Provider e) = true /\
  valid_utf8 (ev_Model e) = true /\ is_int64 (ev_PromptTokens e) /\ is_int64 (ev_CompletionTokens e) /\
  is_int64 (LatencyMs e) /\ is_int64 (Status e) /\ is_int64 (Timestamp e).

#[export] Instance valid_LogEvent_dec e : Decision (valid_LogEvent e).
Proof. unfold valid_LogEvent. apply _. Defined.

Lemma dec_float_back x lit old : format_float x = Some lit -> dec_float (coerce (JNum lit)) old = (x, true).
Proof. intros F. apply format_float_reads in F as [P _]. simpl. by rewrite P. Qed.

Lemma json_LogEvent_wf e cost : num_ok cost = true -> wf 0 (Codec.json_LogEvent e cost) = true.
Proof.
  intros N. apply wf_object; [done|].
  repeat (constructor; cbn [snd]; [first [reflexivity | apply num_ok_Itoa | exact N]|]). constructor.
Qed.

Lemma LogEvent_back e cost old : valid_LogEvent e -> format_float (CostCents e) = Some cost ->
  dec_struct Codec.LogEvent_fields (coerce (Codec.json_LogEvent e cost)) old = (e, true).
Proof.
  intros (V1 & V2 & V3 & V4 & V5 & V6 & V7 & V8 & V9) F. unfold dec_struct, Codec.json_LogEvent. cbn [coerce].
  decode_members. erewrite dec_member_step; [|reflexivity|apply field_back, dec_float_back, F].
  decode_members. by destruct e.
Qed.

Lemma unmarshal_marshal_LogEvent e payload : valid_LogEvent e -> Codec.marshal_LogEvent e = inl payload ->
  Codec.unmarshal_LogEvent payload = (e, true).
Proof.
  unfold Codec.marshal_LogEvent, Codec.unmarshal_LogEvent. intros V.
  destruct (format_float (CostCents e)) as [cost|] eqn:F; [|done]. intros [= <-].
  rewrite Unmarshal_marshal by (apply json_LogEvent_wf; by eapply format_float_reads). by apply LogEvent_back.
Qed.

Lemma parse_float_finite lit x : parse_float lit = Some x -> is_finite x = true.
Proof.
  unfold parse_float. repeat (case_match; [..]); intros E; repeat case_match; by simplify_eq.
Qed.

Lemma format_float_finite x lit : format_float x = Some lit -> is_finite x = true.
Proof. intros F. apply format_float_reads in F as [P _]. by apply parse_float_finite in P. Qed.

(** C32: What the gateway logs is what the budget processor reads: whenever an
    event is marshalled, unmarshalling the payload gives the same event back,
    the float64 cost bit for bit; an event whose cost is infinite or NaN is not
    marshalled at all. *)
Theorem LogEvent_roundtrip e :
  valid_LogEvent e ->
  (forall payload, Codec.marshal_LogEvent e = inl payload -> Codec.unmarshal_LogEvent payload = (e, true)) /\
  (is_finite (CostCents e) = false -> exists err, Codec.marshal_LogEvent e = inr err).
Proof.
  intros V. split; [by intros; apply unmarshal_marshal_LogEvent|].
  intros F. unfold Codec.marshal_LogEvent. destruct (format_float (CostCents e)) eqn:E; [|eauto].
  apply format_float_finite in E. congruence.
Qed.

Module Scenario.
Definition event : LogEvent :=
  {| RequestID := ""; TenantID := "t-1"; ev_Provider := "openai"; ev_Model := "gpt-4o"; ev_PromptTokens := 10;
     ev_CompletionTokens := 20; CostCents := f_const 15 10; LatencyMs := 120; Status := 200;
     Cached := false; Timestamp := 1700000000000000000 |}.
End Scenario.

Lemma LogEvent_roundtrip_witness : exists payload,
  Codec.marshal_LogEvent Scenario.event = inl payload /\ Codec.unmarshal_LogEvent payload = (Scenario.event, true).
Proof.
  eexists. split; [vm_compute; reflexivity|].
  apply (LogEvent_roundtrip Scenario.event); [by apply (bool_decide_unpack (valid_LogEvent _))|].
  vm_compute. reflexivity.
Defined.

(** ** The multi-logger *)

Record kafka_Message := { Key : string; Value : string }.

Class KafkaWriter (K : Type) := {
  WriteMessages : context -> kafka_Message -> K -> option error * K;
  kafka_Close : K -> option error * K
}.

Class RedisPublisher (R : Type) := {
  Publish : context -> string -> string -> R -> option error * R
}.

Record MultiLogger (K R : Type) := { kafka : K; log_redis : R }.
Arguments Build_MultiLogger {K R} _ _.
Arguments kafka {K R} _.
Arguments log_redis {K R} _.

(** The fields of a [kafka.Writer] that are set. *)
Record WriterConfig := { w_Addr : list string; w_Topic : string; w_Async : bool; w_BatchSize : Z; w_BatchTimeout : Z }.

Module Multi.

(** [new_writer] makes a writer of its fields; the balancer is [kafka.LeastBytes]. *)
Definition NewMultiLogger {K R} (new_writer : WriterConfig -> K) (brokers : list string) (topic : string) (rdb : R) : MultiLogger K R :=
  {| kafka := new_writer {| w_Addr := brokers; w_Topic := topic; w_Async := true; w_BatchSize := 1000; w_BatchTimeout := 10 * Millisecond |};
     log_redis := rdb |}.

Section multi.
Context {K R : Type} `{KafkaWriter K} `{RedisPublisher R}.

Definition Log (ctx : context) (event : LogEvent) (l : MultiLogger K R) : option error * MultiLogger K R :=
  match Codec.marshal_LogEvent event with
  | inr err => (Some (Wrapf ("failed to marshal log event: " ++ Error err) err), l)
  | inl payload =>
      let '(err, k) := WriteMessages ctx {| Key := TenantID event; Value := payload |} (kafka l) in
      (err, {| kafka := k; log_redis := log_redis l |})
  end.

(** Everything is broadcast; a payload that cannot be marshalled is empty. *)
Definition Broadcast (ctx : context) (event : LogEvent) (l : MultiLogger K R) : option error * MultiLogger K R :=
  let shouldBroadcast := true in
  if negb shouldBroadcast then (None, l)
  else
    let payload := match Codec.marshal_LogEvent event with inl p => p | inr _ => ""%string end in
    let '(err, r) := Publish ctx "logs:live" payload (log_redis l) in
    (err, {| kafka := kafka l; log_redis := r |}).

Definition Close (l : MultiLogger K R) : option error * MultiLogger K R :=
  let '(err, k) := kafka_Close (kafka l) in (err, {| kafka := k; log_redis := log_redis l |}).

#[export] Instance MultiLogger_Logger : Logger (MultiLogger K R) := {|
  Logging.Log := Log; Logging.Broadcast := Broadcast; Logger_Close := Close
|}.
End multi.
End Multi.
Export (hints) Multi.

(** ** What a consumer may rely on *)

(** An asynchronous writer delivers in the background: a message that it was
    given reaches the topic, or is lost without an error. *)
Class KafkaWriterLaws (K : Type) `{KafkaWriter K} := {
  messages : K -> list kafka_Message;
  Write_appends ctx m k :
    messages (snd (WriteMessages ctx m k)) = messages k \/ messages (snd (WriteMessages ctx m k)) = messages k ++ [m]
}.

(** The payloads in the topic of a logger: only [Log] adds one, that of its event. *)
Class TopicLogger (L : Type) `{Logger L} := {
  topic : L -> list string;
  Log_topic ctx e l : topic (snd (Log ctx e l)) = topic l \/
    exists payload, Codec.marshal_LogEvent e = inl payload /\ topic (snd (Log ctx e l)) = topic l ++ [payload];
  Broadcast_topic ctx e l : topic (snd (Broadcast ctx e l)) = topic l
}.

#[export] Instance MultiLogger_topic {K R} `{KafkaWriterLaws K} `{RedisPublisher R} : TopicLogger (MultiLogger K R).
Proof.
  refine {| topic := fun l => Value <$> messages (kafka l) |}.
  - intros ctx e l. simpl. unfold Multi.Log. destruct (Codec.marshal_LogEvent e) as [payload|err]; [|by left].
    pose proof (Write_appends ctx {| Key := TenantID e; Value := payload |} (kafka l)) as A.
    destruct (WriteMessages _ _ _) as [err k]. simpl in *. destruct A as [->| ->]; [by left|right].
    exists payload. by rewrite fmap_app.
  - intros ctx e l. simpl. unfold Multi.Broadcast. simpl. by destruct (Publish _ _ _ _).
Defined.
