(* ===== verification/Sha256.v ===== *)
(** * Sha256: crypto/sha256 and encoding/hex

    The gateway finds a tenant by the SHA-256 of its API key, in hexadecimal.
    [Sum256] is the function of the standard (FIPS 180-4) on 32-bit words kept
    as [Z]; it runs, so that the key of the seeded tenant can be checked. *)

From Stdlib Require Import Ascii.
From S2P Require Import Prelude Utf8.
Local Open Scope Z_scope.

Definition mask32 : Z := 2 ^ 32 - 1.
Definition add32 (x y : Z) : Z := Z.land (x + y) mask32.
Definition rotr (n x : Z) : Z := Z.lor (Z.shiftr x n) (Z.land (Z.shiftl x (32 - n)) mask32).

(** The first 32 bits of the fractional parts of the cube roots of the first 64
    primes, and of the square roots of the first 8. *)
Definition round_constants : list Z := [
  1116352408; 1899447441; 3049323471; 3921009573; 961987163; 1508970993;
  2453635748; 2870763221; 3624381080; 310598401; 607225278; 1426881987;
  1925078388; 2162078206; 2614888103; 3248222580; 3835390401; 4022224774;
  264347078; 604807628; 770255983; 1249150122; 1555081692; 1996064986;
  2554220882; 2821834349; 2952996808; 3210313671; 3336571891; 3584528711;
  113926993; 338241895; 666307205; 773529912; 1294757372; 1396182291;
  1695183700; 1986661051; 2177026350; 2456956037; 2730485921; 2820302411;
  3259730800; 3345764771; 3516065817; 3600352804; 4094571909; 275423344;
  430227734; 506948616; 659060556; 883997877; 958139571; 1322822218;
  1537002063; 1747873779; 1955562222; 2024104815; 2227730452; 2361852424;
  2428436474; 2756734187; 3204031479; 3329325298].
Definition initial_hash : list Z := [
  1779033703; 3144134277; 1013904242; 2773480762; 1359893119; 2600822924;
  528734635; 1541459225].

(** ** Padding and words *)

Definition bytes_of_string (s : string) : list Z := code <$> list_ascii_of_string s.

(** The [n] bytes of a number, most significant first. *)
Fixpoint big_endian (n : nat) (z : Z) : list Z :=
  match n with O => [] | S n => Z.land (Z.shiftr z (8 * Z.of_nat n)) 255 :: big_endian n z end.

Definition pad (m : list Z) : list Z :=
  let l := Z.of_nat (length m) in
  m ++ 128 :: replicate (Z.to_nat ((55 - l) mod 64)) 0 ++ big_endian 8 (8 * l).

Fixpoint words (m : list Z) : list Z :=
  match m with
  | a :: b :: c :: d :: m => (((a * 256 + b) * 256 + c) * 256 + d) :: words m
  | _ => []
  end.

(** Consecutive blocks of sixteen words. *)
Fixpoint blocks (fuel : nat) (ws : list Z) : list (list Z) :=
  match fuel, ws with
  | S fuel, _ :: _ => take 16 ws :: blocks fuel (drop 16 ws)
  | _, _ => []
  end.

(** ** Compression *)

(** The message schedule, most recent word first. *)
Fixpoint schedule (n : nat) (w : list Z) : list Z :=
  match n with
  | O => w
  | S n =>
      let at_ k := nth (k - 1) w 0 in
      let s0 := Z.lxor (Z.lxor (rotr 7 (at_ 15%nat)) (rotr 18 (at_ 15%nat))) (Z.shiftr (at_ 15%nat) 3) in
      let s1 := Z.lxor (Z.lxor (rotr 17 (at_ 2%nat)) (rotr 19 (at_ 2%nat))) (Z.shiftr (at_ 2%nat) 10) in
      schedule n (add32 (add32 (at_ 16%nat) s0) (add32 (at_ 7%nat) s1) :: w)
  end.

Definition round (v : list Z) (kw : Z * Z) : list Z :=
  match v with
  | [a; b; c; d; e; f; g; h] =>
      let S1 := Z.lxor (Z.lxor (rotr 6 e) (rotr 11 e)) (rotr 25 e) in
      let ch := Z.lxor (Z.land e f) (Z.land (Z.lxor e mask32) g) in
      let t1 := add32 (add32 h S1) (add32 ch (add32 (fst kw) (snd kw))) in
      let S0 := Z.lxor (Z.lxor (rotr 2 a) (rotr 13 a)) (rotr 22 a) in
      let maj := Z.lxor (Z.lxor (Z.land a b) (Z.land a c)) (Z.land b c) in
      [add32 t1 (add32 S0 maj); a; b; c; add32 d t1; e; f; g]
  | _ => v
  end.

Definition compress (h block : list Z) : list Z :=
  zip_with add32 h (fold_left round (zip round_constants (rev (schedule 48 (rev block)))) h).

(** [sha256.Sum256]: the 32 bytes of the hash. *)
Definition Sum256 (s : string) : list Z :=
  let ws := words (pad (bytes_of_string s)) in
  concat (map (big_endian 4) (fold_left compress (blocks (length ws) ws) initial_hash)).

(** [hex.EncodeToString], and [%x] of an array of bytes. *)
Fixpoint hex (bs : list Z) : string :=
  match bs with
  | [] => EmptyString
  | b :: bs => String (hex_digit (b / 16)) (String (hex_digit (b mod 16)) (hex bs))
  end.

Definition key_hash (apiKey : string) : string := hex (Sum256 apiKey).

(** The empty message, the standard's first example, and the seeded tenant. *)
Example key_hash_examples :
  (key_hash "", key_hash "abc", key_hash "sk-kenbun-test") =
  ("e3b0c44298fc1c149afbf4c8996fb92427ae41e4649b934ca495991b7852b855",
   "ba7816bf8f01cfea414140de5dae2223b00361a396177a9cb410ff61f20015ad",
   "2c76897a806f1188dcd9b074b958e6ba88c82fe3eed21d3db25977059ce29417")%string.
Proof. vm_compute. reflexivity. Qed.

(** ** The form of a hash *)

Lemma big_endian_bytes n z : length (big_endian n z) = n /\ Forall (fun b => 0 <= b < 256) (big_endian n z).
Proof.
  induction n as [|n [L F]]; simpl; [by split|]. split; [by rewrite L|]. constructor; [|done].
  change 255 with (Z.ones 8). rewrite Z.land_ones by lia. apply Z.mod_pos_bound. lia.
Qed.

Lemma round_length v kw : length v = 8%nat -> length (round v kw) = 8%nat.
Proof. destruct v as [|? [|? [|? [|? [|? [|? [|? [|? []]]]]]]]]; done. Qed.

Lemma rounds_length kws : forall v, length v = 8%nat -> length (fold_left round kws v) = 8%nat.
Proof. induction kws as [|kw kws IH]; intros v L; [done|]. simpl. by apply IH, round_length. Qed.

Lemma compress_length h block : length h = 8%nat -> length (compress h block) = 8%nat.
Proof. intros L. unfold compress. rewrite length_zip_with, rounds_length by done. lia. Qed.

Lemma compresses_length bs : forall h, length h = 8%nat -> length (fold_left compress bs h) = 8%nat.
Proof. induction bs as [|b bs IH]; intros h L; [done|]. simpl. by apply IH, compress_length. Qed.

Lemma concat_words h : length (concat (map (big_endian 4) h)) = (4 * length h)%nat /\
  Forall (fun b => 0 <= b < 256) (concat (map (big_endian 4) h)).
Proof.
  induction h as [|x h [L F]]; [by split|]. cbn [map concat]. destruct (big_endian_bytes 4 x) as [L' F'].
  rewrite length_app, L, L'. split; [simpl; lia|]. by apply Forall_app.
Qed.

Lemma Sum256_bytes s : length (Sum256 s) = 32%nat /\ Forall (fun b => 0 <= b < 256) (Sum256 s).
Proof.
  unfold Sum256. destruct (concat_words (fold_left compress (blocks (length (words (pad (bytes_of_string s))))
    (words (pad (bytes_of_string s)))) initial_hash)) as [L F].
  rewrite compresses_length in L by done. by split.
Qed.

Lemma hex_length bs : String.length (hex bs) = (2 * length bs)%nat.
Proof. induction bs as [|b bs IH]; cbn [hex String.length length]; lia. Qed.

(** Hexadecimal is injective on bytes. *)
Lemma hex_digit_inj m n : 0 <= m < 16 -> 0 <= n < 16 -> hex_digit m = hex_digit n -> m = n.
Proof.
  intros Hm Hn E%(f_equal code). unfold hex_digit in E.
  destruct (Z.ltb_spec m 10), (Z.ltb_spec n 10); rewrite !code_byte in E by lia; lia.
Qed.

Lemma hex_inj bs : forall cs, Forall (fun b => 0 <= b < 256) bs -> Forall (fun b => 0 <= b < 256) cs ->
  hex bs = hex cs -> bs = cs.
Proof.
  induction bs as [|b bs IH]; intros [|c cs] F G E; try discriminate; [done|].
  apply Forall_cons in F as [Fb F]. apply Forall_cons in G as [Gc G]. cbn [hex] in E. injection E as E1 E2 E.
  assert (b / 16 = c / 16) by (apply hex_digit_inj; [split; [apply Z.div_pos|apply Z.div_lt_upper_bound]; lia..|done]).
  assert (b mod 16 = c mod 16) by (apply hex_digit_inj; [apply Z.mod_pos_bound; lia..|done]).
  f_equal; [|by apply IH]. rewrite (Z.div_mod b 16), (Z.div_mod c 16) by lia. lia.
Qed.

(** Two keys have the same hash text only if SHA-256 collides on them. *)
Lemma key_hash_inj k k' : key_hash k = key_hash k' -> Sum256 k = Sum256 k'.
Proof. apply hex_inj; apply Sum256_bytes. Qed.

Lemma key_hash_length k : String.length (key_hash k) = 64%nat.
Proof. unfold key_hash. by rewrite hex_length, (proj1 (Sum256_bytes k)). Qed.
