(* ===== verification/Budget.v ===== *)
(** * Budget: from log events to tenant spending (internal/db/processor.go)

    The processor reads events from Kafka, adds their costs up per tenant in
    memory, and flushes the sums, as whole cents, to the tenant repository:
    every second, when a thousand tenants are pending, and when it stops.  The
    main loop is a step relation; its inputs say which case of the [select] is
    taken and, as Go leaves it open, in which order a flush ranges over the map. *)

From S2P Require Import Prelude Rounding Binary64 Float64 GoTypes Json Decode Provider Db Logging.
From Stdlib Require Import SpecFloat Sorting.Permutation.
Local Open Scope Z_scope.

Record BudgetProcessor := {
  flushInterval : Z;
  batchSize : Z;
  pending : gmap string float64
}.

Definition NewBudgetProcessor : BudgetProcessor :=
  {| flushInterval := 1 * Second; batchSize := 1000; pending := ∅ |}.

(** The fields of the [kafka.ReaderConfig] of the reader. *)
Record ReaderConfig := { Brokers : list string; rd_Topic : string; GroupID : string; MinBytes : Z; MaxBytes : Z }.

Definition reader_config (brokers : list string) (topic : string) : ReaderConfig :=
  {| Brokers := brokers; rd_Topic := topic; GroupID := "budget-processor"; MinBytes := 10000; MaxBytes := 10000000 |}.

Definition with_pending (m : gmap string float64) (p : BudgetProcessor) : BudgetProcessor :=
  {| flushInterval := flushInterval p; batchSize := batchSize p; pending := m |}.

Section processor.
Context {D : Type} `{TenantRepository D}.

(** The loop over the updates; the tenants whose update failed are printed. *)
Fixpoint apply_updates (ctx : context) (updates : list (string * float64)) (d : D) : list string * D :=
  match updates with
  | [] => ([], d)
  | (tenantID, cost) :: updates =>
      let '(err, d) := UpdateTenantSpend ctx tenantID (f_to_int cost) d in
      let '(failed, d) := apply_updates ctx updates d in
      (match err with Some _ => tenantID :: failed | None => failed end, d)
  end.

(** [order] lists the entries of the map in the order they are ranged over. *)
Definition flush (ctx : context) (order : list (string * float64)) (p : BudgetProcessor) (d : D)
    : list string * BudgetProcessor * D :=
  if decide (size (pending p) = 0%nat) then ([], p, d)
  else
    let '(failed, d) := apply_updates ctx order d in (failed, with_pending ∅ p, d).

(** [p.pending[event.TenantID] += event.CostCents] *)
Definition add_cost (event : LogEvent) (p : BudgetProcessor) : BudgetProcessor :=
  with_pending (<[TenantID event := fadd (default (f_of_int 0) (pending p !! TenantID event)) (CostCents event)]> (pending p)) p.

Definition shouldFlush (p : BudgetProcessor) : bool := batchSize p <=? Z.of_nat (size (pending p)).

(** The processor, the repository, and whether the loop still runs. *)
Record state := { proc : BudgetProcessor; repo : D; running : bool }.

Inductive input :=
  | ContextDone
  | Tick
  | ReadError
  | ReadMessage (value : string).

Definition flushed (ctx : context) (order : list (string * float64)) (running : bool) (p : BudgetProcessor) (d : D) : state :=
  let '(_, p, d) := flush ctx order p d in {| proc := p; repo := d; running := running |}.

Definition orders (p : BudgetProcessor) (order : list (string * float64)) : Prop :=
  Permutation order (map_to_list (pending p)).

(** One round of the loop of [Start]. *)
Inductive step (ctx : context) : input -> state -> state -> Prop :=
  | step_done s order : running s = true -> orders (proc s) order ->
      step ctx ContextDone s (flushed Background order false (proc s) (repo s))
  | step_tick s order : running s = true -> orders (proc s) order ->
      step ctx Tick s (flushed ctx order true (proc s) (repo s))
  | step_read_error s : running s = true -> step ctx ReadError s s
  | step_bad_message s value event : running s = true ->
      Codec.unmarshal_LogEvent value = (event, false) -> step ctx (ReadMessage value) s s
  | step_message s value event : running s = true ->
      Codec.unmarshal_LogEvent value = (event, true) -> shouldFlush (add_cost event (proc s)) = false ->
      step ctx (ReadMessage value) s {| proc := add_cost event (proc s); repo := repo s; running := true |}
  | step_message_flush s value event order : running s = true ->
      Codec.unmarshal_LogEvent value = (event, true) -> shouldFlush (add_cost event (proc s)) = true ->
      orders (add_cost event (proc s)) order ->
      step ctx (ReadMessage value) s (flushed ctx order true (add_cost event (proc s)) (repo s)).

Inductive steps (ctx : context) : list input -> state -> state -> Prop :=
  | steps_nil s : steps ctx [] s s
  | steps_snoc ins i s1 s2 s3 : steps ctx ins s1 s2 -> step ctx i s2 s3 -> steps ctx (ins ++ [i]) s1 s3.

Definition start (d : D) : state := {| proc := NewBudgetProcessor; repo := d; running := true |}.
End processor.
Arguments state : clear implicits.

(** ** One flush *)

(** The whole cents that an update of [order] bills to the tenant [id]. *)
Definition charge_of (failed : list string) (m : gmap string float64) (id : string) : Z :=
  if decide (id ∈ failed) then 0 else match m !! id with Some cost => f_to_int cost | None => 0 end.

Definition bill (f : string -> Z) (t : Tenant) : Tenant :=
  Db.Codec.set_SpentCents (SpentCents t + f (ID t)) t.

Lemma spend_bill id c t : spend id c t = bill (fun i => if decide (i = id) then c else 0) t.
Proof.
  unfold spend, bill, Db.Codec.set_SpentCents. case_decide; [done|]. rewrite Z.add_0_r. by destruct t.
Qed.

Lemma bill_bill f g t : bill g (bill f t) = bill (fun i => f i + g i) t.
Proof. unfold bill, Db.Codec.set_SpentCents; simpl. by rewrite Z.add_assoc. Qed.

Lemma bill_ext f g t : (forall i, f i = g i) -> bill f t = bill g t.
Proof. intros E. unfold bill. by rewrite E. Qed.

Lemma bill_zero f t : (forall i, f i = 0) -> bill f t = t.
Proof. intros E. unfold bill, Db.Codec.set_SpentCents. rewrite E, Z.add_0_r. by destruct t. Qed.

Lemma bill_zero_all f (ts : list Tenant) : (forall i, f i = 0) -> bill f <$> ts = ts.
Proof. intros E. rewrite <- (list_fmap_id ts) at 2. apply list_fmap_ext. intros. by apply bill_zero. Qed.

Lemma bill_bill_all f g (ts : list Tenant) : bill g <$> (bill f <$> ts) = bill (fun i => f i + g i) <$> ts.
Proof. rewrite <- list_fmap_compose. apply list_fmap_ext. intros. apply bill_bill. Qed.

Lemma bill_ext_all f g (ts : list Tenant) : (forall i, f i = g i) -> bill f <$> ts = bill g <$> ts.
Proof. intros E. apply list_fmap_ext. intros. by apply bill_ext. Qed.

Section laws.
Context {D : Type} `{TenantRepositoryLaws D}.

Lemma apply_updates_bill ctx updates : forall d : D, NoDup (fst <$> updates) ->
  let '(failed, d') := apply_updates ctx updates d in
  failed ⊆ fst <$> updates /\
  tenants d' = bill (charge_of failed (list_to_map updates)) <$> tenants d.
Proof.
  induction updates as [|[id cost] us IH]; intros d N; simpl.
  { split; [done|]. by rewrite bill_zero_all. }
  apply NoDup_cons in N as [Ni N].
  pose proof (Update_spends ctx id (f_to_int cost) d) as U. pose proof (Update_fails ctx id (f_to_int cost) d) as F.
  destruct (UpdateTenantSpend ctx id (f_to_int cost) d) as [err d1]; simpl in *.
  specialize (IH d1 N). destruct (apply_updates ctx us d1) as [failed d2]. destruct IH as [Sub ->].
  assert (M : list_to_map us !! id = (None : option float64)) by by apply not_elem_of_list_to_map.
  destruct err as [e|].
  - split; [set_solver|]. rewrite (F e eq_refl). apply bill_ext_all. intros i. unfold charge_of.
    rewrite lookup_insert. destruct (decide (id = i)) as [<-|Ne].
    + rewrite (decide_True (P := id ∈ id :: failed)) by by left. rewrite M. by case_decide.
    + by rewrite (decide_ext (i ∈ id :: failed) (i ∈ failed)) by set_solver.
  - split; [set_solver|]. rewrite (U eq_refl). rewrite (list_fmap_ext _ _ _ (fun _ t _ => spend_bill id (f_to_int cost) t)).
    rewrite bill_bill_all. apply bill_ext_all. intros i. unfold charge_of. rewrite lookup_insert.
    destruct (decide (id = i)) as [<-|Ne].
    + rewrite decide_True by done. rewrite !decide_False by set_solver. rewrite M. lia.
    + rewrite decide_False by done. lia.
Qed.

Lemma orders_map p order : orders p order ->
  NoDup (fst <$> order) /\ list_to_map order = pending p.
Proof.
  unfold orders. intros O. assert (N : NoDup (fst <$> order)) by (rewrite O; apply NoDup_fst_map_to_list).
  split; [done|]. rewrite <- (list_to_map_to_list (pending p)). by apply list_to_map_proper.
Qed.

(** What a flush does, whatever the order and whatever fails. *)
Lemma flush_effect ctx order p (d : D) : orders p order ->
  let '(failed, p', d') := flush ctx order p d in
  pending p' = ∅ /\ batchSize p' = batchSize p /\ (forall id, id ∈ failed -> is_Some (pending p !! id)) /\
  tenants d' = bill (charge_of failed (pending p)) <$> tenants d.
Proof.
  intros O. destruct (orders_map p order O) as [N E]. unfold flush. case_decide as Z0.
  - apply map_size_empty_inv in Z0. split; [done|]. split; [done|]. split; [by intros id I%elem_of_nil|].
    rewrite bill_zero_all; [done|]. intros i. unfold charge_of. rewrite Z0, lookup_empty. by case_decide.
  - pose proof (apply_updates_bill ctx order d N) as A. destruct (apply_updates ctx order d) as [failed d'].
    destruct A as [Sub A]. split; [done|]. split; [done|]. rewrite E in A. split; [|exact A].
    intros id I%Sub. rewrite <- E. apply list_elem_of_fmap in I as ([i c] & -> & I).
    exists c. by apply elem_of_list_to_map.
Qed.
End laws.

(** A flush empties the pending costs and bills every tenant whose update
    the repository accepted exactly the whole cents of its pending cost, once,
    and nobody else; in whatever order the map is ranged over.  The cost of a
    tenant whose update fails is dropped: it is neither billed nor kept. *)
Theorem flush_bills {D} `{TenantRepositoryLaws D} ctx order p (d : D) :
  orders p order ->
  let '(failed, p', d') := flush ctx order p d in
  pending p' = ∅ /\ length (tenants d') = length (tenants d) /\
  forall i t, tenants d !! i = Some t -> exists t', tenants d' !! i = Some t' /\ ID t' = ID t /\
    SpentCents t' = SpentCents t +
      (if decide (ID t ∈ failed) then 0 else match pending p !! ID t with Some cost => f_to_int cost | None => 0 end).
Proof.
  intros O. pose proof (flush_effect ctx order p d O) as E. destruct (flush ctx order p d) as [[failed p'] d'].
  destruct E as (E1 & _ & _ & ->). split; [done|]. split; [apply length_fmap|].
  intros i t L. exists (bill (charge_of failed (pending p)) t). by rewrite list_lookup_fmap, L.
Qed.

(** ** Executions of the loop *)

(** The costs of a tenant, in the order of its messages. *)
Definition costs_of (id : string) (ins : list input) : list float64 :=
  flat_map (fun i => match i with
    | ReadMessage value =>
        match Codec.unmarshal_LogEvent value with
        | (e, true) => if decide (TenantID e = id) then [CostCents e] else []
        | _ => []
        end
    | _ => []
    end) ins.

(** Costs added up in float64, from zero. *)
Definition fsum (l : list float64) : float64 := fold_left fadd l (f_of_int 0).

(** A batch of costs that was flushed, and whether the update was accepted. *)
Abbreviation batch := (bool * list float64)%type.

(** The whole cents of the batches that were billed. *)
Definition billed (batches : list batch) : Z := foldr (fun (b : batch) n => (if b.1 then f_to_int (fsum b.2) else 0) + n) 0 batches.

Lemma billed_snoc bs (b : batch) : billed (bs ++ [b]) = billed bs + (if b.1 then f_to_int (fsum b.2) else 0).
Proof. unfold billed. induction bs as [|x bs IH]; simpl; [lia|]. rewrite IH. lia. Qed.

(** The costs of the batches, in order. *)
Definition costs_in (batches : list batch) : list float64 := concat (snd <$> batches).

Definition pending_of (l : list float64) : option float64 := match l with [] => None | _ => Some (fsum l) end.

Lemma costs_of_snoc id ins i : costs_of id (ins ++ [i]) = costs_of id ins ++ costs_of id [i].
Proof. unfold costs_of. rewrite flat_map_app. done. Qed.

(** A repository that accepts every update. *)
Definition accepts {D} `{TenantRepository D} : Prop :=
  forall ctx id cents (d : D), fst (UpdateTenantSpend ctx id cents d) = None.
Arguments accepts D {_}.

Section accepted.
Context {D : Type} `{TenantRepositoryLaws D} (Ok : accepts D).

Lemma apply_updates_accepted ctx us : forall d : D, fst (apply_updates ctx us d) = [].
Proof using Ok.
  induction us as [|[id c] us IH]; intros d; [done|]. simpl. pose proof (Ok ctx id (f_to_int c) d) as E.
  destruct (UpdateTenantSpend _ _ _ _) as [err d1]. simpl in E. subst err.
  specialize (IH d1). by destruct (apply_updates ctx us d1).
Qed.

Lemma flush_accepted ctx order p (d : D) : fst (fst (flush ctx order p d)) = [].
Proof using Ok.
  unfold flush. case_decide; [done|]. pose proof (apply_updates_accepted ctx order d) as E.
  by destruct (apply_updates ctx order d).
Qed.
End accepted.

Section books.
Context {D : Type} `{TenantRepositoryLaws D} (ts0 : list Tenant).

(** The books, from the tenants [ts0] on: every cost of a tenant, in order, is in one closed batch or in
    the open one; the open batch is pending; the closed ones are billed, but
    for those whose update failed. *)
Record books (closed : string -> list batch) (opened : string -> list float64)
    (ins : list input) (p : BudgetProcessor) (d : D) : Prop := {
  books_costs id : costs_in (closed id) ++ opened id = costs_of id ins;
  books_pending id : pending p !! id = pending_of (opened id);
  books_billed : tenants d = bill (fun id => billed (closed id)) <$> ts0;
  books_accepted : accepts D -> forall id, Forall (fun b => b.1 = true) (closed id)
}.

(** Closing the open batches; the updates of [failed] have failed. *)
Definition close (failed : list string) (closed : string -> list batch) (opened : string -> list float64) (id : string) : list batch :=
  match opened id with [] => closed id | b => closed id ++ [(bool_decide (id ∉ failed), b)] end.

Lemma books_flush closed opened ins i ctx order p d : books closed opened ins p d -> orders p order ->
  (forall id, costs_of id [i] = []) ->
  let '(failed, p', d') := flush ctx order p d in
  books (close failed closed opened) (fun _ => []) (ins ++ [i]) p' d' /\ batchSize p' = batchSize p /\ pending p' = ∅.
Proof.
  intros [B1 B2 B3 B4] O Q. pose proof (flush_effect ctx order p d O) as E.
  assert (F : accepts D -> fst (fst (flush ctx order p d)) = []) by (intros Ok; by apply flush_accepted).
  destruct (flush ctx order p d) as [[failed p'] d']. simpl in F.
  destruct E as (E1 & E2 & _ & E3). split; [|by split]. constructor.
  - intros id. rewrite costs_of_snoc, Q, <- B1, !app_nil_r. unfold close, costs_in.
    destruct (opened id) as [|c l]; [by rewrite app_nil_r|]. rewrite fmap_app, concat_app. simpl. by rewrite app_nil_r.
  - intros id. rewrite E1. by rewrite lookup_empty.
  - rewrite E3, B3, bill_bill_all. apply bill_ext_all. intros id. unfold close, charge_of. rewrite B2. unfold pending_of.
    destruct (opened id) as [|c l]; [case_decide; lia|]. rewrite billed_snoc. cbn [fst snd]. case_bool_decide; case_decide; tauto || lia.
  - intros Ok id. rewrite (F Ok). unfold close. destruct (opened id); [by apply B4|]. apply Forall_app. split; [by apply B4|].
    constructor; [|done]. apply bool_decide_eq_true_2. apply not_elem_of_nil.
Qed.

Lemma books_add closed opened ins value event p d : books closed opened ins p d ->
  Codec.unmarshal_LogEvent value = (event, true) ->
  books closed (fun id => if decide (TenantID event = id) then opened id ++ [CostCents event] else opened id)
    (ins ++ [ReadMessage value]) (add_cost event p) d.
Proof.
  intros [B1 B2 B3 B4] U. constructor; [..|done|done].
  - intros id. rewrite costs_of_snoc, <- B1, <- app_assoc. f_equal. unfold costs_of. simpl. rewrite U, app_nil_r.
    case_decide; [done|by rewrite app_nil_r].
  - intros id. simpl. rewrite lookup_insert. case_decide as E; [subst id|apply B2].
    rewrite B2. unfold pending_of, fsum. destruct (opened (TenantID event)) as [|c l] eqn:L; [done|].
    simpl. by rewrite fold_left_app.
Qed.

Lemma books_skip closed opened ins i p d : books closed opened ins p d ->
  (forall id, costs_of id [i] = []) -> books closed opened (ins ++ [i]) p d.
Proof. intros [B1 B2 B3 B4] Q. constructor; [|done..]. intros id. by rewrite costs_of_snoc, Q, app_nil_r. Qed.

(** The invariant of the loop. *)
Definition kept (ins : list input) (s : state D) : Prop :=
  (exists closed opened, books closed opened ins (proc s) (repo s)) /\
  batchSize (proc s) = 1000 /\ Z.of_nat (size (pending (proc s))) < 1000.

Lemma kept_flush closed opened ins i ctx order running p d : books closed opened ins p d -> orders p order ->
  (forall id, costs_of id [i] = []) -> batchSize p = 1000 -> kept (ins ++ [i]) (flushed ctx order running p d).
Proof.
  intros B O Q N. pose proof (books_flush closed opened ins i ctx order p d B O Q) as F.
  unfold flushed. destruct (flush ctx order p d) as [[failed p'] d']. destruct F as (F & E & Z0).
  split; [by eexists _, _|]. simpl. split; [congruence|]. by rewrite Z0, map_size_empty.
Qed.

Lemma kept_step ctx ins i s s' : kept ins s -> step ctx i s s' -> kept (ins ++ [i]) s'.
Proof.
  intros ((closed & opened & B) & N & L) St. destruct St as [s order R O|s order R O|s R|s value event R U|s value event R U F|s value event order R U F O].
  - by apply (kept_flush closed opened).
  - by apply (kept_flush closed opened).
  - split; [exists closed, opened; by apply books_skip|done].
  - split; [exists closed, opened; apply books_skip; [done|]|done]. intros id. unfold costs_of. simpl. by rewrite U.
  - split; [eexists _, _; by apply books_add|]. simpl. split; [done|].
    unfold shouldFlush in F. simpl in F. rewrite N in F. by apply Z.leb_gt in F.
  - (* the flush after a message is a flush of the books with the message *)
    pose proof (books_add closed opened ins value event (proc s) (repo s) B U) as B'.
    destruct (kept_flush _ _ (ins ++ [ReadMessage value]) ReadError ctx order true (add_cost event (proc s)) (repo s) B' O)
      as ((cl & op & [C1 C2 C3 C4]) & K); [done|done|].
    split; [|exact K]. exists cl, op. constructor; [|done..].
    intros id. rewrite C1, costs_of_snoc. unfold costs_of at 2. simpl. by rewrite app_nil_r.
Qed.

Lemma kept_start d : tenants d = ts0 -> kept [] (start d).
Proof.
  intros E. split; [|split; [done|simpl; by rewrite map_size_empty]]. exists (fun _ => []), (fun _ => []). constructor.
  - done.
  - intros id. simpl. by rewrite lookup_empty.
  - by rewrite bill_zero_all.
  - by constructor.
Qed.

Lemma kept_steps ctx ins s s' : steps ctx ins s s' -> kept [] s -> kept ins s'.
Proof.
  induction 1 as [s|ins i s1 s2 s3 St IH Sp]; intros K; [done|]. eapply kept_step; [by apply IH|exact Sp].
Qed.

(** Only the tenants of the repository matter. *)
Lemma kept_tenants ins s s' : kept ins s -> proc s' = proc s -> tenants (repo s') = tenants (repo s) -> kept ins s'.
Proof.
  unfold kept. intros ((cl & op & [B1 B2 B3 B4]) & K) -> E. split; [|exact K].
  exists cl, op. constructor; [done..| |done]. by rewrite E.
Qed.
End books.

Lemma billed_nothing bs : costs_in bs = [] -> billed bs = 0.
Proof.
  unfold costs_in, billed. induction bs as [|[ok b] bs IH]; [done|]. simpl. intros [-> E]%app_eq_nil. rewrite (IH E).
  by destruct ok.
Qed.

(** A tenant that is created with nothing spent, and was never charged. *)
Lemma kept_created {D} `{TenantRepositoryLaws D} ts0 ins (s s' : state D) t : kept ts0 ins s -> proc s' = proc s ->
  tenants (repo s') = tenants (repo s) ++ [t] -> costs_of (ID t) ins = [] -> kept (ts0 ++ [t]) ins s'.
Proof.
  unfold kept. intros ((cl & op & [B1 B2 B3 B4]) & K) -> E Z0. split; [|exact K].
  exists cl, op. constructor; [done..| |done]. rewrite E, B3, fmap_app. f_equal. simpl. f_equal.
  pose proof (B1 (ID t)) as X. rewrite Z0 in X. apply app_eq_nil in X as [X _].
  unfold bill, Db.Codec.set_SpentCents. rewrite (billed_nothing _ X), Z.add_0_r. by destruct t.
Qed.

(** C6: The books of the processor balance, whatever fails: at any point of any
    execution the costs of each tenant, in the order of its messages, are split
    into batches and a rest; each tenant has been billed the sum over the
    batches whose update was accepted of the whole cents in the float64 sum of
    the batch; the rest is pending; fewer than a thousand tenants are; and
    when the repository accepts the updates every batch was billed. *)
Theorem Start_balances {D} `{TenantRepositoryLaws D} ctx ins (d0 : D) s :
  steps ctx ins (start d0) s ->
  (exists closed opened,
    (forall id, costs_in (closed id) ++ opened id = costs_of id ins) /\
    (forall id, pending (proc s) !! id = pending_of (opened id)) /\
    tenants (repo s) = bill (fun id => billed (closed id)) <$> tenants d0 /\
    (accepts D -> forall id, Forall (fun b => b.1 = true) (closed id))) /\
  Z.of_nat (size (pending (proc s))) < 1000.
Proof.
  intros St. destruct (kept_steps (tenants d0) ctx ins _ _ St (kept_start _ d0 eq_refl)) as ((cl & op & [B1 B2 B3 B4]) & N & L).
  split; [|done]. exists cl, op. by split.
Qed.

(** ** Fractions of a cent *)

Lemma truncation x : is_finite x = true -> 0 <= units x < 2 ^ 63 * one_u ->
  units x - one_u < f_to_int x * one_u <= units x.
Proof.
  intros F B. pose proof one_u_pos as U.
  rewrite f_to_int_units by (try done; unfold min_int64; nia).
  rewrite Z.quot_div_nonneg by lia.
  pose proof (Z.div_mod (units x) one_u ltac:(lia)). pose proof (Z.mod_pos_bound (units x) one_u U). lia.
Qed.

(** A flush never bills more than the pending cost, and less than a cent
    less: for every tenant that is billed, with a finite pending cost that an
    [int] can hold, the new spending lies between the exact cost minus one
    cent, excluded, and the cost. *)
Theorem flush_rounds_down {D} `{TenantRepositoryLaws D} ctx order p (d : D) i t cost :
  accepts D -> orders p order -> tenants d !! i = Some t -> pending p !! ID t = Some cost ->
  is_finite cost = true -> 0 <= units cost < 2 ^ 63 * one_u ->
  exists t', tenants (snd (flush ctx order p d)) !! i = Some t' /\
    units cost - one_u < (SpentCents t' - SpentCents t) * one_u <= units cost.
Proof.
  intros Ok O L P F B. pose proof (flush_effect ctx order p d O) as E.
  pose proof (flush_accepted Ok ctx order p d) as A. destruct (flush ctx order p d) as [[failed p'] d'].
  simpl in A. subst failed. destruct E as (_ & _ & _ & E). simpl. rewrite E, list_lookup_fmap, L. simpl.
  eexists. split; [done|]. simpl. unfold charge_of. rewrite decide_False by apply not_elem_of_nil. rewrite P.
  pose proof (truncation cost F B). lia.
Qed.

(** A message whose cost is a fraction of a cent. *)
Definition small_message (value : string) : Prop :=
  exists event, Codec.unmarshal_LogEvent value = (event, true) /\
    is_finite (CostCents event) = true /\ 0 <= units (CostCents event) < one_u.

Lemma small_charge x : is_finite x = true -> 0 <= units x < one_u -> f_to_int (fadd (f_of_int 0) x) = 0.
Proof.
  intros F B. pose proof (fadd_rounds (f_of_int 0) x eq_refl F) as R.
  replace (units (f_of_int 0)) with 0 in R by by vm_compute. rewrite Z.add_0_l in R.
  destruct R as [N E]. destruct (rounds_self x F) as [_ S]. rewrite <- S in E. pose proof one_u_lt_big.
  assert (F' : is_finite (fadd (f_of_int 0) x) = true) by (apply is_num_finite; [done|lia]).
  rewrite f_to_int_units by (try done; unfold min_int64; nia). rewrite E, Z.quot_div_nonneg by lia.
  by apply Z.div_small.
Qed.

Section small.
Context {D : Type} `{TenantRepositoryLaws D} (Ok : accepts D) (d0 : D).

Lemma small_flush ctx order running event (p : BudgetProcessor) d : pending p = ∅ -> tenants d = tenants d0 ->
  orders (add_cost event p) order -> is_finite (CostCents event) = true -> 0 <= units (CostCents event) < one_u ->
  let s := flushed ctx order running (add_cost event p) d in
  pending (proc s) = ∅ /\ tenants (repo s) = tenants d0.
Proof using Ok.
  intros P T O F B. pose proof (flush_effect ctx order (add_cost event p) d O) as E.
  pose proof (flush_accepted Ok ctx order (add_cost event p) d) as A. unfold flushed.
  destruct (flush ctx order (add_cost event p) d) as [[failed p'] d']. simpl in A. subst failed.
  destruct E as (E1 & _ & _ & E). split; [done|]. simpl. rewrite E, T. apply bill_zero_all. intros i.
  unfold charge_of. rewrite decide_False by apply not_elem_of_nil. simpl. rewrite P, lookup_insert.
  case_decide as D1; [|by rewrite lookup_empty]. rewrite lookup_empty. by apply small_charge.
Qed.

Lemma small_round ctx value s s1 s2 : small_message value -> pending (proc s) = ∅ -> tenants (repo s) = tenants d0 ->
  step ctx (ReadMessage value) s s1 -> step ctx Tick s1 s2 ->
  pending (proc s2) = ∅ /\ tenants (repo s2) = tenants d0.
Proof using Ok.
  intros (event & U & F & B) P T St1 St2.
  inversion St1 as [| | |? ? e R U'|? ? e R U' Sf|? ? e order R U' Sf O]; subst; rewrite U in U'; simplify_eq.
  - inversion St2; subst. by apply small_flush.
  - destruct (small_flush ctx order true e (proc s) (repo s) P T O F B) as [P' T'].
    inversion St2 as [|? order' R' O'| | | |]; subst.
    pose proof (flush_effect ctx order' _ (repo (flushed ctx order true (add_cost e (proc s)) (repo s))) O') as E.
    unfold flushed in *. set (f := flush ctx order (add_cost e (proc s)) (repo s)) in *.
    destruct f as [[fa pa] da]. simpl in *. destruct (flush ctx order' pa da) as [[fb pb] db].
    destruct E as (E1 & _ & _ & E). split; [done|]. simpl. rewrite E, T'. apply bill_zero_all.
    intros i. unfold charge_of. rewrite P', lookup_empty. by case_decide.
Qed.

Lemma steps_inv ctx ins i s (s' : state D) : steps ctx (ins ++ [i]) s s' ->
  exists s1, steps ctx ins s s1 /\ step ctx i s1 s'.
Proof.
  intros St. inversion St as [? E|ins' i' s1 s2 s3 St' Sp E]; subst; [by destruct ins|].
  apply app_inj_tail in E as [-> ->]. by exists s2.
Qed.

Lemma small_steps ctx values : Forall small_message values -> forall s,
  steps ctx (flat_map (fun v => [ReadMessage v; Tick]) values) (start d0) s ->
  pending (proc s) = ∅ /\ tenants (repo s) = tenants d0.
Proof using Ok.
  induction values as [|v vs IH] using rev_ind; intros Sm s St.
  - simpl in St. inversion St as [? E|? ? ? ? ? ? ? E]; subst; [done|]. by destruct ins.
  - apply Forall_app in Sm as [Sm Sv]. apply Forall_cons in Sv as [Sv _].
    rewrite flat_map_app in St. simpl in St.
    change [ReadMessage v; Tick] with ([ReadMessage v] ++ [Tick]) in St. rewrite app_assoc in St.
    apply steps_inv in St as (s2 & St & T2). apply steps_inv in St as (s1 & St & T1).
    destruct (IH Sm s1 St) as [P T]. by apply (small_round ctx v s1 s2 s).
Qed.
End small.

(** C33: A tenant that spends less than a cent a second is never billed: when each
    event, whose cost is a fraction of a cent, is followed by the flush of the
    next tick, no spending in the repository ever changes, however many events
    there are - a budget never runs out at that rate. *)
Theorem fractions_are_free {D} `{TenantRepositoryLaws D} ctx values (d0 : D) s :
  accepts D -> Forall small_message values ->
  steps ctx (flat_map (fun v => [ReadMessage v; Tick]) values) (start d0) s ->
  tenants (repo s) = tenants d0.
Proof. intros Ok Sm St. by apply (small_steps Ok d0 ctx values Sm s). Qed.

(** ** Scenarios *)

(** A repository in memory that is never down. *)
Record Ledger := { all : list Tenant }.

Module InMemory.

Definition by_hash (ctx : context) (hash : string) (l : Ledger) : result Tenant * Ledger :=
  (match list_find (fun t => APIKeyHash t = hash) (all l) with Some (_, t) => inl t | None => inr no_rows end, l).

Definition create (ctx : context) (name hash : string) (rpm budget : Z) (allow : option (list string)) (l : Ledger)
    : result Tenant * Ledger :=
  let t := {| ID := Itoa (Z.of_nat (length (all l))); TName := name; APIKeyHash := hash; RateLimitRPM := rpm;
              BudgetCents := budget; SpentCents := 0; ProviderAllowlist := allow; IsActive := true |} in
  (inl t, {| all := all l ++ [t] |}).

End InMemory.

#[export] Instance Ledger_Repository : TenantRepository Ledger := {|
  GetTenantByAPIKeyHash := InMemory.by_hash;
  GetAllTenants := fun ctx l => (inl (all l), l);
  CreateTenant := InMemory.create;
  UpdateTenantSpend := fun ctx id cents l => (None, {| all := spend id cents <$> all l |});
  Close := fun l => l
|}.

#[export] Instance Ledger_laws : TenantRepositoryLaws Ledger.
Proof.
  refine {| tenants := all |}; try done.
  - intros ctx hash d t. simpl. destruct (list_find _ _) as [[i t']|] eqn:E; [|done]. intros [= ->].
    apply list_find_Some in E as (L & E & _). split; [by eapply list_elem_of_lookup_2|done].
  - intros ctx d ts [= <-]. by apply Forall_forall.
  - intros ctx name hash rpm budget allow d t [= <-]. by repeat split.
Defined.

Lemma Ledger_accepts : accepts Ledger.
Proof. done. Qed.

Module Scenario.

Definition tenant (id : string) : Tenant :=
  {| ID := id; TName := id; APIKeyHash := id; RateLimitRPM := 60; BudgetCents := 1000; SpentCents := 7;
     ProviderAllowlist := None; IsActive := true |}.
Definition ledger : Ledger := {| all := [tenant "a"; tenant "b"]%string |}.

(** The processor of processor_test.go: 100.5 and 200 cents pending. *)
Definition processor : BudgetProcessor :=
  with_pending (list_to_map [("a", f_const 201 2); ("b", f_of_int 200)]%string) NewBudgetProcessor.
Definition order : list (string * float64) := map_to_list (pending processor).

(** An event of half a cent for tenant [a]. *)
Definition message : string := dq "{'tenant_id':'a','cost_cents':0.5}".
Definition after : state Ledger :=
  {| proc := add_cost (fst (Codec.unmarshal_LogEvent message)) NewBudgetProcessor; repo := ledger; running := true |}.

End Scenario.

(** The test of processor_test.go: 100 and 200 cents are billed. *)
Lemma flush_bills_witness :
  fmap SpentCents (all (snd (flush Background Scenario.order Scenario.processor Scenario.ledger))) = [107; 207] /\
  pending (snd (fst (flush Background Scenario.order Scenario.processor Scenario.ledger))) = ∅.
Proof.
  pose proof (flush_bills Background Scenario.order Scenario.processor Scenario.ledger (Permutation_refl _)) as H.
  assert (E : fmap SpentCents (all (snd (flush Background Scenario.order Scenario.processor Scenario.ledger))) = [107; 207])
    by by vm_compute.
  destruct (flush _ _ _ _) as [[failed p'] d']. split; [exact E|apply H].
Defined.

Lemma flush_rounds_down_witness :
  units (f_const 201 2) - one_u < 100 * one_u <= units (f_const 201 2).
Proof.
  assert (E : all (snd (flush Background Scenario.order Scenario.processor Scenario.ledger)) !! 0%nat
    = Some (Db.Codec.set_SpentCents 107 (Scenario.tenant "a"))) by by vm_compute.
  destruct (flush_rounds_down Background Scenario.order Scenario.processor Scenario.ledger 0 (Scenario.tenant "a") (f_const 201 2))
    as (t' & L & B); [apply Ledger_accepts|exact (Permutation_refl _)|reflexivity|reflexivity|reflexivity|split; by vm_compute|].
  change (all (snd (flush Background Scenario.order Scenario.processor Scenario.ledger)) !! 0%nat = Some t') in L.
  rewrite E in L. injection L as <-. exact B.
Defined.

Lemma step_message_scenario : steps Background [ReadMessage Scenario.message] (start Scenario.ledger) Scenario.after.
Proof.
  apply (steps_snoc _ [] _ _ (start Scenario.ledger)); [constructor|].
  by apply (step_message _ (start Scenario.ledger) _ (fst (Codec.unmarshal_LogEvent Scenario.message))).
Qed.

Lemma Start_balances_witness : exists closed opened,
  costs_in (closed "a") ++ opened "a" = [f_const 1 2] /\
  pending (proc Scenario.after) !! "a"%string = pending_of (opened "a").
Proof.
  destruct (Start_balances Background _ Scenario.ledger _ step_message_scenario)
    as ((closed & opened & C & P & _) & _). exists closed, opened. split; [|apply P].
  rewrite C. by vm_compute.
Defined.

Lemma fractions_are_free_witness :
  tenants (repo (flushed Background (map_to_list (pending (proc Scenario.after))) true (proc Scenario.after) Scenario.ledger))
  = tenants Scenario.ledger.
Proof.
  apply (fractions_are_free Background [Scenario.message] Scenario.ledger); [apply Ledger_accepts|..].
  - constructor; [|done]. eexists. split; [vm_compute; reflexivity|]. split; [done|]. by vm_compute.
  - apply (steps_snoc _ [ReadMessage Scenario.message] _ _ Scenario.after); [apply step_message_scenario|].
    apply (step_tick _ Scenario.after); [done|apply Permutation_refl].
Defined.
