(* ===== verification/Handler.v ===== *)
(** * Handler: one request through the gateway (internal/router/handler.go)

    [ServeHTTP] authenticates the request, enforces budget and rate limit,
    parses it, looks in the cache, selects a provider and dispatches.  The
    handler is written against the interfaces of its parts; its state is the
    state of all of them, the world the providers live in, and the response
    written so far.  A panic keeps what was done before it. *)

From Stdlib Require Import Ascii.
From S2P Require Import Prelude Rounding Binary64 Float64 GoTypes Utf8 Json FloatText Decode Sha256 Monitor GoSort Selector Provider RateLimit Resilient Cache Db Logging.
From Stdlib Require Import SpecFloat.
Local Open Scope Z_scope.

(** ** HTTP *)

Record http_request := {
  r_ctx : context;
  X_API_Key : string;
  r_Body : string
}.

(** [w_status] is 0 until the header is written. *)
Record response := {
  w_status : Z;
  w_header : gmap string string;
  w_body : string
}.

Definition empty_response : response := {| w_status := 0; w_header := ∅; w_body := "" |}.

Definition StatusOK : Z := 200.
Definition StatusBadRequest : Z := 400.
Definition StatusUnauthorized : Z := 401.
Definition StatusPaymentRequired : Z := 402.
Definition StatusTooManyRequests : Z := 429.
Definition StatusInternalServerError : Z := 500.
Definition StatusBadGateway : Z := 502.
Definition StatusServiceUnavailable : Z := 503.

Definition NL : string := String (byte 10) "".

Definition header_Set (k v : string) (w : response) : response :=
  {| w_status := w_status w; w_header := <[k := v]> (w_header w); w_body := w_body w |}.
Definition WriteHeader (code : Z) (w : response) : response :=
  if w_status w =? 0 then {| w_status := code; w_header := w_header w; w_body := w_body w |} else w.
Definition Write (s : string) (w : response) : response :=
  let w := WriteHeader StatusOK w in
  {| w_status := w_status w; w_header := w_header w; w_body := w_body w ++ s |}.

(** [http.Error] *)
Definition http_Error (msg : string) (code : Z) (w : response) : response :=
  Write (msg ++ NL) (WriteHeader code
    (header_Set "X-Content-Type-Options" "nosniff" (header_Set "Content-Type" "text/plain; charset=utf-8" w))).

(** ** Streams, as the handler sees them *)

(** What a [select] of the streaming loop yields: a chunk, the closing of the
    chunks, an error or nil from the errors, or the end of the request. *)
Inductive stream_event :=
  | EvChunk (c : ChatChunk)
  | EvChunksClosed
  | EvError (e : error)
  | EvNoError
  | EvDone.

(** [ChatStream], with the events that the loop will select, each with the
    instant at which it is selected. *)
Class Streamer (W P : Type) := {
  ChatStream : P -> context -> ChatRequest -> M W (list (Z * stream_event))
}.

(** ** Keys *)

(** [fmt.Sprintf("%v", messages)] *)
Fixpoint fmt_items (ms : list Message) : string :=
  let item m := ("{" ++ Role m ++ " " ++ Content m ++ "}")%string in
  match ms with
  | [] => ""
  | [m] => item m
  | m :: ms => item m ++ " " ++ fmt_items ms
  end%string.
Definition fmt_messages (ms : list Message) : string := ("[" ++ fmt_items ms ++ "]")%string.

Definition tenant_key (apiKey : string) : string := ("tenant:key:" ++ key_hash apiKey)%string.

Definition cache_key (tenant : Tenant) (req : ChatRequest) : string :=
  ("cache:" ++ ID tenant ++ ":" ++ req_Model req ++ ":" ++ hex (Sum256 (fmt_messages (messages_of req))))%string.

(** ** The state *)

Record gateway (W D L C Mon G : Type) := {
  world : W; db : D; limiter : L; cache : C; monitor : Mon; logger : G; writer : response
}.
Arguments world {W D L C Mon G} _.
Arguments db {W D L C Mon G} _.
Arguments limiter {W D L C Mon G} _.
Arguments cache {W D L C Mon G} _.
Arguments monitor {W D L C Mon G} _.
Arguments logger {W D L C Mon G} _.
Arguments writer {W D L C Mon G} _.

(** The handler is made of its parts; the world and the writer of a request are
    not its own.  The selector and the providers are arguments of the requests. *)
Definition NewGatewayHandler {W D L C Mon G} (w : W) (db : D) (limiter : L) (cache : C) (monitor : Mon) (logger : G)
    : gateway W D L C Mon G :=
  {| world := w; db := db; limiter := limiter; cache := cache; monitor := monitor; logger := logger; writer := empty_response |}.

Module Gateway.
Section gateway.
Context {W D L C Mon G P : Type}.
Context `{Clock W} `{TenantRepository D} `{Limiter L} `{Cache C} `{HealthMonitor Mon}
  `{ProviderSelector Mon P} `{Logger G} `{Provider W P} `{Streamer W P}.
Abbreviation gw := (gateway W D L C Mon G).


(** Operations of the parts. *)
Definition put_world (x : W) (s : gw) : gw := {| world := x; db := db s; limiter := limiter s; cache := cache s; monitor := monitor s; logger := logger s; writer := writer s |}.
Definition put_db (x : D) (s : gw) : gw := {| world := world s; db := x; limiter := limiter s; cache := cache s; monitor := monitor s; logger := logger s; writer := writer s |}.
Definition put_limiter (x : L) (s : gw) : gw := {| world := world s; db := db s; limiter := x; cache := cache s; monitor := monitor s; logger := logger s; writer := writer s |}.
Definition put_cache (x : C) (s : gw) : gw := {| world := world s; db := db s; limiter := limiter s; cache := x; monitor := monitor s; logger := logger s; writer := writer s |}.
Definition put_monitor (x : Mon) (s : gw) : gw := {| world := world s; db := db s; limiter := limiter s; cache := cache s; monitor := x; logger := logger s; writer := writer s |}.
Definition put_logger (x : G) (s : gw) : gw := {| world := world s; db := db s; limiter := limiter s; cache := cache s; monitor := monitor s; logger := x; writer := writer s |}.
Definition put_writer (x : response) (s : gw) : gw := {| world := world s; db := db s; limiter := limiter s; cache := cache s; monitor := monitor s; logger := logger s; writer := x |}.

Definition with_db {A} (op : D -> A * D) : M gw A := zoom db put_db op.
Definition with_limiter {A} (op : L -> A * L) : M gw A := zoom limiter put_limiter op.
Definition with_cache {A} (op : C -> A * C) : M gw A := zoom cache put_cache op.
Definition with_monitor {A} (op : Mon -> A * Mon) : M gw A := zoom monitor put_monitor op.
Definition with_logger {A} (op : G -> A * G) : M gw A := zoom logger put_logger op.
Definition respond (f : response -> response) : M gw unit := modify (fun s => put_writer (f (writer s)) s).

(** An operation of the world, which may panic. *)
Definition with_world {A} (op : M W A) : M gw A := fun s =>
  let '(o, w) := op (world s) in (o, put_world w s).

Definition time_Now : M gw Z := gets (fun s => now (world s)).

Definition fail_with (msg : string) (code : Z) : M gw unit := respond (http_Error msg code).

(** *** handleSync *)

Definition log_event (tenant : Tenant) (p : P) (resp : ChatResponse) (latency at_ : Z) : LogEvent :=
  {| RequestID := ""; TenantID := ID tenant; ev_Provider := Name p; ev_Model := resp_Model resp;
     ev_PromptTokens := resp_PromptTokens resp; ev_CompletionTokens := resp_CompletionTokens resp;
     CostCents := Cost.EstimateCost (resp_Model resp) (resp_PromptTokens resp) (resp_CompletionTokens resp);
     LatencyMs := Milliseconds latency; Status := 200; Cached := false; Timestamp := at_ |}.

Definition response_body (resp : ChatResponse) : string := marshal (Provider.Codec.json_Response resp).

Definition handleSync (r : http_request) (p : P) (req : ChatRequest) (tenant : Tenant) (start : Z) (cacheKey : string)
    : M gw unit :=
  resp ← with_world (Chat p (r_ctx r) req);
  t ← time_Now;
  let latency := Time_Sub t start in
  match resp with
  | inr err =>
      with_monitor (fun m => (tt, RecordError t (Name p) StatusInternalServerError m));;
      fail_with "provider_error" StatusBadGateway
  | inl resp =>
      with_monitor (fun m => (tt, RecordSuccess t (Name p) latency m));;
      t ← time_Now;
      let logEvent := log_event tenant p resp latency t in
      with_logger (Log (r_ctx r) logEvent);;
      with_logger (Broadcast (r_ctx r) logEvent);;
      let respBody := response_body resp in
      with_cache (Set_ t (r_ctx r) cacheKey (Some respBody) Hour);;
      respond (header_Set "Content-Type" "application/json");;
      respond (Write respBody)
  end.

(** *** handleStream *)

(** The loop, over the events that its [select] takes; [true] when it has
    returned.  [flushes] says whether the writer is an [http.Flusher]. *)
Fixpoint stream_loop (flushes : bool) (r : http_request) (p : P) (req : ChatRequest) (tenant : Tenant) (start : Z)
    (totalPromptTokens totalCompletionTokens : Z) (events : list (Z * stream_event)) : M gw bool :=
  match events with
  | [] => mret false
  | (t, EvChunksClosed) :: _ =>
      let logEvent :=
        {| RequestID := ""; TenantID := ID tenant; ev_Provider := Name p; ev_Model := req_Model req;
           ev_PromptTokens := totalPromptTokens; ev_CompletionTokens := totalCompletionTokens;
           CostCents := f_of_int 0; LatencyMs := Milliseconds (Time_Sub t start); Status := 200; Cached := false;
           Timestamp := t |} in
      with_logger (Log (r_ctx r) logEvent);;
      with_logger (Broadcast (r_ctx r) logEvent);;
      mret true
  | (t, EvChunk chunk) :: events =>
      respond (Write ("data: " ++ chunk_Content chunk ++ NL ++ NL));;
      (if flushes then mret tt else panics NilDereference);;
      stream_loop flushes r p req tenant start
        (wrap64 (totalPromptTokens + chunk_PromptTokens chunk))
        (wrap64 (totalCompletionTokens + chunk_CompletionTokens chunk)) events
  | (t, EvError err) :: _ =>
      with_monitor (fun m => (tt, RecordError t (Name p) 502 m));;
      mret true
  | (t, EvNoError) :: events =>
      stream_loop flushes r p req tenant start totalPromptTokens totalCompletionTokens events
  | (t, EvDone) :: _ => mret true
  end.

Definition handleStream (flushes : bool) (r : http_request) (p : P) (req : ChatRequest) (tenant : Tenant) (start : Z)
    : M gw bool :=
  events ← with_world (ChatStream p (r_ctx r) req);
  respond (header_Set "Content-Type" "text/event-stream");;
  respond (header_Set "Cache-Control" "no-cache");;
  respond (header_Set "Connection" "keep-alive");;
  stream_loop flushes r p req tenant start 0 0 events.

(** *** ServeHTTP *)

(** Step 1: the tenant of an API key, from the cache or the repository; the
    inner [None] is a nil pointer. *)
Definition lookup_tenant (r : http_request) : M gw (result (option Tenant)) :=
  let keyHash := key_hash (X_API_Key r) in
  let tenantKey := tenant_key (X_API_Key r) in
  t ← time_Now;
  got ← with_cache (Get t (r_ctx r) tenantKey);
  match fst got with
  | Some cached => mret (inl (Db.Codec.unmarshal_Tenant cached))
  | None =>
      found ← with_db (GetTenantByAPIKeyHash (r_ctx r) keyHash);
      match found with
      | inr err => mret (inr err)
      | inl tenant =>
          let tenantData := Db.Codec.marshal_Tenant tenant in
          t ← time_Now;
          with_cache (Set_ t (r_ctx r) tenantKey (Some tenantData) (5 * Minute));;
          mret (inl (Some tenant))
      end
  end.

Definition budget_exhausted (tenant : Tenant) : bool :=
  (0 <? BudgetCents tenant) && (BudgetCents tenant <=? SpentCents tenant).

(** Step 6: routing and dispatch; [true] when the handler has returned. *)
Definition route (providers : list P) (flushes : bool) (r : http_request) (chatReq : ChatRequest) (tenant : Tenant)
    (start : Z) (cacheKey : string) : M gw bool :=
  t ← time_Now;
  p ← with_monitor (Select t providers (default [] (ProviderAllowlist tenant)));
  match p with
  | None => fail_with "no_available_providers" StatusServiceUnavailable;; mret true
  | Some p =>
      if req_Stream chatReq then handleStream flushes r p chatReq tenant start
      else handleSync r p chatReq tenant start cacheKey;; mret true
  end.

(** Steps 4 and 5, for an admitted tenant: parsing and the cache. *)
Definition dispatch (providers : list P) (flushes : bool) (r : http_request) (tenant : Tenant) (start : Z) : M gw bool :=
  let '(chatReq, ok) := Decode (dec_struct Provider.Codec.Request_fields) (r_Body r) Provider.Codec.zero_Request in
  if negb ok then fail_with "invalid_request" StatusBadRequest;; mret true
  else
    let cacheKey := cache_key tenant chatReq in
    if req_Stream chatReq then route providers flushes r chatReq tenant start cacheKey
    else
      t ← time_Now;
      got ← with_cache (Get t (r_ctx r) cacheKey);
      match fst got with
      | Some cached =>
          respond (header_Set "Content-Type" "application/json");;
          respond (header_Set "X-Cache" "HIT");;
          respond (Write cached);;
          mret true
      | None => route providers flushes r chatReq tenant start cacheKey
      end.

(** Steps 2 and 3, then the rest. *)
Definition check_limits (providers : list P) (flushes : bool) (r : http_request) (tenant : Tenant) (start : Z) : M gw bool :=
  if budget_exhausted tenant then fail_with "budget_exhausted" StatusPaymentRequired;; mret true
  else
    t ← time_Now;
    rl ← with_limiter (Allow t t (ID tenant) (RateLimitRPM tenant));
    match rl with
    | inl res =>
        if Allowed res then dispatch providers flushes r tenant start
        else respond (header_Set "Retry-After" "1");; fail_with "rate_limited" StatusTooManyRequests;; mret true
    | inr _ => respond (header_Set "Retry-After" "1");; fail_with "rate_limited" StatusTooManyRequests;; mret true
    end.

(** [false] only for a stream whose events have not come to an end. *)
Definition ServeHTTP (providers : list P) (flushes : bool) (r : http_request) : M gw bool :=
  start ← time_Now;
  if decide (X_API_Key r = ""%string) then fail_with "missing_api_key" StatusUnauthorized;; mret true
  else
    found ← lookup_tenant r;
    match found with
    | inr _ => fail_with "invalid_api_key" StatusUnauthorized;; mret true
    | inl None => panics NilDereference
    | inl (Some tenant) => check_limits providers flushes r tenant start
    end.
End gateway.
End Gateway.

(** Symbolic execution of the handler: one step, and the state simplified. *)
Ltac step :=
  wp_step;
  cbn [world db limiter cache monitor logger writer fst snd
       Gateway.put_world Gateway.put_db Gateway.put_limiter Gateway.put_cache Gateway.put_monitor
       Gateway.put_logger Gateway.put_writer].

(** ** What the parts promise the handler *)

#[export] Instance provider_Named `{Provider W P} : Named P := Name.

(** A world that also keeps the providers called so far. *)
Abbreviation traced W P := (W * list P)%type.

#[export] Instance traced_Clock {W P} `{Clock W} : Clock (traced W P) := {|
  now := fun w => now w.1;
  wait_until := fun t w => (wait_until t w.1, w.2)
|}.

#[export] Instance traced_Provider {W P} `{Provider W P} : Provider (traced W P) P := {|
  Name := Name;
  Chat := fun p ctx req w => let '(o, w') := Chat p ctx req w.1 in (o, (w', w.2 ++ [p]))
|}.

#[export] Instance traced_Streamer {W P} `{Streamer W P} : Streamer (traced W P) P := {|
  ChatStream := fun p ctx req w => let '(o, w') := ChatStream p ctx req w.1 in (o, (w', w.2 ++ [p]))
|}.

Definition calls {W P D L C Mon G} (s : gateway (traced W P) D L C Mon G) : list P := (world s).2.

Module Laws.
Section laws.
Context {W D L C Mon G P : Type}.
Context `{Clock W} `{TenantRepositoryLaws D} `{Limiter L} `{CacheLaws C} `{HealthMonitorLaws Mon}
  `{Provider W P} `{Streamer W P} `{Logger G} `{ProviderSelector Mon P} `{!ProviderSelectorLaws Mon P}.
Context (Tn : Tenant -> Prop).
Abbreviation gw := (gateway (traced W P) D L C Mon G).
Implicit Types s : gw.

(** The tenants in the cache are filed under the hash of their key, and were
    once in the repository. *)
Definition cache_ok (c : C) : Prop := forall h data, stored c ("tenant:key:" ++ h) data ->
  exists t, Db.Codec.unmarshal_Tenant data = Some t /\ APIKeyHash t = h /\ Tn t.

Definition repo_ok (d : D) : Prop := Forall (fun t => valid_Tenant t /\ Tn t) (tenants d).

Lemma cache_ok_Get t ctx k c : cache_ok c -> cache_ok (snd (Get t ctx k c)).
Proof. intros Ok h data St. apply (Ok h), (Get_keeps t ctx k c), St. Qed.

Lemma cache_ok_Set_tenant t ctx k ttl tenant c : 0 < ttl -> cache_ok c -> valid_Tenant tenant -> Tn tenant ->
  APIKeyHash tenant = key_hash k ->
  cache_ok (snd (Set_ t ctx (tenant_key k) (Some (Db.Codec.marshal_Tenant tenant)) ttl c)).
Proof.
  intros Pos Ok V T E h data St. destruct (Set_keeps t ctx _ _ ttl c _ _ Pos St) as [X|[X ->]]; [by apply Ok|].
  exists tenant. split; [by apply unmarshal_marshal_Tenant|]. split; [|done].
  rewrite E. unfold tenant_key in X. by apply (inj (String.append "tenant:key:")) in X as ->.
Qed.

Lemma cache_ok_Set_response t ctx tenant req v ttl c : 0 < ttl -> cache_ok c ->
  cache_ok (snd (Set_ t ctx (cache_key tenant req) v ttl c)).
Proof.
  intros Pos Ok h data St. destruct (Set_keeps t ctx _ _ ttl c _ _ Pos St) as [X|[X _]]; [by apply Ok|].
  unfold cache_key in X. discriminate X.
Qed.

(** Looking a tenant up touches only the cache and the repository. *)
Definition looked_up s s' : Prop :=
  world s' = world s /\ limiter s' = limiter s /\ monitor s' = monitor s /\ logger s' = logger s /\
  writer s' = writer s /\ cache_ok (cache s') /\ tenants (db s') = tenants (db s).

Lemma lookup_tenant_wp r s : cache_ok (cache s) -> repo_ok (db s) ->
  wp (Gateway.lookup_tenant r) (fun o s' => looked_up s s' /\
    match o with
    | Returns (inl (Some t)) => APIKeyHash t = key_hash (X_API_Key r) /\ Tn t
    | Returns (inr _) => True
    | _ => False
    end) s.
Proof.
  intros Ok Rk. unfold Gateway.lookup_tenant, Gateway.time_Now, Gateway.with_cache, Gateway.with_db.
  do 4 step. set (g := Get _ _ _ _) in *.
  pose proof (cache_ok_Get (now (world s)) (r_ctx r) (tenant_key (X_API_Key r)) (cache s) Ok) as Ok1. fold g in Ok1.
  destruct (fst (fst g)) as [data|] eqn:E; cbn [after].
  - step. split; [by repeat split|].
    destruct (Ok (key_hash (X_API_Key r)) data (Get_stored _ _ _ _ _ E)) as (t & U & A & T). by rewrite U.
  - do 2 step. set (f := GetTenantByAPIKeyHash _ _ _) in *.
    pose proof (Find_keeps (r_ctx r) (key_hash (X_API_Key r)) (db s)) as K. fold f in K.
    pose proof (Find_found (r_ctx r) (key_hash (X_API_Key r)) (db s)) as F. fold f in F.
    destruct (fst f) as [tenant|err]; cbn [after].
    + destruct (F tenant eq_refl) as [I A]. 
      assert (V : valid_Tenant tenant /\ Tn tenant) by (revert Rk; unfold repo_ok; rewrite Forall_forall; auto).
      do 5 step. split; [|split; [done|apply V]]. repeat split; [|exact K].
      apply cache_ok_Set_tenant; try done; apply V.
    + step. by repeat split.
Qed.

(** Providers that do not panic, and a writer that can be flushed. *)
Definition calm (flushes : bool) : Prop :=
  flushes = true /\ (forall (p : P) ctx req (w : W), exists r w', Chat p ctx req w = (Returns r, w')) /\
  (forall (p : P) ctx req (w : W), exists es w', ChatStream p ctx req w = (Returns es, w')).

Definition returns {A} (o : outcome A) : Prop := exists a, o = Returns a.

Lemma stream_loop_wp flushes r p req tenant start events : forall tp tc s,
  wp (Gateway.stream_loop flushes r p req tenant start tp tc events)
     (fun o s' => world s' = world s /\ cache s' = cache s /\ db s' = db s /\ (flushes = true -> returns o)) s.
Proof.
  unfold returns. induction events as [|[t ev] events IH]; intros tp tc s; cbn [Gateway.stream_loop].
  { step. eauto 6. }
  unfold Gateway.respond, Gateway.with_logger, Gateway.with_monitor. destruct ev as [c| |e| |].
  - do 3 step. destruct flushes.
    + step. eapply wp_mono; [apply IH|]. intros o s' X. exact X.
    + step. by repeat split.
  - do 5 step. eauto 6.
  - do 3 step. eauto 6.
  - apply IH.
  - step. eauto 6.
Qed.

Lemma handleStream_wp flushes r p req tenant start s : cache_ok (cache s) ->
  wp (Gateway.handleStream flushes r p req tenant start)
     (fun o s' => calls s' = calls s ++ [p] /\ cache_ok (cache s') /\ db s' = db s /\ (calm flushes -> returns o)) s.
Proof.
  intros Ok. unfold Gateway.handleStream, Gateway.with_world. apply wp_bind. unfold wp at 1. simpl.
  destruct (ChatStream p (r_ctx r) req (world s).1) as [[evs|e] w] eqn:E; simpl.
  - unfold Gateway.respond. do 6 step. eapply wp_mono; [apply stream_loop_wp|].
    intros o s' (E1 & E2 & E3 & R). unfold calls. rewrite E1, E2, E3. split; [done|]. split; [done|]. split; [done|].
    intros [F _]. by apply R.
  - split; [done|]. split; [done|]. split; [done|]. intros (_ & _ & Cs).
    destruct (Cs p (r_ctx r) req (world s).1) as (es & w' & X). congruence.
Qed.

Lemma handleSync_wp r p req tenant start s : cache_ok (cache s) ->
  wp (Gateway.handleSync r p req tenant start (cache_key tenant req))
     (fun o s' => calls s' = calls s ++ [p] /\ cache_ok (cache s') /\ db s' = db s /\ (calm true -> returns o)) s.
Proof.
  intros Ok. unfold Gateway.handleSync, Gateway.with_world. apply wp_bind. unfold wp at 1. simpl.
  destruct (Chat p (r_ctx r) req (world s).1) as [[resp|e] w] eqn:E; simpl.
  - unfold Gateway.time_Now, Gateway.fail_with, Gateway.respond, Gateway.with_monitor, Gateway.with_logger, Gateway.with_cache.
    do 2 step. unfold returns. destruct resp as [resp|err].
    + do 12 step. split; [done|]. split; [by apply cache_ok_Set_response|]. eauto.
    + do 3 step. eauto.
  - split; [done|]. split; [done|]. split; [done|]. intros (_ & Cs & _).
    destruct (Cs p (r_ctx r) req (world s).1) as (es & w' & X). congruence.
Qed.

(** Why an upstream may be called for a request: whose it is, and what was
    checked. *)
Record entitled (providers : list P) (r : http_request) s (tenant : Tenant) (p : P) : Prop := {
  ent_key : X_API_Key r <> ""%string;
  ent_hash : APIKeyHash tenant = key_hash (X_API_Key r);
  ent_known : Tn tenant;
  ent_budget : BudgetCents tenant <= 0 \/ SpentCents tenant < BudgetCents tenant;
  ent_rate : exists res, fst (Allow (now (world s)) (now (world s)) (ID tenant) (RateLimitRPM tenant) (limiter s)) = inl res
               /\ Allowed res = true;
  ent_configured : p ∈ providers;
  ent_allowed : default [] (ProviderAllowlist tenant) = [] \/ Name p ∈ default [] (ProviderAllowlist tenant);
  ent_healthy : observe (monitor s) (Name p) <> StateUnhealthy
}.

(** At most one upstream is called, and only when the selector chose it. *)
Definition dispatched (flushes : bool) (providers : list P) (tenant : Tenant) s (o : outcome bool) s' : Prop :=
  cache_ok (cache s') /\ db s' = db s /\ (calm flushes -> returns o) /\
  (calls s' = calls s \/ exists p, calls s' = calls s ++ [p] /\ p ∈ providers /\
     (default [] (ProviderAllowlist tenant) = [] \/ Name p ∈ default [] (ProviderAllowlist tenant)) /\
     observe (monitor s) (Name p) <> StateUnhealthy).

Lemma not_dispatched flushes providers tenant s b s' : cache_ok (cache s') -> db s' = db s -> calls s' = calls s ->
  dispatched flushes providers tenant s (Returns b) s'.
Proof. intros. split; [done|]. split; [done|]. split; [by exists b|by left]. Qed.

Lemma route_wp providers flushes r req tenant start s : cache_ok (cache s) ->
  wp (Gateway.route providers flushes r req tenant start (cache_key tenant req))
     (dispatched flushes providers tenant s) s.
Proof.
  intros Ok. unfold Gateway.route, Gateway.time_Now, Gateway.with_monitor. do 4 step.
  pose proof (Select_chosen (now (world s)) providers (default [] (ProviderAllowlist tenant)) (monitor s)) as Ch.
  destruct (Select _ _ _ _) as [[p|] m]; cbn [fst snd after] in *.
  - destruct (Ch p eq_refl) as (I & A & Hl).
    assert (X : forall o s', calls s' = calls s ++ [p] -> cache_ok (cache s') -> db s' = db s ->
      (calm flushes -> returns o) -> dispatched flushes providers tenant s o s')
      by (intros o s' E Ok' Ed R; do 3 (split; [done|]); right; exists p; by repeat split).
    destruct (req_Stream req).
    + eapply wp_mono; [by apply handleStream_wp|]. intros o s' (E & Ok' & Ed & R). by apply X.
    + apply wp_bind. eapply wp_mono; [by apply handleSync_wp|]. intros o s' (E & Ok' & Ed & R).
      assert (R' : calm flushes -> returns o) by (intros Cf; apply R; split; [done|apply Cf]).
      destruct o; cbn [after]; [step; apply X; try done; by eexists|].
      apply X; try done. intros Cf. destruct (R' Cf); discriminate.
  - unfold Gateway.fail_with, Gateway.respond. do 3 step. by apply not_dispatched.
Qed.

Lemma dispatch_wp providers flushes r tenant start s : cache_ok (cache s) ->
  wp (Gateway.dispatch providers flushes r tenant start) (dispatched flushes providers tenant s) s.
Proof.
  intros Ok. unfold Gateway.dispatch. destruct (Decode _ _ _) as [req ok].
  unfold Gateway.time_Now, Gateway.fail_with, Gateway.respond, Gateway.with_cache.
  destruct ok; cbn [negb]; [|do 3 step; by apply not_dispatched].
  destruct (req_Stream req); [by apply route_wp|]. do 4 step.
  pose proof (cache_ok_Get (now (world s)) (r_ctx r) (cache_key tenant req) (cache s) Ok) as Ok1.
  destruct (fst (fst _)) as [data|].
  - do 7 step. by apply not_dispatched.
  - eapply wp_mono; [by apply route_wp|]. done.
Qed.

Lemma not_exhausted tenant : Gateway.budget_exhausted tenant = false ->
  BudgetCents tenant <= 0 \/ SpentCents tenant < BudgetCents tenant.
Proof. unfold Gateway.budget_exhausted. lia. Qed.

(** Everything [ServeHTTP] promises for one request. *)
Definition served (flushes : bool) (providers : list P) (r : http_request) s (o : outcome bool) s' : Prop :=
  cache_ok (cache s') /\ tenants (db s') = tenants (db s) /\ (calm flushes -> returns o) /\
  (calls s' = calls s \/ exists p tenant, calls s' = calls s ++ [p] /\ entitled providers r s tenant p).

Lemma not_served flushes providers r s s1 b s' : looked_up s s1 -> cache s' = cache s1 -> db s' = db s1 ->
  world s' = world s1 -> served flushes providers r s (Returns b) s'.
Proof.
  intros (E1 & _ & _ & _ & _ & Ok & E2) Ec Ed Ew. unfold served, calls. rewrite Ec, Ed, Ew, E1.
  split; [done|]. split; [done|]. split; [by exists b|by left].
Qed.

Lemma ServeHTTP_wp providers flushes r s : cache_ok (cache s) -> repo_ok (db s) ->
  wp (Gateway.ServeHTTP providers flushes r) (served flushes providers r s) s.
Proof.
  intros Ok Rk. unfold Gateway.ServeHTTP, Gateway.time_Now. do 2 step.
  unfold Gateway.fail_with, Gateway.respond, Gateway.with_limiter.
  case_decide as K; [do 3 step; apply (not_served _ _ _ _ s); by repeat split|].
  step. eapply wp_mono; [by apply lookup_tenant_wp|]. intros o s1 [Lk Ho].
  destruct o as [[[tenant|]|err]|]; [|done| |done]; cbn [after]; [|do 3 step; by apply (not_served _ _ _ _ s1)].
  destruct Ho as [Hh Ht]. unfold Gateway.check_limits, Gateway.time_Now, Gateway.fail_with, Gateway.respond, Gateway.with_limiter.
  destruct (Gateway.budget_exhausted tenant) eqn:B; [do 3 step; by apply (not_served _ _ _ _ s1)|].
  pose proof Lk as (E1 & E2 & E3 & _ & _ & Ok1 & E6). do 4 step. rewrite E1, E2. set (rl := Allow _ _ _ _ _) in *.
  destruct (fst rl) as [res|err] eqn:R; [destruct (Allowed res) eqn:A|];
    [|do 5 step; by apply (not_served _ _ _ _ s1)..].
  eapply wp_mono; [by apply dispatch_wp|]. intros o s' (Ok2 & Ed & Rt & Di). split; [done|].
  split; [by rewrite Ed|]. split; [done|]. unfold calls in *. cbn [world monitor Gateway.put_limiter] in Di. rewrite E1, E3 in Di.
  destruct Di as [Di|(p & Di & I & Al & Hl)]; [by left|right]. exists p, tenant. split; [done|].
  constructor; try done; [by apply not_exhausted|]. exists res. by split.
Qed.

(** C1: No upstream is called without a reason.  For every request and every
    state of the parts, whatever they are as long as they keep their promises,
    at most one provider is called, and only if the request carries the API
    key of a tenant that the repository knows or knew, whose budget is not
    spent, which the rate limiter admits now, and the provider is configured,
    allowed to the tenant and not reported unhealthy.  The invariant of the
    cache - tenants are filed under the hash of their key - is kept. *)
Theorem ServeHTTP_entitled providers flushes r s o s' :
  cache_ok (cache s) -> repo_ok (db s) -> calls s = [] ->
  Gateway.ServeHTTP providers flushes r s = (o, s') ->
  cache_ok (cache s') /\
  (calls s' = [] \/ exists p tenant, calls s' = [p] /\ entitled providers r s tenant p).
Proof.
  intros Ok Rk E X. destruct (wp_run _ _ _ _ _ (ServeHTTP_wp providers flushes r s Ok Rk) X) as (Y & _ & _ & Z).
  by rewrite E in Z.
Qed.

(** ** Sequences of requests *)

(** The states of a gateway that serves requests one after the other, each with
    a fresh response, while its surroundings - the repository, the clock, the
    limiter, the monitor - change in any way that keeps the tenants valid. *)
Inductive reach (providers : list P) : gw -> Prop :=
  | reach_start s : (forall k data, ~ stored (cache s) k data) -> repo_ok (db s) -> reach providers s
  | reach_request s r o s' : reach providers s ->
      Gateway.ServeHTTP providers true r (Gateway.put_writer empty_response s) = (o, s') -> reach providers s'
  | reach_environment s s' : reach providers s -> cache s' = cache s -> repo_ok (db s') -> reach providers s'.

Lemma reach_ok providers s : reach providers s -> cache_ok (cache s) /\ repo_ok (db s).
Proof.
  induction 1 as [s No Rk|s r o s' _ [Ok Rk] X|s s' _ [Ok _] E Rk].
  - split; [|done]. intros h data St. by destruct (No _ _ St).
  - destruct (wp_run _ _ _ _ _ (ServeHTTP_wp providers true r (Gateway.put_writer empty_response s) Ok Rk) X) as (Y & Z & _).
    split; [done|]. unfold repo_ok. by rewrite Z.
  - by rewrite E.
Qed.

(** C4: A gateway whose providers do not panic does not panic either: in any
    sequence of requests, from an empty cache and over changing surroundings,
    [ServeHTTP] returns - in particular the tenant it dereferences is never
    nil, because only marshalled tenants are cached under tenant keys. *)
Theorem ServeHTTP_never_panics providers r s o s' :
  calm true -> reach providers s ->
  Gateway.ServeHTTP providers true r (Gateway.put_writer empty_response s) = (o, s') -> returns o.
Proof.
  intros Cm Rs X. destruct (reach_ok providers s Rs) as [Ok Rk].
  by destruct (wp_run _ _ _ _ _ (ServeHTTP_wp providers true r (Gateway.put_writer empty_response s) Ok Rk) X) as (_ & _ & Rt & _); auto.
Qed.
End laws.
End Laws.
