(* ===== verification/Stages.v ===== *)
(** * Stages: how far a request gets (internal/router/handler.go)

    [ServeHTTP] checks in a fixed order: the key, the tenant, its budget, the
    rate limit, the text of the request, the cache, the selection.  [refusal]
    says which check failed - those before it passed - and in which state; and
    [stage] how every request leaves the checks.  The theorems of Requests and
    System about whole requests start from [ServeHTTP_stage]. *)

From S2P Require Import Prelude Rounding Binary64 Float64 GoTypes Json Decode Sha256 Monitor GoSort Selector Provider RateLimit Resilient Cache Db Logging Handler.
Local Open Scope Z_scope.

Module Stages.
Section stages.
Context {W D L C Mon G P : Type}.
Context `{Clock W} `{TenantRepository D} `{Limiter L} `{Cache C} `{HealthMonitor Mon}
  `{Provider W P} `{Streamer W P} `{Logger G} `{ProviderSelector Mon P}.
Abbreviation gw := (gateway W D L C Mon G).
Implicit Types s : gw.

(** ** What each check asks *)

(** The tenant [t] is found, in the state [s1]. *)
Definition found (r : http_request) s (t : Tenant) s1 : Prop :=
  Gateway.lookup_tenant r s = (Returns (inl (Some t)), s1).
Definition known (r : http_request) s (t : Tenant) s1 : Prop := X_API_Key r <> ""%string /\ found r s t s1.

Definition allowance s (t : Tenant) : result Result * L :=
  Allow (now (world s)) (now (world s)) (ID t) (RateLimitRPM t) (limiter s).
Definition granted s (t : Tenant) : Prop := exists res, fst (allowance s t) = inl res /\ Allowed res = true.
Definition admitted s (t : Tenant) : Prop := Gateway.budget_exhausted t = false /\ granted s t.

Definition decoding (r : http_request) : ChatRequest * bool :=
  Decode (dec_struct Provider.Codec.Request_fields) (r_Body r) Provider.Codec.zero_Request.

Definition cached_answer (r : http_request) (req : ChatRequest) s (t : Tenant) s1 : (bytes * option error) * C :=
  Get (now (world s)) (r_ctx r) (cache_key t req) (cache s1).
Definition not_cached (r : http_request) (req : ChatRequest) s (t : Tenant) s1 : Prop :=
  req_Stream req = true \/ fst (fst (cached_answer r req s t s1)) = None.

Definition selection (providers : list P) s (t : Tenant) : option P * Mon :=
  Select (now (world s)) providers (default [] (ProviderAllowlist t)) (monitor s).

(** ** The states between the checks *)

Definition limited s (t : Tenant) s1 : gw := Gateway.put_limiter (snd (allowance s t)) s1.
Definition asked (r : http_request) (req : ChatRequest) s (t : Tenant) s1 : gw :=
  if req_Stream req then limited s t s1 else Gateway.put_cache (snd (cached_answer r req s t s1)) (limited s t s1).
Definition selected (providers : list P) (r : http_request) (req : ChatRequest) s (t : Tenant) s1 : gw :=
  Gateway.put_monitor (snd (selection providers s t)) (asked r req s t s1).

Definition json_type : response -> response := header_Set "Content-Type" "application/json".
Definition hit_response (data : string) (w : response) : response := Write data (header_Set "X-Cache" "HIT" (json_type w)).

(** ** Refusals *)

(** The first check that fails: the status and the text of the response, the
    header that is set, and the state, before the response is written. *)
Inductive refusal (providers : list P) (r : http_request) s : Z -> string -> (response -> response) -> gw -> Prop :=
  | no_key : X_API_Key r = ""%string -> refusal providers r s StatusUnauthorized "missing_api_key" id s
  | unknown_key err s1 : X_API_Key r <> ""%string -> Gateway.lookup_tenant r s = (Returns (inr err), s1) ->
      refusal providers r s StatusUnauthorized "invalid_api_key" id s1
  | no_budget t s1 : known r s t s1 -> 0 < BudgetCents t <= SpentCents t ->
      refusal providers r s StatusPaymentRequired "budget_exhausted" id s1
  | rate_limited t s1 : known r s t s1 -> ~ 0 < BudgetCents t <= SpentCents t -> ~ granted s t ->
      refusal providers r s StatusTooManyRequests "rate_limited" (header_Set "Retry-After" "1") (limited s t s1)
  | malformed t s1 : known r s t s1 -> admitted s t -> snd (decoding r) = false ->
      refusal providers r s StatusBadRequest "invalid_request" id (limited s t s1)
  | no_provider t s1 req : known r s t s1 -> admitted s t -> decoding r = (req, true) -> not_cached r req s t s1 ->
      fst (selection providers s t) = None ->
      refusal providers r s StatusServiceUnavailable "no_available_providers" id (selected providers r req s t s1).

Definition refused (msg : string) (code : Z) (hdr : response -> response) s : gw :=
  Gateway.put_writer (http_Error msg code (hdr (writer s))) s.

(** ** All requests *)

(** What is done with the provider that was selected. *)
Definition handle (flushes : bool) (r : http_request) (req : ChatRequest) (p : P) (t : Tenant) (start : Z) : M gw bool :=
  if req_Stream req then Gateway.handleStream flushes r p req t start
  else Gateway.handleSync r p req t start (cache_key t req);; mret true.

Inductive stage (providers : list P) (flushes : bool) (r : http_request) s : outcome bool -> gw -> Prop :=
  | stage_refused code msg hdr s0 : refusal providers r s code msg hdr s0 ->
      stage providers flushes r s (Returns true) (refused msg code hdr s0)
  | stage_nil_tenant s1 : X_API_Key r <> ""%string -> Gateway.lookup_tenant r s = (Returns (inl None), s1) ->
      stage providers flushes r s (Panics NilDereference) s1
  | stage_hit t s1 req data : known r s t s1 -> admitted s t -> decoding r = (req, true) -> req_Stream req = false ->
      fst (fst (cached_answer r req s t s1)) = Some data ->
      stage providers flushes r s (Returns true)
        (Gateway.put_writer (hit_response data (writer s1)) (asked r req s t s1))
  | stage_dispatched t s1 req p o s' : known r s t s1 -> admitted s t -> decoding r = (req, true) -> not_cached r req s t s1 ->
      fst (selection providers s t) = Some p ->
      handle flushes r req p t (now (world s)) (selected providers r req s t s1) = (o, s') ->
      stage providers flushes r s o s'.

Lemma exhausted t : Gateway.budget_exhausted t = true <-> 0 < BudgetCents t <= SpentCents t.
Proof. unfold Gateway.budget_exhausted. lia. Qed.

Lemma within_budget t : ~ 0 < BudgetCents t <= SpentCents t -> Gateway.budget_exhausted t = false.
Proof. intros N. apply not_true_is_false. by rewrite exhausted. Qed.

(** Looking a tenant up touches only the cache and the repository. *)
Lemma lookup_frame r s : wp (Gateway.lookup_tenant r) (fun _ s' =>
  world s' = world s /\ limiter s' = limiter s /\ monitor s' = monitor s /\ logger s' = logger s /\ writer s' = writer s) s.
Proof.
  unfold Gateway.lookup_tenant, Gateway.time_Now, Gateway.with_cache, Gateway.with_db. do 4 step.
  destruct (fst (fst _)); [by step|]. do 2 step. destruct (fst _); [do 5 step|step]; done.
Qed.

Lemma lookup_returns r s : wp (Gateway.lookup_tenant r) (fun o _ => exists a, o = Returns a) s.
Proof.
  unfold Gateway.lookup_tenant, Gateway.time_Now, Gateway.with_cache, Gateway.with_db. do 4 step.
  destruct (fst (fst _)); [step; eauto|]. do 2 step. destruct (fst _); [do 5 step|step]; eauto.
Qed.

(** *** From the request to the tenant *)

Lemma wp_unknown providers flushes r s err s1 Q : X_API_Key r <> ""%string -> Gateway.lookup_tenant r s = (Returns (inr err), s1) ->
  Q (Returns true) (refused "invalid_api_key" StatusUnauthorized id s1) -> wp (Gateway.ServeHTTP providers flushes r) Q s.
Proof.
  intros K Lk HQ. unfold Gateway.ServeHTTP, Gateway.time_Now, Gateway.fail_with, Gateway.respond. do 2 step.
  rewrite decide_False by done. step. unfold wp at 1. rewrite Lk. cbn [fst snd after]. by do 3 step.
Qed.

Lemma wp_no_key providers flushes r s Q : X_API_Key r = ""%string ->
  Q (Returns true) (refused "missing_api_key" StatusUnauthorized id s) -> wp (Gateway.ServeHTTP providers flushes r) Q s.
Proof.
  intros K HQ. unfold Gateway.ServeHTTP, Gateway.time_Now, Gateway.fail_with, Gateway.respond. do 2 step.
  rewrite decide_True by done. by do 3 step.
Qed.

Lemma wp_known providers flushes r s t s1 Q : known r s t s1 ->
  wp (Gateway.check_limits providers flushes r t (now (world s))) Q s1 -> wp (Gateway.ServeHTTP providers flushes r) Q s.
Proof.
  intros [K F] HQ. unfold Gateway.ServeHTTP, Gateway.time_Now. do 2 step.
  rewrite decide_False by done. step. unfold wp at 1. rewrite F. exact HQ.
Qed.

(** *** From the tenant to the provider *)

Lemma wp_no_budget providers flushes r t start s1 Q : 0 < BudgetCents t <= SpentCents t ->
  Q (Returns true) (refused "budget_exhausted" StatusPaymentRequired id s1) ->
  wp (Gateway.check_limits providers flushes r t start) Q s1.
Proof.
  intros B HQ. unfold Gateway.check_limits, Gateway.fail_with, Gateway.respond.
  rewrite (proj2 (exhausted t) B). by do 3 step.
Qed.

Section limits.
Context (r : http_request) (s : gw) (t : Tenant) (s1 : gw) (F : found r s t s1).

Lemma found_frame : world s1 = world s /\ limiter s1 = limiter s /\ monitor s1 = monitor s /\ logger s1 = logger s /\ writer s1 = writer s.
Proof using F. exact (wp_run _ _ _ _ _ (lookup_frame r s) F). Qed.

Lemma wp_rate_limited providers flushes Q : Gateway.budget_exhausted t = false -> ~ granted s t ->
  Q (Returns true) (refused "rate_limited" StatusTooManyRequests (header_Set "Retry-After" "1") (limited s t s1)) ->
  wp (Gateway.check_limits providers flushes r t (now (world s))) Q s1.
Proof using F.
  intros B N HQ. destruct found_frame as (E1 & E2 & _).
  unfold Gateway.check_limits, Gateway.time_Now, Gateway.fail_with, Gateway.respond, Gateway.with_limiter. rewrite B.
  do 4 step. rewrite E1, E2. fold (allowance s t). unfold granted in N.
  destruct (fst (allowance s t)) as [res|err]; [|by do 5 step].
  destruct (Allowed res) eqn:A; [destruct N; by exists res|by do 5 step].
Qed.

Lemma wp_admitted providers flushes Q : admitted s t ->
  wp (Gateway.dispatch providers flushes r t (now (world s))) Q (limited s t s1) ->
  wp (Gateway.check_limits providers flushes r t (now (world s))) Q s1.
Proof using F.
  intros (B & res & A1 & A2) HQ. destruct found_frame as (E1 & E2 & _).
  unfold Gateway.check_limits, Gateway.time_Now, Gateway.with_limiter. rewrite B.
  do 4 step. rewrite E1, E2. fold (allowance s t). by rewrite A1, A2.
Qed.

Lemma wp_malformed providers flushes Q : snd (decoding r) = false ->
  Q (Returns true) (refused "invalid_request" StatusBadRequest id (limited s t s1)) ->
  wp (Gateway.dispatch providers flushes r t (now (world s))) Q (limited s t s1).
Proof.
  unfold decoding, Gateway.dispatch, Gateway.fail_with, Gateway.respond. destruct (Decode _ _ _) as [req ok]. cbn [snd].
  intros -> HQ. cbn [negb]. by do 3 step.
Qed.

Lemma limited_Get req :
  Get (now (world (limited s t s1))) (r_ctx r) (cache_key t req) (cache (limited s t s1)) = cached_answer r req s t s1.
Proof using F. destruct found_frame as (E1 & _). unfold cached_answer. change (world (limited s t s1)) with (world s1). by rewrite E1. Qed.

Lemma wp_hit providers flushes req data Q : decoding r = (req, true) -> req_Stream req = false ->
  fst (fst (cached_answer r req s t s1)) = Some data ->
  Q (Returns true) (Gateway.put_writer (hit_response data (writer s1)) (asked r req s t s1)) ->
  wp (Gateway.dispatch providers flushes r t (now (world s))) Q (limited s t s1).
Proof using F.
  intros Dc St Cm HQ. unfold asked in HQ. rewrite St in HQ.
  unfold Gateway.dispatch, decoding in *. rewrite Dc. cbn [negb]. rewrite St.
  unfold Gateway.time_Now, Gateway.respond, Gateway.with_cache. do 4 step. rewrite limited_Get, Cm. by do 7 step.
Qed.

Lemma wp_uncached providers flushes req Q : decoding r = (req, true) -> not_cached r req s t s1 ->
  wp (Gateway.route providers flushes r req t (now (world s)) (cache_key t req)) Q (asked r req s t s1) ->
  wp (Gateway.dispatch providers flushes r t (now (world s))) Q (limited s t s1).
Proof using F.
  intros Dc Nc HQ. unfold asked, not_cached in *.
  unfold Gateway.dispatch, decoding in *. rewrite Dc. cbn [negb]. destruct (req_Stream req); [exact HQ|].
  destruct Nc as [|Cm]; [done|]. unfold Gateway.time_Now, Gateway.with_cache. do 4 step.
  by rewrite limited_Get, Cm.
Qed.

Lemma asked_frame req : world (asked r req s t s1) = world s /\ monitor (asked r req s t s1) = monitor s /\
  logger (asked r req s t s1) = logger s /\ writer (asked r req s t s1) = writer s /\
  db (asked r req s t s1) = db s1 /\ limiter (asked r req s t s1) = snd (allowance s t).
Proof using F. destruct found_frame as (E1 & _ & E3 & E4 & E5). unfold asked. by destruct (req_Stream req). Qed.

Lemma wp_no_provider providers flushes req Q : fst (selection providers s t) = None ->
  Q (Returns true) (refused "no_available_providers" StatusServiceUnavailable id (selected providers r req s t s1)) ->
  wp (Gateway.route providers flushes r req t (now (world s)) (cache_key t req)) Q (asked r req s t s1).
Proof using F.
  intros N HQ. destruct (asked_frame req) as (E1 & E2 & _).
  unfold Gateway.route, Gateway.time_Now, Gateway.with_monitor, Gateway.fail_with, Gateway.respond. do 4 step.
  rewrite E1, E2. fold (selection providers s t). rewrite N. by do 3 step.
Qed.

Lemma wp_selected providers flushes req p Q : fst (selection providers s t) = Some p ->
  wp (handle flushes r req p t (now (world s))) Q (selected providers r req s t s1) ->
  wp (Gateway.route providers flushes r req t (now (world s)) (cache_key t req)) Q (asked r req s t s1).
Proof using F.
  intros Sl HQ. destruct (asked_frame req) as (E1 & E2 & _).
  unfold Gateway.route, Gateway.time_Now, Gateway.with_monitor. do 4 step.
  rewrite E1, E2. fold (selection providers s t). by rewrite Sl.
Qed.
End limits.

(** ** Every request leaves the checks in one of these ways *)

Lemma granted_dec s t : granted s t \/ ~ granted s t.
Proof.
  unfold granted. destruct (fst (allowance s t)) as [res|err]; [|right; by intros (? & ? & ?)].
  destruct (Allowed res) eqn:A; [left; by exists res|right]. intros (res' & [= <-] & A'). congruence.
Qed.

Lemma ServeHTTP_stage providers flushes r s : wp (Gateway.ServeHTTP providers flushes r) (stage providers flushes r s) s.
Proof.
  destruct (decide (X_API_Key r = ""%string)) as [K|K]; [apply wp_no_key; [done|by apply stage_refused, no_key]|].
  destruct (Gateway.lookup_tenant r s) as [o s1] eqn:Lk. destruct (wp_run _ _ _ _ _ (lookup_returns r s) Lk) as [[[t|]|err] ->].
  2: { unfold Gateway.ServeHTTP, Gateway.time_Now. do 2 step. rewrite decide_False by done. step. unfold wp at 1. rewrite Lk.
    cbn [fst snd after]. step. by apply stage_nil_tenant. }
  2: { apply (wp_unknown _ _ _ _ err s1); [done..|]. apply stage_refused. by apply (unknown_key _ _ _ err). }
  assert (Kn : known r s t s1) by done. apply (wp_known _ _ _ _ t s1); [done|]. destruct Kn as [_ F].
  destruct (Gateway.budget_exhausted t) eqn:B.
  { apply exhausted in B. apply wp_no_budget; [done|]. apply stage_refused. by apply (no_budget _ _ _ t). }
  assert (B' : ~ 0 < BudgetCents t <= SpentCents t) by (rewrite <- exhausted; congruence).
  destruct (granted_dec s t) as [Gr|N].
  2: { apply wp_rate_limited; [done..|]. apply stage_refused. by apply rate_limited. }
  assert (Ad : admitted s t) by done. apply wp_admitted; [done..|].
  destruct (decoding r) as [req ok] eqn:Dc. destruct ok.
  2: { apply wp_malformed; [by rewrite Dc|]. apply stage_refused. apply malformed; [done..|by rewrite Dc]. }
  assert (Cs : not_cached r req s t s1 \/ req_Stream req = false /\ exists data, fst (fst (cached_answer r req s t s1)) = Some data).
  { unfold not_cached. destruct (req_Stream req); [by left; left|]. destruct (fst (fst _)) as [data|]; [right; eauto|by left; right]. }
  destruct Cs as [Nc|(St & data & Cm)].
  2: { apply (wp_hit r s t s1 F _ _ req data); [done..|]. by apply (stage_hit _ _ _ _ t s1 req data). }
  apply (wp_uncached r s t s1 F _ _ req); [done..|].
  destruct (fst (selection providers s t)) as [p|] eqn:Sl.
  - apply (wp_selected r s t s1 F _ _ req p); [done..|]. apply wp_intro. intros o s' X. by apply (stage_dispatched _ _ _ _ t s1 req p).
  - apply (wp_no_provider r s t s1 F); [done|]. apply stage_refused. by apply no_provider.
Qed.

(** The check that fails decides the response: nothing else is done. *)
Lemma refusal_runs providers flushes r s code msg hdr s0 : refusal providers r s code msg hdr s0 ->
  Gateway.ServeHTTP providers flushes r s = (Returns true, refused msg code hdr s0).
Proof.
  intros Rf.
  assert (Wp : wp (Gateway.ServeHTTP providers flushes r) (fun o s' => o = Returns true /\ s' = refused msg code hdr s0) s).
  { destruct Rf as [K|err s1 K Lk|t s1 Kn B|t s1 Kn B N|t s1 Kn Ad Dc|t s1 req Kn Ad Dc Nc Sl].
    - by apply wp_no_key.
    - by apply (wp_unknown _ _ _ _ err s1).
    - apply (wp_known _ _ _ _ t s1); [done|]. by apply wp_no_budget.
    - apply (wp_known _ _ _ _ t s1); [done|]. destruct Kn as [_ F]. apply wp_rate_limited; [done|by apply within_budget|done|done].
    - apply (wp_known _ _ _ _ t s1); [done|]. destruct Kn as [_ F]. apply wp_admitted; [done..|]. by apply wp_malformed.
    - apply (wp_known _ _ _ _ t s1); [done|]. destruct Kn as [_ F]. apply wp_admitted; [done..|].
      apply (wp_uncached r s t s1 F _ _ req); [done..|]. by apply wp_no_provider. }
  destruct Wp as [E1 E2]. by rewrite (surjective_pairing (Gateway.ServeHTTP providers flushes r s)), E1, E2.
Qed.

(** A refused request has not touched the world, the log or the response. *)
Lemma refusal_frame providers r s code msg hdr s0 : refusal providers r s code msg hdr s0 ->
  world s0 = world s /\ logger s0 = logger s /\ writer s0 = writer s /\
  (monitor s0 = monitor s \/ exists t, monitor s0 = snd (selection providers s t)).
Proof.
  intros [K|err s1 K Lk|t s1 [_ F] B|t s1 [_ F] B N|t s1 [_ F] Ad Dc|t s1 req [_ F] Ad Dc Nc Sl]; [by eauto|..].
  - destruct (wp_run _ _ _ _ _ (lookup_frame r s) Lk) as (E1 & _ & E3 & E4 & E5). eauto.
  - destruct (found_frame r s t s1 F) as (E1 & _ & E3 & E4 & E5). eauto.
  - destruct (found_frame r s t s1 F) as (E1 & _ & E3 & E4 & E5). eauto.
  - destruct (found_frame r s t s1 F) as (E1 & _ & E3 & E4 & E5). eauto.
  - destruct (asked_frame r s t s1 F req) as (E1 & _ & E3 & E4 & _). eauto 6.
Qed.

Lemma refusal_header providers r s code msg hdr s0 : refusal providers r s code msg hdr s0 ->
  code <> 0 /\ code <> StatusOK /\ code <> StatusBadGateway /\ forall w, w_status (hdr w) = w_status w.
Proof. by intros []. Qed.
End stages.
End Stages.
