(* ===== verification/Requests.v ===== *)
(** * Requests: what the gateway's handler does with requests
    (internal/router/handler.go)

    Theorems about [ServeHTTP], from the stages of Stages: a refusal names the
    first check that failed, a synchronous request has exactly the effects
    listed, answers are cached and replayed, streams are sums of their events;
    and a concrete deployment on which the theorems are instantiated. *)

From Stdlib Require Import Ascii.
From S2P Require Import Prelude Rounding Binary64 Float64 GoTypes Utf8 Json FloatText Decode Sha256 Monitor GoSort Selector Provider RateLimit Resilient Cache Db Logging Budget Handler Stages.
From Stdlib Require Import SpecFloat.
Local Open Scope Z_scope.

(** ** Refusals *)

Module Refusals.
Section refusals.
Context {W D L C Mon G P : Type}.
Context `{Clock W} `{TenantRepository D} `{Limiter L} `{Cache C} `{HealthMonitorLaws Mon}
  `{Provider W P} `{Streamer W P} `{Logger G} `{ProviderSelector Mon P} `{!ProviderSelectorLaws Mon P}.
Abbreviation gw := (gateway W D L C Mon G).
Implicit Types s : gw.

(** No upstream was called, nothing was logged, no health changed. *)
Definition untouched s s' : Prop :=
  world s' = world s /\ logger s' = logger s /\ forall q, observe (monitor s') q = observe (monitor s) q.

(** The statuses of requests that reached an upstream, or were answered. *)
Definition answered (code : Z) : Prop := code = 0 \/ code = StatusOK \/ code = StatusBadGateway.

Lemma Write_status u (w : response) : w_status (Write u w) = if w_status w =? 0 then StatusOK else w_status w.
Proof. unfold Write, WriteHeader. by case_match. Qed.

Lemma http_Error_status msg code w : w_status w = 0 -> code <> 0 -> w_status (http_Error msg code w) = code.
Proof.
  intros E N. unfold http_Error. rewrite Write_status. unfold WriteHeader. simpl. rewrite E. simpl.
  by rewrite (proj2 (Z.eqb_neq _ _) N).
Qed.

Lemma stream_loop_status flushes r p req tenant start events : forall tp tc s,
  answered (w_status (writer s)) ->
  wp (Gateway.stream_loop flushes r p req tenant start tp tc events)
     (fun _ s' => answered (w_status (writer s'))) s.
Proof.
  induction events as [|[t ev] events IH]; intros tp tc s A; cbn [Gateway.stream_loop]; [by step|].
  unfold Gateway.respond, Gateway.with_logger, Gateway.with_monitor. destruct ev as [c| |e| |].
  - assert (A' : forall u, answered (w_status (Write u (writer s))))
      by (intros u; rewrite Write_status; case_match; [right; by left|done]).
    do 3 step. destruct flushes; step; [apply IH|]; apply A'.
  - by do 5 step.
  - by do 3 step.
  - by apply IH.
  - by step.
Qed.

Lemma handleStream_status flushes r p req tenant start s : w_status (writer s) = 0 ->
  wp (Gateway.handleStream flushes r p req tenant start) (fun _ s' => answered (w_status (writer s'))) s.
Proof.
  intros E. unfold Gateway.handleStream, Gateway.with_world. apply wp_bind. unfold wp at 1.
  destruct (ChatStream p (r_ctx r) req (world s)) as [[evs|e] w]; simpl; [|by left].
  unfold Gateway.respond. do 6 step. apply stream_loop_status. by left.
Qed.

Lemma handleSync_status r p req tenant start key s : w_status (writer s) = 0 ->
  wp (Gateway.handleSync r p req tenant start key) (fun _ s' => answered (w_status (writer s'))) s.
Proof.
  intros E. unfold Gateway.handleSync, Gateway.with_world. apply wp_bind. unfold wp at 1.
  destruct (Chat p (r_ctx r) req (world s)) as [[resp|e] w]; simpl; [|by left].
  unfold Gateway.time_Now, Gateway.fail_with, Gateway.respond, Gateway.with_monitor, Gateway.with_logger, Gateway.with_cache.
  do 2 step. destruct resp as [resp|err].
  - do 13 step. cbn [writer Gateway.put_writer]. rewrite Write_status. simpl. rewrite E. right. by left.
  - do 3 step. cbn [writer Gateway.put_writer]. rewrite http_Error_status by done. right. by right.
Qed.

Lemma handle_status flushes r req p t start s : w_status (writer s) = 0 ->
  wp (Stages.handle flushes r req p t start) (fun _ s' => answered (w_status (writer s'))) s.
Proof.
  intros E. unfold Stages.handle. destruct (req_Stream req); [by apply handleStream_status|].
  apply wp_bind. eapply wp_mono; [by apply handleSync_status|]. intros o s' A. destruct o; [by step|done].
Qed.

(** Refused by the first check that fails, and exactly with its response. *)
Definition is_refused providers r s (o : outcome bool) s' (code : Z) : Prop :=
  exists msg hdr s0, Stages.refusal providers r s code msg hdr s0 /\
    o = Returns true /\ s' = Stages.refused msg code hdr s0 /\ w_status (writer s') = code /\ untouched s s'.

Lemma refusal_refused providers r s code msg hdr s0 : w_status (writer s) = 0 -> Stages.refusal providers r s code msg hdr s0 ->
  is_refused providers r s (Returns true) (Stages.refused msg code hdr s0) code.
Proof.
  intros E Rf. exists msg, hdr, s0. split; [done|]. split; [done|]. split; [done|].
  destruct (Stages.refusal_frame _ _ _ _ _ _ _ Rf) as (E1 & E2 & E3 & M).
  destruct (Stages.refusal_header _ _ _ _ _ _ _ Rf) as (N & _ & _ & Hd). split.
  - cbn [writer Stages.refused Gateway.put_writer]. apply http_Error_status; [by rewrite Hd, E3|done].
  - split; [done|]. split; [done|]. intros q. cbn [monitor Stages.refused Gateway.put_writer].
    destruct M as [->|[t ->]]; [done|]. apply Select_observe.
Qed.

Lemma ServeHTTP_status providers flushes r s : w_status (writer s) = 0 ->
  wp (Gateway.ServeHTTP providers flushes r) (fun o s' =>
    (exists code, is_refused providers r s o s' code) \/ answered (w_status (writer s'))) s.
Proof.
  intros E. eapply wp_mono; [apply Stages.ServeHTTP_stage|].
  intros o s' [code msg hdr s0 Rf|s1 K Lk|t s1 req data [_ F] Ad Dc St Cm|t s1 req p o' s2 [_ F] Ad Dc Nc Sl X].
  - left. exists code. by apply refusal_refused.
  - right. destruct (wp_run _ _ _ _ _ (Stages.lookup_frame r s) Lk) as (_ & _ & _ & _ & ->). by left.
  - right. right. left. destruct (Stages.found_frame r s t s1 F) as (_ & _ & _ & _ & ->).
    cbn [writer Gateway.put_writer]. unfold Stages.hit_response. rewrite Write_status. simpl. by rewrite E.
  - right. destruct (Stages.asked_frame r s t s1 F req) as (_ & _ & _ & Ew & _).
    refine (wp_run _ _ _ _ _ (handle_status flushes r req p t (now (world s)) _ _) X). cbn. by rewrite Ew.
Qed.

(** C7: Refusals are justified, in order, and free.  The first check that fails -
    API key given, tenant known, budget left, rate limit, well-formed request,
    a healthy allowed provider unless the answer is cached, each after all the
    others have passed - decides the response: its status, its text and its
    headers, and nothing else is done.  Conversely, when the status is not 200
    or 502 - and not 0, which means that no response was begun, as when the
    handler panics - one of the checks has failed and names the status; the
    request has reached no upstream, was not logged and changed no provider's
    health. *)
Theorem ServeHTTP_refusals providers flushes r s : w_status (writer s) = 0 ->
  (forall code msg hdr s0, Stages.refusal providers r s code msg hdr s0 ->
     Gateway.ServeHTTP providers flushes r s = (Returns true, Stages.refused msg code hdr s0)) /\
  (forall o s', Gateway.ServeHTTP providers flushes r s = (o, s') ->
     w_status (writer s') <> 0 -> w_status (writer s') <> StatusOK -> w_status (writer s') <> StatusBadGateway ->
     is_refused providers r s o s' (w_status (writer s'))).
Proof.
  intros E. split; [intros; by apply Stages.refusal_runs|]. intros o s' X N1 N2 N3.
  destruct (wp_run _ _ _ _ _ (ServeHTTP_status providers flushes r s E) X) as [[code Rf]|[A|[A|A]]]; [|done..].
  pose proof Rf as (_ & _ & _ & _ & _ & _ & <- & _). exact Rf.
Qed.
End refusals.
End Refusals.

(** ** A concrete deployment *)

(** Upstreams that always answer the same after a fixed time, in a world that
    is the time; a logger that keeps the events. *)
Record upstream := {
  u_name : string;
  u_reply : result ChatResponse;
  u_latency : Z;
  u_events : list (Z * stream_event)
}.

Record journal := { logged : list LogEvent; broadcast : list LogEvent }.

Module Deployment.

#[export] Instance clock : Clock Z := {| now := fun w => w; wait_until := Z.max |}.

#[export] Instance upstream_Provider : Provider Z upstream := {|
  Name := u_name;
  Chat := fun p ctx req w => (Returns (u_reply p), w + u_latency p)
|}.

#[export] Instance upstream_Streamer : Streamer Z upstream := {|
  ChatStream := fun p ctx req w => (Returns (u_events p), w)
|}.

#[export] Instance journal_Logger : Logger journal := {|
  Log := fun ctx e j => (None, {| logged := logged j ++ [e]; broadcast := broadcast j |});
  Broadcast := fun ctx e j => (None, {| logged := logged j; broadcast := broadcast j ++ [e] |});
  Logger_Close := fun j => (None, j)
|}.

#[export] Existing Instance InsertionAsLargeSort.sort.
#[export] Existing Instance InsertionAsLargeSort.laws.

#[export] Instance selector : ProviderSelector EWMAMonitor upstream :=
  LatencyAwareSelector (H0 := provider_Named (W := Z)).
#[export] Instance selector_laws : ProviderSelectorLaws EWMAMonitor upstream (H1 := provider_Named (W := Z)) :=
  LatencyAwareSelector_laws.

Definition reply : ChatResponse :=
  {| resp_Content := "Hello"; resp_Model := "gpt-4o"; resp_Provider := "openai"; resp_PromptTokens := 10;
     resp_CompletionTokens := 20 |}.

Definition chunk (s : string) : ChatChunk :=
  {| chunk_Content := s; chunk_FinishReason := ""; chunk_PromptTokens := 1; chunk_CompletionTokens := 2 |}.

Definition openai : upstream :=
  {| u_name := "openai"; u_reply := inl reply; u_latency := 120 * Millisecond;
     u_events := [(1, EvChunk (chunk "Hel")); (2, EvChunk (chunk "lo")); (3, EvNoError); (4, EvChunksClosed)] |}.
Definition broken : upstream :=
  {| u_name := "broken"; u_reply := inr (Errorf "boom"); u_latency := 5; u_events := [(9, EvError (Errorf "boom"))] |}.
Definition providers : list upstream := [openai; broken].

(** The tenant seeded by the repository, and one that may only use "broken". *)
Definition tenant (id apiKey : string) (rpm : Z) (allow : option (list string)) : Tenant :=
  {| ID := id; TName := id; APIKeyHash := key_hash apiKey; RateLimitRPM := rpm; BudgetCents := 1000; SpentCents := 7;
     ProviderAllowlist := allow; IsActive := true |}.
Definition ledger : Ledger :=
  {| all := [tenant "t-1" "sk-kenbun-test" 100 None; tenant "t-2" "sk-other" 100 (Some ["broken"])]%string |}.

Definition body : string := dq "{'model':'gpt-4o','messages':[{'role':'user','content':'Hi'}]}".
Definition stream_body : string := dq "{'model':'gpt-4o','messages':[],'stream':true}".

Definition request (apiKey body : string) : http_request :=
  {| r_ctx := Background; X_API_Key := apiKey; r_Body := body |}.

Abbreviation gw := (gateway (traced Z upstream) Ledger TokenBucket MemoryCache EWMAMonitor journal).

Definition start : gw :=
  {| world := (0, []); db := ledger; limiter := TB.NewTokenBucket 0; cache := Memory.NewMemoryCache;
     monitor := EWMA.NewEWMAMonitor; logger := {| logged := []; broadcast := [] |}; writer := empty_response |}.

Definition serve (r : http_request) : M gw bool := Gateway.ServeHTTP providers true r.

(** Repeated requests, each with a fresh response. *)
Definition serve_next (r : http_request) (s : gw) : outcome bool * gw := serve r (Gateway.put_writer empty_response s).

Lemma start_empty k v : ~ stored (cache start) k v.
Proof. simpl. by rewrite lookup_empty. Qed.

Lemma ledger_ok : Laws.repo_ok (fun t => t ∈ all ledger) ledger.
Proof. repeat constructor; try set_solver; by vm_compute. Qed.

Lemma providers_calm : Laws.calm (W:=Z) (P:=upstream) true.
Proof. split; [done|]. split; intros; by eexists _, _. Qed.

End Deployment.
Import (hints) Deployment.

Lemma ServeHTTP_entitled_witness : exists p tenant,
  calls (snd (Deployment.serve (Deployment.request "sk-kenbun-test" Deployment.body) Deployment.start)) = [p] /\
  Laws.entitled (fun t => t ∈ all Deployment.ledger) Deployment.providers
    (Deployment.request "sk-kenbun-test" Deployment.body) Deployment.start tenant p.
Proof.
  set (r := Deployment.request _ _).
  pose proof (Laws.ServeHTTP_entitled (fun t => t ∈ all Deployment.ledger) Deployment.providers true r Deployment.start
    _ _ (fun h d X => False_ind _ (Deployment.start_empty _ _ X)) Deployment.ledger_ok eq_refl (surjective_pairing _)) as [_ H].
  destruct H as [H|H]; [exfalso|exact H]. apply (f_equal length) in H. revert H. vm_compute. discriminate.
Defined.

(** A second request is answered too. *)
Lemma ServeHTTP_never_panics_witness :
  let s := snd (Deployment.serve_next (Deployment.request "sk-kenbun-test" Deployment.body) Deployment.start) in
  Laws.returns (fst (Deployment.serve_next (Deployment.request "sk-other" Deployment.body) s)).
Proof.
  intros s. set (Tn := fun t => t ∈ all Deployment.ledger).
  assert (R : Laws.reach Tn Deployment.providers s).
  { unfold s, Deployment.serve_next, Deployment.serve. set (g := Gateway.ServeHTTP _ _ _ _).
    apply (Laws.reach_request _ _ Deployment.start (Deployment.request "sk-kenbun-test" Deployment.body) (fst g) (snd g)); [|apply surjective_pairing].
    apply Laws.reach_start; [apply Deployment.start_empty|apply Deployment.ledger_ok]. }
  clearbody s. unfold Deployment.serve_next, Deployment.serve. set (g := Gateway.ServeHTTP _ _ _ _).
  exact (Laws.ServeHTTP_never_panics Tn Deployment.providers (Deployment.request "sk-other" Deployment.body) s (fst g) (snd g) Deployment.providers_calm R (surjective_pairing g)).
Defined.

(** An unknown key; and a request of an admitted tenant that is no JSON. *)
Lemma ServeHTTP_refusals_witness :
  (let r := Deployment.request "sk-wrong" Deployment.body in
   let g := Deployment.serve r Deployment.start in
   Refusals.is_refused Deployment.providers r Deployment.start (fst g) (snd g) StatusUnauthorized) /\
  let r := Deployment.request "sk-kenbun-test" "{" in
  exists s0, Deployment.serve r Deployment.start = (Returns true, Stages.refused "invalid_request" StatusBadRequest id s0).
Proof.
  split.
  - intros r g. assert (E : w_status (writer (snd g)) = StatusUnauthorized) by by vm_compute.
    destruct (Refusals.ServeHTTP_refusals Deployment.providers true r Deployment.start eq_refl) as [_ Rf].
    specialize (Rf (fst g) (snd g) (surjective_pairing _)). rewrite E in Rf. by apply Rf.
  - intros r. set (t := Deployment.tenant "t-1" "sk-kenbun-test" 100 None).
    destruct (Refusals.ServeHTTP_refusals Deployment.providers true r Deployment.start eq_refl) as [Rn _].
    assert (F : Stages.found r Deployment.start t (snd (Gateway.lookup_tenant r Deployment.start))) by by vm_compute.
    eexists. apply Rn. apply (Stages.malformed _ _ _ t (snd (Gateway.lookup_tenant r Deployment.start))).
    + by split.
    + split; [by vm_compute|]. eexists. split; [vm_compute; reflexivity|reflexivity].
    + by vm_compute.
Defined.

(** ** Synchronous requests *)

Module Sync.
Section sync.
Context {W D L C Mon G P : Type}.
Context `{Clock W} `{TenantRepository D} `{Limiter L} `{Cache C} `{HealthMonitor Mon}
  `{Provider W P} `{Streamer W P} `{Logger G} `{ProviderSelector Mon P}.
Abbreviation gw := (gateway W D L C Mon G).
Implicit Types s : gw.

(** What the limits leave in the other parts, in every request that passes them. *)
Definition elsewhere s (t : Tenant) s1 s' : Prop := db s' = db s1 /\ limiter s' = snd (Stages.allowance s t).

(** The ways in which a synchronous request [req] ends. *)
Inductive ends (providers : list P) (r : http_request) (req : ChatRequest) s : outcome bool -> gw -> Prop :=
  | ends_refused code msg hdr s0 : Stages.refusal providers r s code msg hdr s0 ->
      ends providers r req s (Returns true) (Stages.refused msg code hdr s0)
  | ends_nil_tenant s' : X_API_Key r <> ""%string -> Gateway.lookup_tenant r s = (Returns (inl None), s') ->
      ends providers r req s (Panics NilDereference) s'
  | ends_hit t s1 data s' : Stages.known r s t s1 -> Stages.admitted s t ->
      fst (fst (Stages.cached_answer r req s t s1)) = Some data ->
      world s' = world s -> logger s' = logger s -> monitor s' = monitor s -> elsewhere s t s1 s' ->
      cache s' = snd (Stages.cached_answer r req s t s1) ->
      writer s' = Write data (header_Set "X-Cache" "HIT" (Stages.json_type (writer s))) ->
      ends providers r req s (Returns true) s'
  | ends_answered t s1 p w resp s' : Stages.known r s t s1 -> Stages.admitted s t ->
      fst (fst (Stages.cached_answer r req s t s1)) = None -> fst (Stages.selection providers s t) = Some p ->
      Chat p (r_ctx r) req (world s) = (Returns (inl resp), w) ->
      (let latency := Time_Sub (now w) (now (world s)) in
       let event := Gateway.log_event t p resp latency (now w) in
       let body := Gateway.response_body resp in
       world s' = w /\
       monitor s' = RecordSuccess (now w) (Name p) latency (snd (Stages.selection providers s t)) /\
       logger s' = snd (Broadcast (r_ctx r) event (snd (Log (r_ctx r) event (logger s)))) /\
       cache s' = snd (Set_ (now w) (r_ctx r) (cache_key t req) (Some body) Hour (snd (Stages.cached_answer r req s t s1))) /\
       writer s' = Write body (Stages.json_type (writer s))) -> elsewhere s t s1 s' ->
      ends providers r req s (Returns true) s'
  | ends_failed t s1 p w err s' : Stages.known r s t s1 -> Stages.admitted s t ->
      fst (fst (Stages.cached_answer r req s t s1)) = None -> fst (Stages.selection providers s t) = Some p ->
      Chat p (r_ctx r) req (world s) = (Returns (inr err), w) ->
      world s' = w -> logger s' = logger s ->
      monitor s' = RecordError (now w) (Name p) StatusInternalServerError (snd (Stages.selection providers s t)) ->
      cache s' = snd (Stages.cached_answer r req s t s1) ->
      writer s' = http_Error "provider_error" StatusBadGateway (writer s) -> elsewhere s t s1 s' ->
      ends providers r req s (Returns true) s'
  | ends_panicked t s1 p w e s' : Stages.known r s t s1 -> Stages.admitted s t ->
      fst (fst (Stages.cached_answer r req s t s1)) = None -> fst (Stages.selection providers s t) = Some p ->
      Chat p (r_ctx r) req (world s) = (Panics e, w) -> world s' = w -> logger s' = logger s ->
      monitor s' = snd (Stages.selection providers s t) -> cache s' = snd (Stages.cached_answer r req s t s1) ->
      writer s' = writer s -> elsewhere s t s1 s' -> ends providers r req s (Panics e) s'.

Lemma handleSync_ends providers r req t s s1 p :
  req_Stream req = false -> Stages.known r s t s1 -> Stages.admitted s t ->
  fst (fst (Stages.cached_answer r req s t s1)) = None -> fst (Stages.selection providers s t) = Some p ->
  wp (Gateway.handleSync r p req t (now (world s)) (cache_key t req);; mret true) (ends providers r req s)
    (Stages.selected providers r req s t s1).
Proof.
  intros St Kn Ad Cm Ch. destruct (Stages.asked_frame r s t s1 (proj2 Kn) req) as (Ew & _ & El & Er & Ed & Ea).
  assert (Ec : cache (Stages.asked r req s t s1) = snd (Stages.cached_answer r req s t s1)) by (unfold Stages.asked; by rewrite St).
  unfold Stages.selected. set (s2 := Stages.asked r req s t s1) in *.
  apply wp_bind. unfold Gateway.handleSync, Gateway.with_world. apply wp_bind.
  unfold wp at 1. cbn [world Gateway.put_monitor]. rewrite Ew.
  destruct (Chat p (r_ctx r) req (world s)) as [[[resp|err]|e] w] eqn:E; cbn [fst snd after].
  - unfold Gateway.time_Now, Gateway.fail_with, Gateway.respond, Gateway.with_monitor, Gateway.with_logger, Gateway.with_cache.
    do 16 step. apply (ends_answered _ _ _ _ t s1 p w resp); try done. rewrite <- El, <- Ec, <- Er. by repeat split.
  - unfold Gateway.time_Now, Gateway.fail_with, Gateway.respond, Gateway.with_monitor. do 6 step.
    apply (ends_failed _ _ _ _ t s1 p w err); try done; cbn; by f_equal.
  - by apply (ends_panicked _ _ _ _ t s1 p w e).
Qed.

Lemma ServeHTTP_ends providers flushes r req s : Stages.decoding r = (req, true) -> req_Stream req = false ->
  wp (Gateway.ServeHTTP providers flushes r) (ends providers r req s) s.
Proof.
  intros Dc St. eapply wp_mono; [apply Stages.ServeHTTP_stage|].
  intros o s' [code msg hdr s0 Rf|s1 K Lk|t s1 req' data Kn Ad Dc' _ Cm|t s1 req' p o' s2 Kn Ad Dc' Nc Sl X].
  - by eapply ends_refused.
  - by eapply ends_nil_tenant.
  - rewrite Dc in Dc'. injection Dc' as <-. destruct (Stages.asked_frame r s t s1 (proj2 Kn) req) as (E1 & E2 & E3 & E4 & E5 & E6).
    destruct (Stages.found_frame r s t s1 (proj2 Kn)) as (_ & _ & _ & _ & Ew).
    apply (ends_hit _ _ _ _ t s1 data); try done; cbn [cache writer Gateway.put_writer]; [unfold Stages.asked; by rewrite St|by rewrite Ew].
  - rewrite Dc in Dc'. injection Dc' as <-. unfold Stages.not_cached, Stages.handle in *. rewrite St in *.
    destruct Nc as [|Cm]; [done|]. exact (wp_run _ _ _ _ _ (handleSync_ends providers r req t s s1 p St Kn Ad Cm Sl) X).
Qed.

(** C5: A synchronous request ends in exactly one of six ways, with these
    effects and no others on the upstream, the log, the health of the
    providers, the cache, the limiter, the repository and the response: refused
    by the first check that fails, with nothing done after it; answered from
    the cache; answered by the selected provider - the latency recorded, one
    event logged and broadcast, the body filed for an hour and written; failed
    with 502, the error recorded and nothing logged or filed; or ended by a
    panic, of the provider or over a nil tenant, with nothing done after it. *)
Theorem ServeHTTP_sync providers flushes r req s o s' :
  Decode (dec_struct Provider.Codec.Request_fields) (r_Body r) Provider.Codec.zero_Request = (req, true) ->
  req_Stream req = false ->
  Gateway.ServeHTTP providers flushes r s = (o, s') -> ends providers r req s o s'.
Proof. intros Dc St X. exact (wp_run _ _ _ _ _ (ServeHTTP_ends providers flushes r req s Dc St) X). Qed.
End sync.
End Sync.

(** ** Invariants of the cache *)

Module Keeps.
Section keeps.
Context {W D L C Mon G P : Type}.
Context `{Clock W} `{TenantRepository D} `{Limiter L} `{Cache C} `{HealthMonitor Mon}
  `{Provider W P} `{Streamer W P} `{Logger G} `{ProviderSelector Mon P}.
Abbreviation gw := (gateway W D L C Mon G).
Implicit Types s : gw.

(** Properties of the cache, of the world and of the repository that every
    operation of the handler keeps: reading the cache and filing an answer for
    an hour, calling an upstream, looking a tenant up. *)
Context (I : C -> Prop) (J : W -> Prop) (K : D -> Prop).
Context (Get_I : forall t ctx k c, I c -> I (snd (Get t ctx k c))).
Context (Set_response_I : forall t ctx tenant req v c, I c -> I (snd (Set_ t ctx (cache_key tenant req) v Hour c))).
Context (Chat_J : forall p ctx req w, J w -> J (snd (Chat p ctx req w))).
Context (ChatStream_J : forall p ctx req w, J w -> J (snd (ChatStream p ctx req w))).
Context (Find_K : forall ctx hash d, K d -> K (snd (GetTenantByAPIKeyHash ctx hash d))).

Definition ok (s : gw) : Prop := I (cache s) /\ J (world s) /\ K (db s).

Lemma stream_loop_keeps flushes r p req tenant start events : forall tp tc s, ok s ->
  wp (Gateway.stream_loop flushes r p req tenant start tp tc events) (fun _ s' => ok s') s.
Proof.
  induction events as [|[t ev] events IH]; intros tp tc s O; cbn [Gateway.stream_loop]; [by step|].
  unfold Gateway.respond, Gateway.with_logger, Gateway.with_monitor. destruct ev as [c| |e| |].
  - do 3 step. destruct flushes; step; [by apply IH|done].
  - by do 5 step.
  - by do 3 step.
  - by apply IH.
  - by step.
Qed.

Lemma route_keeps providers flushes r req tenant start s : ok s ->
  wp (Gateway.route providers flushes r req tenant start (cache_key tenant req)) (fun _ s' => ok s') s.
Proof.
  intros (Oi & Oj & Ok). unfold Gateway.route, Gateway.time_Now, Gateway.with_monitor, Gateway.fail_with, Gateway.respond. do 4 step.
  destruct (fst _) as [p|]; [|by do 3 step]. destruct (req_Stream req).
  - unfold Gateway.handleStream, Gateway.with_world. apply wp_bind. unfold wp at 1.
    pose proof (ChatStream_J p (r_ctx r) req (world s) Oj) as Oj'. cbn [world Gateway.put_monitor].
    destruct (ChatStream _ _ _ _) as [[evs|e] w]; [|done]. unfold Gateway.respond. cbn [fst snd after].
    do 6 step. by apply stream_loop_keeps.
  - apply wp_bind. unfold Gateway.handleSync, Gateway.with_world. apply wp_bind. unfold wp at 1.
    pose proof (Chat_J p (r_ctx r) req (world s) Oj) as Oj'. cbn [world Gateway.put_monitor].
    destruct (Chat _ _ _ _) as [[resp|e] w]; [|done]. cbn [fst snd after].
    unfold Gateway.time_Now, Gateway.fail_with, Gateway.respond, Gateway.with_monitor, Gateway.with_logger, Gateway.with_cache.
    do 2 step. destruct resp; [do 14 step|by do 4 step]. split; [by apply Set_response_I|done].
Qed.

Lemma check_limits_keeps providers flushes r t start s1 : ok s1 ->
  wp (Gateway.check_limits providers flushes r t start) (fun _ s' => ok s') s1.
Proof.
  intros O1. unfold Gateway.check_limits, Gateway.time_Now, Gateway.fail_with, Gateway.respond, Gateway.with_limiter.
  destruct (Gateway.budget_exhausted t); [by do 3 step|]. do 4 step.
  destruct (fst _) as [res|]; [destruct (Allowed res)|]; [|by do 5 step..].
  unfold Gateway.dispatch. destruct (Decode _ _ _) as [req []]; cbn [negb];
    unfold Gateway.time_Now, Gateway.fail_with, Gateway.respond, Gateway.with_cache; [|by do 3 step].
  destruct (req_Stream req); [by apply route_keeps|]. do 4 step. destruct O1 as (Oi & Oj & Ok).
  destruct (fst (fst _)); [do 7 step; split; [by apply Get_I|done]|]. apply route_keeps. split; [by apply Get_I|done].
Qed.

(** The tenant [tenant] was not in the cache, and is filed. *)
Definition filed (r : http_request) (s : gw) (tenant : Tenant) : C :=
  snd (Set_ (now (world s)) (r_ctx r) (tenant_key (X_API_Key r)) (Some (Db.Codec.marshal_Tenant tenant)) (5 * Minute)
    (snd (Get (now (world s)) (r_ctx r) (tenant_key (X_API_Key r)) (cache s)))).

Definition fills (r : http_request) (s : gw) (tenant : Tenant) : Prop :=
  fst (fst (Get (now (world s)) (r_ctx r) (tenant_key (X_API_Key r)) (cache s))) = None /\
  fst (GetTenantByAPIKeyHash (r_ctx r) (key_hash (X_API_Key r)) (db s)) = inl tenant.

Lemma lookup_keeps r s : ok s -> (forall tenant, fills r s tenant -> I (filed r s tenant)) ->
  wp (Gateway.lookup_tenant r) (fun _ s1 => ok s1) s.
Proof.
  intros (Oi & Oj & Ok) Fill. unfold Gateway.lookup_tenant, Gateway.time_Now, Gateway.with_cache, Gateway.with_db. do 4 step.
  destruct (fst (fst _)) eqn:M; [step; split; [by apply Get_I|done]|]. do 2 step.
  pose proof (Find_K (r_ctx r) (key_hash (X_API_Key r)) (db s) Ok) as Ok'.
  destruct (fst (GetTenantByAPIKeyHash _ _ _)) eqn:F; [do 5 step|step].
  - split; [by apply Fill|done].
  - split; [by apply Get_I|done].
Qed.

Lemma ServeHTTP_keeps providers flushes r s : ok s -> (forall tenant, fills r s tenant -> I (filed r s tenant)) ->
  wp (Gateway.ServeHTTP providers flushes r) (fun _ s' => ok s') s.
Proof.
  intros O Fill. unfold Gateway.ServeHTTP, Gateway.time_Now, Gateway.fail_with, Gateway.respond. do 2 step.
  case_decide; [by do 3 step|]. step.
  eapply wp_mono; [exact (lookup_keeps r s O Fill)|]. intros o s1 O1. destruct o as [[[t|]|err]|pn]; cbn [after]; [|by step|by do 3 step|done].
  by apply check_limits_keeps.
Qed.
End keeps.
End Keeps.

(** ** With the in-memory cache *)

Module InMemoryCache.
Section memory.
Context {W D L Mon G P : Type}.
Context `{Clock W} `{TenantRepositoryLaws D} `{Limiter L} `{HealthMonitor Mon}
  `{Provider W P} `{Streamer W P} `{Logger G} `{ProviderSelector Mon P}.
Abbreviation gw := (gateway W D L MemoryCache Mon G).
Implicit Types s : gw.

Definition holds (k v : string) (c : MemoryCache) : Prop := data c !! k = Some (Some v).

Lemma Get_id t ctx k (c : MemoryCache) : snd (Get t ctx k c) = c.
Proof. simpl. unfold Memory.Get. by case_match. Qed.

Lemma Get_holds t ctx k v (c : MemoryCache) : fst (fst (Get t ctx k c)) = Some v <-> holds k v c.
Proof. unfold holds. simpl. unfold Memory.Get. case_match eqn:E; simpl; split; congruence. Qed.

Lemma keys_apart k tenant req : tenant_key k <> cache_key tenant req.
Proof. discriminate. Qed.

Lemma holds_Set_response t ctx k v tenant req v' ttl (c : MemoryCache) :
  holds (tenant_key k) v c -> holds (tenant_key k) v (snd (Set_ t ctx (cache_key tenant req) v' ttl c)).
Proof. unfold holds. simpl. by rewrite lookup_insert_ne by (intros X; by eapply keys_apart). Qed.

(** A tenant that is found is the one that the cache holds from then on. *)
Lemma found_holds r s t s1 : Forall valid_Tenant (tenants (db s)) -> Stages.found r s t s1 ->
  exists td, Db.Codec.unmarshal_Tenant td = Some t /\ holds (tenant_key (X_API_Key r)) td (cache s1).
Proof.
  intros V F.
  assert (Wp : wp (Gateway.lookup_tenant r) (fun o s1 => o = Returns (inl (Some t)) ->
    exists td, Db.Codec.unmarshal_Tenant td = Some t /\ holds (tenant_key (X_API_Key r)) td (cache s1)) s).
  { unfold Gateway.lookup_tenant, Gateway.time_Now, Gateway.with_cache, Gateway.with_db. do 4 step.
    destruct (fst (fst _)) as [td|] eqn:M.
    - step. intros [= E]. exists td. split; [done|]. rewrite Get_id. by eapply Get_holds.
    - do 2 step. set (f := GetTenantByAPIKeyHash _ _ _) in *.
      pose proof (Find_found (r_ctx r) (key_hash (X_API_Key r)) (db s)) as Ff. fold f in Ff.
      destruct (fst f) as [tenant|err]; cbn [after]; [|by step]. do 5 step. intros [= <-].
      exists (Db.Codec.marshal_Tenant tenant). rewrite Forall_forall in V. split; [by apply unmarshal_marshal_Tenant, V, Ff|].
      unfold holds. simpl. by rewrite lookup_insert_eq. }
  by apply (wp_run _ _ _ _ _ Wp F).
Qed.

(** A tenant that the cache holds is found at once. *)
Lemma holds_found r s td t : holds (tenant_key (X_API_Key r)) td (cache s) -> Db.Codec.unmarshal_Tenant td = Some t ->
  Stages.found r s t (Gateway.put_cache (cache s) s).
Proof.
  intros Hd U.
  assert (Wp : wp (Gateway.lookup_tenant r)
    (fun o s1 => o = Returns (inl (Some t)) /\ s1 = Gateway.put_cache (cache s) s) s).
  { unfold Gateway.lookup_tenant, Gateway.time_Now, Gateway.with_cache. do 4 step.
    rewrite (proj2 (Get_holds (now (world s)) (r_ctx r) _ td (cache s)) Hd). step. by rewrite U, Get_id. }
  unfold Stages.found. destruct Wp as [E1 E2]. by rewrite (surjective_pairing (Gateway.lookup_tenant r s)), E1, E2.
Qed.

(** An answer that the cache holds is served, if the limiter admits. *)
Lemma ServeHTTP_hit providers flushes r req s td t data :
  Decode (dec_struct Provider.Codec.Request_fields) (r_Body r) Provider.Codec.zero_Request = (req, true) ->
  req_Stream req = false -> w_status (writer s) = 0 -> X_API_Key r <> ""%string ->
  holds (tenant_key (X_API_Key r)) td (cache s) -> Db.Codec.unmarshal_Tenant td = Some t ->
  holds (cache_key t req) data (cache s) -> Gateway.budget_exhausted t = false ->
  wp (Gateway.ServeHTTP providers flushes r) (fun o s' =>
    o = Returns true /\ world s' = world s /\ logger s' = logger s /\ monitor s' = monitor s /\ cache s' = cache s /\
    (Stages.admitted s t -> writer s' = Write data (header_Set "X-Cache" "HIT" (Stages.json_type (writer s)))) /\
    (~ Stages.admitted s t -> w_status (writer s') = StatusTooManyRequests)) s.
Proof.
  intros Dc St Ws K Ht U Hr B. set (s1 := Gateway.put_cache (cache s) s).
  assert (Kn : Stages.known r s t s1) by (split; [done|by apply (holds_found r s td t)]).
  assert (Hc : Stages.cached_answer r req s t s1 = ((Some data, None), cache s)).
  { unfold Stages.cached_answer, s1. unfold holds in Hr. cbn. unfold Memory.Get. by rewrite Hr. }
  destruct (Stages.granted_dec s t) as [Gr|N].
  - assert (Ad : Stages.admitted s t) by done. apply (Stages.wp_known _ _ _ _ t s1); [done|]. destruct Kn as [_ F].
    apply Stages.wp_admitted; [done..|]. apply (Stages.wp_hit r s t s1 F _ _ req data); [done|done|by rewrite Hc|].
    unfold Stages.asked. rewrite St, Hc. by repeat split.
  - unfold wp. rewrite (Stages.refusal_runs _ flushes _ _ _ _ _ _ (Stages.rate_limited providers r s t s1 Kn (fun X => ltac:(by apply Stages.exhausted in X; congruence)) N)).
    cbn [fst snd]. do 5 (split; [done|]). split; [by intros [_ ?]|]. intros _.
    by apply (Refusals.http_Error_status "rate_limited" StatusTooManyRequests (header_Set "Retry-After" "1" (writer s))).
Qed.

(** *** What the cache holds, it holds for ever *)

(** Every entry of [c] is one of [c']. *)
Definition extends (c c' : MemoryCache) : Prop := forall k v, holds k v c -> holds k v c'.

Lemma extends_refl c : extends c c.
Proof. by intros k v. Qed.

Lemma extends_trans c1 c2 c3 : extends c1 c2 -> extends c2 c3 -> extends c1 c3.
Proof. intros E1 E2 k v Hk. by apply E2, E1. Qed.

(** The handler only sets keys that it has just missed. *)
Lemma extends_miss t t' ctx ctx' k v ttl (c : MemoryCache) : fst (fst (Get t ctx k c)) = None ->
  extends c (snd (Set_ t' ctx' k v ttl c)).
Proof.
  intros M k' v' Hk. unfold holds in *. simpl. rewrite lookup_insert_ne; [done|]. intros <-.
  apply (Get_holds t ctx) in Hk. congruence.
Qed.

Lemma lookup_extends r s : wp (Gateway.lookup_tenant r) (fun _ s1 => extends (cache s) (cache s1)) s.
Proof.
  unfold Gateway.lookup_tenant, Gateway.time_Now, Gateway.with_cache, Gateway.with_db. do 4 step.
  destruct (fst (fst _)) eqn:M; [step; rewrite Get_id; apply extends_refl|]. do 2 step.
  destruct (fst (GetTenantByAPIKeyHash _ _ _)); [do 5 step|step; rewrite Get_id; apply extends_refl].
  rewrite Get_id. by eapply extends_miss.
Qed.

Lemma stream_loop_cache flushes r p req tenant start events : forall tp tc s,
  wp (Gateway.stream_loop flushes r p req tenant start tp tc events) (fun _ s' => cache s' = cache s) s.
Proof.
  induction events as [|[t ev] events IH]; intros tp tc s; cbn [Gateway.stream_loop]; [by step|].
  unfold Gateway.respond, Gateway.with_logger, Gateway.with_monitor. destruct ev as [c| |e| |].
  - do 3 step. destruct flushes; step; [eapply wp_mono; [apply IH|done]|done].
  - by do 5 step.
  - by do 3 step.
  - apply IH.
  - by step.
Qed.

Lemma handle_extends flushes r req p t start s :
  (req_Stream req = true \/ forall v, ~ holds (cache_key t req) v (cache s)) ->
  wp (Stages.handle flushes r req p t start) (fun _ s' => extends (cache s) (cache s')) s.
Proof.
  intros Nc. unfold Stages.handle. destruct (req_Stream req).
  - unfold Gateway.handleStream, Gateway.with_world. apply wp_bind. unfold wp at 1.
    destruct (ChatStream _ _ _ _) as [[evs|e] w]; [|apply extends_refl]. unfold Gateway.respond. cbn [fst snd after].
    do 6 step. eapply wp_mono; [apply stream_loop_cache|]. cbn. intros _ s' ->. apply extends_refl.
  - destruct Nc as [|Nc]; [done|]. apply wp_bind. unfold Gateway.handleSync, Gateway.with_world. apply wp_bind. unfold wp at 1.
    destruct (Chat _ _ _ _) as [[resp|e] w]; [|apply extends_refl]. cbn [fst snd after].
    unfold Gateway.time_Now, Gateway.fail_with, Gateway.respond, Gateway.with_monitor, Gateway.with_logger, Gateway.with_cache.
    do 2 step. destruct resp; [do 14 step|do 4 step; apply extends_refl].
    apply (extends_miss 0 _ (r_ctx r)). destruct (fst (fst _)) as [v|] eqn:E; [|done]. by apply Get_holds in E; destruct (Nc v).
Qed.

Lemma refusal_cache providers r s code msg hdr s0 : Stages.refusal providers r s code msg hdr s0 ->
  X_API_Key r <> ""%string -> cache s0 = cache (snd (Gateway.lookup_tenant r s)).
Proof.
  intros [K|err s1 K Lk|t s1 [_ F] B|t s1 [_ F] B N|t s1 [_ F] Ad Dc|t s1 req [_ F] Ad Dc Nc Sl] Kn; [done|..];
    try (unfold Stages.found in F; rewrite F); [by rewrite Lk|done..|].
  unfold Stages.selected, Stages.asked, Stages.cached_answer. destruct (req_Stream req); [done|]. cbn. apply Get_id.
Qed.

(** From the lookup on, nothing that is held is lost. *)
Lemma ServeHTTP_extends_lookup providers flushes r s : X_API_Key r <> ""%string ->
  wp (Gateway.ServeHTTP providers flushes r) (fun _ s' => extends (cache (snd (Gateway.lookup_tenant r s))) (cache s')) s.
Proof.
  intros K. eapply wp_mono; [apply Stages.ServeHTTP_stage|].
  intros o s' [code msg hdr s0 Rf|s1 _ Lk|t s1 req data [_ F] Ad Dc St Cm|t s1 req p o' s2 [_ F] Ad Dc Nc Sl X].
  - cbn [cache Stages.refused Gateway.put_writer]. rewrite (refusal_cache _ _ _ _ _ _ _ Rf K). apply extends_refl.
  - rewrite Lk. apply extends_refl.
  - unfold Stages.found in F. rewrite F. unfold Stages.asked, Stages.cached_answer. rewrite St. cbn [cache snd Gateway.put_writer Gateway.put_cache].
    rewrite Get_id. apply extends_refl.
  - assert (Ec : cache (Stages.selected providers r req s t s1) = cache s1)
      by (unfold Stages.selected, Stages.asked, Stages.cached_answer; destruct (req_Stream req); [done|apply Get_id]).
    unfold Stages.found in F. rewrite F. cbn [snd]. rewrite <- Ec. refine (wp_run _ _ _ _ _ (handle_extends flushes r req p t _ _ _) X).
    destruct Nc as [Nc|Nc]; [by left|right]. intros v Hv. rewrite Ec in Hv. unfold Stages.cached_answer in Nc.
    apply (Get_holds (now (world s)) (r_ctx r)) in Hv. congruence.
Qed.

Lemma ServeHTTP_extends providers flushes r s :
  wp (Gateway.ServeHTTP providers flushes r) (fun _ s' => extends (cache s) (cache s')) s.
Proof.
  destruct (decide (X_API_Key r = ""%string)) as [K|K]; [apply Stages.wp_no_key; [done|apply extends_refl]|].
  eapply wp_mono; [by apply ServeHTTP_extends_lookup|]. intros o s' E. eapply extends_trans; [apply (lookup_extends r s)|exact E].
Qed.

(** The gateway between two instants: requests, and any change of its
    surroundings. *)
Inductive evolves (providers : list P) (flushes : bool) (s : gw) : gw -> Prop :=
  | evolves_start : evolves providers flushes s s
  | evolves_request r s1 o s2 : evolves providers flushes s s1 ->
      Gateway.ServeHTTP providers flushes r s1 = (o, s2) -> evolves providers flushes s s2
  | evolves_environment s1 s2 : evolves providers flushes s s1 -> cache s2 = cache s1 -> evolves providers flushes s s2.

Lemma evolves_extends providers flushes s s2 : evolves providers flushes s s2 -> extends (cache s) (cache s2).
Proof.
  induction 1 as [|r s1 o s2 _ IH X|s1 s2 _ IH E]; [apply extends_refl| |by rewrite E].
  eapply extends_trans; [exact IH|]. exact (wp_run _ _ _ _ _ (ServeHTTP_extends providers flushes r s1) X).
Qed.

Lemma no_key_status providers flushes r s : X_API_Key r = ""%string -> w_status (writer s) = 0 ->
  wp (Gateway.ServeHTTP providers flushes r) (fun _ s' => w_status (writer s') = StatusUnauthorized) s.
Proof.
  intros E Ws. unfold Gateway.ServeHTTP, Gateway.time_Now, Gateway.fail_with, Gateway.respond. do 2 step.
  rewrite decide_True by done. do 3 step. by apply Refusals.http_Error_status.
Qed.

(** Two requests whose answers are filed under the same key. *)
Definition same_question (r r' : http_request) : Prop :=
  X_API_Key r' = X_API_Key r /\ exists req req',
    Decode (dec_struct Provider.Codec.Request_fields) (r_Body r) Provider.Codec.zero_Request = (req, true) /\
    Decode (dec_struct Provider.Codec.Request_fields) (r_Body r') Provider.Codec.zero_Request = (req', true) /\
    req_Stream req = false /\ req_Stream req' = false /\ req_Model req' = req_Model req /\ messages_of req' = messages_of req.

(** The outcome of asking again in [s2] what was answered in [s'], when it was
    first asked in [s]. *)
Definition replayed (r : http_request) s s' s2 (o2 : outcome bool) s2' : Prop :=
  exists t, fst (Gateway.lookup_tenant r s) = Returns (inl (Some t)) /\
    o2 = Returns true /\ world s2' = world s2 /\ logger s2' = logger s2 /\ monitor s2' = monitor s2 /\
    (Stages.admitted s2 t -> w_status (writer s2') = StatusOK /\ w_body (writer s2') = w_body (writer s') /\
      w_header (writer s2') !! "X-Cache"%string = Some "HIT"%string) /\
    (~ Stages.admitted s2 t -> w_status (writer s2') = StatusTooManyRequests).

(** C13: With the in-memory cache an answered request is answered again from the
    cache, for ever.  After a synchronous request has been answered with 200,
    the same question with the same API key, after any number of other requests
    and whatever the repository, the upstreams and the monitor have become
    meanwhile, reaches no upstream and is not logged: it gets the same body,
    marked as a hit, if the rate limiter admits it, and 429 if not. *)
Theorem ServeHTTP_replay providers flushes r s o s' r2 s2 o2 s2' :
  Forall valid_Tenant (tenants (db s)) -> writer s = empty_response -> same_question r r2 ->
  Gateway.ServeHTTP providers flushes r s = (o, s') -> w_status (writer s') = StatusOK ->
  evolves providers flushes s' s2 -> writer s2 = empty_response ->
  Gateway.ServeHTTP providers flushes r2 s2 = (o2, s2') ->
  replayed r s s' s2 o2 s2'.
Proof.
  intros V Ws (Ek & req & req' & D1 & D2 & S1 & S2 & Em & Ems) X1 Ok Ev Ws2 X2.
  assert (K : forall t, cache_key t req' = cache_key t req) by (intros t; unfold cache_key; by rewrite Em, Ems).
  assert (Concl : forall t s1 data, Stages.known r s t s1 -> Stages.admitted s t -> extends (cache s1) (cache s') ->
    holds (cache_key t req) data (cache s') -> w_body (writer s') = data -> replayed r s s' s2 o2 s2').
  { intros t s1 data [Kn F] [B _] Kt Hr Bd. exists t. split; [by rewrite F|].
    pose proof (evolves_extends _ _ _ _ Ev) as Ex.
    destruct (found_holds r s t s1 V F) as (td & U & Ht). apply Kt, Ex in Ht. apply Ex in Hr.
    pose proof (ServeHTTP_hit providers flushes r2 req' s2 td t data D2 S2) as Hit.
    rewrite Ws2, Ek, K in Hit. specialize (Hit eq_refl Kn Ht U Hr B).
    destruct (wp_run _ _ _ _ _ Hit X2) as (-> & E1 & E2 & E3 & _ & A & N).
    repeat (split; [done|]). split; [|done]. intros Ad. rewrite (A Ad), Bd. split; [done|]. split; [done|].
    cbn. by rewrite lookup_insert_eq. }
  pose proof (wp_run _ _ _ _ _ (Sync.ServeHTTP_ends providers flushes r req s D1 S1) X1) as En.
  destruct En as [code msg hdr s0 Rf|s' _ Lk|t s1 data s' Kn Ad Cm _ _ _ _ Ec' Ew|t s1 p w resp s' Kn Ad Cm Ch Cr (_ & _ & _ & Ec' & Ew) _
    |t s1 p w err s' Kn Ad _ _ _ _ _ _ _ Ew _|t s1 p w e s' Kn Ad _ _ _ _ _ _ _ Ew _].
  - exfalso. destruct (Stages.refusal_frame _ _ _ _ _ _ _ Rf) as (_ & _ & E3 & _).
    destruct (Stages.refusal_header _ _ _ _ _ _ _ Rf) as (N0 & N1 & _ & Hd).
    cbn [writer Stages.refused Gateway.put_writer] in Ok. rewrite Refusals.http_Error_status in Ok; [done| |done]. by rewrite Hd, E3, Ws.
  - destruct (wp_run _ _ _ _ _ (Stages.lookup_frame r s) Lk) as (_ & _ & _ & _ & E). rewrite E, Ws in Ok. discriminate.
  - apply (Concl t s1 data); [done|done|rewrite Ec'; unfold Stages.cached_answer; rewrite Get_id; apply extends_refl| |by rewrite Ew, Ws].
    rewrite Ec'. unfold Stages.cached_answer. rewrite Get_id. by apply (Get_holds (now (world s)) (r_ctx r)).
  - apply (Concl t s1 (Gateway.response_body resp)); [done|done|..|by rewrite Ew, Ws]; rewrite Ec'; unfold Stages.cached_answer in *; rewrite Get_id.
    + by eapply extends_miss.
    + unfold holds. simpl. by rewrite lookup_insert_eq.
  - rewrite Ew, Ws in Ok. discriminate.
  - rewrite Ew, Ws in Ok. discriminate.
Qed.

Lemma ServeHTTP_files providers flushes r s t s1 o s' : Forall valid_Tenant (tenants (db s)) ->
  X_API_Key r <> ""%string -> Stages.found r s t s1 -> Gateway.ServeHTTP providers flushes r s = (o, s') ->
  exists td, Db.Codec.unmarshal_Tenant td = Some t /\ holds (tenant_key (X_API_Key r)) td (cache s').
Proof.
  intros V K F X. destruct (found_holds r s t s1 V F) as (td & U & Hd). exists td. split; [done|].
  pose proof (wp_run _ _ _ _ _ (ServeHTTP_extends_lookup providers flushes r s K) X) as Ex.
  unfold Stages.found in F. rewrite F in Ex. by apply Ex.
Qed.

Context `{!HealthMonitorLaws Mon} `{!ProviderSelectorLaws Mon P}.

(** C20: With the in-memory cache the budget of a tenant is checked against its
    spending at the first request, for ever: once a request has found a tenant
    with budget left, no later request with that API key is refused for the
    budget, whatever the budget processor has written to the repository since;
    once one was refused for it, all later ones are, even after a top-up. *)
Theorem Memory_budget_frozen providers flushes r s t s1 o s2 s3 r' o' s' :
  Forall valid_Tenant (tenants (db s)) -> X_API_Key r <> ""%string ->
  Stages.found r s t s1 -> Gateway.ServeHTTP providers flushes r s = (o, s2) ->
  evolves providers flushes s2 s3 -> X_API_Key r' = X_API_Key r ->
  Gateway.ServeHTTP providers flushes r' (Gateway.put_writer empty_response s3) = (o', s') ->
  (w_status (writer s') = StatusPaymentRequired <-> Gateway.budget_exhausted t = true).
Proof.
  intros V K F X Ev Ek X'. destruct (ServeHTTP_files providers flushes r s t s1 o s2 V K F X) as (td & U & Hd).
  pose proof (evolves_extends _ _ _ _ Ev _ _ Hd) as Hd3. rewrite <- Ek in Hd3, K.
  set (s4 := Gateway.put_writer empty_response s3) in *.
  pose proof (holds_found r' s4 td t Hd3 U) as F'. assert (Kn : Stages.known r' s4 t (Gateway.put_cache (cache s4) s4)) by done. split.
  - intros E. destruct (wp_run _ _ _ _ _ (Refusals.ServeHTTP_status providers flushes r' s4 eq_refl) X') as [(code & Rf)|A].
    + destruct Rf as (msg & hdr & s0 & Rf & _ & _ & Ec & _). rewrite E in Ec. remember StatusPaymentRequired as c eqn:Eq. rewrite <- Ec in Rf.
      destruct Rf as [| |t' s1' [_ Lk] B| | |]; try discriminate Eq. unfold Stages.found in Lk, F'. rewrite F' in Lk. injection Lk as <- _.
      by apply Stages.exhausted.
    + rewrite E in A. destruct A as [A|[A|A]]; discriminate A.
  - intros B. apply Stages.exhausted in B.
    rewrite (Stages.refusal_runs providers flushes _ _ _ _ _ _ (Stages.no_budget providers r' s4 t _ Kn B)) in X'. injection X' as _ <-.
    by apply Refusals.http_Error_status.
Qed.
End memory.
End InMemoryCache.

(** ** Keys of the cached answers *)

Lemma hex_length64 s : String.length (hex (Sum256 s)) = 64%nat.
Proof. apply key_hash_length. Qed.

(** A string without colons. *)
Fixpoint no_colon (s : string) : bool :=
  match s with
  | EmptyString => true
  | String a s => negb (Ascii.eqb a ":") && no_colon s
  end.

Lemma split_at_colon s t u v : no_colon s = true -> no_colon t = true ->
  (s ++ ":" ++ u = t ++ ":" ++ v)%string -> s = t /\ u = v.
Proof.
  revert t. induction s as [|a s IH]; intros [|b t]; simpl; intros Ns Nt E.
  - by injection E.
  - injection E as <- E. discriminate Nt.
  - injection E as -> E. discriminate Ns.
  - apply andb_prop in Ns as [_ Ns]. apply andb_prop in Nt as [_ Nt]. injection E as -> E.
    destruct (IH t Ns Nt E) as [-> ->]. done.
Qed.

Lemma append_length s t : String.length (s ++ t) = (String.length s + String.length t)%nat.
Proof. induction s as [|a s IH]; [done|exact (f_equal S IH)]. Qed.

Lemma split_at_end s t u v : String.length u = String.length v -> (s ++ u = t ++ v)%string -> s = t /\ u = v.
Proof.
  revert t. induction s as [|a s IH]; intros [|b t] L E; [done|..].
  - apply (f_equal String.length) in E. rewrite !append_length in E. simpl in E. lia.
  - apply (f_equal String.length) in E. rewrite !append_length in E. simpl in E. lia.
  - simpl in E. injection E as -> E. destruct (IH t L E) as [-> ->]. done.
Qed.

(** C21: Cached answers are not shared between tenants or models: when the IDs
    have no colon (they are UUIDs), equal keys mean the same tenant, the same
    model and the same hash of the messages, and no key of an answer is a key
    of a tenant.  *)
Theorem cache_key_isolates t1 t2 r1 r2 :
  no_colon (ID t1) = true -> no_colon (ID t2) = true -> cache_key t1 r1 = cache_key t2 r2 ->
  ID t1 = ID t2 /\ req_Model r1 = req_Model r2 /\
  Sum256 (fmt_messages (messages_of r1)) = Sum256 (fmt_messages (messages_of r2)) /\
  (forall apiKey, cache_key t1 r1 <> tenant_key apiKey).
Proof.
  unfold cache_key. intros N1 N2 E. apply (inj (String.append "cache:")) in E.
  destruct (split_at_colon _ _ _ _ N1 N2 E) as [EI E'].
  assert (E2 : ((req_Model r1 ++ ":") = (req_Model r2 ++ ":"))%string /\
    hex (Sum256 (fmt_messages (messages_of r1))) = hex (Sum256 (fmt_messages (messages_of r2)))).
  { apply split_at_end; [by rewrite !hex_length64|]. by rewrite !append_assoc. }
  destruct E2 as [EM EH]. destruct (split_at_end _ _ ":" ":" eq_refl EM) as [EM' _].
  split; [done|]. split; [done|]. split.
  { apply hex_inj; [apply Sum256_bytes..|exact EH]. }
  discriminate.
Qed.

(** The hash is that of the printed messages: within one tenant, two messages
    and a single one that is continued like a second message share an answer. *)
Lemma cache_keys_collide t model role content role' content' stream :
  cache_key t {| req_Model := model; req_Stream := stream;
    req_Messages := Some [{| Role := role; Content := content |}; {| Role := role'; Content := content' |}] |} =
  cache_key t {| req_Model := model; req_Stream := stream;
    req_Messages := Some [{| Role := role; Content := content ++ "} {" ++ role' ++ " " ++ content' |}] |}.
Proof. unfold cache_key. do 6 f_equal. unfold fmt_messages. simpl. by rewrite !append_assoc. Qed.

(** Two different conversations of one tenant under one key: their hashes agree. *)
Lemma cache_key_isolates_witness :
  let t := Deployment.tenant "t-1" "k" 1 None in
  let r1 := {| req_Model := "gpt-4o"; req_Stream := false;
               req_Messages := Some [{| Role := "user"; Content := "a" |}; {| Role := "user"; Content := "b" |}] |}%string in
  let r2 := {| req_Model := "gpt-4o"; req_Stream := false; req_Messages := Some [{| Role := "user"; Content := "a} {user b" |}] |}%string in
  r1 <> r2 /\ Sum256 (fmt_messages (messages_of r1)) = Sum256 (fmt_messages (messages_of r2)).
Proof.
  intros t r1 r2. split; [discriminate|].
  apply (cache_key_isolates t t r1 r2 eq_refl eq_refl (cache_keys_collide t "gpt-4o" "user" "a" "user" "b" false)).
Defined.

(** ** Streams *)

Module Streams.
Section streams.
Context {W D L C Mon G P : Type}.
Context `{Clock W} `{TenantRepository D} `{Limiter L} `{Cache C} `{HealthMonitor Mon}
  `{Provider W P} `{Streamer W P} `{Logger G} `{ProviderSelector Mon P}.
Abbreviation gw := (gateway W D L C Mon G).
Implicit Types s : gw.

Definition frame (c : ChatChunk) : string := "data: " ++ chunk_Content c ++ NL ++ NL.
Definition write_frames (cs : list ChatChunk) (w : response) : response := fold_left (fun w c => Write (frame c) w) cs w.

Definition total (f : ChatChunk -> Z) (cs : list ChatChunk) (n : Z) : Z := fold_left (fun n c => wrap64 (n + f c)) cs n.

(** The chunks and nil errors before the event that ends a stream. *)
Definition running (e : stream_event) : bool := match e with EvChunk _ | EvNoError => true | _ => false end.
Definition chunks_of (es : list (Z * stream_event)) : list ChatChunk :=
  flat_map (fun e => match snd e with EvChunk c => [c] | _ => [] end) es.

(** The event that is logged for a stream: the tokens are summed, the cost is 0. *)
Definition stream_log (p : P) (req : ChatRequest) (tenant : Tenant) (start t : Z) (cs : list ChatChunk) (tp tc : Z) : LogEvent :=
  {| RequestID := ""; TenantID := ID tenant; ev_Provider := Name p; ev_Model := req_Model req;
     ev_PromptTokens := total chunk_PromptTokens cs tp; ev_CompletionTokens := total chunk_CompletionTokens cs tc;
     CostCents := f_of_int 0; LatencyMs := Milliseconds (Time_Sub t start); Status := 200; Cached := false; Timestamp := t |}.

(** What the event that ends a stream does. *)
Definition final (r : http_request) (p : P) (event : LogEvent) (t : Z) (e : stream_event) s : gw :=
  match e with
  | EvChunksClosed => Gateway.put_logger (snd (Broadcast (r_ctx r) event (snd (Log (r_ctx r) event (logger s))))) s
  | EvError _ => Gateway.put_monitor (RecordError t (Name p) 502 (monitor s)) s
  | _ => s
  end.

Lemma stream_loop_run r p req tenant start t e rest es : forall tp tc s,
  Forall (fun x => running (snd x) = true) es -> running e = false ->
  Gateway.stream_loop true r p req tenant start tp tc (es ++ (t, e) :: rest) s =
  (Returns true, final r p (stream_log p req tenant start t (chunks_of es) tp tc) t e
     (Gateway.put_writer (write_frames (chunks_of es) (writer s)) s)).
Proof.
  induction es as [|[u ev] es IH]; intros tp tc s F Rn.
  - destruct s. destruct e; try done; cbn.
    unfold Gateway.with_logger, mbind, M_bind, zoom. cbn. destruct (Log _ _ _) as [x1 g1]. cbn.
    by destruct (Broadcast _ _ _).
  - apply Forall_cons in F as [F1 F]. destruct ev; try done; cbn [app Gateway.stream_loop].
    + unfold Gateway.respond, mbind, M_bind, modify, mret, M_ret. cbn -[Gateway.stream_loop frame]. rewrite IH by done. done.
    + by apply IH.
Qed.

Lemma write_frames_body cs : forall w, w_body (write_frames cs w) = (w_body w ++ String.concat "" (frame <$> cs))%string.
Proof.
  assert (Cc : forall x xs, String.concat "" (x :: xs) = (x ++ String.concat "" xs)%string)
    by (intros x [|y xs]; simpl; [by rewrite append_nil_r|done]).
  unfold write_frames. induction cs as [|c cs IH]; intros w; cbn [fold_left fmap list_fmap].
  { by rewrite append_nil_r. }
  assert (B : w_body (Write (frame c) w) = (w_body w ++ frame c)%string) by (unfold Write, WriteHeader; by case_match).
  by rewrite IH, Cc, B, append_assoc.
Qed.

(** C19: What a stream does, whatever its events: every chunk before the event
    that ends it is written as one frame, in order; when the chunks are closed,
    one event is logged and broadcast, with the tokens of all chunks added up
    in wrapping arithmetic but a cost of zero, so that no stream is ever
    billed; an error is recorded for the provider and ends the response
    without a word; and the end of the request leaves no trace at all. *)
Theorem handleStream_effect r p req tenant start t e rest es s w :
  ChatStream p (r_ctx r) req (world s) = (Returns (es ++ (t, e) :: rest), w) ->
  Forall (fun x => running (snd x) = true) es -> running e = false ->
  exists s', Gateway.handleStream true r p req tenant start s = (Returns true, s') /\
    w_body (writer s') = (w_body (writer s) ++ String.concat "" (frame <$> chunks_of es))%string /\
    world s' = w /\ db s' = db s /\ limiter s' = limiter s /\ cache s' = cache s /\
    monitor s' = match e with EvError _ => RecordError t (Name p) 502 (monitor s) | _ => monitor s end /\
    logger s' = match e with
                | EvChunksClosed =>
                    let event := stream_log p req tenant start t (chunks_of es) 0 0 in
                    snd (Broadcast (r_ctx r) event (snd (Log (r_ctx r) event (logger s))))
                | _ => logger s
                end.
Proof.
  intros E F Rn. eexists. split.
  { unfold Gateway.handleStream, Gateway.with_world, Gateway.respond, mbind, M_bind, modify. rewrite E.
    cbn -[Gateway.stream_loop]. by apply stream_loop_run. }
  split; [|by destruct e].
  replace (w_body (writer s)) with (w_body (header_Set "Connection" "keep-alive" (header_Set "Cache-Control" "no-cache"
    (header_Set "Content-Type" "text/event-stream" (writer s))))) by done.
  rewrite <- write_frames_body. by destruct e.
Qed.
End streams.
End Streams.

(** ** Witnesses *)

Lemma ledger_valid : Forall valid_Tenant (all Deployment.ledger).
Proof. apply (bool_decide_unpack (Forall valid_Tenant _)). by vm_compute. Qed.

Lemma handleStream_effect_witness : exists s',
  Gateway.handleStream true (Deployment.request "k" "") Deployment.openai Provider.Codec.zero_Request
    (Deployment.tenant "t-1" "k" 1 None) 0 Deployment.start = (Returns true, s') /\
  w_body (writer s') = ("data: Hel" ++ NL ++ NL ++ "data: lo" ++ NL ++ NL)%string /\
  map ev_CompletionTokens (logged (logger s')) = [4].
Proof.
  destruct (Streams.handleStream_effect (Deployment.request "k" "") Deployment.openai Provider.Codec.zero_Request
    (Deployment.tenant "t-1" "k" 1 None) 0 4 EvChunksClosed [] (take 3 (u_events Deployment.openai)) Deployment.start
    (0, [Deployment.openai])) as (s' & E & B & _ & _ & _ & _ & _ & Lg); [done|by repeat constructor|done|].
  exists s'. split; [exact E|]. rewrite B, Lg. split; by vm_compute.
Defined.

(** Claim by claim: the first request of a tenant is answered by the upstream. *)
Lemma ServeHTTP_sync_witness : exists o s',
  Gateway.ServeHTTP Deployment.providers true (Deployment.request "sk-kenbun-test" Deployment.body) Deployment.start = (o, s') /\
  Sync.ends Deployment.providers (Deployment.request "sk-kenbun-test" Deployment.body)
    (fst (Decode (dec_struct Provider.Codec.Request_fields) Deployment.body Provider.Codec.zero_Request)) Deployment.start o s'.
Proof.
  eexists _, _. split; [apply surjective_pairing|].
  apply (Sync.ServeHTTP_sync Deployment.providers true); [by vm_compute|by vm_compute|apply surjective_pairing].
Defined.

(** The same question again, after a question of another tenant. *)
Lemma ServeHTTP_replay_witness :
  let r := Deployment.request "sk-kenbun-test" Deployment.body in
  let s1 := snd (Deployment.serve r Deployment.start) in
  let s2 := Gateway.put_writer empty_response (snd (Deployment.serve_next (Deployment.request "sk-other" Deployment.body) s1)) in
  InMemoryCache.replayed r Deployment.start s1 s2 (fst (Deployment.serve r s2)) (snd (Deployment.serve r s2)).
Proof.
  intros r.
  assert (Q : InMemoryCache.same_question r r).
  { split; [reflexivity|]. eexists _, _. split; [vm_compute; reflexivity|]. split; [vm_compute; reflexivity|]. repeat split. }
  unfold Deployment.serve_next, Deployment.serve.
  assert (G : forall r' x, Gateway.ServeHTTP Deployment.providers true r Deployment.start = x ->
    w_status (writer (snd x)) = StatusOK ->
    let z := Gateway.ServeHTTP Deployment.providers true r' (Gateway.put_writer empty_response (snd x)) in
    let s2 := Gateway.put_writer empty_response (snd z) in
    let y := Gateway.ServeHTTP Deployment.providers true r s2 in
    InMemoryCache.replayed r Deployment.start (snd x) s2 (fst y) (snd y)).
  { intros r' [o s1] X E z s2 y.
    assert (Ev : InMemoryCache.evolves Deployment.providers true s1 s2).
    { apply (InMemoryCache.evolves_environment _ _ s1 (snd z)); [|reflexivity].
      apply (InMemoryCache.evolves_request _ _ s1 r' (Gateway.put_writer empty_response s1) (fst z)); [|apply surjective_pairing].
      apply (InMemoryCache.evolves_environment _ _ s1 s1); [apply InMemoryCache.evolves_start|reflexivity]. }
    exact (InMemoryCache.ServeHTTP_replay Deployment.providers true r Deployment.start o s1 r s2 _ _ ledger_valid eq_refl Q
      X E Ev eq_refl (surjective_pairing y)). }
  assert (E : w_status (writer (snd (Gateway.ServeHTTP Deployment.providers true r Deployment.start))) = StatusOK) by by vm_compute.
  exact (G _ _ eq_refl E).
Defined.

(** The tenant spends its budget after its first request. *)
Lemma Memory_budget_frozen_witness :
  let r := Deployment.request "sk-kenbun-test" Deployment.body in
  let x := Deployment.serve r Deployment.start in
  let spent := {| all := map (spend "t-1" 2000) (all Deployment.ledger) |} in
  w_status (writer (snd (Deployment.serve_next r (Gateway.put_db spent (snd x))))) <> StatusPaymentRequired.
Proof.
  intros r. set (t := Deployment.tenant "t-1" "sk-kenbun-test" 100 None).
  assert (F : Stages.found r Deployment.start t (snd (Gateway.lookup_tenant r Deployment.start))) by by vm_compute.
  unfold Deployment.serve_next, Deployment.serve.
  assert (G : forall x d, Gateway.ServeHTTP Deployment.providers true r Deployment.start = x ->
    w_status (writer (snd (Gateway.ServeHTTP Deployment.providers true r
      (Gateway.put_writer empty_response (Gateway.put_db d (snd x)))))) <> StatusPaymentRequired).
  { intros [o s2] d X Y. set (y := Gateway.ServeHTTP _ _ _ _) in Y.
    assert (K : X_API_Key r <> ""%string) by discriminate.
    pose proof (InMemoryCache.Memory_budget_frozen Deployment.providers true r Deployment.start t _ o s2 (Gateway.put_db d s2) r
      (fst y) (snd y) ledger_valid K F X
      (InMemoryCache.evolves_environment _ _ s2 s2 (Gateway.put_db d s2) (InMemoryCache.evolves_start _ _ _) eq_refl) eq_refl (surjective_pairing y)) as [H _].
    apply H in Y. revert Y. by vm_compute. }
  exact (G _ {| all := map (spend "t-1" 2000) (all Deployment.ledger) |} eq_refl).
Defined.
