(* ===== verification/Enforcement.v ===== *)
(** * Enforcement: how soon the gateway acts on an exhausted budget
    (internal/router/handler.go, internal/cache/cache.go)

    The handler checks the budget of the tenant that it finds in its cache,
    while the budget processor updates the repository.  The theorem bounds the
    time between the two, against any cache that bounds how long it serves an
    entry ([FreshCacheLaws]), of which the two-tier cache is an instance. *)

From S2P Require Import Prelude Rounding Binary64 Float64 GoTypes Json Decode Sha256 Monitor GoSort Selector Provider RateLimit Resilient Cache Db Logging Budget Handler Stages Requests.
Local Open Scope Z_scope.

Section enforcement.
Context {W D L C Mon G P : Type} {slack : Z}.
Context `{Clock W} `{TenantRepositoryLaws D} `{Limiter L} `{FreshCacheLaws C slack} `{HealthMonitorLaws Mon}
  `{Provider W P} `{Streamer W P} `{Logger G} `{ProviderSelector Mon P} `{!ProviderSelectorLaws Mon P}.
Abbreviation gw := (gateway W D L C Mon G).
Implicit Types s : gw.

Context (providers : list P) (flushes : bool).

(** The clock does not go back while an upstream answers. *)
Context (Chat_forward : forall (p : P) ctx req (w : W), now w <= now (snd (Chat p ctx req w))).
Context (ChatStream_forward : forall (p : P) ctx req (w : W), now w <= now (snd (ChatStream p ctx req w))).

(** What was stored when the entries of [c] were, [c'] may serve. *)
Definition no_newer (c c' : C) (k data : string) (e : Z) : Prop := exists e', fresh c k data e' /\ e <= e'.

(** ** Before *)

(** The gateway from an empty cache on: its requests, and whatever its
    surroundings do.  Other gateways may file tenants in the shared tier, for
    five minutes like this one. *)
Inductive runs : gw -> Prop :=
  | runs_start s : (forall k data e, ~ fresh (cache s) k data e) -> runs s
  | runs_request r s o s' : runs s ->
      Gateway.ServeHTTP providers flushes r (Gateway.put_writer empty_response s) = (o, s') -> runs s'
  | runs_environment s s' : runs s -> now (world s) <= now (world s') ->
      (forall apiKey data e, fresh (cache s') (tenant_key apiKey) data e ->
         no_newer (cache s) (cache s') (tenant_key apiKey) data e \/ e <= now (world s') + 5 * Minute + slack) -> runs s'.

(** No cached tenant is served after [deadline]. *)
Definition gone_by (deadline : Z) (c : C) : Prop :=
  forall apiKey data e, fresh c (tenant_key apiKey) data e -> e <= deadline.

Lemma gone_by_Get deadline t ctx k c : gone_by deadline c -> gone_by deadline (snd (Get t ctx k c)).
Proof. intros G0 a data e F. destruct (Get_keeps_fresh t ctx k c _ _ _ F) as (e' & F' & Le). specialize (G0 a data e' F'). lia. Qed.

Lemma tenant_key_apart k tenant req : tenant_key k <> cache_key tenant req.
Proof. discriminate. Qed.

Lemma gone_by_Set_response deadline t ctx tenant req v c : gone_by deadline c ->
  gone_by deadline (snd (Set_ t ctx (cache_key tenant req) v Hour c)).
Proof.
  intros G0 a data e F. destruct (Set_keeps_fresh t ctx _ v Hour c _ _ e ltac:(done) F) as [(e' & F' & Le)|(E & _)].
  - specialize (G0 a data e' F'). lia.
  - by destruct (tenant_key_apart a tenant req).
Qed.

Lemma runs_recent s : runs s -> gone_by (now (world s) + 5 * Minute + slack) (cache s).
Proof.
  induction 1 as [s E|r s o s' _ IH X|s s' _ IH T En].
  - intros a data e F. by destruct (E _ _ _ F).
  - set (deadline := now (world s) + 5 * Minute + slack) in *. set (s1 := Gateway.put_writer empty_response s) in *.
    assert (Ok : Keeps.ok (gone_by deadline) (fun w => now (world s) <= now w) (fun _ => True) s1)
      by (split; [done|split; [simpl; lia|done]]).
    assert (Kp : wp (Gateway.ServeHTTP providers flushes r)
      (fun _ s' => Keeps.ok (gone_by deadline) (fun w => now (world s) <= now w) (fun _ => True) s') s1).
    { apply Keeps.ServeHTTP_keeps; [apply gone_by_Get|apply gone_by_Set_response|..|done|done|].
      - intros p ctx req w Le. pose proof (Chat_forward p ctx req w). lia.
      - intros p ctx req w Le. pose proof (ChatStream_forward p ctx req w). lia.
      - intros tenant _ a data e F. apply Set_keeps_fresh in F as [(e' & F & Le)|(_ & _ & Le)]; [|exact Le|done].
        apply (gone_by_Get deadline) in F; [lia|exact IH]. }
    destruct (wp_run _ _ _ _ _ Kp X) as (G0 & Le & _). intros a data e F. specialize (G0 a data e F). unfold deadline in G0. lia.
  - intros a data e F. destruct (En a data e F) as [(e' & F' & Le)|Le]; [|exact Le]. specialize (IH a data e' F'). lia.
Qed.

(** ** After *)

Context (apiKey : string).

(** In the repository, the tenant of the key has spent its budget. *)
Definition drained (d : D) : Prop := forall t, t ∈ tenants d -> APIKeyHash t = key_hash apiKey ->
  valid_Tenant t /\ Gateway.budget_exhausted t = true.

(** A cached tenant that has. *)
Definition shows_drained (data : string) : Prop :=
  exists t, Db.Codec.unmarshal_Tenant data = Some t /\ Gateway.budget_exhausted t = true.

Definition settled (deadline : Z) (c : C) : Prop :=
  forall data e, fresh c (tenant_key apiKey) data e -> shows_drained data \/ e <= deadline.

(** The gateway while the budget stays spent: requests, and whatever the
    surroundings do - the processor may bill, the admin may create tenants,
    other gateways may file the tenant as it is. *)
Inductive evolves s : gw -> Prop :=
  | evolves_start : drained (db s) -> evolves s s
  | evolves_request r s1 o s2 : evolves s s1 ->
      Gateway.ServeHTTP providers flushes r (Gateway.put_writer empty_response s1) = (o, s2) -> evolves s s2
  | evolves_environment s1 s2 : evolves s s1 -> drained (db s2) ->
      (forall data e, fresh (cache s2) (tenant_key apiKey) data e ->
         no_newer (cache s1) (cache s2) (tenant_key apiKey) data e \/ shows_drained data) -> evolves s s2.

Lemma settled_Get deadline t ctx k c : settled deadline c -> settled deadline (snd (Get t ctx k c)).
Proof.
  intros S0 data e F. destruct (Get_keeps_fresh t ctx k c _ _ _ F) as (e' & F' & Le).
  destruct (S0 data e' F'); [by left|right; lia].
Qed.

Lemma settled_Set_response deadline t ctx tenant req v c : settled deadline c ->
  settled deadline (snd (Set_ t ctx (cache_key tenant req) v Hour c)).
Proof.
  intros S0 data e F. destruct (Set_keeps_fresh t ctx _ v Hour c _ _ e ltac:(done) F) as [(e' & F' & Le)|(E & _)].
  - destruct (S0 data e' F'); [by left|right; lia].
  - by destruct (tenant_key_apart apiKey tenant req).
Qed.

Lemma drained_tenants d d' : tenants d' = tenants d -> drained d -> drained d'.
Proof. intros E Dr t. rewrite E. apply Dr. Qed.

(** What is filed under the key was found in the repository. *)
Lemma settled_fill deadline r s tenant : drained (db s) -> settled deadline (cache s) -> Keeps.fills r s tenant ->
  settled deadline (Keeps.filed r s tenant).
Proof.
  intros Dr S0 [_ Fd] data e F.
  apply Set_keeps_fresh in F as [(e' & F & Le)|(E & -> & _)]; [| |done].
  - apply (settled_Get deadline) in F; [|done]. destruct F; [by left|right; lia].
  - left. unfold tenant_key in E. apply (inj (String.append "tenant:key:")) in E. apply Find_found in Fd as [I A].
    destruct (Dr tenant I) as [V B]; [congruence|]. exists tenant. split; [by apply unmarshal_marshal_Tenant|done].
Qed.

Lemma evolves_settled deadline s s' : settled deadline (cache s) -> evolves s s' ->
  drained (db s') /\ settled deadline (cache s').
Proof.
  intros S0. induction 1 as [Dr|r s1 o s2 _ [Dr IH] X|s1 s2 _ [Dr IH] Dr2 En]; [done|..].
  - set (s3 := Gateway.put_writer empty_response s1) in *.
    assert (Kp : wp (Gateway.ServeHTTP providers flushes r) (fun _ s' => Keeps.ok (settled deadline) (fun _ => True) drained s') s3).
    { apply Keeps.ServeHTTP_keeps; [apply settled_Get|apply settled_Set_response|done|done|..|exact (conj IH (conj Logic.I Dr))|].
      - intros ctx hash d. apply drained_tenants, Find_keeps.
      - intros tenant. by apply settled_fill. }
    destruct (wp_run _ _ _ _ _ Kp X) as (S2 & _ & D2). done.
  - split; [done|]. intros data e F. destruct (En data e F) as [(e' & F' & Le)|]; [|by left].
    destruct (IH data e' F'); [by left|right; lia].
Qed.

(** A tenant that is found after the deadline has spent its budget. *)
Lemma found_drained deadline r s : X_API_Key r = apiKey -> drained (db s) -> settled deadline (cache s) ->
  deadline < now (world s) ->
  wp (Gateway.lookup_tenant r) (fun o _ =>
    match o with Returns (inl (Some t)) => Gateway.budget_exhausted t = true | Returns (inr _) => True | _ => False end) s.
Proof.
  intros K Dr S0 T. unfold Gateway.lookup_tenant, Gateway.time_Now, Gateway.with_cache, Gateway.with_db. do 4 step. rewrite K.
  destruct (fst (fst (Get _ _ _ _))) as [data|] eqn:E.
  - step. destruct (Get_fresh _ _ _ _ _ E) as (e & F & Le). destruct (S0 data e F) as [(t & U & B)|]; [|lia]. by rewrite U.
  - do 2 step. set (f := GetTenantByAPIKeyHash _ _ _).
    pose proof (Find_found (r_ctx r) (key_hash apiKey) (db s)) as Ff. fold f in Ff.
    destruct (fst f) as [tenant|err]; cbn [after]; [do 5 step|by step]. destruct (Ff tenant eq_refl) as [I A]. by apply (Dr tenant).
Qed.

(** C3: An exhausted budget is enforced within fifteen minutes.  Once the
    repository shows that the tenant of a key has spent its budget, and while
    it keeps doing so, then - whatever was cached before, whatever requests
    are served and whatever other gateways do - every request with that key
    that arrives more than five minutes and the slack of the cache later (ten
    minutes for the two tiers) is refused, with 402, or with 401 if the
    repository does not answer; it reaches no upstream and is not logged. *)
Theorem budget_enforced s0 s r o s' :
  runs s0 -> evolves s0 s -> X_API_Key r = apiKey -> now (world s0) + 5 * Minute + slack < now (world s) ->
  Gateway.ServeHTTP providers flushes r (Gateway.put_writer empty_response s) = (o, s') ->
  o = Returns true /\ (w_status (writer s') = StatusPaymentRequired \/ w_status (writer s') = StatusUnauthorized) /\
  world s' = world s /\ logger s' = logger s /\ monitor s' = monitor s.
Proof.
  intros Rs Ev K T X. set (deadline := now (world s0) + 5 * Minute + slack) in *.
  assert (S0 : settled deadline (cache s0)) by (intros data e F; right; by apply (runs_recent s0 Rs apiKey data)).
  destruct (evolves_settled deadline s0 s S0 Ev) as [Dr S1]. set (s1 := Gateway.put_writer empty_response s) in *.
  assert (Wp : wp (Gateway.ServeHTTP providers flushes r) (fun o s' => o = Returns true /\
    (w_status (writer s') = StatusPaymentRequired \/ w_status (writer s') = StatusUnauthorized) /\
    world s' = world s /\ logger s' = logger s /\ monitor s' = monitor s) s1).
  { unfold Gateway.ServeHTTP, Gateway.time_Now, Gateway.fail_with, Gateway.respond. do 2 step.
    case_decide; [do 3 step; split; [done|split; [by right|done]]|]. step.
    apply wp_intro. intros o1 s2 Lk.
    pose proof (wp_run _ _ _ _ _ (found_drained deadline r s1 K Dr S1 T) Lk) as Fd.
    pose proof (wp_run _ _ _ _ _ (Stages.lookup_frame r s1) Lk) as (E1 & _ & E3 & E4 & E5).
    destruct o1 as [[[t|]|err]|pn]; cbn [after]; [|done| |done].
    - unfold Gateway.check_limits, Gateway.fail_with, Gateway.respond. rewrite Fd. do 3 step.
      split; [done|]. split; [left; rewrite E5; by apply Refusals.http_Error_status|done].
    - do 3 step. split; [done|]. split; [right; rewrite E5; by apply Refusals.http_Error_status|done]. }
  exact (wp_run _ _ _ _ _ Wp X).
Qed.
End enforcement.

(** ** A scenario *)

Module Scenario.

(** One upstream that answers after a tenth of a second; the world is the time. *)
#[export] Instance steady_Provider : Provider Z unit := {|
  Name := fun _ => "openai"%string;
  Chat := fun _ ctx req w => (Returns (inl Deployment.reply), w + 100 * Millisecond)
|}.
#[export] Instance steady_Streamer : Streamer Z unit := {| ChatStream := fun _ ctx req w => (Returns [], w) |}.
#[export] Existing Instances Deployment.clock Deployment.journal_Logger InsertionAsLargeSort.sort InsertionAsLargeSort.laws.
#[export] Instance selector : ProviderSelector EWMAMonitor unit := LatencyAwareSelector (H0 := provider_Named (W := Z)).
#[export] Instance selector_laws : ProviderSelectorLaws EWMAMonitor unit (H1 := provider_Named (W := Z)) := LatencyAwareSelector_laws.

Abbreviation gw := (gateway Z Ledger TokenBucket (TwoTierCache Timed Timed) EWMAMonitor journal).

Definition tenant (spent : Z) : Tenant := Db.Codec.set_SpentCents spent (Deployment.tenant "t-1" "sk" 100 None).

Definition start : gw :=
  {| world := 0; db := {| all := [tenant 7] |}; limiter := TB.NewTokenBucket 0; cache := Cache.Scenario.empty;
     monitor := EWMA.NewEWMAMonitor; logger := {| logged := []; broadcast := [] |}; writer := empty_response |}.

Definition ask (s : gw) : outcome bool * gw :=
  Gateway.ServeHTTP [()] true (Deployment.request "sk" Deployment.body) (Gateway.put_writer empty_response s).

(** After a first request the budget is used up; then time passes. *)
Definition served : gw := snd (ask start).
Definition spent : gw := Gateway.put_db {| all := [tenant 1000] |} served.
Definition at_time (t : Z) (s : gw) : gw := Gateway.put_world t s.

Lemma start_nothing_fresh k v e : ~ fresh (cache start) k v e.
Proof. intros [X|X]; cbn in X; unfold timed_holds in X; simpl in X; by rewrite lookup_empty in X. Qed.

Lemma spent_drained : drained "sk" (db spent).
Proof.
  unfold spent. rewrite (eq_refl : db (Gateway.put_db {| all := [tenant 1000] |} served) = {| all := [tenant 1000] |}).
  intros t I _. apply list_elem_of_singleton in I as ->. split; [|by vm_compute].
  apply (bool_decide_unpack (valid_Tenant (tenant 1000))). by vm_compute.
Qed.

(** Four minutes later the first tier still answers with the old tenant. *)
Lemma still_served : w_status (writer (snd (ask (at_time (4 * Minute) spent)))) = StatusOK.
Proof. by vm_compute. Qed.

Lemma steady_forward (p : unit) ctx req (w : Z) : now w <= now (snd (Chat p ctx req w)).
Proof. simpl. unfold Millisecond. lia. Qed.

Lemma steady_stream_forward (p : unit) ctx req (w : Z) : now w <= now (snd (ChatStream p ctx req w)).
Proof. exact (Z.le_refl w). Qed.

Lemma runs_put_db d (s : gw) : runs [()] true s -> runs [()] true (Gateway.put_db d s).
Proof. intros R. apply (runs_environment _ _ s); [exact R|exact (Z.le_refl _)|]. intros a data e F. left. by exists e. Qed.

Lemma spent_runs : runs [()] true spent.
Proof.
  apply runs_put_db.
  apply (runs_request _ _ (Deployment.request "sk" Deployment.body) start (fst (ask start)) served); [apply runs_start, start_nothing_fresh|].
  exact (surjective_pairing (ask start)).
Qed.

Lemma evolves_at_time t (s : gw) : drained "sk" (db s) -> evolves [()] true "sk" s (at_time t s).
Proof.
  intros Dr. apply (evolves_environment _ _ _ s s); [by apply evolves_start|exact Dr|]. intros data e F. left. by exists e.
Qed.

End Scenario.

Import (hints) Scenario.

Lemma budget_enforced_witness :
  w_status (writer (snd (Scenario.ask (Scenario.at_time (4 * Minute) Scenario.spent)))) = StatusOK /\
  let s' := snd (Scenario.ask (Scenario.at_time (16 * Minute) Scenario.spent)) in
  (w_status (writer s') = StatusPaymentRequired \/ w_status (writer s') = StatusUnauthorized) /\ logger s' = logger Scenario.spent.
Proof.
  split; [apply Scenario.still_served|].
  assert (G : forall s : Scenario.gw, runs [()] true s -> drained "sk" (db s) -> now (world s) + 5 * Minute + backfill < 16 * Minute ->
    let s' := snd (Scenario.ask (Scenario.at_time (16 * Minute) s)) in
    (w_status (writer s') = StatusPaymentRequired \/ w_status (writer s') = StatusUnauthorized) /\ logger s' = logger s).
  { intros s R Dr T. destruct (Scenario.ask (Scenario.at_time (16 * Minute) s)) as [o s'] eqn:E. unfold Scenario.ask in E.
    destruct (budget_enforced (slack := backfill) [()] true Scenario.steady_forward Scenario.steady_stream_forward "sk" s
      (Scenario.at_time (16 * Minute) s) (Deployment.request "sk" Deployment.body) o s'
      R (Scenario.evolves_at_time (16 * Minute) s Dr) eq_refl T E) as (_ & St & _ & Lg & _).
    by split. }
  assert (T : now (world Scenario.spent) + 5 * Minute + backfill < 16 * Minute) by by vm_compute.
  exact (G Scenario.spent Scenario.spent_runs Scenario.spent_drained T).
Defined.
