(* ===== verification/Stream.v ===== *)
(** * Stream: a streamed answer, from the upstream to the client
    (internal/provider/resilient.go, internal/router/handler.go)

    [ResilientProvider.ChatStream] starts a goroutine that opens streams of the
    wrapped provider until one yields a chunk, and pipes it; the handler's loop
    receives at the other end.  The goroutines - the provider's, the resilient
    provider's and the handler's - communicate over channels, and are modelled
    as a step relation over their common state: which goroutine runs next,
    which ready case a [select] takes and when timers fire is left open. *)

From Stdlib Require Import Ascii.
From S2P Require Import Prelude Rounding Binary64 Float64 GoTypes Utf8 Json Monitor Selector Provider RateLimit Resilient Cache Db Logging Handler Requests.
Local Open Scope Z_scope.

(** ** Goroutines and channels *)

(** What a provider's goroutine does next: something of its own, a send on its
    unbuffered chunk channel (which waits for a receiver), a send on its error
    channel, closing one of them, or a panic, which ends the process. *)
Inductive action :=
  | Internal
  | Offer (c : ChatChunk)
  | PutError (e : option error)
  | CloseErrors
  | CloseChunks
  | Crash (p : panic).

(** Its next action and state, given whether its context is done; [None] when
    it has returned. *)
Class Source (S : Type) := next : bool -> S -> option (action * S).

(** A channel of errors with room for one. *)
Record error_channel := { buffer : option (option error); errors_closed : bool }.

Definition make_errors : error_channel := {| buffer := None; errors_closed := false |}.

(** A receive yields nil from a closed channel, and blocks on an open empty one. *)
Definition receive (ch : error_channel) : option (option error * error_channel) :=
  match buffer ch with
  | Some v => Some (v, {| buffer := None; errors_closed := errors_closed ch |})
  | None => if errors_closed ch then Some (None, ch) else None
  end.

Definition put (v : option error) (ch : error_channel) : option error_channel :=
  match buffer ch with
  | Some _ => None
  | None => Some {| buffer := Some v; errors_closed := errors_closed ch |}
  end.

Definition close_errors (ch : error_channel) : error_channel := {| buffer := buffer ch; errors_closed := true |}.

(** What a call of a provider's [ChatStream] returns: its two channels, with the
    goroutine that sends on them, if it was started. *)
Record link (S : Type) := { sender : option S; errs : error_channel; chunks_closed : bool }.
Arguments Build_link {S} _ _ _.
Arguments sender {S} _.
Arguments errs {S} _.
Arguments chunks_closed {S} _.

(** ** The resilient provider's goroutine *)

(** Where it is; [i] is the number of the attempt. *)
Inductive place :=
  | Attempting (i : Z) (lastErr : option error)  (* the head of the loop *)
  | Selecting (i : Z) (lastErr : option error)   (* the select *)
  | Cancelling (c : ChatChunk)                   (* cancel(), after the first chunk *)
  | Forwarding (c : ChatChunk)                   (* chunkChan <- c *)
  | Piping                                       (* for c := range chunks *)
  | Failed (i : Z) (lastErr : option error)      (* cancel() and what follows *)
  | Sleeping (i : Z) (lastErr : option error)
  | Reporting (e : option error)                 (* errChan <- e *)
  | Closing                                      (* close(errChan) *)
  | ClosingChunks                                (* close(chunkChan) *)
  | Ended.

(** The state of all goroutines of one streamed request.  [received] are the
    chunks taken from the current attempt, [events] what the handler's loop has
    selected, [opened] the attempts made so far, and [given_up] the channels and
    goroutines of the earlier ones. *)
Record config (S : Type) := {
  up : option (link S);
  cancelled : option error;
  at_ : place;
  errChan : error_channel;
  chunkChan_closed : bool;
  request_done : bool;
  handling : bool;
  crashed : option panic;
  received : list ChatChunk;
  events : list stream_event;
  opened : list Z;
  given_up : list (link S)
}.
Arguments Build_config {S} _ _ _ _ _ _ _ _ _ _ _ _.
Arguments up {S} _.
Arguments cancelled {S} _.
Arguments at_ {S} _.
Arguments errChan {S} _.
Arguments chunkChan_closed {S} _.
Arguments request_done {S} _.
Arguments handling {S} _.
Arguments crashed {S} _.
Arguments received {S} _.
Arguments events {S} _.
Arguments opened {S} _.
Arguments given_up {S} _.

Section stream.
Context {S : Type} `{Source S}.

(** [maxRetries], the outcome of the wrapped [ChatStream] at each attempt, and
    [ctx.Err()] of the request once it is done. *)
Context (maxRetries : Z) (open : Z -> link S + panic) (ctx_err : error).
Implicit Types c : config S.

Definition move (p : place) c : config S :=
  Build_config (up c) (cancelled c) p (errChan c) (chunkChan_closed c) (request_done c) (handling c) (crashed c) (received c) (events c) (opened c) (given_up c).
Definition set_up (l : link S) c : config S :=
  Build_config (Some l) (cancelled c) (at_ c) (errChan c) (chunkChan_closed c) (request_done c) (handling c) (crashed c) (received c) (events c) (opened c) (given_up c).
Definition set_cancelled (e : error) c : config S :=
  Build_config (up c) (Some (default e (cancelled c))) (at_ c) (errChan c) (chunkChan_closed c) (request_done c) (handling c) (crashed c) (received c) (events c) (opened c) (given_up c).
Definition set_errChan (ch : error_channel) c : config S :=
  Build_config (up c) (cancelled c) (at_ c) ch (chunkChan_closed c) (request_done c) (handling c) (crashed c) (received c) (events c) (opened c) (given_up c).
Definition close_chunkChan c : config S :=
  Build_config (up c) (cancelled c) (at_ c) (errChan c) true (request_done c) (handling c) (crashed c) (received c) (events c) (opened c) (given_up c).
Definition end_request c : config S :=
  Build_config (up c) (cancelled c) (at_ c) (errChan c) (chunkChan_closed c) true (handling c) (crashed c) (received c) (events c) (opened c) (given_up c).
Definition crash (p : panic) c : config S :=
  Build_config (up c) (cancelled c) (at_ c) (errChan c) (chunkChan_closed c) (request_done c) (handling c) (Some p) (received c) (events c) (opened c) (given_up c).
Definition collect (x : ChatChunk) c : config S :=
  Build_config (up c) (cancelled c) (at_ c) (errChan c) (chunkChan_closed c) (request_done c) (handling c) (crashed c) (received c ++ [x]) (events c) (opened c) (given_up c).
Definition set_given_up (ls : list (link S)) c : config S :=
  Build_config (up c) (cancelled c) (at_ c) (errChan c) (chunkChan_closed c) (request_done c) (handling c) (crashed c) (received c) (events c) (opened c) ls.
(** The handler selects [e], and goes on or returns. *)
Definition select (e : stream_event) c : config S :=
  Build_config (up c) (cancelled c) (at_ c) (errChan c) (chunkChan_closed c) (request_done c) (Streams.running e) (crashed c) (received c) (events c ++ [e]) (opened c) (given_up c).
(** A new attempt, under a new context. *)
Definition begin (i : Z) (l : link S) c : config S :=
  Build_config (Some l) None (at_ c) (errChan c) (chunkChan_closed c) (request_done c) (handling c) (crashed c) [] (events c) (opened c ++ [i]) (given_up c ++ option_list (up c)).

(** [tCtx.Err()] *)
Definition attempt_err c : option error :=
  match cancelled c with
  | Some e => Some e
  | None => if request_done c then Some ctx_err else None
  end.

Definition attempt_done c : bool := match attempt_err c with Some _ => true | None => false end.

Definition with_sender (s : S) (l : link S) : link S := Build_link (Some s) (errs l) (chunks_closed l).
Definition with_errs (ch : error_channel) (l : link S) : link S := Build_link (sender l) ch (chunks_closed l).
Definition with_chunks_closed (l : link S) : link S := Build_link (sender l) (errs l) true.

(** The provider's goroutine is about to do [a], and then be in [s']. *)
Definition about_to c (l : link S) (a : action) (s' : S) : Prop :=
  up c = Some l /\ exists s, sender l = Some s /\ next (attempt_done c) s = Some (a, s').

(** What a goroutine can do although nobody receives from its channels. *)
Definition alone (a : action) (l : link S) : option (link S) :=
  match a with
  | Internal => Some l
  | PutError e => (fun ch => with_errs ch l) <$> put e (errs l)
  | CloseErrors => Some (with_errs (close_errors (errs l)) l)
  | CloseChunks => Some (with_chunks_closed l)
  | Offer _ | Crash _ => None
  end.

Inductive step : config S -> config S -> Prop :=
  (* the resilient provider's goroutine *)
  | step_open c i lastErr l : at_ c = Attempting i lastErr -> i <= maxRetries -> open i = inl l ->
      step c (move (Selecting i lastErr) (begin i l c))
  | step_open_panics c i lastErr p : at_ c = Attempting i lastErr -> i <= maxRetries -> open i = inr p -> step c (crash p c)
  | step_exhausted c i lastErr : at_ c = Attempting i lastErr -> maxRetries < i -> step c (move (Reporting lastErr) c)
  | step_first c i lastErr l x s : at_ c = Selecting i lastErr -> about_to c l (Offer x) s ->
      step c (move (Cancelling x) (collect x (set_up (with_sender s l) c)))
  | step_no_chunk c i lastErr l : at_ c = Selecting i lastErr -> up c = Some l -> chunks_closed l = true ->
      step c (move (Failed i lastErr) c)
  | step_error c i lastErr l v ch : at_ c = Selecting i lastErr -> up c = Some l -> receive (errs l) = Some (v, ch) ->
      step c (move (Failed i (match v with Some e => Some e | None => lastErr end)) (set_up (with_errs ch l) c))
  | step_timed_out c i lastErr e : at_ c = Selecting i lastErr -> attempt_err c = Some e ->
      step c (move (Failed i (Some e)) c)
  | step_cancel c x : at_ c = Cancelling x -> step c (move (Forwarding x) (set_cancelled Canceled c))
  | step_pipe c l x s : at_ c = Piping -> about_to c l (Offer x) s ->
      step c (move (Forwarding x) (collect x (set_up (with_sender s l) c)))
  | step_piped c l : at_ c = Piping -> up c = Some l -> chunks_closed l = true -> step c (move Closing c)
  | step_give_up c i lastErr : at_ c = Failed i lastErr -> request_done c = true ->
      step c (move (Reporting (Some ctx_err)) (set_cancelled Canceled c))
  | step_backoff c i lastErr : at_ c = Failed i lastErr -> request_done c = false -> i < maxRetries ->
      step c (move (Sleeping i lastErr) (set_cancelled Canceled c))
  | step_last c i lastErr : at_ c = Failed i lastErr -> request_done c = false -> maxRetries <= i ->
      step c (move (Attempting (i + 1) lastErr) (set_cancelled Canceled c))
  | step_wake c i lastErr : at_ c = Sleeping i lastErr -> step c (move (Attempting (i + 1) lastErr) c)
  | step_report c e ch : at_ c = Reporting e -> put e (errChan c) = Some ch -> step c (move Closing (set_errChan ch c))
  | step_close_errors c : at_ c = Closing -> step c (move ClosingChunks (set_errChan (close_errors (errChan c)) c))
  | step_close_chunks c : at_ c = ClosingChunks -> step c (move Ended (close_chunkChan c))
  (* the provider's goroutine *)
  | step_internal c l s : about_to c l Internal s -> step c (set_up (with_sender s l) c)
  | step_put c l e ch s : about_to c l (PutError e) s -> put e (errs l) = Some ch ->
      step c (set_up (with_sender s (with_errs ch l)) c)
  | step_source_errors c l s : about_to c l CloseErrors s ->
      step c (set_up (with_sender s (with_errs (close_errors (errs l)) l)) c)
  | step_source_chunks c l s : about_to c l CloseChunks s -> step c (set_up (with_sender s (with_chunks_closed l)) c)
  | step_crash c l p s : about_to c l (Crash p) s -> step c (crash p c)
  (* the goroutines of earlier attempts, whose contexts are done *)
  | step_given_up c ls1 l ls2 s a s' l' : given_up c = ls1 ++ l :: ls2 -> sender l = Some s -> next true s = Some (a, s') ->
      alone a (with_sender s' l) = Some l' -> step c (set_given_up (ls1 ++ l' :: ls2) c)
  | step_given_up_crash c l s p s' : l ∈ given_up c -> sender l = Some s -> next true s = Some (Crash p, s') -> step c (crash p c)
  (* time, and the client *)
  | step_timeout c : up c <> None -> step c (set_cancelled DeadlineExceeded c)
  | step_disconnect c : step c (end_request c)
  (* the handler's loop *)
  | step_chunk c x : handling c = true -> at_ c = Forwarding x -> step c (move Piping (select (EvChunk x) c))
  | step_closed c : handling c = true -> chunkChan_closed c = true -> step c (select EvChunksClosed c)
  | step_reported c v ch : handling c = true -> receive (errChan c) = Some (v, ch) ->
      step c (select (match v with Some e => EvError e | None => EvNoError end) (set_errChan ch c))
  | step_done c : handling c = true -> request_done c = true -> step c (select EvDone c).

(** When [ChatStream] has returned its channels to the handler. *)
Definition start : config S :=
  Build_config None None (Attempting 0 None) make_errors false false true None [] [] [] [].

Inductive reach : config S -> Prop :=
  | reach_start : reach start
  | reach_step c c' : reach c -> crashed c = None -> step c c' -> reach c'.

(** ** A first attempt that panics *)

(** Nothing has been opened, delivered or reported: the client can only leave. *)
Definition unopened (p : panic) c : Prop :=
  at_ c = Attempting 0 None /\ up c = None /\ given_up c = [] /\ errChan c = make_errors /\ chunkChan_closed c = false /\
  (forall e, e ∈ events c -> e = EvDone) /\ crashed c ∈ [None; Some p].

Lemma unopened_step p c c' : 0 <= maxRetries -> open 0 = inr p -> unopened p c -> step c c' -> unopened p c'.
Proof.
  intros Hm Op (A & U & Gu & Er & Cc & Ev & Cr) St.
  destruct St as [? ? ? ? A'|? i ? q A' ? Op'|? ? ? A'|? ? ? ? ? ? A'|? ? ? ? A'|? ? ? ? ? ? A'|? ? ? ? A'|? ? A'|? ? ? ? A'|? ? A'|? ? ? A'|? ? ? A'|? ? ? A'|? ? ? A'
    |? ? ? A'|? A'|? A'|? ? ? [U' _]|? ? ? ? ? [U' _]|? ? ? [U' _]|? ? ? [U' _]|? ? ? ? [U' _]|? ls1 ? ? ? ? ? ? Gu'|? ? ? ? ? I|? U'|
    |? ? ? A'|? ? Cc'|? ? ? ? Rc|]; unfold unopened; cbn;
    try congruence; try (rewrite A in A'; simplify_eq; (lia || (rewrite Op in *; congruence) || idtac)).
  - assert (q = p) as -> by congruence. repeat split; try done. set_solver.
  - rewrite Gu in Gu'. by destruct ls1.
  - rewrite Gu in I. set_solver.
  - done.
  - by rewrite Er in Rc.
  - repeat split; try done. intros e. rewrite elem_of_app, list_elem_of_singleton. intros [I| ->]; auto.
Qed.

(** No execution gets past the panic of the first attempt, which can end the
    process at any moment. *)
Lemma first_attempt_panics p c : 0 <= maxRetries -> open 0 = inr p -> reach c ->
  unopened p c /\ (crashed c = None -> step c (crash p c)).
Proof.
  intros Hm Op R. assert (I : unopened p c).
  { induction R as [|c c' R IH Cr St]; [|by apply (unopened_step p c)]. cbn. repeat split; set_solver. }
  split; [exact I|]. intros _. apply (step_open_panics c 0 None); [apply I|lia|exact Op].
Qed.

(** ** What a client receives *)

Definition offered (a : action) : list ChatChunk := match a with Offer x => [x] | _ => [] end.

(** A provider's goroutine in state [s] may send [cs] on its chunk channel and
    then be in state [s']. *)
Inductive sends (s : S) : list ChatChunk -> S -> Prop :=
  | sends_nil : sends s [] s
  | sends_snoc cs s1 b a s2 : sends s cs s1 -> next b s1 = Some (a, s2) -> sends s (cs ++ offered a) s2.

Definition chunks (es : list stream_event) : list ChatChunk :=
  flat_map (fun e => match e with EvChunk x => [x] | _ => [] end) es.

Arguments chunks : simpl never.

(** The chunks that the handler has written. *)
Definition delivered c : list ChatChunk := chunks (events c).

Lemma chunks_snoc es e : chunks (es ++ [e]) = chunks es ++ match e with EvChunk x => [x] | _ => [] end.
Proof. unfold chunks. rewrite flat_map_app. simpl. by rewrite app_nil_r. Qed.

Definition no_error c : Prop := buffer (errChan c) = None /\ forall e, EvError e ∉ events c.

(** The chunks in transit, by the place of the resilient goroutine. *)
Definition transit c : Prop :=
  match at_ c with
  | Attempting _ _ | Failed _ _ | Sleeping _ _ | Reporting _ => delivered c = [] /\ no_error c
  | Selecting _ _ => received c = [] /\ delivered c = [] /\ no_error c
  | Cancelling x => received c = [x] /\ delivered c = [] /\ no_error c
  | Forwarding x => received c = delivered c ++ [x] /\ no_error c
  | Piping => received c = delivered c /\ no_error c
  | Closing | ClosingChunks | Ended => received c = delivered c /\ no_error c \/ delivered c = []
  end.

Lemma no_error_select c e : no_error c -> (forall x, e <> EvError x) -> no_error (select e c).
Proof.
  intros [B N] X. split; [done|]. intros x I. cbn in I. apply elem_of_app in I as [I|I]; [by eapply N|].
  apply list_elem_of_singleton in I. by eapply X.
Qed.

Lemma delivered_select c e : delivered (select e c) = delivered c ++ match e with EvChunk x => [x] | _ => [] end.
Proof. apply chunks_snoc. Qed.

Lemma receive_None ch : buffer ch = None -> forall v ch', receive ch = Some (v, ch') -> v = None /\ ch' = ch.
Proof. intros B v ch'. unfold receive. rewrite B. destruct (errors_closed ch); [|done]. by intros [= <- <-]. Qed.

(** A nil error, or an event other than a chunk, changes nothing. *)
Lemma transit_select c e : transit c -> match e with EvChunk _ | EvError _ => False | _ => True end -> transit (select e c).
Proof.
  intros T E. assert (D : delivered (select e c) = delivered c) by (rewrite delivered_select; destruct e; rewrite ?app_nil_r; done).
  assert (N : no_error c -> no_error (select e c)) by (intros N; apply no_error_select; [done|by destruct e]).
  revert T. unfold transit. cbn [at_ select received]. rewrite D. destruct (at_ c); tauto.
Qed.

(** Setting the error channel to what it is. *)
Lemma transit_receive c v ch : transit c -> receive (errChan c) = Some (v, ch) ->
  transit (select (match v with Some e => EvError e | None => EvNoError end) (set_errChan ch c)).
Proof.
  intros T R.
  assert (Quiet : no_error c -> v = None /\ no_error (set_errChan ch c)).
  { intros [B N]. destruct (receive_None _ B _ _ R) as [-> ->]. done. }
  assert (D : delivered (select (match v with Some e => EvError e | None => EvNoError end) (set_errChan ch c)) = delivered c).
  { rewrite delivered_select. destruct v; by rewrite app_nil_r. }
  assert (N : no_error c -> no_error (select (match v with Some e => EvError e | None => EvNoError end) (set_errChan ch c))).
  { intros Q. destruct (Quiet Q) as [-> Q']. by apply no_error_select. }
  revert T. unfold transit. cbn [at_ select set_errChan received]. rewrite D. destruct (at_ c); tauto.
Qed.

Ltac at_place T := unfold transit in T |- *;
  repeat match goal with E : at_ _ = _ |- _ => rewrite E in T end; cbn [at_ move received collect] in *.

Lemma transit_step c c' : transit c -> step c c' -> transit c'.
Proof.
  intros T St. destruct St; try (exact T); try (at_place T; cbn; unfold no_error, delivered in *; cbn in *; intuition (subst; auto; congruence); fail).
  all: try (by apply transit_select).
  - at_place T. destruct T as (R & D & N). split; [by cbn; rewrite R|]. by split.
  - at_place T. destruct T as (R & D & N). split; [|done]. unfold delivered in *; cbn in *. by rewrite R, D.
  - at_place T. destruct T as (R & N). split; [|apply (no_error_select c); [exact N|intros ? [=]]].
    unfold delivered in *; cbn in *. by rewrite R, chunks_snoc.
  - by apply transit_receive.
Qed.

Lemma reach_transit c : reach c -> transit c.
Proof.
  induction 1 as [|c c' _ IH _ St]; [|by apply (transit_step c)].
  split; [done|]. split; [done|]. intros e I. cbn in I. by apply not_elem_of_nil in I.
Qed.

(** *** Attempts *)

Definition attempt_number c : option Z :=
  match at_ c with Attempting i _ => Some (i - 1) | Selecting i _ | Failed i _ | Sleeping i _ => Some i | _ => None end.

(** The attempts are numbered from 0, without gap, up to [maxRetries]. *)
Definition counted c : Prop := exists n, opened c = seqZ 0 n /\ 0 <= n <= maxRetries + 1 /\
  match attempt_number c with Some i => n = i + 1 | None => True end.

Lemma counted_step c c' : counted c -> step c c' -> counted c'.
Proof.
  intros (n & O & B & N) St. unfold counted, attempt_number in *.
  destruct St; repeat match goal with E : at_ _ = _ |- _ => rewrite E in N end; cbn; try (exists n; repeat split; done || lia).
  - exists (n + 1). split; [|lia]. rewrite O, seqZ_app by lia. f_equal. assert (i = n) as -> by lia. done.
  - exists n. match goal with E : at_ _ = _ |- _ => by rewrite E end.
Qed.

Lemma reach_counted c : 0 <= maxRetries -> reach c -> counted c.
Proof.
  intros Hm. induction 1 as [|c c' _ IH _ St]; [|by apply (counted_step c)]. exists 0. cbn. repeat split; lia.
Qed.

(** *** Sources *)

(** What was received was sent by the goroutine of one attempt, the current one. *)
Definition sourced c : Prop :=
  match up c with
  | None => received c = [] 
  | Some l => exists i l0, i ∈ opened c /\ open i = inl l0 /\
      match sender l with
      | Some s => exists s0, sender l0 = Some s0 /\ sends s0 (received c) s
      | None => received c = []
      end
  end.

Lemma sourced_act c l a s' l' r : sourced c -> about_to c l a s' -> sender l' = Some s' -> r = received c ++ offered a ->
  exists i l0, i ∈ opened c /\ open i = inl l0 /\
    match sender l' with Some s => exists s0, sender l0 = Some s0 /\ sends s0 r s | None => r = [] end.
Proof.
  intros Sc (U & s & E & Nx) E' ->. unfold sourced in Sc. rewrite U in Sc. destruct Sc as (i & l0 & I & O & Ss).
  rewrite E in Ss. destruct Ss as (s0 & E0 & Ss). exists i, l0. split; [done|]. split; [done|]. rewrite E'. exists s0. split; [done|].
  by eapply sends_snoc.
Qed.

Lemma sourced_step c c' : sourced c -> step c c' -> sourced c'.
Proof.
  intros Sc St. destruct St; try (exact Sc);
    try (match goal with A : about_to _ _ _ _ |- _ => eapply (sourced_act c _ _ _ _ _ Sc A); [done|by rewrite ?app_nil_r] end).
  - exists i, l. cbn. split; [set_solver|]. split; [done|]. destruct (sender l) as [s|]; [|done].
    exists s. split; [done|constructor].
  - unfold sourced in *. cbn. match goal with U : up c = _ |- _ => rewrite U in Sc end. exact Sc.
Qed.

Lemma reach_sourced c : reach c -> sourced c.
Proof. induction 1 as [|c c' _ IH _ St]; [done|by apply (sourced_step c)]. Qed.

(** *** The end of the stream *)

(** The handler's loop runs while its events are chunks and nil errors. *)
Definition looping c : Prop :=
  if handling c then Forall (fun e => Streams.running e = true) (events c)
  else exists es e, events c = es ++ [e] /\ Forall (fun e => Streams.running e = true) es /\ Streams.running e = false.

Lemma looping_select c e : handling c = true -> looping c -> looping (select e c).
Proof.
  unfold looping. intros E L. rewrite E in L. cbn. destruct (Streams.running e) eqn:R; [|by eauto].
  apply Forall_app. split; [done|]. by constructor.
Qed.

Lemma reach_looping c : reach c -> looping c.
Proof.
  induction 1 as [|c c' _ IH _ St]; [by constructor|]. destruct St; try (exact IH); try (by apply looping_select).
Qed.

(** *** Completion *)

(** The handler sees the chunks closed only when the goroutine has ended, and
    that ends with chunks only when the provider has closed its own. *)
Definition completed c : Prop :=
  (EvChunksClosed ∈ events c -> chunkChan_closed c = true) /\ (chunkChan_closed c = true -> at_ c = Ended) /\
  match at_ c with
  | Closing | ClosingChunks | Ended => delivered c = [] \/ exists l, up c = Some l /\ chunks_closed l = true
  | _ => True
  end.

Lemma completed_select c e : completed c -> (e = EvChunksClosed -> chunkChan_closed c = true) ->
  (forall x, e <> EvChunk x) -> completed (select e c).
Proof.
  intros (E & Cc & P) X N. unfold completed. cbn [at_ select chunkChan_closed events up]. split; [|split; [done|]].
  - intros I. apply elem_of_app in I as [I|I]; [auto|]. apply list_elem_of_singleton in I. auto.
  - replace (delivered (select e c)) with (delivered c); [done|].
    rewrite delivered_select. destruct e; rewrite ?app_nil_r; try done. by destruct (N c0).
Qed.

Lemma completed_up c l l' : completed c -> up c = Some l -> (chunks_closed l = true -> chunks_closed l' = true) ->
  completed (set_up l' c).
Proof.
  intros (E & Cc & P) U K. split; [done|]. split; [done|]. cbn. destruct (at_ c); try done;
    (destruct P as [P|(l1 & U1 & P)]; [by left|right]; exists l'; split; [done|]; apply K; congruence).
Qed.

Lemma completed_move c c1 p : completed c -> at_ c <> Ended -> events c1 = events c ->
  chunkChan_closed c1 = chunkChan_closed c ->
  match p with
  | Closing | ClosingChunks | Ended => delivered c = [] \/ exists l, up c1 = Some l /\ chunks_closed l = true
  | _ => True
  end -> completed (move p c1).
Proof.
  intros (E & Cc & P) N Ev Cl Q. unfold completed, delivered. cbn. rewrite Ev, Cl.
  split; [done|]. split; [intros X; by destruct (N (Cc X))|exact Q].
Qed.

Lemma completed_step c c' : transit c -> completed c -> step c c' -> completed c'.
Proof.
  intros T Co St. pose proof Co as (E & Cc & P). unfold transit in T. destruct St; try (exact Co);
    repeat match goal with A : at_ _ = _ |- _ => rewrite A in T, P end;
    try (apply (completed_move c); [done|congruence|done|done|tauto]; fail);
    try (apply completed_select; [exact Co|done|done]; fail).
  - apply (completed_move c); [done|congruence|done|done|]. right. by exists l.
  - split; [cbn; auto|]. split; [done|exact P].
  - apply (completed_up c l); [done|by destruct H0|auto].
  - apply (completed_up c l); [done|by destruct H0|auto].
  - apply (completed_up c l); [done|by destruct H0|auto].
  - apply (completed_up c l); [done|by destruct H0|auto].
  - split; [|split; [|done]]; cbn.
    + intros I. apply elem_of_app in I as [I|I]; [auto|by apply list_elem_of_singleton in I].
    + intros X. specialize (Cc X). congruence.
  - apply (completed_select (set_errChan ch c)); [exact Co|by destruct v..].
Qed.

Lemma no_error_delivered c : reach c -> delivered c <> [] -> forall e, EvError e ∉ events c.
Proof.
  intros R D. pose proof (reach_transit c R) as T. unfold transit in T. destruct (at_ c); unfold no_error in T; intuition eauto.
Qed.

(** C9: No streamed chunk is lost before the last one, repeated or taken from
    two attempts: in every reachable state the handler has written a prefix of
    what the goroutine of a single attempt has sent, at most one chunk behind
    it; the attempts were numbered from 0 up to at most [maxRetries]; and when
    anything was written, no error has been or will be reported - mid-stream
    errors are swallowed, and there is no retry after the first chunk. *)
Theorem stream_delivers c : 0 <= maxRetries -> reach c ->
  (exists n, opened c = seqZ 0 n /\ 0 <= n <= maxRetries + 1) /\
  (delivered c <> [] ->
     (forall e, EvError e ∉ events c) /\ buffer (errChan c) = None /\
     exists i l0 s0 s cs, i ∈ opened c /\ open i = inl l0 /\ sender l0 = Some s0 /\ sends s0 cs s /\
       (cs = delivered c \/ exists x, cs = delivered c ++ [x])).
Proof.
  intros Hm R. split.
  { destruct (reach_counted c Hm R) as (n & O & B & _). eauto. }
  intros D. pose proof (reach_transit c R) as T. pose proof (reach_sourced c R) as Sc.
  assert (X : no_error c /\ (received c = delivered c \/ exists x, received c = delivered c ++ [x])).
  { unfold transit in T. destruct (at_ c); intuition eauto. }
  destruct X as [[B N] X]. split; [done|]. split; [done|].
  assert (Ne : received c <> []) by (destruct X as [X|[x X]]; rewrite X; [done|by destruct (delivered c)]).
  unfold sourced in Sc. destruct (up c) as [l|]; [|done]. destruct Sc as (i & l0 & I & O & Ss).
  destruct (sender l) as [s|]; [|done]. destruct Ss as (s0 & E & Ss). by exists i, l0, s0, s, (received c).
Qed.

Lemma reach_completed c : reach c -> completed c.
Proof.
  induction 1 as [|c c' R IH _ St]; [|by apply (completed_step c); [apply reach_transit|..]].
  split; [|done]. intros I. by apply not_elem_of_nil in I.
Qed.

(** When the handler sees the chunks closed - and logs the stream as a
    success - the resilient goroutine has ended and, if anything was written,
    the provider's goroutine has closed its channel and everything it sent was
    written: a stream is cut short only by the provider's own goroutine. *)
Theorem closed_streams_are_complete c : reach c -> EvChunksClosed ∈ events c -> delivered c <> [] ->
  at_ c = Ended /\ exists l i l0 s0 s, up c = Some l /\ chunks_closed l = true /\
    i ∈ opened c /\ open i = inl l0 /\ sender l0 = Some s0 /\ sends s0 (delivered c) s.
Proof.
  intros R I D. destruct (reach_completed c R) as (E & Cc & P). pose proof (Cc (E I)) as A. split; [done|].
  rewrite A in P. destruct P as [P|(l & U & P)]; [done|].
  pose proof (reach_transit c R) as T. unfold transit in T. rewrite A in T. destruct T as [[Rc _]|T]; [|done].
  pose proof (reach_sourced c R) as Sc. unfold sourced in Sc. rewrite U, Rc in Sc.
  destruct Sc as (i & l0 & Io & O & Ss). destruct (sender l) as [s|]; [|done]. destruct Ss as (s0 & E0 & Ss).
  by exists l, i, l0, s0, s.
Qed.

(** *** A goroutine that never ends *)

Inductive run : config S -> config S -> Prop :=
  | run_refl c : run c c
  | run_step c1 c2 c3 : run c1 c2 -> crashed c2 = None -> step c2 c3 -> run c1 c3.

Lemma abandoned_step c c' x : handling c = false -> at_ c = Forwarding x -> step c c' ->
  handling c' = false /\ at_ c' = Forwarding x.
Proof. intros Hn A St. destruct St; try congruence; by split. Qed.

(** A client that goes away while a chunk is on its way leaves the resilient
    provider's goroutine behind for ever: once the handler has returned, the
    send on the unbuffered chunk channel is never received, in no
    continuation, and [chunkChan] and [errChan] are never closed. *)
Theorem abandoned_stream_leaks c c' x :
  handling c = false -> at_ c = Forwarding x -> run c c' ->
  handling c' = false /\ at_ c' = Forwarding x /\ events c' = events c.
Proof.
  intros Hn A. induction 1 as [c|c1 c2 c3 _ IH _ St]; [done|]. destruct (IH Hn A) as (Hn2 & A2 & E2).
  destruct (abandoned_step c2 c3 x Hn2 A2 St) as [Hn3 A3]. split; [done|]. split; [done|]. rewrite <- E2.
  clear - St Hn2. destruct St; congruence || done.
Qed.

(** ** The discipline of the channels *)

(** What [ChatStream] of a provider promises about its channels: its goroutine
    knows which of them it has closed, never sends on a closed one and never
    closes one twice. *)
Class Orderly := {
  has_closed : S -> bool * bool;
  orderly b s a s' : next b s = Some (a, s') ->
    match a with
    | Internal => has_closed s' = has_closed s
    | Offer _ => has_closed s' = has_closed s /\ (has_closed s).2 = false
    | PutError _ => has_closed s' = has_closed s /\ (has_closed s).1 = false
    | CloseErrors => has_closed s' = (true, (has_closed s).2) /\ (has_closed s).1 = false
    | CloseChunks => has_closed s' = ((has_closed s).1, true) /\ (has_closed s).2 = false
    | Crash _ => True
    end
}.

Definition link_ok `{!Orderly} (l : link S) : Prop :=
  forall s, sender l = Some s -> has_closed s = (errors_closed (errs l), chunks_closed l).

Section discipline.
Context `{!Orderly} (open_ok : forall i l, open i = inl l -> link_ok l).

Definition links_ok c : Prop := crashed c = None -> forall l, up c = Some l \/ l ∈ given_up c -> link_ok l.

Lemma receive_keeps ch v ch' : receive ch = Some (v, ch') -> errors_closed ch' = errors_closed ch.
Proof. unfold receive. destruct (buffer ch); [by intros [= _ <-]|]. destruct (errors_closed ch) eqn:E; [|done]. by intros [= _ <-]. Qed.

Lemma put_keeps ch v ch' : put v ch = Some ch' -> errors_closed ch' = errors_closed ch.
Proof. unfold put. destruct (buffer ch); [done|]. by intros [= <-]. Qed.

(** What the channels of [l] must allow for [a]. *)
Definition permits (l : link S) (a : action) : Prop :=
  match a with
  | Offer _ | CloseChunks => chunks_closed l = false
  | PutError _ | CloseErrors => errors_closed (errs l) = false
  | _ => True
  end.

Lemma link_permits b l s a s' : link_ok l -> sender l = Some s -> next b s = Some (a, s') ->
  permits l a /\
  match a with
  | CloseErrors => has_closed s' = (true, chunks_closed l)
  | CloseChunks => has_closed s' = (errors_closed (errs l), true)
  | Crash _ => True
  | _ => has_closed s' = (errors_closed (errs l), chunks_closed l)
  end.
Proof. intros Lk Sg N. pose proof (orderly _ _ _ _ N) as O. rewrite (Lk s Sg) in O. destruct a; cbn; tauto. Qed.

Lemma about_to_ok c l a s' : crashed c = None -> links_ok c -> about_to c l a s' ->
  permits l a /\
  match a with
  | CloseErrors => has_closed s' = (true, chunks_closed l)
  | CloseChunks => has_closed s' = (errors_closed (errs l), true)
  | Crash _ => True
  | _ => has_closed s' = (errors_closed (errs l), chunks_closed l)
  end.
Proof. intros Cr Ok (U & s & Sg & N). by apply (link_permits (attempt_done c) l s a s' (Ok Cr l (or_introl U))). Qed.

Lemma alone_ok b l s a s' l' : link_ok l -> sender l = Some s -> next b s = Some (a, s') ->
  alone a (with_sender s' l) = Some l' -> link_ok l'.
Proof.
  intros Lk Sg N A. destruct (link_permits b l s a s' Lk Sg N) as [_ Hc]. destruct a; cbn in A; try discriminate A.
  - injection A as <-. by intros s1 [= <-].
  - destruct (put e (errs l)) as [ch|] eqn:E; [|discriminate A]. injection A as <-. intros s1 [= <-]. cbn.
    by rewrite (put_keeps _ _ _ E).
  - injection A as <-. by intros s1 [= <-].
  - injection A as <-. by intros s1 [= <-].
Qed.

(** The current link changes, the others stay. *)
Lemma links_ok_up c c' l : crashed c = None -> links_ok c -> up c' = Some l -> given_up c' = given_up c -> link_ok l -> links_ok c'.
Proof. intros Cr Ok U G Lk _ l' [X|X]; [rewrite U in X; by injection X as <-|rewrite G in X; by apply (Ok Cr l'); right]. Qed.

Lemma links_ok_step c c' : crashed c = None -> links_ok c -> step c c' -> links_ok c'.
Proof.
  intros Cr Ok St. destruct St; try (exact Ok); try (intros X; discriminate X);
    try (match goal with A : about_to _ ?l _ _ |- _ => pose proof (about_to_ok _ _ _ _ Cr Ok A) as (_ & Hc);
           eapply links_ok_up; [done..|]; intros s1 [= <-]; cbn; exact Hc end).
  - intros _ l' [[= <-]|I]; [by eapply open_ok|]. apply elem_of_app in I as [I|I]; [by apply (Ok Cr); right|].
    apply (Ok Cr). left. destruct (up c); [|by apply not_elem_of_nil in I]. apply list_elem_of_singleton in I. by subst.
  - eapply links_ok_up; [done..|]. intros s Sg. match goal with U : up c = Some l |- _ => rewrite (Ok Cr l (or_introl U) s Sg) end.
    cbn. f_equal. symmetry. by eapply receive_keeps.
  - match goal with A : about_to _ _ _ _ |- _ => pose proof (about_to_ok _ _ _ _ Cr Ok A) as (_ & Hc) end.
    eapply links_ok_up; [done..|]. intros s1 [= <-]. cbn. rewrite Hc. f_equal. symmetry. by eapply put_keeps.
  - match goal with G : given_up c = _ |- _ => rename G into Gv end.
    assert (Lk : forall x, x ∈ ls1 ++ l :: ls2 -> link_ok x) by (intros x I; apply (Ok Cr); right; by rewrite Gv).
    intros _ x [X|I]; [apply (Ok Cr); by left|]. cbn in I. apply elem_of_app in I as [I|I]; [apply Lk; set_solver|].
    apply elem_of_cons in I as [->|I]; [|apply Lk; set_solver]. eapply alone_ok; [|done..]. apply Lk. set_solver.
Qed.

Lemma reach_links_ok c : reach c -> links_ok c.
Proof.
  induction 1 as [|c c' _ IH Cr St]; [|by apply (links_ok_step c)]. intros _ l [X|X]; [done|by apply not_elem_of_nil in X].
Qed.

(** The resilient goroutine's own channels. *)
Definition own_ok c : Prop :=
  chunkChan_closed c = match at_ c with Ended => true | _ => false end /\
  errors_closed (errChan c) = match at_ c with ClosingChunks | Ended => true | _ => false end.

Lemma own_ok_step c c' : own_ok c -> step c c' -> own_ok c'.
Proof.
  intros [A B] St. unfold own_ok in *. destruct St; cbn in *; repeat match goal with E : at_ _ = _ |- _ => rewrite E in * end;
    try done; try (by split); split; try done.
  - rewrite <- B. by eapply put_keeps.
  - rewrite <- B. by eapply receive_keeps.
Qed.

Lemma reach_own_ok c : reach c -> own_ok c.
Proof. induction 1 as [|c c' _ IH _ St]; [done|]. by apply (own_ok_step c). Qed.

(** C16: Nobody sends on a closed channel, closes one twice or waits to report an
    error: with an orderly provider, whatever its goroutine, or that of an
    attempt that was given up, is about to do with a channel is possible - a
    chunk is only sent, and the chunks only closed, while they are open,
    likewise the errors - and when the resilient goroutine
    has an error to report, the channel is open and has room for it. *)
Theorem channels_are_disciplined c : reach c -> crashed c = None ->
  (forall l a s', about_to c l a s' -> permits l a) /\
  (forall l s a s', l ∈ given_up c -> sender l = Some s -> next true s = Some (a, s') -> permits l a) /\
  match at_ c with
  | Forwarding _ | ClosingChunks => chunkChan_closed c = false
  | Reporting _ => errors_closed (errChan c) = false /\ buffer (errChan c) = None
  | Closing => errors_closed (errChan c) = false
  | _ => True
  end.
Proof.
  intros R Cr. pose proof (reach_links_ok c R) as Ok. split; [|split].
  - intros l a s' A. apply (about_to_ok c l a s' Cr Ok A).
  - intros l s a s' I Sg N. by apply (link_permits true l s a s' (Ok Cr l (or_intror I))).
  - destruct (reach_own_ok c R) as [O1 O2]. pose proof (reach_transit c R) as T. unfold transit, no_error in T.
    destruct (at_ c); try done. split; [done|]. apply T.
Qed.
End discipline.

(** ** The response *)

Section response.
Context {W D L C Mon G P : Type}.
Context `{Clock W} `{TenantRepository D} `{Limiter L} `{Cache C} `{HealthMonitor Mon}
  `{Provider W P} `{Streamer W P} `{Logger G} `{ProviderSelector Mon P}.
Implicit Types s : gateway W D L C Mon G.

Lemma chunks_of_events tes : Streams.chunks_of tes = chunks (map snd tes).
Proof. unfold Streams.chunks_of, chunks. induction tes as [|[t e] tes IH]; [done|]. simpl. by rewrite IH. Qed.

(** C10: The response of a stream, end to end: when the handler's loop has
    returned, however the goroutines were scheduled and at whatever instants
    the events were selected, the body holds exactly the frames of the chunks
    that were delivered, in order; the provider's health changes only if no
    chunk was delivered at all - an upstream that breaks in the middle of an
    answer is never held to account - and a log event is written only if no
    error was reported, always at no cost. *)
Theorem streamed_response c tes r p req tenant start s :
  reach c -> handling c = false -> map snd tes = events c ->
  exists s', Gateway.stream_loop true r p req tenant start 0 0 tes s = (Returns true, s') /\
    w_body (writer s') = (w_body (writer s) ++ String.concat "" (Streams.frame <$> delivered c))%string /\
    (monitor s' = monitor s \/ delivered c = [] /\ exists t, monitor s' = RecordError t (Name p) 502 (monitor s)) /\
    (logger s' = logger s \/
       (forall e, EvError e ∉ events c) /\ exists event, CostCents event = f_of_int 0 /\ TenantID event = ID tenant /\
       logger s' = snd (Broadcast (r_ctx r) event (snd (Log (r_ctx r) event (logger s))))).
Proof.
  intros R Hn Ev. pose proof (reach_looping c R) as Lo. unfold looping in Lo. rewrite Hn in Lo.
  destruct Lo as (es & e & E & F & Rn). rewrite E in Ev.
  apply map_eq_app in Ev as (tes1 & tes2 & -> & E1 & E2). destruct tes2 as [|[t e'] [|? ?]]; try discriminate E2.
  injection E2 as ->.
  assert (F' : Forall (fun x => Streams.running (snd x) = true) tes1) by (rewrite <- E1, Forall_map in F; exact F).
  assert (Dl : Streams.chunks_of tes1 = delivered c).
  { unfold delivered. rewrite chunks_of_events, E1, E, chunks_snoc. destruct e; rewrite ?app_nil_r; done. }
  eexists. split; [by apply Streams.stream_loop_run|]. rewrite Dl. split.
  { rewrite <- Streams.write_frames_body. by destruct e. }
  assert (Er : forall x, e = EvError x -> delivered c = []).
  { intros x ->. destruct (decide (delivered c = [])) as [X|X]; [done|]. exfalso.
    eapply (no_error_delivered c R X x). rewrite E. set_solver. }
  destruct e; try discriminate Rn; cbn.
  - split; [by left|]. right. split.
    + intros e I. rewrite E in I. apply elem_of_app in I as [I|I]; [|by apply list_elem_of_singleton in I].
      rewrite Forall_forall in F. by specialize (F _ I).
    + eexists. split; [|split; [|reflexivity]]; reflexivity.
  - split; [|by left]. right. split; [by eapply Er|eauto].
  - split; by left.
Qed.
End response.
End stream.
Arguments start {S}.
