(* ===== verification/Mock.v ===== *)
(** * Mock: the provider that stands in for an upstream without an API key
    (internal/provider/mock.go)

    Its answers quote the last message; its stream is a goroutine that sends
    the answer character by character.  Composed with the resilient provider,
    which cancels the context of a stream after the first chunk, that stream
    ends after its first character. *)

From Stdlib Require Import Ascii.
From S2P Require Import Prelude Rounding Binary64 Float64 GoTypes Utf8 Json Provider Handler Requests Stream.
Local Open Scope Z_scope.

Record MockProvider := { mock_name : string }.

Module Mock.

Definition NewMockProvider (name : string) : MockProvider := {| mock_name := name |}.

Definition Name (p : MockProvider) : string := mock_name p.

(** [req.Messages[len(req.Messages)-1]] *)
Definition last_message (req : ChatRequest) : Message + panic :=
  match last (messages_of req) with Some m => inl m | None => inr (IndexOutOfRange (-1) 0) end.

Definition response (p : MockProvider) (req : ChatRequest) (m : Message) : ChatResponse :=
  {| resp_Content := "[MOCK RESPONSE from " ++ mock_name p ++ "] You said: " ++ Content m;
     resp_Model := req_Model req; resp_Provider := mock_name p; resp_PromptTokens := 10; resp_CompletionTokens := 20 |}.

Definition Chat {W} `{Clock W} (p : MockProvider) (ctx : context) (req : ChatRequest) : M W (result ChatResponse) :=
  t ← gets now;
  modify (wait_until (t + 100 * Millisecond));;
  match last_message req with
  | inr e => panics e
  | inl m => mret (inl (response p req m))
  end.

#[export] Instance Mock_Provider {W} `{Clock W} : Provider W MockProvider := {| Provider.Name := Name; Provider.Chat := Chat |}.

(** *** The goroutine of a stream *)

Inductive goroutine :=
  | Building (p : MockProvider) (req : ChatRequest)   (* response := ... *)
  | SendingPrompt (response : string)
  | Looping (rest : list tok)                         (* for _, char := range response *)
  | SendingChar (char : tok) (rest : list tok)
  | Sleeping (rest : list tok)
  | ClosingErrs                                       (* the deferred calls, last first *)
  | ClosingChunks
  | Returned.

Definition stream_response (p : MockProvider) (m : Message) : string :=
  "[MOCK STREAM from " ++ mock_name p ++ "] You said: " ++ Content m.

Definition prompt_chunk : ChatChunk :=
  {| chunk_Content := ""; chunk_FinishReason := ""; chunk_PromptTokens := 10; chunk_CompletionTokens := 0 |}.
(** [string(char)]: what is no rune has become U+FFFD. *)
Definition char_chunk (char : tok) : ChatChunk :=
  {| chunk_Content := tok_bytes (fix_tok char); chunk_FinishReason := ""; chunk_PromptTokens := 0; chunk_CompletionTokens := 0 |}.
Definition stop_chunk : ChatChunk :=
  {| chunk_Content := ""; chunk_FinishReason := "stop"; chunk_PromptTokens := 0; chunk_CompletionTokens := 20 |}.

Definition next (done : bool) (g : goroutine) : option (action * goroutine) :=
  match g with
  | Building p req =>
      Some (match last_message req with
            | inr e => (Crash e, Returned)
            | inl m => (Internal, SendingPrompt (stream_response p m))
            end)
  | SendingPrompt response => Some (Offer prompt_chunk, Looping (runes response))
  | Looping [] => Some (Offer stop_chunk, ClosingErrs)
  | Looping (char :: rest) => Some (Internal, if done then ClosingErrs else SendingChar char rest)
  | SendingChar char rest => Some (Offer (char_chunk char), Sleeping rest)
  | Sleeping rest => Some (Internal, Looping rest)
  | ClosingErrs => Some (CloseErrors, ClosingChunks)
  | ClosingChunks => Some (CloseChunks, Returned)
  | Returned => None
  end.

#[export] Instance Mock_Source : Source goroutine := next.

Definition ChatStream (p : MockProvider) (req : ChatRequest) : link goroutine :=
  {| sender := Some (Building p req); errs := make_errors; chunks_closed := false |}.

End Mock.
Import (hints) Mock.

#[export] Instance Mock_Orderly : Orderly (S := Mock.goroutine).
Proof.
  refine {| has_closed := fun g => match g with Mock.ClosingChunks => (true, false) | Mock.Returned => (true, true) | _ => (false, false) end |}.
  intros b g a g' N. destruct g as [p req|r|[|t rest]|t rest|rest| | |]; cbn in N; simplify_eq/=; try done.
  - by destruct (Mock.last_message req); simplify_eq/=.
  - by destruct b.
Defined.

(** ** On its own *)

(** The chunks of a goroutine that is not cancelled and always received, with
    the deferred calls; [None] if it panics or has not returned in [n] steps. *)
Fixpoint drain (n : nat) (g : Mock.goroutine) : option (list ChatChunk) :=
  match n with
  | O => None
  | S n =>
      match Mock.next false g with
      | None => Some []
      | Some (Crash _, _) => None
      | Some (a, g) => app (offered a) <$> drain n g
      end
  end.

Lemma drain_loop rest : drain (3 * length rest + 4) (Mock.Looping rest) = Some ((Mock.char_chunk <$> rest) ++ [Mock.stop_chunk]).
Proof.
  induction rest as [|t rest IH]; [done|].
  replace (3 * length (t :: rest) + 4)%nat with (S (S (S (3 * length rest + 4)))) by (simpl; lia).
  cbn -[Nat.mul Nat.add]. by rewrite IH.
Qed.

Lemma drain_start n p req m : Mock.last_message req = inl m ->
  drain (S (S n)) (Mock.Building p req) =
  cons Mock.prompt_chunk <$> drain n (Mock.Looping (runes (Mock.stream_response p m))).
Proof.
  intros L. cbn [drain Mock.next]. rewrite L. generalize (Mock.stream_response p m). intros r.
  cbn [drain Mock.next offered]. by destruct (drain n _).
Qed.

(** The sum the handler keeps of one of the counts of the chunks. *)
Definition tokens_of (count : ChatChunk -> Z) (chunks : list ChatChunk) : Z := foldr (fun c n => count c + n) 0 chunks.

Lemma tokens_of_cons count c cs : tokens_of count (c :: cs) = count c + tokens_of count cs.
Proof. done. Qed.
Lemma tokens_of_snoc count cs c : tokens_of count (cs ++ [c]) = tokens_of count cs + count c.
Proof. induction cs as [|d cs IH]; unfold tokens_of in *; simpl; lia. Qed.
Lemma tokens_of_silent count cs : (forall c, c ∈ cs -> count c = 0) -> tokens_of count cs = 0.
Proof. intros F. induction cs as [|c cs IH]; [done|]. rewrite tokens_of_cons, IH by set_solver. rewrite F by set_solver. done. Qed.

(** C35: Left alone, the stream of the mock provider terminates and is complete:
    the prompt tokens, one chunk for every character of the answer, in order,
    and the stop chunk; concatenated, the contents are the answer in valid
    UTF-8, and the token counts add up to those of the synchronous answer. *)
Theorem mock_stream_alone p req m : Mock.last_message req = inl m ->
  let answer := Mock.stream_response p m in
  drain (3 * length (runes answer) + 6) (Mock.Building p req) =
    Some (Mock.prompt_chunk :: (Mock.char_chunk <$> runes answer) ++ [Mock.stop_chunk]) /\
  String.concat "" (chunk_Content <$> (Mock.char_chunk <$> runes answer)) = to_valid answer /\
  let sent := Mock.prompt_chunk :: (Mock.char_chunk <$> runes answer) ++ [Mock.stop_chunk] in
  tokens_of chunk_PromptTokens sent = resp_PromptTokens (Mock.response p req m) /\
  tokens_of chunk_CompletionTokens sent = resp_CompletionTokens (Mock.response p req m).
Proof.
  intros L answer. split; [|split].
  - replace (3 * length (runes answer) + 6)%nat with (S (S (3 * length (runes answer) + 4))) by lia.
    by rewrite (drain_start _ p req m L), drain_loop.
  - unfold to_valid. generalize (runes answer). clear. intros ts. induction ts as [|t ts IH]; [done|].
    cbn [fmap list_fmap bytes_of]. rewrite <- IH. destruct (chunk_Content <$> (Mock.char_chunk <$> ts)); simpl; [by rewrite append_nil_r|done].
  - by split; rewrite tokens_of_cons, tokens_of_snoc, tokens_of_silent by (intros c (t & -> & _)%list_elem_of_fmap; reflexivity).
Qed.

(** ** Behind the resilient provider *)

Definition bracket_chunk : ChatChunk := Mock.char_chunk (Asc "[").

Section resilient.
Context (p : MockProvider) (req : ChatRequest) (maxRetries : Z) (ctx_err : error).

Abbreviation mreach := (reach maxRetries (fun _ => inl (Mock.ChatStream p req)) ctx_err).
Abbreviation mstep := (step maxRetries (fun _ => inl (Mock.ChatStream p req)) ctx_err).
Implicit Types c : config Mock.goroutine.

Definition answer_runes (ts : list tok) : Prop := exists more, ts = Asc "[" :: Asc "M" :: more.

Lemma answer_starts q m : answer_runes (runes (Mock.stream_response q m)).
Proof.
  set (rest := ("OCK STREAM from " ++ mock_name q ++ "] You said: " ++ Content m)%string).
  exists (runes rest). change (Mock.stream_response q m) with (tok_bytes (Asc "[") ++ (tok_bytes (Asc "M") ++ rest))%string.
  by rewrite !runes_good.
Qed.

(** What has been received, by the place of the mock's goroutine. *)
Definition emitted (done : bool) (rec : list ChatChunk) (g : Mock.goroutine) : Prop :=
  match g with
  | Mock.Building _ _ => rec = []
  | Mock.SendingPrompt r => rec = [] /\ answer_runes (runes r)
  | Mock.Looping rest =>
      (rec = [Mock.prompt_chunk] /\ answer_runes rest) \/
      (rec = [Mock.prompt_chunk; bracket_chunk] /\ done = true /\ rest <> [])
  | Mock.SendingChar t rest => rec = [Mock.prompt_chunk] /\ answer_runes (t :: rest)
  | Mock.Sleeping rest => rec = [Mock.prompt_chunk; bracket_chunk] /\ done = true /\ rest <> []
  | _ => rec `prefix_of` [Mock.prompt_chunk; bracket_chunk]
  end.

Definition piping_cancelled c : Prop :=
  match at_ c with Forwarding _ | Piping => attempt_done ctx_err c = true | _ => True end.

Definition emits c : Prop :=
  match up c with
  | None => received c = []
  | Some l => exists g, sender l = Some g /\ emitted (attempt_done ctx_err c) (received c) g
  end.

Lemma emitted_next b rec g a g' : emitted b rec g -> next b g = Some (a, g') ->
  match a with Offer _ => rec <> [] -> b = true | _ => True end -> emitted b (rec ++ offered a) g'.
Proof.
  intros E N B. destruct g as [q r|r|[|t rest]|t rest|rest| | |]; cbn in N; simplify_eq/=.
  - destruct (Mock.last_message r) as [m|e]; simplify_eq/=; [|by apply prefix_nil]. split; [done|apply answer_starts].
  - destruct E as [-> A]. by left.
  - destruct E as [[_ [more A]]|(_ & _ & A)]; [discriminate A|done].
  - rewrite app_nil_r. destruct E as [[-> A]|(-> & -> & A)]; [destruct b|]; cbn; [by exists [bracket_chunk]|done|done].
  - destruct E as [-> [more A]]. injection A as -> ->. cbn. split; [done|]. split; [by apply B|done].
  - rewrite app_nil_r. destruct E as (-> & -> & A). by right.
  - rewrite app_nil_r. exact E.
  - rewrite app_nil_r. exact E.
Qed.

Lemma emitted_done b b' rec g : emitted b rec g -> (b = true -> b' = true) -> emitted b' rec g.
Proof. intros E I. destruct g; cbn in *; intuition. Qed.

Lemma attempt_done_mono c c' : attempt_done ctx_err c = true ->
  (is_Some (cancelled c) -> is_Some (cancelled c')) -> (request_done c = true -> request_done c' = true) ->
  attempt_done ctx_err c' = true.
Proof.
  unfold attempt_done, attempt_err. intros D A B. destruct (cancelled c) as [e|] eqn:E.
  - destruct A as [e' ->]; eauto.
  - destruct (cancelled c'); [done|]. destruct (request_done c); [|done]. by rewrite B.
Qed.

Lemma piping_step c c' : piping_cancelled c -> mstep c c' -> piping_cancelled c'.
Proof.
  intros Pc St. unfold piping_cancelled in *. destruct St; cbn;
    repeat match goal with A : at_ _ = _ |- _ => rewrite A in Pc end; try done; try exact Pc.
  - destruct (at_ c); done.
  - destruct (at_ c); try done; (apply (attempt_done_mono c); [exact Pc|done|done]).
Qed.

(** The goroutine acts, or everybody else does. *)
Lemma emits_act c c' l l' a g : emits c -> about_to ctx_err c l a g -> up c' = Some l' -> sender l' = Some g ->
  received c' = received c ++ offered a -> attempt_done ctx_err c' = attempt_done ctx_err c ->
  match a with Offer _ => received c <> [] -> attempt_done ctx_err c = true | _ => True end -> emits c'.
Proof.
  intros E (U & g0 & Sg & N) U' S' R D B. unfold emits in *. rewrite U', R, D. rewrite U in E.
  destruct E as (g1 & S1 & E). rewrite Sg in S1. injection S1 as <-. exists g. split; [done|]. by eapply emitted_next.
Qed.

Lemma emits_keep c c' : emits c -> sender <$> up c' = sender <$> up c -> received c' = received c ->
  (attempt_done ctx_err c = true -> attempt_done ctx_err c' = true) -> emits c'.
Proof.
  intros E U R D. unfold emits in *. rewrite R. destruct (up c) as [l|], (up c') as [l'|]; try done.
  cbn in U. injection U as ->. destruct E as (g & Sg & E). exists g. split; [done|]. by eapply emitted_done.
Qed.

Lemma emits_step c c' : transit c -> piping_cancelled c -> emits c -> mstep c c' -> emits c'.
Proof.
  intros T Pc E St. unfold transit, piping_cancelled in T, Pc. destruct St;
    repeat match goal with A : at_ _ = _ |- _ => rewrite A in T, Pc end;
    try (by apply (emits_keep c));
    try (match goal with A : about_to _ _ ?l ?a ?g |- _ => eapply (emits_act c _ l _ a g E A); cbn; rewrite ?app_nil_r; done end).
  - simplify_eq/=. by eexists.
  - match goal with A : about_to _ _ ?l ?a ?g |- _ => eapply (emits_act c _ l _ a g E A); try done end. intros N. by destruct T.
  - apply (emits_keep c); [done| |done|done]. cbn. by match goal with A : up c = _ |- _ => rewrite A end.
  - apply (emits_keep c); [done..|]. intros D. by apply (attempt_done_mono c).
Qed.

Lemma mock_reach c : mreach c -> piping_cancelled c /\ emits c.
Proof.
  induction 1 as [|c c' R [Pc E] _ St]; [done|]. split; [by apply (piping_step c)|].
  by apply (emits_step c); [eapply reach_transit|..].
Qed.

(** C11: The stream of a mock provider never gets past the first character of its
    answer: behind the resilient provider, in every interleaving, the client
    receives at most the chunk with the prompt tokens and the opening bracket,
    because the context of the attempt is cancelled when the first chunk
    arrives; the completion tokens are never counted. *)
Theorem mock_stream_truncated c : mreach c -> delivered c `prefix_of` [Mock.prompt_chunk; bracket_chunk].
Proof.
  intros R. destruct (mock_reach c R) as [_ E]. pose proof (reach_transit _ _ _ c R) as T.
  assert (P : received c `prefix_of` [Mock.prompt_chunk; bracket_chunk]).
  { unfold emits in E. destruct (up c) as [l|]; [|rewrite E; by apply prefix_nil]. destruct E as (g & _ & E).
    destruct g; cbn in E; intuition; match goal with X : received c = _ |- _ => rewrite X end;
      try apply prefix_nil; try done; by exists [bracket_chunk]. }
  unfold transit in T. destruct (at_ c); try (destruct T as [-> _]; apply prefix_nil);
    try (destruct T as (_ & -> & _); apply prefix_nil); try (destruct T as [[T _]|T]; [by rewrite <- T|rewrite T; apply prefix_nil]).
  - destruct T as [T _]. rewrite T in P. etrans; [|exact P]. by apply prefix_app_r.
  - destruct T as [T _]. by rewrite <- T.
Qed.
End resilient.

(** ** Requests without messages *)

(** A request without messages ends the process: with a stream, the panic is
    in the goroutine of the provider, where no recovering middleware sees it,
    and some execution reaches it while the client has received nothing;
    without, the panic is in [Chat] itself, in every world. *)
Theorem mock_no_messages_crashes {W} `{Clock W} p req maxRetries ctx_err ctx (w : W) :
  messages_of req = [] -> 0 <= maxRetries ->
  (exists c, reach maxRetries (fun _ => inl (Mock.ChatStream p req)) ctx_err c /\
     crashed c = Some (IndexOutOfRange (-1) 0) /\ delivered c = []) /\
  fst (Mock.Chat p ctx req w) = Panics (IndexOutOfRange (-1) 0).
Proof.
  intros E Hm. assert (L : Mock.last_message req = inr (IndexOutOfRange (-1) 0)) by (unfold Mock.last_message; by rewrite E).
  split; [|unfold Mock.Chat, mbind, M_bind; cbn; by rewrite L]. eexists. split.
  - eapply reach_step; [eapply reach_step; [apply reach_start|done|by eapply step_open]|done|].
    eapply step_crash. split; [done|]. eexists. split; [done|]. cbn. by rewrite L.
  - by split.
Qed.

(** ** An execution *)

Module Scenario.

Definition mock : MockProvider := Mock.NewMockProvider "openai".
Definition request : ChatRequest :=
  {| req_Model := "gpt-4o"; req_Messages := Some [{| Role := "user"; Content := "Hi" |}]; req_Stream := true |}.
Definition ended : error := Canceled.

Abbreviation sreach := (reach 2 (fun _ => inl (Mock.ChatStream mock request)) ended).

(** One more step, by the given rule. *)
Ltac fire R rule :=
  let R' := fresh in
  eassert (R' : sreach _) by (eapply reach_step; [exact R|reflexivity|eapply rule; repeat first
    [reflexivity|discriminate|lia|eexists]]);
  match type of R' with reach _ _ _ ?c => let c' := eval vm_compute in c in change (sreach c') in R' end;
  clear R; rename R' into R.

(** The mock sends its first character before the attempt is cancelled; the
    stream is then closed, and logged as a success. *)
Lemma complete : exists c, sreach c /\ delivered c = [Mock.prompt_chunk; bracket_chunk] /\ handling c = false /\
  events c = [EvChunk Mock.prompt_chunk; EvChunk bracket_chunk; EvChunksClosed].
Proof.
  pose proof (reach_start 2 (fun _ => inl (Mock.ChatStream mock request)) ended) as R.
  fire R (step_open (S := Mock.goroutine)). fire R (step_internal (S := Mock.goroutine)).
  fire R (step_first (S := Mock.goroutine)). fire R (step_internal (S := Mock.goroutine)).
  fire R (step_cancel (S := Mock.goroutine)). fire R (step_chunk (S := Mock.goroutine)).
  fire R (step_pipe (S := Mock.goroutine)). fire R (step_chunk (S := Mock.goroutine)).
  fire R (step_internal (S := Mock.goroutine)). fire R (step_internal (S := Mock.goroutine)).
  fire R (step_source_errors (S := Mock.goroutine)). fire R (step_source_chunks (S := Mock.goroutine)).
  fire R (step_piped (S := Mock.goroutine)). fire R (step_close_errors (S := Mock.goroutine)).
  fire R (step_close_chunks (S := Mock.goroutine)). fire R (step_closed (S := Mock.goroutine)).
  eexists. split; [exact R|]. by repeat split.
Qed.

(** The client goes away while the first chunk is on its way. *)
Lemma abandoned : exists c, sreach c /\ handling c = false /\ at_ c = Forwarding Mock.prompt_chunk /\ crashed c = None.
Proof.
  pose proof (reach_start 2 (fun _ => inl (Mock.ChatStream mock request)) ended) as R.
  fire R (step_open (S := Mock.goroutine)). fire R (step_internal (S := Mock.goroutine)).
  fire R (step_first (S := Mock.goroutine)). fire R (step_cancel (S := Mock.goroutine)).
  fire R (step_disconnect (S := Mock.goroutine)). fire R (step_done (S := Mock.goroutine)).
  eexists. split; [exact R|]. by repeat split.
Qed.
End Scenario.

(** The bound is reached. *)
Lemma mock_stream_truncated_witness : exists c, Scenario.sreach c /\
  delivered c = [Mock.prompt_chunk; bracket_chunk] /\ delivered c `prefix_of` [Mock.prompt_chunk; bracket_chunk].
Proof.
  destruct Scenario.complete as (c & R & D & _). exists c. split; [exact R|]. split; [exact D|].
  exact (mock_stream_truncated Scenario.mock Scenario.request 2 Scenario.ended c R).
Defined.

Lemma mock_stream_alone_witness :
  drain 200 (Mock.Building Scenario.mock Scenario.request) <> None /\
  String.concat "" (chunk_Content <$> (Mock.char_chunk <$> runes "[MOCK STREAM from openai] You said: Hi"))
    = "[MOCK STREAM from openai] You said: Hi"%string.
Proof.
  split; [by vm_compute|].
  etrans; [apply (mock_stream_alone Scenario.mock Scenario.request {| Role := "user"; Content := "Hi" |}); reflexivity|by vm_compute].
Defined.

Lemma mock_no_messages_crashes_witness : exists c,
  reach 2 (fun _ => inl (Mock.ChatStream Scenario.mock Provider.Codec.zero_Request)) Scenario.ended c /\
  crashed c = Some (IndexOutOfRange (-1) 0) /\ delivered c = [].
Proof.
  apply (mock_no_messages_crashes (W := Z) (H := Deployment.clock) Scenario.mock Provider.Codec.zero_Request 2 Scenario.ended Background 0); [done|lia].
Defined.

Lemma stream_delivers_witness : exists c, Scenario.sreach c /\ delivered c <> [] /\
  (exists n, opened c = seqZ 0 n /\ 0 <= n <= 3) /\ forall e, EvError e ∉ events c.
Proof.
  destruct Scenario.complete as (c & R & D & _). exists c. split; [exact R|].
  assert (N : delivered c <> []) by by rewrite D. split; [exact N|].
  destruct (stream_delivers 2 _ Scenario.ended c ltac:(lia) R) as [O X]. split; [exact O|]. by apply X.
Defined.

Lemma channels_are_disciplined_witness : exists c, Scenario.sreach c /\ at_ c = Forwarding Mock.prompt_chunk /\
  chunkChan_closed c = false.
Proof.
  destruct Scenario.abandoned as (c & R & Hn & A & Cr). exists c. split; [exact R|]. split; [exact A|].
  assert (Ok : forall i l, (fun _ : Z => inl (Mock.ChatStream Scenario.mock Scenario.request) : link Mock.goroutine + panic) i = inl l -> link_ok l).
  { intros i l [= <-] s [= <-]. done. }
  pose proof (channels_are_disciplined 2 _ Scenario.ended Ok c R Cr) as (_ & _ & X). by rewrite A in X.
Defined.

Lemma closed_streams_are_complete_witness : exists c, Scenario.sreach c /\ at_ c = Ended.
Proof.
  destruct Scenario.complete as (c & R & D & _ & E). exists c. split; [exact R|].
  apply (closed_streams_are_complete 2 _ Scenario.ended c R); [rewrite E; set_solver|by rewrite D].
Defined.

Lemma abandoned_stream_leaks_witness : exists c, Scenario.sreach c /\ forall c',
  run 2 (fun _ => inl (Mock.ChatStream Scenario.mock Scenario.request)) Scenario.ended c c' -> at_ c' = Forwarding Mock.prompt_chunk.
Proof.
  destruct Scenario.abandoned as (c & R & Hn & A & _). exists c. split; [exact R|]. intros c' Rn.
  apply (abandoned_stream_leaks 2 _ Scenario.ended c c' Mock.prompt_chunk Hn A Rn).
Defined.

From S2P Require Import Monitor GoSort Selector RateLimit Resilient Cache Db Logging Budget.
Import (hints) Deployment.

Lemma streamed_response_witness : exists s',
  Gateway.stream_loop true (Deployment.request "k" "") Deployment.openai Scenario.request (Deployment.tenant "t-1" "k" 1 None)
    0 0 0 [(1, EvChunk Mock.prompt_chunk); (2, EvChunk bracket_chunk); (3, EvChunksClosed)] Deployment.start = (Returns true, s') /\
  w_body (writer s') = ("data: " ++ NL ++ NL ++ "data: [" ++ NL ++ NL)%string.
Proof.
  destruct Scenario.complete as (c & R & D & Hn & E).
  destruct (streamed_response 2 _ Scenario.ended c
    [(1, EvChunk Mock.prompt_chunk); (2, EvChunk bracket_chunk); (3, EvChunksClosed)]
    (Deployment.request "k" "") Deployment.openai Scenario.request (Deployment.tenant "t-1" "k" 1 None) 0 Deployment.start R Hn)
    as (s' & X & B & _); [by rewrite E|].
  exists s'. split; [exact X|]. rewrite B, D. by vm_compute.
Defined.
