(* ===== verification/Upstreams.v ===== *)
(** * Upstreams: the adapters of the four upstream APIs
    (internal/provider/openai.go, anthropic.go, gemini.go, ollama.go)

    Each adapter translates a request, calls a client - a third-party library or
    net/http - and translates the reply.  The clients are parameters: they may
    answer anything.  A stream is opened by [ChatStream], which yields the
    channels and the goroutine that feeds them (see Stream). *)

From Stdlib Require Import Ascii.
From S2P Require Import Prelude Rounding Binary64 Float64 GoTypes Utf8 Json FloatText Decode Provider Handler Requests Stream.
Local Open Scope Z_scope.

(** The end of a goroutine: its deferred calls, [close(errChan)] first and, for
    OpenAI, [stream.Close()] last. *)
Inductive ending := ClosingErrs | ClosingChunks | Finishing | Returned.

Definition next_ending (last : ending) (e : ending) : option (action * ending) :=
  match e with
  | ClosingErrs => Some (CloseErrors, ClosingChunks)
  | ClosingChunks => Some (CloseChunks, last)
  | Finishing => Some (Internal, Returned)
  | Returned => None
  end.

(** Both channels closed before anything was sent; [e] waits in the errors. *)
Definition failed_link {S} (e : error) : link S :=
  {| sender := None; errs := {| buffer := Some (Some e); errors_closed := true |}; chunks_closed := true |}.

Definition text_chunk (content finish : string) (p c : Z) : ChatChunk :=
  {| chunk_Content := content; chunk_FinishReason := finish; chunk_PromptTokens := p; chunk_CompletionTokens := c |}.

(** ** OpenAI *)

(** What the adapter reads of the replies of go-openai. *)
Record completion := {
  Choices : list string;
  co_Model : string;
  co_PromptTokens : Z;
  co_CompletionTokens : Z
}.

Inductive received_event :=
  | RecvEOF
  | RecvError (e : error)
  | RecvDelta (choices : list (string * string)).

Record openai_request := { oa_Model : string; oa_Messages : list (string * string); oa_Stream : bool }.

Class OpenAIClient (W K : Type) := {
  CreateChatCompletion : context -> openai_request -> M W (result completion);
  CreateChatCompletionStream : context -> openai_request -> M W (result K);
  Recv : bool -> K -> received_event * K
}.

(** The client of go-openai is determined by its key. *)
Record OpenAIProvider := { openai_key : string }.

Definition NewOpenAIProvider (apiKey : string) : OpenAIProvider := {| openai_key := apiKey |}.

Module OpenAI.
Section openai.
Context {W K : Type} `{OpenAIClient W K}.

Definition Name : string := "openai".

Definition messages (req : ChatRequest) : list (string * string) := (fun m => (Role m, Content m)) <$> messages_of req.

Definition Chat (ctx : context) (req : ChatRequest) : M W (result ChatResponse) :=
  resp ← CreateChatCompletion ctx {| oa_Model := req_Model req; oa_Messages := messages req; oa_Stream := false |};
  match resp with
  | inr err => mret (inr err)
  | inl resp =>
      match Choices resp with
      | [] => panics (IndexOutOfRange 0 0)
      | content :: _ => mret (inl
          {| resp_Content := content; resp_Model := co_Model resp; resp_Provider := "openai";
             resp_PromptTokens := co_PromptTokens resp; resp_CompletionTokens := co_CompletionTokens resp |})
      end
  end.

Inductive goroutine :=
  | Receiving (k : K)
  | Sending (k : K) (c : ChatChunk)
  | Failing (e : error)
  | End_ (e : ending).

Definition next (done : bool) (g : goroutine) : option (action * goroutine) :=
  match g with
  | Receiving k =>
      let '(ev, k) := Recv done k in
      Some (Internal,
        match ev with
        | RecvEOF => End_ ClosingErrs
        | RecvError e => Failing e
        | RecvDelta [] => Receiving k
        | RecvDelta ((content, finish) :: _) => Sending k (text_chunk content finish 0 0)
        end)
  | Sending k c => Some (Offer c, Receiving k)
  | Failing e => Some (PutError (Some e), End_ ClosingErrs)
  | End_ e => prod_map id End_ <$> next_ending Finishing e
  end.

#[export] Instance OpenAI_Source : Source goroutine := next.

Definition ChatStream (ctx : context) (req : ChatRequest) : M W (link goroutine) :=
  stream ← CreateChatCompletionStream ctx {| oa_Model := req_Model req; oa_Messages := messages req; oa_Stream := true |};
  match stream with
  | inr err => mret (failed_link err)
  | inl k => mret {| sender := Some (Receiving k); errs := make_errors; chunks_closed := false |}
  end.
End openai.
End OpenAI.

(** ** HTTP clients *)

Record http_call := { c_method : string; c_url : string; c_header : list (string * string); c_body : string }.

(** A reply: its status and what its body is read as; a body that is cut short
    is cut short here. *)
Record http_reply := { StatusCode : Z; Body : string }.

(** [client.Do], whether [http.NewRequest] accepts a URL, and the error that
    encoding/json reports for a text. *)
Class HTTPClient (W : Type) := {
  Do : context -> http_call -> M W (result http_reply);
  valid_url : string -> bool;
  json_error : string -> error
}.

(** ** Anthropic *)

(** The fields of an [http.Transport] that are set; the zero value is the default. *)
Record Transport := { MaxIdleConns : Z; MaxIdleConnsPerHost : Z; IdleConnTimeout : Z }.

Record AnthropicProvider := { apiKey : string; client : Transport }.

Definition NewAnthropicProvider (apiKey : string) (client : Transport) : AnthropicProvider :=
  {| apiKey := apiKey; client := client |}.

Module Anthropic.

Record reply := { texts : option (list string); InputTokens : Z; OutputTokens : Z }.
Definition zero_reply : reply := {| texts := None; InputTokens := 0; OutputTokens := 0 |}.

Definition Text_fields : fields string := [("text", fun v s => dec_string v s)]%string.
Definition Usage_fields : fields (Z * Z) := [
  ("input_tokens", field fst (fun z u => (z, snd u)) dec_int);
  ("output_tokens", field snd (fun z u => (fst u, z)) dec_int)]%string.
Definition reply_fields : fields reply := [
  ("content", field texts (fun l r => {| texts := l; InputTokens := InputTokens r; OutputTokens := OutputTokens r |})
     (dec_slice (dec_struct Text_fields) ""));
  ("usage", field (fun r => (InputTokens r, OutputTokens r))
     (fun u r => {| texts := texts r; InputTokens := fst u; OutputTokens := snd u |}) (dec_struct Usage_fields))]%string.

(** A map is marshalled with its keys in order. *)
Definition payload (req : ChatRequest) : json :=
  JObj [("max_tokens", JInt 1024); ("messages", Provider.Codec.json_Messages (req_Messages req)); ("model", JStr (req_Model req))]%string.

Definition call (p : AnthropicProvider) (req : ChatRequest) : http_call :=
  {| c_method := "POST"; c_url := "https://api.anthropic.com/v1/messages";
     c_header := [("x-api-key", apiKey p); ("anthropic-version", "2023-06-01"); ("content-type", "application/json")]%string;
     c_body := marshal (payload req) |}.

Definition Name : string := "anthropic".

Definition Chat {W} `{HTTPClient W} (p : AnthropicProvider) (ctx : context) (req : ChatRequest) : M W (result ChatResponse) :=
  resp ← Do ctx (call p req);
  match resp with
  | inr err => mret (inr err)
  | inl resp =>
      if negb (StatusCode resp =? 200) then mret (inr (Errorf ("anthropic error: status " ++ Itoa (StatusCode resp))))
      else
        let '(result, ok) := Decode (dec_struct reply_fields) (Body resp) zero_reply in
        if negb ok then mret (inr (json_error (Body resp)))
        else match default [] (texts result) with
             | [] => panics (IndexOutOfRange 0 0)
             | text :: _ => mret (inl
                 {| resp_Content := text; resp_Model := req_Model req; resp_Provider := "anthropic";
                    resp_PromptTokens := InputTokens result; resp_CompletionTokens := OutputTokens result |})
             end
  end.

(** No goroutine is started. *)
Definition ChatStream {S} (req : ChatRequest) : link S :=
  failed_link (Errorf "anthropic streaming not implemented in this re-arch turn").

End Anthropic.

(** ** Gemini *)

(** What the adapter reads of the replies of generative-ai-go: the printed parts
    of the candidates, whose content may be nil, and the usage, which may be. *)
Record genai_reply := { Candidates : list (option (list string)); UsageMetadata : option (Z * Z) }.

Record genai_content := { g_Role : string; g_Text : string }.

Inductive iteration := IterDone | IterError (e : error) | IterReply (r : genai_reply).

Class GenaiClient (W G K : Type) := {
  SendMessage : G -> context -> string -> list genai_content -> string -> M W (result genai_reply);
  SendMessageStream : G -> context -> string -> list genai_content -> string -> M W K;
  Next : bool -> K -> iteration * K
}.

Module Gemini.
Section gemini.
Context {W G K : Type} `{GenaiClient W G K}.

(** A pointer to a provider: [NewGeminiProvider] returns nil with an error. *)
Definition NewGeminiProvider (client : result G) : option G * option error :=
  match client with inl g => (Some g, None) | inr err => (None, Some err) end.

Definition Name : string := "gemini".

Definition role (m : Message) : string :=
  if decide (Role m = "assistant"%string) then "model"
  else if decide (Role m = "model"%string) then "model" else "user".

Definition to_content (m : Message) : genai_content := {| g_Role := role m; g_Text := Content m |}.

(** [for i := 0; i < len(req.Messages)-1; i++], with [n] rounds to go. *)
Fixpoint history_loop (msgs : list Message) (n i : nat) (history : list genai_content) : list genai_content :=
  match n with
  | O => history
  | S n =>
      match msgs !! i with
      | Some m => history_loop msgs n (S i) (history ++ [to_content m])
      | None => history
      end
  end.

Definition history (req : ChatRequest) : list genai_content :=
  history_loop (messages_of req) (length (messages_of req) - 1) 0 [].

(** [req.Messages[len(req.Messages)-1].Content] *)
Definition lastMsg (req : ChatRequest) : string + panic :=
  match messages_of req !! (length (messages_of req) - 1)%nat with
  | Some m => inl (Content m)
  | None => inr (IndexOutOfRange (-1) 0)
  end.

(** The printed parts of all candidates; a nil content panics. *)
Fixpoint contents (cands : list (option (list string))) : string + panic :=
  match cands with
  | [] => inl ""%string
  | None :: _ => inr NilDereference
  | Some parts :: cands =>
      match contents cands with
      | inl s => inl (String.concat "" parts ++ s)%string
      | inr p => inr p
      end
  end.

Definition Chat (p : option G) (ctx : context) (req : ChatRequest) : M W (result ChatResponse) :=
  match p with
  | None => panics NilDereference
  | Some client =>
      match lastMsg req with
      | inr e => panics e
      | inl last =>
          resp ← SendMessage client ctx (req_Model req) (history req) last;
          match resp with
          | inr err => mret (inr err)
          | inl resp =>
              match contents (Candidates resp), UsageMetadata resp with
              | inr e, _ => panics e
              | inl _, None => panics NilDereference
              | inl content, Some (pt, ct) => mret (inl
                  {| resp_Content := content; resp_Model := req_Model req; resp_Provider := "gemini";
                     resp_PromptTokens := pt; resp_CompletionTokens := ct |})
              end
          end
      end
  end.

Inductive goroutine :=
  | Iterating (k : K)
  | Sending (k : K) (c : ChatChunk)
  | Failing (e : error)
  | End_ (e : ending).

Definition next (done : bool) (g : goroutine) : option (action * goroutine) :=
  match g with
  | Iterating k =>
      let '(ev, k) := Next done k in
      Some match ev with
        | IterDone => (Internal, End_ ClosingErrs)
        | IterError e => (Internal, Failing e)
        | IterReply r =>
            match contents (Candidates r), UsageMetadata r with
            | inr e, _ => (Crash e, End_ Returned)
            | inl _, None => (Crash NilDereference, End_ Returned)
            | inl content, Some (pt, ct) => (Internal, Sending k (text_chunk content "" pt ct))
            end
        end
  | Sending k c => Some (Offer c, Iterating k)
  | Failing e => Some (PutError (Some e), End_ ClosingErrs)
  | End_ e => prod_map id End_ <$> next_ending Returned e
  end.

#[export] Instance Gemini_Source : Source goroutine := next.

Definition ChatStream (p : option G) (ctx : context) (req : ChatRequest) : M W (link goroutine) :=
  match p with
  | None => panics NilDereference
  | Some client =>
      match lastMsg req with
      | inr e => panics e
      | inl last =>
          k ← SendMessageStream client ctx (req_Model req) (history req) last;
          mret {| sender := Some (Iterating k); errs := make_errors; chunks_closed := false |}
      end
  end.
End gemini.
End Gemini.

(** ** Ollama *)

Record OllamaProvider := { host : string }.

(** What [json.Decoder] finds next in a body that arrives over the network. *)
Inductive reading := ReadEOF | ReadError (e : error) | ReadValue (v : json).

(** The client of a streaming goroutine: the outcome of [client.Do], the values
    of the body, and the error that reports a value that does not fit. *)
Class BodyReader (K : Type) := {
  Call : bool -> http_call -> K -> result Z * K;
  Read : bool -> K -> reading * K;
  type_error : json -> error
}.

Module Ollama.

Definition NewOllamaProvider (h : string) : OllamaProvider :=
  {| host := if decide (h = ""%string) then "http://localhost:11434" else h |}.

Definition Name : string := "ollama".

Definition payload (req : ChatRequest) (stream : bool) : json :=
  JObj [("messages", Provider.Codec.json_Messages (req_Messages req)); ("model", JStr (req_Model req)); ("stream", JBool stream)]%string.

Definition call (p : OllamaProvider) (req : ChatRequest) (stream : bool) : http_call :=
  {| c_method := "POST"; c_url := host p ++ "/api/chat"; c_header := [("Content-Type", "application/json")]%string;
     c_body := marshal (payload req stream) |}.

(** The struct that a reply, or a line of a stream, is decoded into. *)
Record line := { l_Content : string; l_Done : bool; PromptEvalCount : Z; EvalCount : Z }.
Definition zero_line : line := {| l_Content := ""; l_Done := false; PromptEvalCount := 0; EvalCount := 0 |}.

Definition Message_fields : fields string := [("content", fun v s => dec_string v s)]%string.
Definition set_Content (s : string) (l : line) : line :=
  {| l_Content := s; l_Done := l_Done l; PromptEvalCount := PromptEvalCount l; EvalCount := EvalCount l |}.
Definition set_Done (b : bool) (l : line) : line :=
  {| l_Content := l_Content l; l_Done := b; PromptEvalCount := PromptEvalCount l; EvalCount := EvalCount l |}.
Definition set_PromptEvalCount (z : Z) (l : line) : line :=
  {| l_Content := l_Content l; l_Done := l_Done l; PromptEvalCount := z; EvalCount := EvalCount l |}.
Definition set_EvalCount (z : Z) (l : line) : line :=
  {| l_Content := l_Content l; l_Done := l_Done l; PromptEvalCount := PromptEvalCount l; EvalCount := z |}.

Definition reply_fields : fields line := [
  ("message", field l_Content set_Content (dec_struct Message_fields));
  ("prompt_eval_count", field PromptEvalCount set_PromptEvalCount dec_int);
  ("eval_count", field EvalCount set_EvalCount dec_int)]%string.
Definition line_fields : fields line := [
  ("message", field l_Content set_Content (dec_struct Message_fields));
  ("done", field l_Done set_Done dec_bool);
  ("prompt_eval_count", field PromptEvalCount set_PromptEvalCount dec_int);
  ("eval_count", field EvalCount set_EvalCount dec_int)]%string.

(** A URL that is not accepted leaves a nil request behind. *)
Definition Chat {W} `{HTTPClient W} (p : OllamaProvider) (ctx : context) (req : ChatRequest) : M W (result ChatResponse) :=
  if negb (valid_url (c_url (call p req false))) then panics NilDereference
  else
    resp ← Do ctx (call p req false);
    match resp with
    | inr err => mret (inr (Wrapf ("ollama error: " ++ Error err) err))
    | inl resp =>
        if negb (StatusCode resp =? 200)
        then mret (inr (Errorf ("ollama returned status: " ++ Itoa (StatusCode resp))))
        else
          let '(result, ok) := Decode (dec_struct reply_fields) (Body resp) zero_line in
          if negb ok then mret (inr (json_error (Body resp)))
          else mret (inl
            {| resp_Content := l_Content result; resp_Model := req_Model req; resp_Provider := "ollama";
               resp_PromptTokens := PromptEvalCount result; resp_CompletionTokens := EvalCount result |})
    end.

Section stream.
Context {K : Type} `{BodyReader K}.

Inductive goroutine :=
  | Calling (c : http_call) (k : K)
  | Decoding (k : K)
  | Sending (k : K) (c : ChatChunk) (done : bool)
  | Failing (body : bool) (e : error)
  | ClosingBody
  | End_ (e : ending).

Definition line_chunk (l : line) : ChatChunk := text_chunk (l_Content l) "" (PromptEvalCount l) (EvalCount l).

(** The status of the reply is not looked at. *)
Definition next (done : bool) (g : goroutine) : option (action * goroutine) :=
  match g with
  | Calling c k =>
      let '(resp, k) := Call done c k in
      Some (Internal, match resp with inr err => Failing false err | inl _ => Decoding k end)
  | Decoding k =>
      let '(rd, k) := Read done k in
      Some (Internal,
        match rd with
        | ReadEOF => ClosingBody
        | ReadError e => Failing true e
        | ReadValue v =>
            let '(l, ok) := dec_struct line_fields v zero_line in
            if ok then Sending k (line_chunk l) (l_Done l) else Failing true (type_error v)
        end)
  | Sending k c dn => Some (Offer c, if dn then ClosingBody else Decoding k)
  | Failing body e => Some (PutError (Some e), if body then ClosingBody else End_ ClosingErrs)
  | ClosingBody => Some (Internal, End_ ClosingErrs)
  | End_ e => prod_map id End_ <$> next_ending Returned e
  end.

#[export] Instance Ollama_Source : Source goroutine := next.

Definition ChatStream (valid_url : string -> bool) (p : OllamaProvider) (req : ChatRequest) (k : K) : link goroutine + panic :=
  if negb (valid_url (c_url (call p req true))) then inr NilDereference
  else inl {| sender := Some (Calling (call p req true) k); errs := make_errors; chunks_closed := false |}.
End stream.
End Ollama.
Export (hints) OpenAI Gemini Ollama.

(** ** Their channels *)

Definition ending_closed (e : ending) : bool * bool :=
  match e with ClosingErrs => (false, false) | ClosingChunks => (true, false) | Finishing | Returned => (true, true) end.

Section orderly.
Context {W K G : Type} `{OpenAIClient W K} `{GenaiClient W G K} `{BodyReader K}.

#[export] Instance OpenAI_Orderly : Orderly (S := OpenAI.goroutine (K := K)) (H := OpenAI.OpenAI_Source (W := W)).
Proof.
  refine {| has_closed := fun g => match g with OpenAI.End_ e => ending_closed e | _ => (false, false) end |}.
  intros b g a g' N. destruct g as [k|k c|e|[]]; cbn in N; simplify_eq/=; try done.
  destruct (Recv b k) as [[|e|[|[? ?] ?]] k']; by simplify_eq/=.
Defined.

#[export] Instance Gemini_Orderly : Orderly (S := Gemini.goroutine (K := K)) (H := Gemini.Gemini_Source (W := W) (G := G)).
Proof.
  refine {| has_closed := fun g => match g with Gemini.End_ e => ending_closed e | _ => (false, false) end |}.
  intros b g a g' N. destruct g as [k|k c|e|[]]; cbn in N; simplify_eq/=; try done.
  destruct (Next b k) as [[|e|r] k']; simplify_eq/=; [done|done|].
  destruct (Gemini.contents (Candidates r)), (UsageMetadata r) as [[? ?]|]; by simplify_eq/=.
Defined.

#[export] Instance Ollama_Orderly : Orderly (S := Ollama.goroutine (K := K)).
Proof.
  refine {| has_closed := fun g => match g with Ollama.End_ e => ending_closed e | _ => (false, false) end |}.
  intros b g a g' N. destruct g as [c k|k|k c dn|body e| |[]]; cbn in N; simplify_eq/=; try done.
  - destruct (Call b c k) as [[st|e] k']; by simplify_eq/=.
  - destruct (Read b k) as [[|e|v] k']; simplify_eq/=; [done|done|].
    destruct (dec_struct _ v _) as [l []]; by simplify_eq/=.
  - by destruct dn.
  - by destruct body.
Defined.
End orderly.

(** ** Conversations for Gemini *)

Lemma history_loop_spec msgs n : forall i acc, (i + n <= length msgs)%nat ->
  Gemini.history_loop msgs n i acc = acc ++ (Gemini.to_content <$> take n (drop i msgs)).
Proof.
  induction n as [|n IH]; intros i acc L; cbn [Gemini.history_loop]; [by rewrite app_nil_r|].
  destruct (lookup_lt_is_Some_2 msgs i) as [m E]; [lia|]. rewrite E, IH by lia.
  rewrite (drop_S _ m i) by done. cbn. by rewrite <- app_assoc.
Qed.

(** The loop over the messages splits a conversation without loss: for every
    non-empty one, the history is the conversion of all messages but the last,
    in order, and the message that is sent is the last one; every role has
    become "user" or "model".  Without messages the adapter panics. *)
Theorem gemini_history msgs m model stream :
  let req := {| req_Model := model; req_Messages := Some (msgs ++ [m]); req_Stream := stream |} in
  Gemini.history req = Gemini.to_content <$> msgs /\ Gemini.lastMsg req = inl (Content m) /\
  Forall (fun c => g_Role c = "user"%string \/ g_Role c = "model"%string) (Gemini.history req) /\
  Gemini.lastMsg {| req_Model := model; req_Messages := None; req_Stream := stream |} = inr (IndexOutOfRange (-1) 0).
Proof.
  intros req.
  assert (H : Gemini.history req = Gemini.to_content <$> msgs).
  { unfold Gemini.history, messages_of, req. cbn [req_Messages from_option id]. rewrite length_app, Nat.add_sub.
    rewrite history_loop_spec by (rewrite length_app; simpl; lia). cbn. by rewrite drop_0, take_app_length. }
  split; [done|]. split; [|split; [|done]].
  - unfold Gemini.lastMsg, messages_of, req. cbn [req_Messages from_option id]. rewrite length_app, Nat.add_sub.
    by rewrite lookup_app_r, Nat.sub_diag by lia.
  - rewrite H. apply Forall_forall. intros c I. apply list_elem_of_fmap in I as (x & -> & _). cbn. unfold Gemini.role.
    repeat case_decide; auto.
Qed.

(** ** Errors of Ollama *)

Section ollama.
Context {W K : Type} `{HTTPClient W} `{BodyReader K}.

(** C36: An upstream failure that Ollama reports with its status is an error for a
    synchronous request and an answer for a streamed one: [Chat] returns the
    status as an error, while the stream's goroutine, which does not look at
    the status, takes the JSON body of the error for a line, sends it as an
    empty chunk and closes its channels with no error. *)
Theorem ollama_stream_hides_errors p ctx req w reply w' k k1 k2 k3 status v b :
  valid_url (c_url (Ollama.call p req false)) = true ->
  Do ctx (Ollama.call p req false) w = (Returns (inl reply), w') -> StatusCode reply <> 200 ->
  Call b (Ollama.call p req true) k = (inl status, k1) -> Read b k1 = (ReadValue v, k2) -> Read b k2 = (ReadEOF, k3) ->
  dec_struct Ollama.line_fields v Ollama.zero_line = (Ollama.zero_line, true) ->
  Ollama.Chat p ctx req w = (Returns (inr (Errorf ("ollama returned status: " ++ Itoa (StatusCode reply)))), w') /\
  exists g1 g2 g3 g4, let g := Ollama.Calling (Ollama.call p req true) k in
    next b g = Some (Internal, g1) /\ next b g1 = Some (Internal, g2) /\
    next b g2 = Some (Offer (text_chunk "" "" 0 0), g3) /\ next b g3 = Some (Internal, g4) /\
    next b g4 = Some (Internal, Ollama.End_ ClosingErrs).
Proof.
  intros V D S C R1 R2 Dc. split.
  - unfold Ollama.Chat. rewrite V. cbn [negb]. unfold mbind, M_bind. rewrite D.
    by rewrite (proj2 (Z.eqb_neq _ _) S).
  - eexists _, _, _, _. cbn -[dec_struct Ollama.line_fields]. unfold next, Ollama.Ollama_Source.
    cbn -[dec_struct Ollama.line_fields]. rewrite C. split; [done|]. cbn -[dec_struct Ollama.line_fields]. rewrite R1, Dc.
    split; [done|]. split; [done|]. cbn -[dec_struct Ollama.line_fields]. rewrite R2. done.
Qed.
End ollama.

(** A server that is overloaded. *)
Module Scenario.
#[export] Instance overloaded : HTTPClient unit := {|
  Do := fun ctx c w => (Returns (inl {| StatusCode := 503; Body := dq "{'error':'overloaded'}" |}), w);
  valid_url := fun _ => true;
  json_error := Errorf
|}.
(** The state of the client: the values still to be read. *)
#[export] Instance overloaded_body : BodyReader (list json) := {|
  Call := fun done c k => (inl 503, k);
  Read := fun done k => match k with [] => (ReadEOF, []) | v :: k => (ReadValue v, k) end;
  type_error := fun v => Errorf "json: cannot unmarshal"
|}.
Definition request : ChatRequest :=
  {| req_Model := "llama3"; req_Messages := Some [{| Role := "user"; Content := "Hi" |}]; req_Stream := true |}.
End Scenario.
Import (hints) Scenario.

(** The same overloaded server, asked both ways. *)
Lemma ollama_stream_hides_errors_witness :
  let overloaded := JObj [("error", JStr "overloaded")]%string in
  Ollama.Chat (Ollama.NewOllamaProvider "") Background Scenario.request tt = (Returns (inr (Errorf "ollama returned status: 503")), tt) /\
  exists g1 g2 g3 g4, let g := Ollama.Calling (Ollama.call (Ollama.NewOllamaProvider "") Scenario.request true) [overloaded] in
    next false g = Some (Internal, g1) /\ next false g1 = Some (Internal, g2) /\
    next false g2 = Some (Offer (text_chunk "" "" 0 0), g3) /\ next false g3 = Some (Internal, g4) /\
    next false g4 = Some (Internal, Ollama.End_ ClosingErrs).
Proof.
  apply (ollama_stream_hides_errors (W := unit) (K := list json) (Ollama.NewOllamaProvider "") Background Scenario.request tt
    {| StatusCode := 503; Body := dq "{'error':'overloaded'}" |} tt
    [JObj [("error", JStr "overloaded")]]%string [JObj [("error", JStr "overloaded")]]%string [] [] 503
    (JObj [("error", JStr "overloaded")]%string) false); try reflexivity. discriminate.
Defined.

(** ** Streams that fail at once *)

Section failing.
Context {S : Type} `{Source S} (err : error) (maxRetries : Z) (ctx_err : error).
Hypothesis retries : 0 <= maxRetries.

Abbreviation freach := (reach (S := S) maxRetries (fun _ => inl (failed_link err)) ctx_err).

(** The error has not been seen ([lost]), or it has at every attempt so far. *)
Definition last_error (lost : bool) (i : Z) : option error := if lost || (i =? 0) then None else Some err.

Definition fresh (c : config S) : Prop :=
  errChan c = make_errors /\ chunkChan_closed c = false /\ request_done c = false /\ handling c = true /\
  crashed c = None /\ events c = [].

Lemma attempt_fails lost i c : i <= maxRetries -> freach c -> at_ c = Attempting i (last_error lost i) -> fresh c ->
  exists c', freach c' /\ at_ c' = Failed i (if lost then None else Some err) /\ fresh c'.
Proof.
  intros Hi R A (E & Cc & D & Hn & Cr & Ev).
  assert (R1 : freach (move (Selecting i (last_error lost i)) (begin i (failed_link err) c)))
    by (eapply reach_step; [exact R|done|by eapply step_open]).
  destruct lost; eexists; (split; [eapply reach_step; [exact R1|done|]|]).
  - by eapply step_no_chunk.
  - by split.
  - eapply step_error; reflexivity.
  - by split.
Qed.

Lemma attempts_fail lost i : 0 <= i -> i <= maxRetries + 1 ->
  exists c, freach c /\ at_ c = Attempting i (last_error lost i) /\ fresh c.
Proof.
  revert i. refine (natlike_ind _ _ _).
  - intros _. exists start. split; [apply reach_start|]. split; [|done]. cbn. unfold last_error. by rewrite orb_true_r.
  - intros i Hi IH B. destruct IH as (c & R & A & F); [lia|].
    destruct (attempt_fails lost i c) as (c1 & R1 & A1 & F1); [lia|done..|]. clear R A F.
    assert (L : last_error lost (Z.succ i) = if lost then None else Some err)
      by (unfold last_error; destruct (Z.eqb_spec (Z.succ i) 0); [lia|by destruct lost]).
    rewrite <- L in A1. pose proof F1 as (E & Cc & D & Hn & Cr & Ev).
    destruct (Z.lt_ge_cases i maxRetries).
    + eexists. split; [eapply reach_step; [eapply reach_step; [exact R1|done|by eapply step_backoff]|done|by eapply step_wake]|].
      by split.
    + eexists. split; [eapply reach_step; [exact R1|done|by eapply step_last]|]. by split.
Qed.

Lemma attempts_report (lost : bool) : exists c, freach c /\ at_ c = Reporting (if lost then None else Some err) /\ fresh c.
Proof.
  destruct (attempts_fail lost (maxRetries + 1)) as (c & R & A & F); [lia..|]. pose proof F as (_ & _ & _ & _ & Cr & _).
  eexists. split; [eapply reach_step; [exact R|done|eapply step_exhausted; [exact A|lia]]|].
  split; [|done]. cbn. unfold last_error. destruct lost; [done|]. by destruct (Z.eqb_spec (maxRetries + 1) 0); [lia|].
Qed.

Lemma failure_reported : exists c, freach c /\ handling c = false /\ events c = [EvError err].
Proof.
  destruct (attempts_report false) as (c & R & A & E & Cc & D & Hn & Cr & Ev).
  eassert (R1 : freach _) by (eapply reach_step; [exact R|exact Cr|eapply step_report; [exact A|by rewrite E]]).
  eexists. split; [eapply reach_step; [exact R1|done|by eapply (step_reported _ _ _ _ (Some err))]|].
  cbn. by rewrite Ev.
Qed.

Lemma failure_lost : exists c, freach c /\ handling c = false /\ events c = [EvChunksClosed].
Proof.
  destruct (attempts_report true) as (c & R & A & E & Cc & D & Hn & Cr & Ev).
  eassert (R1 : freach _) by (eapply reach_step; [exact R|exact Cr|eapply step_report; [exact A|by rewrite E]]).
  eassert (R2 : freach _) by (eapply reach_step; [exact R1|done|by eapply step_close_errors]).
  eassert (R3 : freach _) by (eapply reach_step; [exact R2|done|by eapply step_close_chunks]).
  eexists. split; [eapply reach_step; [exact R3|done|by eapply step_closed]|].
  cbn. by rewrite Ev.
Qed.

Lemma failure_empty c : freach c -> delivered c = [].
Proof.
  intros R. destruct (delivered c) as [|x xs] eqn:D; [done|exfalso].
  pose proof (reach_transit _ _ _ c R) as T. pose proof (reach_sourced _ _ _ c R) as Sc.
  assert (N : received c <> []).
  { unfold transit in T. intros N. rewrite D, N in T. destruct (at_ c); intuition (try discriminate). }
  unfold sourced in Sc. destruct (up c) as [l|]; [|done].
  destruct Sc as (i & l0 & _ & [= <-] & Sc). destruct (sender l); [|done]. by destruct Sc as (s0 & E & _).
Qed.
End failing.

(** C12: Whether the failure of a stream is noticed is a race: the Anthropic
    adapter closes its chunk channel while its error waits in the other one, so
    that every attempt may see the one or the other.  Whatever the number of
    retries, some executions report the error to the handler and others end as
    complete, empty streams, which the handler logs with status 200; no
    execution delivers a chunk. *)
Theorem anthropic_stream_race {S} `{Source S} req maxRetries ctx_err : 0 <= maxRetries ->
  let reached := reach (S := S) maxRetries (fun _ => inl (Anthropic.ChatStream req)) ctx_err in
  (exists c e, reached c /\ handling c = false /\ events c = [EvError e]) /\
  (exists c, reached c /\ handling c = false /\ events c = [EvChunksClosed]) /\
  forall c, reached c -> delivered c = [].
Proof.
  intros Hm reached. split; [|split].
  - destruct (failure_reported (S := S) (Errorf "anthropic streaming not implemented in this re-arch turn") maxRetries ctx_err Hm)
      as (c & X). by exists c, (Errorf "anthropic streaming not implemented in this re-arch turn").
  - by apply failure_lost.
  - apply failure_empty.
Qed.

(** No goroutine is started. *)
#[export] Instance No_Source : Source Empty_set := fun _ s => match s with end.

Lemma anthropic_stream_race_witness : exists c,
  reach 2 (fun _ => inl (Anthropic.ChatStream (S := Empty_set) Provider.Codec.zero_Request)) Canceled c /\
  handling c = false /\ events c = [EvChunksClosed].
Proof. apply (anthropic_stream_race (S := Empty_set) Provider.Codec.zero_Request 2 Canceled). lia. Defined.
