(* ===== verification/Analytics.v ===== *)
(** * Analytics: statistics from ClickHouse (internal/logging/clickhouse.go)

    [AnalyticsRepository] is what the admin API asks of the analytics store,
    [ClickHouseClient] its implementation over a ClickHouse connection.  The
    connection is a parameter: it is given the queries of the source and
    answers with rows. *)

From S2P Require Import Prelude Rounding Binary64 Float64 GoTypes Utf8 Json FloatText Decode Provider.
Local Open Scope Z_scope.

Record GlobalStats := { TotalRequests : Z; TotalTokens : Z; TotalCost : float64; AvgLatency : float64 }.

(** [Timestamp] is an instant in seconds. *)
Record ChartPoint := { p_Timestamp : Z; p_Requests : Z; p_Cost : float64 }.

Record TenantStats := { t_TotalRequests : Z; t_TotalCost : float64; Models : gmap string Z }.

Class AnalyticsRepository (A : Type) := {
  GetGlobalStats : context -> A -> result GlobalStats * A;
  GetChartData : context -> A -> result (list ChartPoint) * A;
  GetTenantStats : context -> string -> A -> result TenantStats * A
}.

(** ** ClickHouse *)

(** A value of a column, and an argument of a query. *)
Inductive value := VUint (n : Z) | VFloat (x : float64) | VTime (t : Z) | VText (s : string).

(** [QueryRow] with the values it finds; [Query] with the rows that [Next] finds.
    [Scan] stores the values of a row, or reports that they do not fit. *)
Class Conn (Q : Type) := {
  conn_QueryRow : context -> string -> list value -> Q -> result (list value) * Q;
  conn_Query : context -> string -> list value -> Q -> result (list (list value)) * Q;
  scan_error : list value -> error
}.

Record ClickHouseClient (Q R : Type) := { conn : Q; ch_redis : R }.
Arguments Build_ClickHouseClient {Q R} _ _.
Arguments conn {Q R} _.
Arguments ch_redis {Q R} _.

Module ClickHouse.

Definition global_query : string :=
"SELECT 
                toUInt64(count()), 
                toUInt64(ifNull(sum(prompt_tokens + completion_tokens), 0)), 
                toFloat64(ifNull(sum(cost_cents), 0) / 100), 
                toFloat64(if(isFinite(avg(latency_ms)), avg(latency_ms), 0)) 
              FROM gateway_logs".

Definition chart_query : string :=
"SELECT 
                toStartOfHour(timestamp) as ts, 
                toUInt64(count()), 
                toFloat64(ifNull(sum(cost_cents), 0) / 100)
              FROM gateway_logs 
              WHERE timestamp > now() - INTERVAL 24 HOUR 
              GROUP BY ts 
              ORDER BY ts".

Definition tenant_query : string :=
"SELECT 
                toUInt64(count()), 
                toFloat64(ifNull(sum(cost_cents), 0) / 100)
              FROM gateway_logs 
              WHERE tenant_id = $1".

Definition model_query : string :=
"SELECT model, toUInt64(count()) FROM gateway_logs WHERE tenant_id = $1 GROUP BY model".

Section clickhouse.
Context {Q R : Type} `{Conn Q}.
Abbreviation client := (ClickHouseClient Q R).

(** [clickhouse.Open] may fail; the interface value returned is then nil. *)
Definition NewClickHouseClient (opened : result Q) (rdb : R) : option client * option error :=
  match opened with
  | inr err => (None, Some err)
  | inl q => (Some {| conn := q; ch_redis := rdb |}, None)
  end.

Definition GetRedis (c : client) : R := ch_redis c.

Definition with_conn (c : client) (q : Q) : client := {| conn := q; ch_redis := ch_redis c |}.

Definition GetGlobalStats (ctx : context) (c : client) : result GlobalStats * client :=
  let '(row, q) := conn_QueryRow ctx global_query [] (conn c) in
  (match row with
   | inr err => inr err
   | inl [VUint n; VUint tokens; VFloat cost; VFloat latency] =>
       inl {| TotalRequests := n; TotalTokens := tokens; TotalCost := cost; AvgLatency := latency |}
   | inl vs => inr (scan_error vs)
   end, with_conn c q).

(** The loop over the rows. *)
Fixpoint scan_points (rows : list (list value)) (points : list ChartPoint) : result (list ChartPoint) :=
  match rows with
  | [] => inl points
  | [VTime t; VUint n; VFloat cost] :: rows =>
      scan_points rows (points ++ [{| p_Timestamp := t; p_Requests := n; p_Cost := cost |}])
  | vs :: _ => inr (scan_error vs)
  end.

Definition GetChartData (ctx : context) (c : client) : result (list ChartPoint) * client :=
  let '(rows, q) := conn_Query ctx chart_query [] (conn c) in
  (match rows with inr err => inr err | inl rows => scan_points rows [] end, with_conn c q).

Fixpoint scan_models (rows : list (list value)) (stats : TenantStats) : result TenantStats :=
  match rows with
  | [] => inl stats
  | [VText model; VUint count] :: rows =>
      scan_models rows {| t_TotalRequests := t_TotalRequests stats; t_TotalCost := t_TotalCost stats;
                          Models := <[model := count]> (Models stats) |}
  | vs :: _ => inr (scan_error vs)
  end.

Definition GetTenantStats (ctx : context) (tenantID : string) (c : client) : result TenantStats * client :=
  let '(row, q) := conn_QueryRow ctx tenant_query [VText tenantID] (conn c) in
  match row with
  | inr err => (inr err, with_conn c q)
  | inl [VUint n; VFloat cost] =>
      let stats := {| t_TotalRequests := n; t_TotalCost := cost; Models := ∅ |} in
      let '(rows, q) := conn_Query ctx model_query [VText tenantID] q in
      (match rows with inr err => inr err | inl rows => scan_models rows stats end, with_conn c q)
  | inl vs => (inr (scan_error vs), with_conn c q)
  end.

#[export] Instance ClickHouse_Repository : AnalyticsRepository client := {|
  Analytics.GetGlobalStats := GetGlobalStats;
  Analytics.GetChartData := GetChartData;
  Analytics.GetTenantStats := GetTenantStats
|}.
End clickhouse.
End ClickHouse.
Export (hints) ClickHouse.

(** ** The statistics of a tenant *)

(** The rows of the second query, as pairs. *)
Definition model_row (r : string * Z) : list value := [VText (fst r); VUint (snd r)].

Lemma scan_models_rows {Q} `{Conn Q} rows : forall stats,
  ClickHouse.scan_models (model_row <$> rows) stats =
  inl {| t_TotalRequests := t_TotalRequests stats; t_TotalCost := t_TotalCost stats;
         Models := list_to_map (reverse rows) ∪ Models stats |}.
Proof.
  induction rows as [|[m n] rows IH]; intros stats.
  - cbn. rewrite (left_id_L ∅ (∪)). by destruct stats.
  - etrans; [apply IH|]. do 2 f_equal. cbn [Models]. rewrite reverse_cons, list_to_map_app, <- (assoc_L (∪)). f_equal.
    cbn. by rewrite <- insert_union_l, (left_id_L ∅ (∪)).
Qed.

(** The statistics of a tenant are those of the database: when both queries
    succeed, the totals are those of the first, and the counts are exactly the
    rows of the second, whose models are distinct; when either fails, so does
    the call, with that error, and nothing is made up. *)
Theorem GetTenantStats_reports {Q R} `{Conn Q} ctx id (c : ClickHouseClient Q R) n cost rows q1 q2 :
  conn_QueryRow ctx ClickHouse.tenant_query [VText id] (conn c) = (inl [VUint n; VFloat cost], q1) ->
  (forall e, conn_Query ctx ClickHouse.model_query [VText id] q1 = (inr e, q2) ->
     fst (ClickHouse.GetTenantStats ctx id c) = inr e) /\
  (conn_Query ctx ClickHouse.model_query [VText id] q1 = (inl (model_row <$> rows), q2) -> NoDup rows.*1 ->
     exists stats, fst (ClickHouse.GetTenantStats ctx id c) = inl stats /\ t_TotalRequests stats = n /\
       t_TotalCost stats = cost /\ forall m k, Models stats !! m = Some k <-> (m, k) ∈ rows).
Proof.
  intros E. unfold ClickHouse.GetTenantStats. rewrite E. split; [by intros e ->|]. intros -> ND.
  rewrite scan_models_rows. eexists. split; [done|]. split; [done|]. split; [done|]. intros m k. cbn.
  rewrite (right_id_L ∅ (∪)), <- elem_of_list_to_map by (by rewrite fmap_reverse, reverse_Permutation).
  by rewrite elem_of_reverse.
Qed.

(** A connection that always finds the same. *)
Module Scenario.
#[export] Instance canned : Conn unit := {|
  conn_QueryRow := fun ctx query args q =>
    (inl (if decide (query = ClickHouse.tenant_query) then [VUint 3; VFloat (f_const 15 10)]
          else [VUint 3; VUint 90; VFloat (f_const 15 10); VFloat (f_of_int 120)]), q);
  conn_Query := fun ctx query args q =>
    (inl (if decide (query = ClickHouse.model_query) then [[VText "gpt-4o"; VUint 2]; [VText "llama3"; VUint 1]]%string
          else [[VTime 3600; VUint 3; VFloat (f_const 15 10)]]), q);
  scan_error := fun _ => Errorf "clickhouse: cannot scan"
|}.
Definition client : ClickHouseClient unit unit := {| conn := tt; ch_redis := tt |}.
End Scenario.
Import (hints) Scenario.

Lemma GetTenantStats_reports_witness : exists stats,
  fst (ClickHouse.GetTenantStats Background "t-1" Scenario.client) = inl stats /\ Models stats !! "gpt-4o"%string = Some 2.
Proof.
  destruct (GetTenantStats_reports Background "t-1" Scenario.client 3 (f_const 15 10) [("gpt-4o", 2); ("llama3", 1)]%string tt tt)
    as [_ H]; [reflexivity|]. destruct H as (stats & E & _ & _ & M); [reflexivity|repeat constructor; set_solver|].
  exists stats. split; [exact E|]. apply M. left.
Defined.
