(* ===== verification/Admin.v ===== *)
(** * Admin: the control API (internal/router/admin.go)

    The handlers of the admin API over the tenant repository, the analytics
    repository and the health monitor, behind the middleware that checks the
    admin secret.  A nil analytics repository - what [main] passes on when
    ClickHouse cannot be opened - is [None]. *)

From Stdlib Require Import Ascii.
From S2P Require Import Prelude Rounding Binary64 Float64 GoTypes Utf8 Json FloatText Decode Sha256 Monitor Selector Provider Db Logging Handler Analytics.
Local Open Scope Z_scope.

(** ** JSON of what is answered *)

Definition json_float (x : float64) : option json := JNum <$> format_float x.

(** Text that [json.Marshal] gives; [None] for a value that is not supported:
    an infinite or undefined number. *)
Definition json_GlobalStats (s : GlobalStats) : option json :=
  cost ← json_float (TotalCost s);
  latency ← json_float (AvgLatency s);
  Some (JObj [("total_requests", JInt (TotalRequests s)); ("total_tokens", JInt (TotalTokens s));
              ("total_cost", cost); ("avg_latency_ms", latency)]%string).

(** [format_time] is the RFC 3339 text of an instant (package time). *)
Definition json_ChartPoint (format_time : Z -> string) (p : ChartPoint) : option json :=
  cost ← json_float (p_Cost p);
  Some (JObj [("timestamp", JStr (format_time (p_Timestamp p))); ("requests", JInt (p_Requests p)); ("cost", cost)]%string).

(** A slice that was never appended to is nil. *)
Definition json_slice {A} (f : A -> option json) (l : list A) : option json :=
  match l with [] => Some JNull | _ => JArr <$> mapM f l end.

(** The keys of a map in order. *)
Fixpoint insert_key (k : string) (v : Z) (l : list (string * Z)) : list (string * Z) :=
  match l with
  | [] => [(k, v)]
  | (k', v') :: l' => if String.leb k k' then (k, v) :: l else (k', v') :: insert_key k v l'
  end.
Definition sort_keys (l : list (string * Z)) : list (string * Z) := foldr (fun kv => insert_key kv.1 kv.2) [] l.

Definition json_TenantStats (s : TenantStats) : option json :=
  cost ← json_float (t_TotalCost s);
  Some (JObj [("total_requests", JInt (t_TotalRequests s)); ("total_cost", cost);
              ("models", JObj ((fun kv => (kv.1, JInt kv.2)) <$> sort_keys (map_to_list (Models s))))]%string).

(** [json.NewEncoder(w).Encode(v)]: the text and a newline, or nothing. *)
Definition Encode (v : option json) (w : response) : response :=
  match v with Some v => Write (marshal v ++ NL) w | None => w end.

Definition StatusNoContent : Z := 204.

(** ** Requests *)

Record admin_request := {
  a_ctx : context;
  X_Admin_Token : string;
  query_token : string;     (* r.URL.Query().Get("token") *)
  url_param : string -> string;
  a_Body : string
}.

(** What the log stream selects: a message of the subscription, or the end of
    the request. *)
Inductive log_event := LogMessage (payload : string) | LogDone.

(** The body of a creation. *)
Record create_request := {
  cr_Name : string;
  cr_RateLimitRPM : Z;
  cr_BudgetCents : Z;
  cr_APIKey : string;
  cr_ProviderAllowlist : option (list string)
}.

Module Create.
Definition zero : create_request :=
  {| cr_Name := ""; cr_RateLimitRPM := 0; cr_BudgetCents := 0; cr_APIKey := ""; cr_ProviderAllowlist := None |}.
Definition set_Name s r := {| cr_Name := s; cr_RateLimitRPM := cr_RateLimitRPM r; cr_BudgetCents := cr_BudgetCents r;
  cr_APIKey := cr_APIKey r; cr_ProviderAllowlist := cr_ProviderAllowlist r |}.
Definition set_RateLimitRPM z r := {| cr_Name := cr_Name r; cr_RateLimitRPM := z; cr_BudgetCents := cr_BudgetCents r;
  cr_APIKey := cr_APIKey r; cr_ProviderAllowlist := cr_ProviderAllowlist r |}.
Definition set_BudgetCents z r := {| cr_Name := cr_Name r; cr_RateLimitRPM := cr_RateLimitRPM r; cr_BudgetCents := z;
  cr_APIKey := cr_APIKey r; cr_ProviderAllowlist := cr_ProviderAllowlist r |}.
Definition set_APIKey s r := {| cr_Name := cr_Name r; cr_RateLimitRPM := cr_RateLimitRPM r; cr_BudgetCents := cr_BudgetCents r;
  cr_APIKey := s; cr_ProviderAllowlist := cr_ProviderAllowlist r |}.
Definition set_ProviderAllowlist l r := {| cr_Name := cr_Name r; cr_RateLimitRPM := cr_RateLimitRPM r; cr_BudgetCents := cr_BudgetCents r;
  cr_APIKey := cr_APIKey r; cr_ProviderAllowlist := l |}.
Definition fields : fields create_request := [
  ("name", field cr_Name set_Name dec_string);
  ("rate_limit_rpm", field cr_RateLimitRPM set_RateLimitRPM dec_int);
  ("budget_cents", field cr_BudgetCents set_BudgetCents dec_int);
  ("api_key", field cr_APIKey set_APIKey dec_string);
  ("provider_allowlist", field cr_ProviderAllowlist set_ProviderAllowlist (dec_slice dec_string ""))]%string.
End Create.

(** ** The handlers *)

Record admin (D A Mon : Type) := { adb : D; ch : option A; amonitor : Mon; awriter : response }.
Arguments adb {D A Mon} _.
Arguments ch {D A Mon} _.
Arguments amonitor {D A Mon} _.
Arguments awriter {D A Mon} _.

(** The secret is an argument of [Admin.serve]. *)
Definition NewAdminHandler {D A Mon} (db : D) (ch : option A) (monitor : Mon) : admin D A Mon :=
  {| adb := db; ch := ch; amonitor := monitor; awriter := empty_response |}.

Module Admin.
Section admin.
Context {D A Mon : Type} `{TenantRepository D} `{AnalyticsRepository A} `{HealthMonitor Mon}.

(** The text of instants, the error of encoding/json for a text, and what the
    analytics repository is when it is a [*ClickHouseClient]: the events of its
    subscription to "logs:live". *)
Context (format_time : Z -> string) (json_error : string -> error) (subscribe : A -> option (list log_event)).
Abbreviation st := (admin D A Mon).

Definition put_db (x : D) (s : st) : st := {| adb := x; ch := ch s; amonitor := amonitor s; awriter := awriter s |}.
Definition put_ch (x : A) (s : st) : st := {| adb := adb s; ch := Some x; amonitor := amonitor s; awriter := awriter s |}.
Definition put_monitor (x : Mon) (s : st) : st := {| adb := adb s; ch := ch s; amonitor := x; awriter := awriter s |}.
Definition put_writer (x : response) (s : st) : st := {| adb := adb s; ch := ch s; amonitor := amonitor s; awriter := x |}.

Definition with_db {B} (op : D -> B * D) : M st B := zoom adb put_db op.
Definition respond (f : response -> response) : M st unit := modify (fun s => put_writer (f (awriter s)) s).
(** A call through a nil interface panics. *)
Definition with_ch {B} (op : A -> B * A) : M st B := fun s =>
  match ch s with
  | None => (Panics NilDereference, s)
  | Some a => let '(b, a) := op a in (Returns b, put_ch a s)
  end.

Definition json_type : response -> response := header_Set "Content-Type" "application/json".

Definition jsonError (msg : string) (code : Z) : M st unit :=
  respond json_type;;
  respond (WriteHeader code);;
  respond (Encode (Some (JObj [("error", JStr msg)]%string))).

(** A result as JSON, or its error with status 500. *)
Definition answer {B} (to_json : B -> option json) (r : result B) : M st unit :=
  match r with
  | inr err => jsonError (Error err) StatusInternalServerError
  | inl v => respond json_type;; respond (Encode (to_json v))
  end.

Definition listTenants (r : admin_request) : M st unit :=
  tenants ← with_db (GetAllTenants (a_ctx r));
  answer (json_slice (fun t => Some (Db.Codec.json_Tenant t))) tenants.

Definition createTenant (r : admin_request) : M st unit :=
  let '(req, ok) := Decode (dec_struct Create.fields) (a_Body r) Create.zero in
  if negb ok then jsonError (Error (json_error (a_Body r))) StatusBadRequest
  else
    let keyHash := key_hash (cr_APIKey req) in
    tenant ← with_db (CreateTenant (a_ctx r) (cr_Name req) keyHash (cr_RateLimitRPM req) (cr_BudgetCents req) (cr_ProviderAllowlist req));
    answer (fun t => Some (Db.Codec.json_Tenant t)) tenant.

Definition getStats (r : admin_request) : M st unit :=
  stats ← with_ch (GetGlobalStats (a_ctx r));
  answer json_GlobalStats stats.

Definition getCharts (r : admin_request) : M st unit :=
  charts ← with_ch (GetChartData (a_ctx r));
  answer (json_slice (json_ChartPoint format_time)) charts.

Definition getTenantStats (r : admin_request) : M st unit :=
  stats ← with_ch (GetTenantStats (a_ctx r) (url_param r "id"));
  answer json_TenantStats stats.

Definition failProvider (t : Z) (r : admin_request) : M st unit :=
  modify (fun s => put_monitor (ForceFailure t (url_param r "name") (amonitor s)) s);;
  respond (WriteHeader StatusNoContent).

(** The loop of the log stream; [true] when it has returned. *)
Fixpoint log_loop (events : list log_event) : M st bool :=
  match events with
  | [] => mret false
  | LogMessage payload :: events => respond (Write ("data: " ++ payload ++ NL ++ NL));; log_loop events
  | LogDone :: _ => mret true
  end.

Definition streamLogs (flushes : bool) (r : admin_request) : M st bool :=
  respond (header_Set "Content-Type" "text/event-stream");;
  respond (header_Set "Cache-Control" "no-cache");;
  respond (header_Set "Connection" "keep-alive");;
  if negb flushes then respond (http_Error "Streaming unsupported" StatusInternalServerError);; mret true
  else
    c ← gets ch;
    match c ≫= subscribe with
    | None => respond (http_Error "Streaming unsupported" StatusInternalServerError);; mret true
    | Some events => log_loop events
    end.

(** *** The middleware *)

Definition token (r : admin_request) : string :=
  if decide (X_Admin_Token r = ""%string) then query_token r else X_Admin_Token r.

Definition AuthMiddleware (adminSecret : string) (next : admin_request -> M st bool) (r : admin_request) : M st bool :=
  if decide (adminSecret = ""%string \/ token r <> adminSecret)
  then respond (http_Error "unauthorized" StatusUnauthorized);; mret true
  else next r.

(** *** The routes *)

Inductive endpoint :=
  | ListTenants | NewTenant | TenantStatistics | Statistics | Charts | LogStream | FailProvider.

Definition RegisterRoutes : list (string * string * endpoint) := [
  ("GET", "/tenants", ListTenants); ("POST", "/tenants", NewTenant); ("GET", "/tenants/{id}/stats", TenantStatistics);
  ("GET", "/stats", Statistics); ("GET", "/charts", Charts); ("GET", "/logs/stream", LogStream);
  ("POST", "/providers/{name}/fail", FailProvider)]%string.

(** A request that arrives at [t], for an endpoint; a panic is the panic of the
    handler. *)
Definition handle (flushes : bool) (t : Z) (e : endpoint) (r : admin_request) : M st bool :=
  match e with
  | ListTenants => listTenants r;; mret true
  | NewTenant => createTenant r;; mret true
  | TenantStatistics => getTenantStats r;; mret true
  | Statistics => getStats r;; mret true
  | Charts => getCharts r;; mret true
  | LogStream => streamLogs flushes r
  | FailProvider => failProvider t r;; mret true
  end.

Definition serve (adminSecret : string) (flushes : bool) (t : Z) (e : endpoint) : admin_request -> M st bool :=
  AuthMiddleware adminSecret (handle flushes t e).
End admin.
End Admin.

(** ** What the admin API may change *)

Ltac astep := wp_step; cbn [adb ch amonitor awriter fst snd Admin.put_db Admin.put_ch Admin.put_monitor Admin.put_writer].

Section changes.
Context {D A Mon : Type} `{TenantRepositoryLaws D} `{AnalyticsRepository A} `{HealthMonitorLaws Mon}.
Context (format_time : Z -> string) (json_error : string -> error) (subscribe : A -> option (list log_event)).
Abbreviation st := (admin D A Mon).
Implicit Types s : st.

Definition authorized (adminSecret : string) (r : admin_request) : Prop :=
  adminSecret <> ""%string /\ Admin.token r = adminSecret.

(** The request of a creation, as it is read. *)
Definition creation (r : admin_request) (req : create_request) : Prop :=
  Decode (dec_struct Create.fields) (a_Body r) Create.zero = (req, true).

(** [t] is the tenant that [req] asks for. *)
Definition asked_for (req : create_request) (t : Tenant) : Prop :=
  TName t = cr_Name req /\ APIKeyHash t = key_hash (cr_APIKey req) /\ RateLimitRPM t = cr_RateLimitRPM req /\
  BudgetCents t = cr_BudgetCents req /\ SpentCents t = 0 /\ ProviderAllowlist t = cr_ProviderAllowlist req.

Definition same s s' : Prop := tenants (adb s') = tenants (adb s) /\ amonitor s' = amonitor s.

(** What an endpoint may do. *)
Definition allowed_change (e : Admin.endpoint) (r : admin_request) s s' : Prop :=
  same s s' \/
  match e with
  | Admin.NewTenant => amonitor s' = amonitor s /\
      exists req t, creation r req /\ tenants (adb s') = tenants (adb s) ++ [t] /\ asked_for req t
  | Admin.FailProvider => tenants (adb s') = tenants (adb s) /\
      exists now, amonitor s' = ForceFailure now (url_param r "name") (amonitor s)
  | _ => False
  end.

Lemma jsonError_same msg code s : wp (Admin.jsonError msg code) (fun _ s' => same s s') s.
Proof. unfold Admin.jsonError, Admin.respond. by do 5 astep. Qed.

Lemma answer_same {B} (f : B -> option json) v s : wp (Admin.answer f v) (fun _ s' => same s s') s.
Proof. unfold Admin.answer. destruct v; [unfold Admin.respond; by do 3 astep|apply jsonError_same]. Qed.

Lemma with_ch_answer {B} (op : A -> result B * A) (f : B -> option json) s :
  wp (v ← Admin.with_ch op; Admin.answer f v) (fun _ s' => same s s') s.
Proof.
  apply wp_bind. unfold Admin.with_ch, wp at 1. destruct (ch s) as [a|]; [|done]. destruct (op a) as [v a']. cbn [fst snd after].
  eapply wp_mono; [apply answer_same|]. done.
Qed.

Lemma log_loop_same es : forall s, wp (Admin.log_loop es) (fun _ s' => same s s') s.
Proof.
  induction es as [|[p|] es IH]; intros s; cbn [Admin.log_loop]; [by astep| |by astep].
  unfold Admin.respond. do 2 astep. eapply wp_mono; [apply IH|]. done.
Qed.

Lemma wp_then {X} (m : M st X) Q s : wp m (fun _ s' => Q s') s -> wp (m;; mret true) (fun _ s' => Q s') s.
Proof. intros Hm. apply wp_bind. eapply wp_mono; [exact Hm|]. intros o s' Q'. destruct o; [by astep|done]. Qed.

Lemma handle_changes flushes t e r s :
  wp (Admin.handle format_time json_error subscribe flushes t e r) (fun _ s' => allowed_change e r s s') s.
Proof.
  unfold allowed_change. destruct e; cbn [Admin.handle].
  - apply wp_then. unfold Admin.listTenants, Admin.with_db. do 2 astep. eapply wp_mono; [apply answer_same|].
    intros o s' [E1 E2]. left. split; [|done]. rewrite E1. apply All_keeps.
  - apply wp_then. unfold Admin.createTenant, creation. destruct (Decode _ _ _) as [req ok]. destruct ok; cbn [negb].
    + unfold Admin.with_db. do 2 astep. eapply wp_mono; [apply answer_same|]. intros o s' [E1 E2]. cbn in E1, E2.
      match type of E1 with _ = tenants (snd ?x) => destruct (fst x) as [t'|err] eqn:E end.
      * right. split; [done|]. exists req, t'. destruct (Create_adds _ _ _ _ _ _ _ _ E) as (T & F).
        by rewrite E1.
      * left. split; [|done]. rewrite E1. by eapply Create_fails.
    + eapply wp_mono; [apply jsonError_same|]. by left.
  - apply wp_then. eapply wp_mono; [apply with_ch_answer|]. by left.
  - apply wp_then. eapply wp_mono; [apply with_ch_answer|]. by left.
  - apply wp_then. eapply wp_mono; [apply with_ch_answer|]. by left.
  - unfold Admin.streamLogs, Admin.respond. do 6 astep. destruct flushes; cbn [negb]; [|do 3 astep; by left].
    do 2 astep. destruct (ch s ≫= subscribe) as [es|]; [|do 3 astep; by left].
    eapply wp_mono; [apply log_loop_same|]. by left.
  - apply wp_then. unfold Admin.failProvider, Admin.respond. do 3 astep. right. eauto.
Qed.

(** C17: Nothing is changed through the admin API without its secret: whatever
    the request, the tenants of the repository and the health of the providers
    stay as they are, unless the secret is set and the request carries it, and
    then only by the two endpoints that are meant to: a creation, if its body
    can be read, adds exactly the tenant that it asks for - its name, limits and
    allowlist of providers, with nothing spent and the hash of its API key - and
    a forced failure makes exactly the named provider unhealthy. *)
Theorem admin_changes adminSecret flushes t e r s o s' :
  Admin.serve format_time json_error subscribe adminSecret flushes t e r s = (o, s') ->
  same s s' \/
  authorized adminSecret r /\
  match e with
  | Admin.NewTenant => amonitor s' = amonitor s /\
      exists req t, creation r req /\ tenants (adb s') = tenants (adb s) ++ [t] /\ asked_for req t
  | Admin.FailProvider => tenants (adb s') = tenants (adb s) /\
      observe (amonitor s') (url_param r "name") = StateUnhealthy /\
      forall q, q <> url_param r "name" -> observe (amonitor s') q = observe (amonitor s) q
  | _ => False
  end.
Proof.
  unfold Admin.serve, Admin.AuthMiddleware. case_decide as U.
  - intros X. assert (Wp : wp (Admin.respond (http_Error "unauthorized" StatusUnauthorized);; mret true) (fun _ s' => same s s') s)
      by (unfold Admin.respond; by do 3 astep).
    left. exact (wp_run _ _ _ _ _ Wp X).
  - intros X. destruct (wp_run _ _ _ _ _ (handle_changes flushes t e r s) X) as [Sm|Ch]; [by left|]. right.
    split.
    { split; [intros N; apply U; by left|]. destruct (decide (Admin.token r = adminSecret)) as [|N]; [done|].
      destruct U. by right. }
    destruct e; try done. destruct Ch as [E (n & ->)]. split; [done|]. split; [apply ForceFailure_observe|].
    intros q N. by apply ForceFailure_other.
Qed.

(** A provider that was failed by hand is not selected, until something is
    recorded about it: after an authorized request to fail it, no selection
    over any providers and allowlist chooses it. *)
Theorem failed_provider_is_avoided {P} `{Named P} `{ProviderSelector Mon P} `{!ProviderSelectorLaws Mon P}
    adminSecret flushes t r s o s' now ps allowlist (p : P) :
  authorized adminSecret r ->
  Admin.serve format_time json_error subscribe adminSecret flushes t Admin.FailProvider r s = (o, s') ->
  fst (Select now ps allowlist (amonitor s')) = Some p -> provider_name p <> url_param r "name".
Proof.
  intros [N T] X Ch E. destruct (Select_chosen now ps allowlist (amonitor s') p Ch) as (_ & _ & Hl). apply Hl. rewrite E.
  revert X. unfold Admin.serve, Admin.AuthMiddleware. rewrite decide_False by tauto.
  intros X. cbn in X. unfold Admin.failProvider, mbind, M_bind, modify in X. cbn in X. injection X as _ <-.
  apply ForceFailure_observe.
Qed.
End changes.

(** ** Creations *)

Section creations.
Context {D A Mon : Type} `{TenantRepositoryLaws D} `{AnalyticsRepository A} `{HealthMonitor Mon}.
Context (format_time : Z -> string) (json_error : string -> error) (subscribe : A -> option (list log_event)).
Implicit Types s : admin D A Mon.

Definition json_create (req : create_request) : json :=
  JObj [("name", JStr (cr_Name req)); ("rate_limit_rpm", JInt (cr_RateLimitRPM req)); ("budget_cents", JInt (cr_BudgetCents req));
        ("api_key", JStr (cr_APIKey req)); ("provider_allowlist", JStrings (cr_ProviderAllowlist req))]%string.

Definition valid_create (req : create_request) : Prop :=
  valid_utf8 (cr_Name req) = true /\ valid_utf8 (cr_APIKey req) = true /\ is_int64 (cr_RateLimitRPM req) /\
  is_int64 (cr_BudgetCents req) /\ forallb valid_utf8 (default [] (cr_ProviderAllowlist req)) = true.

#[export] Instance valid_create_dec req : Decision (valid_create req).
Proof. unfold valid_create. apply _. Defined.

Lemma json_create_wf req : wf 0 (json_create req) = true.
Proof.
  apply wf_object; [done|].
  repeat (constructor; cbn [snd]; [first [reflexivity | apply num_ok_Itoa | by apply wf_strings]|]). constructor.
Qed.

Lemma Decode_create req : valid_create req ->
  Decode (dec_struct Create.fields) (marshal (json_create req)) Create.zero = (req, true).
Proof.
  intros (V1 & V2 & V3 & V4 & V5). rewrite <- (append_nil_r (marshal _)), Decode_marshal; [|apply json_create_wf|done].
  unfold dec_struct, json_create. cbn [coerce]. decode_members. by destruct req.
Qed.

Lemma Decode_Tenant t : valid_Tenant t ->
  Decode (dec_struct Db.Codec.Tenant_fields) (marshal (Db.Codec.json_Tenant t) ++ NL) Db.Codec.zero_Tenant = (t, true).
Proof. intros V. rewrite Decode_marshal; [by apply Tenant_back|apply json_Tenant_wf|done]. Qed.

Lemma answer_inl {B} (f : B -> option json) v j s : f v = Some j ->
  Admin.answer f (inl v) s = (Returns tt, Admin.put_writer (Write (marshal j ++ NL) (Admin.json_type (awriter s))) s).
Proof. intros E. unfold Admin.answer. rewrite E. reflexivity. Qed.

Lemma answer_inr {B} (f : B -> option json) err s :
  Admin.answer f (inr err) s = (Returns tt, Admin.put_writer (Write (marshal (JObj [("error", JStr (Error err))]%string) ++ NL)
    (WriteHeader StatusInternalServerError (Admin.json_type (awriter s)))) s).
Proof. reflexivity. Qed.

(** C18: Creating a tenant, end to end: the JSON text of any valid request is read
    as it was written; if the repository accepts it, exactly one tenant is
    added, with the hash of the API key in place of the key, and the body of
    the response reads back as that tenant; if it refuses, nothing is added
    and the response is the error with status 500. *)
Theorem createTenant_creates r req s o s' :
  valid_create req -> a_Body r = marshal (json_create req) -> awriter s = empty_response ->
  Admin.createTenant json_error r s = (o, s') ->
  let '(made, d) := CreateTenant (a_ctx r) (cr_Name req) (key_hash (cr_APIKey req)) (cr_RateLimitRPM req)
                      (cr_BudgetCents req) (cr_ProviderAllowlist req) (adb s) in
  adb s' = d /\
  match made with
  | inl t => tenants d = tenants (adb s) ++ [t] /\ asked_for req t /\ w_status (awriter s') = StatusOK /\
      (valid_Tenant t -> Decode (dec_struct Db.Codec.Tenant_fields) (w_body (awriter s')) Db.Codec.zero_Tenant = (t, true))
  | inr err => tenants d = tenants (adb s) /\ w_status (awriter s') = StatusInternalServerError /\
      w_body (awriter s') = (marshal (JObj [("error", JStr (Error err))]%string) ++ NL)%string
  end.
Proof.
  intros V B W. unfold Admin.createTenant. rewrite B, Decode_create by done. cbn [negb].
  unfold Admin.with_db, zoom, mbind, M_bind.
  pose proof (Create_adds (a_ctx r) (cr_Name req) (key_hash (cr_APIKey req)) (cr_RateLimitRPM req) (cr_BudgetCents req)
    (cr_ProviderAllowlist req) (adb s)) as Ad.
  pose proof (Create_fails (a_ctx r) (cr_Name req) (key_hash (cr_APIKey req)) (cr_RateLimitRPM req) (cr_BudgetCents req)
    (cr_ProviderAllowlist req) (adb s)) as Fa.
  destruct (CreateTenant _ _ _ _ _ _ (adb s)) as [[t|err] d]; cbn [fst snd] in *.
  - erewrite answer_inl by reflexivity. intros [= <- <-]. cbn [adb awriter Admin.put_writer Admin.put_db]. rewrite W. split; [done|].
    destruct (Ad t eq_refl) as (T & F). split; [done|]. split; [done|]. split; [done|]. apply Decode_Tenant.
  - rewrite answer_inr. intros [= <- <-]. cbn [adb awriter Admin.put_writer Admin.put_db]. rewrite W. split; [done|].
    split; [by eapply Fa|]. split; reflexivity.
Qed.

(** Without ClickHouse the statistics panic and the log stream is refused:
    when the analytics repository could not be opened, each of the three
    statistics endpoints dereferences a nil interface before it has written
    anything, and the log stream answers 500. *)
Theorem nil_analytics flushes t r s :
  ch s = None ->
  (forall e, In e [Admin.TenantStatistics; Admin.Statistics; Admin.Charts] ->
     Admin.handle format_time json_error subscribe flushes t e r s = (Panics NilDereference, s)) /\
  (w_status (awriter s) = 0 ->
   exists s', Admin.handle format_time json_error subscribe flushes t Admin.LogStream r s = (Returns true, s') /\
     w_status (awriter s') = StatusInternalServerError).
Proof.
  intros N. split.
  - intros e I. destruct s as [d c m w]. cbn in N. subst c. by repeat (destruct I as [<-|I]; [reflexivity|]).
  - intros W. eexists. unfold Admin.handle, Admin.streamLogs, Admin.respond, mbind, M_bind, modify, gets. cbn -[http_Error].
    destruct flushes; cbn -[http_Error]; [rewrite N; cbn -[http_Error]|]; (split; [reflexivity|]);
      cbn -[http_Error]; unfold http_Error, Write, WriteHeader; cbn; rewrite W; done.
Qed.
End creations.

(** ** Scenarios *)

From S2P Require Import Budget GoSort.
Import (hints) Analytics.Scenario.

Module Scenario.
#[export] Existing Instance InsertionAsLargeSort.sort.
#[export] Existing Instance InsertionAsLargeSort.laws.
#[export] Instance named : Named string := id.

Definition client : ClickHouseClient unit unit := {| conn := tt; ch_redis := tt |}.
Definition state : admin Ledger (ClickHouseClient unit unit) EWMAMonitor :=
  {| adb := {| all := [] |}; ch := Some client; amonitor := EWMA.NewEWMAMonitor; awriter := empty_response |}.
Definition closed : admin Ledger (ClickHouseClient unit unit) EWMAMonitor :=
  {| adb := {| all := [] |}; ch := None; amonitor := EWMA.NewEWMAMonitor; awriter := empty_response |}.

Definition acme : create_request :=
  {| cr_Name := "Acme"; cr_RateLimitRPM := 60; cr_BudgetCents := 1000; cr_APIKey := "sk-acme"; cr_ProviderAllowlist := Some ["openai"] |}%string.
Definition request (token body : string) : admin_request :=
  {| a_ctx := Background; X_Admin_Token := ""; query_token := token; url_param := fun _ => "openai"%string; a_Body := body |}.
Definition serve := Admin.serve (D := Ledger) (Mon := EWMAMonitor) (A := ClickHouseClient unit unit) (fun _ => ""%string) Errorf (fun _ => Some [LogDone]).
End Scenario.
Import (hints) Scenario.

(** Two creations of the same restricted tenant: with a guessed token nothing is
    changed, with the secret it is added, with its allowlist. *)
Lemma admin_changes_witness :
  let create token := Admin.serve (D := Ledger) (A := ClickHouseClient unit unit) (Mon := EWMAMonitor) (fun _ => ""%string) Errorf
    (fun _ => Some [LogDone]) "kb-master-key" true 0 Admin.NewTenant
    (Scenario.request token (marshal (json_create Scenario.acme))) Scenario.state in
  same Scenario.state (snd (create "guess"%string)) /\
  exists t, all (adb (snd (create "kb-master-key"%string))) = [t] /\ ProviderAllowlist t = Some ["openai"%string] /\ BudgetCents t = 1000.
Proof.
  intros create. split.
  - destruct (admin_changes (D := Ledger) (A := ClickHouseClient unit unit) (Mon := EWMAMonitor) (fun _ => ""%string) Errorf (fun _ => Some [LogDone])
      "kb-master-key" true 0 Admin.NewTenant (Scenario.request "guess" (marshal (json_create Scenario.acme))) Scenario.state
      _ _ (surjective_pairing _)) as [Sm|[[_ T] _]]; [exact Sm|discriminate T].
  - destruct (admin_changes (D := Ledger) (A := ClickHouseClient unit unit) (Mon := EWMAMonitor) (fun _ => ""%string) Errorf (fun _ => Some [LogDone])
      "kb-master-key" true 0 Admin.NewTenant (Scenario.request "kb-master-key" (marshal (json_create Scenario.acme))) Scenario.state
      _ _ (surjective_pairing _)) as [[Sm _]|(_ & _ & req & t & Cr & T & _ & _ & _ & B & _ & Al)]; [by vm_compute in Sm|].
    exists t. assert (req = Scenario.acme) as ->; [|by split; [exact T|split; [exact Al|exact B]]].
    assert (V : valid_create Scenario.acme) by (apply (bool_decide_unpack (valid_create _)); by vm_compute).
    unfold creation in Cr. cbn [a_Body Scenario.request] in Cr. rewrite (Decode_create _ V) in Cr. by injection Cr as <-.
Defined.

Lemma failed_provider_is_avoided_witness :
  let m := amonitor (snd (Scenario.serve "kb-master-key" true 5 Admin.FailProvider (Scenario.request "kb-master-key" "") Scenario.state)) in
  fst (Select 6 ["openai"; "gemini"]%string [] m) = Some "gemini"%string /\ "gemini"%string <> "openai"%string.
Proof.
  assert (G : forall x, Scenario.serve "kb-master-key" true 5 Admin.FailProvider (Scenario.request "kb-master-key" "") Scenario.state = x ->
    fst (Select 6 ["openai"; "gemini"]%string [] (amonitor (snd x))) = Some "gemini"%string -> "gemini"%string <> "openai"%string).
  { intros [o s'] X Ch. unfold Scenario.serve in X.
    pose proof (failed_provider_is_avoided (D := Ledger) (A := ClickHouseClient unit unit) (Mon := EWMAMonitor) (P := string)
      (fun _ => ""%string) Errorf (fun _ => Some [LogDone]) "kb-master-key" true 5 (Scenario.request "kb-master-key" "")
      Scenario.state o s' 6 ["openai"; "gemini"]%string [] "gemini"%string) as T.
    assert (Au : authorized "kb-master-key" (Scenario.request "kb-master-key" "")) by (split; [discriminate|reflexivity]).
    specialize (T Au X). specialize (T Ch). exact T. }
  intros m. assert (E : fst (Select 6 ["openai"; "gemini"]%string [] m) = Some "gemini"%string) by by vm_compute.
  split; [exact E|exact (G _ eq_refl E)].
Defined.

(** The new tenant is found by its key. *)
Lemma createTenant_creates_witness :
  let r := Scenario.request "" (marshal (json_create Scenario.acme)) in
  let s' := snd (Admin.createTenant Errorf r Scenario.state) in
  w_status (awriter s') = StatusOK /\
  fst (GetTenantByAPIKeyHash Background (key_hash "sk-acme") (adb s')) = inl (default Db.Codec.zero_Tenant (head (all (adb s')))).
Proof.
  intros r s'.
  assert (V : valid_create Scenario.acme) by (apply (bool_decide_unpack (valid_create _)); by vm_compute).
  pose proof (createTenant_creates (D := Ledger) (A := ClickHouseClient unit unit) (Mon := EWMAMonitor) Errorf
    r Scenario.acme Scenario.state (fst (Admin.createTenant Errorf r Scenario.state)) s' V eq_refl eq_refl (surjective_pairing _)) as H.
  destruct H as (E & _ & _ & St & _). split; [exact St|]. rewrite E. by vm_compute.
Defined.

Lemma nil_analytics_witness :
  Admin.handle (D := Ledger) (A := ClickHouseClient unit unit) (Mon := EWMAMonitor) (fun _ => ""%string) Errorf (fun _ => None)
    true 0 Admin.Statistics (Scenario.request "" "") Scenario.closed = (Panics NilDereference, Scenario.closed).
Proof. apply nil_analytics; [reflexivity|]. right. left. reflexivity. Defined.
