(* ===== verification/System.v ===== *)
(** * System: the running gateway
    (router/handler.go, router/admin.go, logging/logging.go, db/processor.go)

    The handler, the admin API and the budget processor share the tenant
    repository and the health monitor, and are connected by a Kafka topic: the
    handler logs an event for every request that a provider answers, at the
    price of the answer, the processor charges it.
    Their composition is a step relation; the theorem says where the money
    that a tenant has spent comes from. *)

From Stdlib Require Import Sorting.Permutation.
From S2P Require Import Prelude Rounding Binary64 Float64 GoTypes Json Decode Sha256 Monitor GoSort Selector Provider RateLimit Resilient Cache Db Logging Budget Handler Stages Requests Analytics Admin.
Local Open Scope Z_scope.

(** ** What a request logs *)

Section journal.
Context {W D L C Mon G P : Type}.
Context `{Clock W} `{TenantRepository D} `{Limiter L} `{Cache C} `{HealthMonitor Mon}
  `{Provider W P} `{Streamer W P} `{Logger G} `{ProviderSelector Mon P}.
Abbreviation gw := (gateway W D L C Mon G).
Implicit Types s : gw.

Context (providers : list P).

(** What the event of a request [req] of the tenant [t], dispatched to [p], says:
    whose it is and who answered, and the price - for a synchronous request that
    of the tokens that the provider reported, and nothing for a stream. *)
Definition priced (r : http_request) (req : ChatRequest) s (t : Tenant) (p : P) (e : LogEvent) : Prop :=
  TenantID e = ID t /\ ev_Provider e = Name p /\
  if req_Stream req then CostCents e = f_of_int 0
  else exists resp w, Chat p (r_ctx r) req (world s) = (Returns (inl resp), w) /\
    CostCents e = Cost.EstimateCost (resp_Model resp) (resp_PromptTokens resp) (resp_CompletionTokens resp) /\
    ev_PromptTokens e = resp_PromptTokens resp /\ ev_CompletionTokens e = resp_CompletionTokens resp.

(** [e] is the event of the request: its tenant was found and admitted, its text
    is well formed, the answer was not cached, and a provider was selected. *)
Definition charged (r : http_request) s (e : LogEvent) : Prop :=
  exists t s1 req p, Stages.known r s t s1 /\ Stages.admitted s t /\ Stages.decoding r = (req, true) /\
    Stages.not_cached r req s t s1 /\ fst (Stages.selection providers s t) = Some p /\ priced r req s t p e.

(** The events that a request has logged: one or none. *)
Inductive logs (r : http_request) s : list LogEvent -> G -> Prop :=
  | logs_nothing : logs r s [] (logger s)
  | logs_event e : charged r s e ->
      logs r s [e] (snd (Broadcast (r_ctx r) e (snd (Log (r_ctx r) e (logger s))))).

Definition journaled (r : http_request) s (g : G) : Prop := exists es, logs r s es g.

Lemma silent r s (g : G) : g = logger s -> journaled r s g.
Proof. intros ->. exists []. constructor. Qed.

Section dispatched.
Context (r : http_request) (s : gw) (t : Tenant) (s1 : gw) (req : ChatRequest) (p : P).
Context (Kn : Stages.known r s t s1) (Ad : Stages.admitted s t) (Dc : Stages.decoding r = (req, true))
  (Nc : Stages.not_cached r req s t s1) (Sl : fst (Stages.selection providers s t) = Some p).

Lemma recorded e (g : G) : priced r req s t p e ->
  g = snd (Broadcast (r_ctx r) e (snd (Log (r_ctx r) e (logger s)))) -> journaled r s g.
Proof using Kn Ad Dc Nc Sl. intros Pr ->. exists [e]. constructor. by exists t, s1, req, p. Qed.

Lemma stream_loop_journal flushes start events : req_Stream req = true -> forall tp tc s', logger s' = logger s ->
  wp (Gateway.stream_loop flushes r p req t start tp tc events) (fun _ s' => journaled r s (logger s')) s'.
Proof using Kn Ad Dc Nc Sl.
  intros St. induction events as [|[u ev] events IH]; intros tp tc s' E; cbn [Gateway.stream_loop]; [step; by apply silent|].
  unfold Gateway.respond, Gateway.with_logger, Gateway.with_monitor. destruct ev as [c| |e| |].
  - do 3 step. destruct flushes; step; [by apply IH|by apply silent].
  - do 5 step. set (e := {| RequestID := _ |}). apply (recorded e); [unfold priced; by rewrite St|]. cbn. by rewrite E.
  - do 3 step. by apply silent.
  - by apply IH.
  - step. by apply silent.
Qed.

Lemma handle_journal flushes start s' : logger s' = logger s -> world s' = world s ->
  wp (Stages.handle flushes r req p t start) (fun _ s' => journaled r s (logger s')) s'.
Proof using Kn Ad Dc Nc Sl.
  intros El Ew. unfold Stages.handle. destruct (req_Stream req) eqn:St.
  - unfold Gateway.handleStream, Gateway.with_world. apply wp_bind. unfold wp at 1.
    destruct (ChatStream _ _ _ _) as [[evs|e] w]; [|by apply silent]. unfold Gateway.respond. cbn [fst snd after].
    do 6 step. by apply stream_loop_journal.
  - apply wp_bind. unfold Gateway.handleSync, Gateway.with_world. apply wp_bind. unfold wp at 1. rewrite Ew.
    destruct (Chat p (r_ctx r) req (world s)) as [[resp|e] w] eqn:E; [|by apply silent]. cbn [fst snd after].
    unfold Gateway.time_Now, Gateway.fail_with, Gateway.respond, Gateway.with_monitor, Gateway.with_logger, Gateway.with_cache.
    do 2 step. destruct resp as [resp|err]; [|do 4 step; by apply silent]. do 14 step.
    eapply recorded; [|cbn; by rewrite El]. unfold priced. rewrite St. split; [done|]. split; [done|]. by exists resp, w.
Qed.
End dispatched.

Lemma ServeHTTP_journal flushes r s :
  wp (Gateway.ServeHTTP providers flushes r) (fun _ s' => journaled r s (logger s')) s.
Proof.
  eapply wp_mono; [apply Stages.ServeHTTP_stage|].
  intros o s' [code msg hdr s0 Rf|s1 K Lk|t s1 req data Kn Ad Dc St Cm|t s1 req p o' s2 Kn Ad Dc Nc Sl X].
  - apply silent. by destruct (Stages.refusal_frame _ _ _ _ _ _ _ Rf) as (_ & E & _).
  - apply silent. by destruct (wp_run _ _ _ _ _ (Stages.lookup_frame r s) Lk) as (_ & _ & _ & E & _).
  - apply silent. by destruct (Stages.asked_frame r s t s1 (proj2 Kn) req) as (_ & _ & E & _).
  - destruct (Stages.asked_frame r s t s1 (proj2 Kn) req) as (Ew & _ & El & _).
    exact (wp_run _ _ _ _ _ (handle_journal r s t s1 req p Kn Ad Dc Nc Sl flushes (now (world s))
      (Stages.selected providers r req s t s1) El Ew) X).
Qed.
End journal.

(** ** The program *)

Section program.
Context {W D L C Mon G P A : Type}.
Context `{Clock W} `{TenantRepositoryLaws D} `{Limiter L} `{Cache C} `{HealthMonitor Mon}
  `{Provider W P} `{Streamer W P} `{TopicLogger G} `{ProviderSelector Mon P} `{AnalyticsRepository A}.
Abbreviation gw := (gateway W D L C Mon G).

(** What is fixed when the program starts. *)
Context (providers : list P) (flushes : bool) (adminSecret : string).
Context (format_time : Z -> string) (json_error : string -> error) (subscribe : A -> option (list log_event)).

(** The state of the handler and its parts, the processor's, and the
    messages that the processor has read. *)
Record program := {
  gate : gw;
  analytics : option A;
  processor : BudgetProcessor;
  processing : bool;
  consumed : list string
}.

Definition with_gate (g : gw) (s : program) : program :=
  {| gate := g; analytics := analytics s; processor := processor s; processing := processing s; consumed := consumed s |}.

(** The states of the other two, which share the repository. *)
Definition admin_state (s : program) : admin D A Mon :=
  {| adb := db (gate s); ch := analytics s; amonitor := monitor (gate s); awriter := empty_response |}.
Definition with_admin (a : admin D A Mon) (s : program) : program :=
  {| gate := Gateway.put_monitor (amonitor a) (Gateway.put_db (adb a) (gate s)); analytics := ch a;
     processor := processor s; processing := processing s; consumed := consumed s |}.
Definition processor_state (s : program) : Budget.state D :=
  {| proc := processor s; repo := db (gate s); running := processing s |}.
Definition with_processor (b : Budget.state D) (i : input) (s : program) : program :=
  {| gate := Gateway.put_db (repo b) (gate s); analytics := analytics s; processor := proc b; processing := running b;
     consumed := consumed s ++ match i with ReadMessage value => [value] | _ => [] end |}.

(** The consumer group gives the processor each message of the topic once; in
    which order depends on the partitions. *)
Definition deliverable (s : program) (i : input) : Prop :=
  match i with
  | ReadMessage value => exists rest, topic (logger (gate s)) ≡ₚ consumed s ++ value :: rest
  | _ => True
  end.

Definition costs (id : string) (h : list (http_request * LogEvent)) : list float64 :=
  flat_map (fun re => if decide (TenantID (snd re) = id) then [CostCents (snd re)] else []) h.

(** The states that the program reaches from a repository of tenants [ts], with
    the events that were logged, by their requests. *)
Inductive reaches (ts : list Tenant) : list (http_request * LogEvent) -> program -> Prop :=
  | reaches_start s : tenants (db (gate s)) = ts -> topic (logger (gate s)) = [] -> processor s = NewBudgetProcessor ->
      consumed s = [] -> reaches ts [] s
  | reaches_request h s r o g es : reaches ts h s ->
      Gateway.ServeHTTP providers flushes r (Gateway.put_writer empty_response (gate s)) = (o, g) ->
      logs providers r (Gateway.put_writer empty_response (gate s)) es (logger g) ->
      reaches ts (h ++ (pair r <$> es)) (with_gate g s)
  | reaches_admin h s t e r o a : reaches ts h s ->
      Admin.serve format_time json_error subscribe adminSecret flushes t e r (admin_state s) = (o, a) ->
      (forall tn, tenants (adb a) = tenants (db (gate s)) ++ [tn] -> costs (ID tn) h = []) ->
      reaches ts h (with_admin a s)
  | reaches_process h s ctx i b : reaches ts h s -> deliverable s i ->
      Budget.step ctx i (processor_state s) b -> reaches ts h (with_processor b i s)
  | reaches_environment h s g : reaches ts h s -> db g = db (gate s) -> logger g = logger (gate s) ->
      reaches ts h (with_gate g s).

(** Every request has some events, so that the rule for requests applies. *)
Lemma reaches_any_request ts h s r o g : reaches ts h s ->
  Gateway.ServeHTTP providers flushes r (Gateway.put_writer empty_response (gate s)) = (o, g) ->
  exists es, reaches ts (h ++ (pair r <$> es)) (with_gate g s).
Proof.
  intros R X. destruct (wp_run _ _ _ _ _ (ServeHTTP_journal providers flushes r _) X) as [es Ls].
  exists es. by eapply reaches_request.
Qed.

(** ** Messages *)






(** ** The invariant *)










End program.

(** ** A scenario *)

(** A journal whose events all reach the topic. *)
Definition payloads (es : list LogEvent) : list string :=
  omap (fun e => match Codec.marshal_LogEvent e with inl value => Some value | inr _ => None end) es.

#[export] Instance journal_topic : TopicLogger journal (H := Deployment.journal_Logger).
Proof.
  refine {| topic := fun j => payloads (logged j) |}; [|done].
  intros ctx e j. cbn. unfold payloads. rewrite omap_app. simpl.
  destruct (Codec.marshal_LogEvent e) as [value|err]; [right; by exists value|left; by rewrite app_nil_r].
Defined.

Module Scenario.

(** An expensive upstream: a million tokens at half a cent per thousand. *)
Definition reply : ChatResponse :=
  {| resp_Content := "Hello"; resp_Model := "gpt-4o"; resp_Provider := "openai"; resp_PromptTokens := 1000000; resp_CompletionTokens := 0 |}.
#[export] Instance costly_Provider : Provider Z unit := {|
  Name := fun _ => "openai"%string;
  Chat := fun _ ctx req w => (Returns (inl reply), w + 100 * Millisecond)
|}.
#[export] Instance costly_Streamer : Streamer Z unit := {| ChatStream := fun _ ctx req w => (Returns [], w) |}.
#[export] Existing Instances Deployment.clock Deployment.journal_Logger InsertionAsLargeSort.sort InsertionAsLargeSort.laws.
#[export] Instance selector : ProviderSelector EWMAMonitor unit := LatencyAwareSelector (H0 := provider_Named (W := Z)).
#[export] Existing Instance Admin.Scenario.named.
#[export] Existing Instance Analytics.Scenario.canned.

Abbreviation gw := (gateway Z Ledger TokenBucket MemoryCache EWMAMonitor journal).
Abbreviation program := (program (W := Z) (D := Ledger) (L := TokenBucket) (C := MemoryCache) (Mon := EWMAMonitor) (G := journal)
  (A := ClickHouseClient unit unit)).

Definition tenant : Tenant := Deployment.tenant "t-1" "sk" 100 None.

Definition start : program :=
  {| gate := {| world := 0; db := {| all := [tenant] |}; limiter := TB.NewTokenBucket 0; cache := Memory.NewMemoryCache;
                monitor := EWMA.NewEWMAMonitor; logger := {| logged := []; broadcast := [] |}; writer := empty_response |};
     analytics := None; processor := NewBudgetProcessor; processing := true; consumed := [] |}.

Abbreviation reaches := (reaches [()] true "" (fun _ => ""%string) Errorf (fun _ => None)).

(** A request, whose event is then read and flushed. *)
Definition request : http_request := Deployment.request "sk" Deployment.body.
Definition asked : outcome bool * gw := Gateway.ServeHTTP [()] true request (Gateway.put_writer empty_response (gate start)).
Definition answered : program := with_gate (snd asked) start.
Definition event : LogEvent := default Codec.zero_LogEvent (head (logged (logger (snd asked)))).
Definition message : string := default ""%string (head (payloads [event])).
Definition read : program :=
  with_processor {| proc := add_cost event NewBudgetProcessor; repo := db (gate answered); running := true |} (ReadMessage message) answered.
Definition charged : program :=
  with_processor (flushed Background [("t-1"%string, fadd (f_of_int 0) (CostCents event))] true (processor read) (db (gate read))) Tick read.



End Scenario.
Import (hints) Scenario.

(** Its states are reached. *)
Module Run.
Import Scenario.







End Run.

