(* ===== verification/Main.v ===== *)
(** * Main: how the gateway is put together (cmd/gateway/main.go)

    The choices that [main] makes from the configuration - which cache, which
    provider behind which name, which limits - and the program itself, as the
    list of events it causes.  The libraries that open connections are
    arguments: each may fail.  The theorems relate what is served to the
    environment and to the executions of System, and say which choices never
    apply and what follows: a Gemini client that could not be created is served
    as a nil pointer. *)

From Stdlib Require Import Ascii.
From S2P Require Import Prelude Rounding Binary64 Float64 GoTypes Utf8 Json Sha256 Monitor GoSort Selector Provider RateLimit Resilient Cache Db Logging Budget Handler Stages Stream Mock Upstreams Analytics Admin System Config.
Local Open Scope Z_scope.

(** ** Providers *)

(** The dynamic values of the interface [provider.Provider]; a Gemini provider
    is a pointer, which may be nil. *)
Inductive base (G : Type) :=
  | IsMock (p : MockProvider)
  | IsOpenAI (p : OpenAIProvider)
  | IsAnthropic (p : AnthropicProvider)
  | IsGemini (p : option G)
  | IsOllama (p : OllamaProvider).
Arguments IsMock {G} _.
Arguments IsOpenAI {G} _.
Arguments IsAnthropic {G} _.
Arguments IsGemini {G} _.
Arguments IsOllama {G} _.

(** [os.Getenv] *)
Definition Getenv (env : gmap string string) (key : string) : string := default ""%string (env !! key).

Section providers.
Context {G : Type}.

Definition openaiProv (openaiKey : string) : base G :=
  if decide (openaiKey = ""%string) then IsMock (Mock.NewMockProvider "openai") else IsOpenAI (NewOpenAIProvider openaiKey).

Definition anthropicProv (anthropicKey : string) : base G :=
  if decide (anthropicKey = ""%string) then IsMock (Mock.NewMockProvider "anthropic")
  else IsAnthropic (NewAnthropicProvider anthropicKey
    {| MaxIdleConns := 1000; MaxIdleConnsPerHost := 100; IdleConnTimeout := 90 * Second |}).

(** The pointer that [NewGeminiProvider] returns is assigned to an interface
    variable, which is nil ([None]) for no pointer. *)
Definition geminiProv (created : option G * option error) : base G :=
  let prov : option (base G) := Some (IsGemini (fst created)) in
  match prov with
  | None => IsMock (Mock.NewMockProvider "gemini")
  | Some p => p
  end.

Definition main_maxRetries : Z := 2.
Definition main_timeout : Z := 30 * Second.

Definition providers (env : gmap string string) (cfg : Config) (created : option G * option error) : list (ResilientProvider (base G)) :=
  let wrap p := NewResilientProvider p main_maxRetries main_timeout in
  [wrap (openaiProv (Getenv env "OPENAI_API_KEY"));
   wrap (anthropicProv (Getenv env "ANTHROPIC_API_KEY"));
   wrap (geminiProv created);
   wrap (IsOllama (Ollama.NewOllamaProvider (OllamaHost cfg)))].
End providers.

(** Calls through the interface. *)
Section dispatch.
Context {W K G : Type} `{Clock W} `{OpenAIClient W K} `{HTTPClient W} `{GenaiClient W G K}.

Definition base_Name (p : base G) : string :=
  match p with
  | IsMock p => Mock.Name p
  | IsOpenAI _ => OpenAI.Name
  | IsAnthropic _ => Anthropic.Name
  | IsGemini _ => Gemini.Name
  | IsOllama _ => Ollama.Name
  end.

Definition base_Chat (p : base G) (ctx : context) (req : ChatRequest) : M W (result ChatResponse) :=
  match p with
  | IsMock p => Mock.Chat p ctx req
  | IsOpenAI _ => OpenAI.Chat ctx req
  | IsAnthropic p => Anthropic.Chat p ctx req
  | IsGemini p => Gemini.Chat p ctx req
  | IsOllama p => Ollama.Chat p ctx req
  end.

#[export] Instance base_Provider : Provider W (base G) := {| Provider.Name := base_Name; Provider.Chat := base_Chat |}.

(** *** Streams *)

Context `{BodyReader K}.

(** The goroutines that the providers start. *)
Inductive base_goroutine :=
  | RunsMock (g : Mock.goroutine)
  | RunsOpenAI (g : OpenAI.goroutine (K := K))
  | RunsGemini (g : Gemini.goroutine (K := K))
  | RunsOllama (g : Ollama.goroutine (K := K)).

#[export] Instance base_Source : Source base_goroutine := fun done g =>
  match g with
  | RunsMock g => prod_map id RunsMock <$> Mock.next done g
  | RunsOpenAI g => prod_map id RunsOpenAI <$> OpenAI.next (W := W) done g
  | RunsGemini g => prod_map id RunsGemini <$> Gemini.next (W := W) (G := G) done g
  | RunsOllama g => prod_map id RunsOllama <$> Ollama.next done g
  end.

Definition in_base {S} (f : S -> base_goroutine) (l : link S) : link base_goroutine :=
  {| sender := f <$> sender l; errs := errs l; chunks_closed := chunks_closed l |}.

(** [body] is the client of a streaming goroutine of Ollama. *)
Definition base_ChatStream (body : K) (p : base G) (ctx : context) (req : ChatRequest) : M W (link base_goroutine) :=
  match p with
  | IsMock p => mret (in_base RunsMock (Mock.ChatStream p req))
  | IsOpenAI _ => l ← OpenAI.ChatStream ctx req; mret (in_base RunsOpenAI l)
  | IsAnthropic _ => mret (Anthropic.ChatStream req)
  | IsGemini p => l ← Gemini.ChatStream p ctx req; mret (in_base RunsGemini l)
  | IsOllama p =>
      match Ollama.ChatStream valid_url p req body with
      | inl l => mret (in_base RunsOllama l)
      | inr e => panics e
      end
  end.

(** What the attempts of a streamed request open, attempt [i] under [ctxs i] in
    the world [worlds i]. *)
Definition attempt_opens (body : K) (p : base G) (req : ChatRequest) (ctxs : Z -> context) (worlds : Z -> W) (i : Z)
    : link base_goroutine + panic :=
  match fst (base_ChatStream body p (ctxs i) req (worlds i)) with Returns l => inl l | Panics e => inr e end.
End dispatch.

(** ** The cache *)

(** [NewTwoTierCache] may fail, and its error is dropped: the pointer is nil. *)
Inductive gateway_cache (L R : Type) :=
  | InMemory (c : MemoryCache)
  | TwoTiers (c : option (TwoTierCache L R)).
Arguments InMemory {L R} _.
Arguments TwoTiers {L R} _.

Definition gatewayCache {L R} (cfg : Config) (redisCluster : R) (newCache : result L) : gateway_cache L R :=
  match RedisAddrs cfg with
  | [] => InMemory Memory.NewMemoryCache
  | addr :: _ =>
      if decide (addr = ""%string) then InMemory Memory.NewMemoryCache
      else TwoTiers match TwoTier.NewTwoTierCache redisCluster newCache with inl c => Some c | inr _ => None end
  end.

(** ** The server *)

Record server := { Addr : string; ReadTimeout : Z; WriteTimeout : Z; IdleTimeout : Z }.

Definition main_server (cfg : Config) : server :=
  {| Addr := ":" ++ Port cfg; ReadTimeout := 5 * Second; WriteTimeout := 60 * Second; IdleTimeout := 120 * Second |}.

Definition health (w : response) : response := Write "ok" (WriteHeader StatusOK w).

Inductive route_target := ToHealth | ToChat | ToAdmin.

(** Method (empty for any) and path, up to the sub-router of the admin API. *)
Definition routes : list (string * string * route_target) :=
  [("GET", "/health", ToHealth); ("POST", "/v1/chat/completions", ToChat); ("", "/admin", ToAdmin)]%string.

(** ** CORS and middleware *)

(** The fields of [cors.Options] that are set. *)
Record cors_Options := {
  AllowedOrigins : list string;
  AllowedMethods : list string;
  AllowedHeaders : list string;
  ExposedHeaders : list string;
  AllowCredentials : bool;
  MaxAge : Z
}.

Definition main_cors : cors_Options := {|
  AllowedOrigins := ["*"];
  AllowedMethods := ["GET"; "POST"; "PATCH"; "DELETE"; "OPTIONS"];
  AllowedHeaders := ["Accept"; "Authorization"; "Content-Type"; "X-CSRF-Token"; "X-API-Key"; "X-Admin-Token"];
  ExposedHeaders := ["Link"];
  AllowCredentials := false;
  MaxAge := 300
|}%string.

Inductive middleware := WithCors (o : cors_Options) | WithRequestID | WithRealIP | WithLogger | WithRecoverer.

(** The outermost first. *)
Definition main_middlewares : list middleware := [WithCors main_cors; WithRequestID; WithRealIP; WithLogger; WithRecoverer].

(** ** The program *)

Inductive goroutine := backgroundSync | budgetProcessor_Start.
Inductive resource := TheLogger | TheRedisCluster | TheDatabase.

(** What [main] serves: the state of its parts, and what stays as it is. *)
Record setup (program provider : Type) := {
  state : program;
  served_providers : list provider;
  adminSecret : string;
  reader : ReaderConfig;
  middlewares : list middleware;
  served_routes : list (string * string * route_target);
  served_server : server
}.
Arguments state {program provider} _.
Arguments served_providers {program provider} _.
Arguments adminSecret {program provider} _.
Arguments reader {program provider} _.
Arguments middlewares {program provider} _.
Arguments served_routes {program provider} _.
Arguments served_server {program provider} _.

(** What [main] does, seen from outside; a goroutine with how it begins. *)
Inductive main_event (setup : Type) :=
  | Prints (line : string)
  | Exits (code : Z)
  | Goes (g : goroutine) (begin : outcome Z)
  | Serves (s : setup)
  | Closes (r : resource).
Arguments Prints {setup} _.
Arguments Exits {setup} _.
Arguments Goes {setup} _ _.
Arguments Serves {setup} _.
Arguments Closes {setup} _.

Definition LF : string := String (ascii_of_nat 10) "".

Section main.
Context {W Q K R CQ L1 G : Type}.

(** The libraries: what opening a connection gives. *)
Context (ParseConfig : string -> result unit) (NewWithConfig : string -> result Q) (NewClusterClient : list string -> R)
  (new_writer : WriterConfig -> K) (clickhouse_Open : string -> result CQ) (ristretto_NewCache : result L1)
  (genai_NewClient : string -> result G) (ListenAndServe : server -> option error).

Abbreviation program := (program (W := W) (D := PostgresClient Q) (L := TokenBucket) (C := gateway_cache L1 R)
  (Mon := EWMAMonitor) (G := MultiLogger K R) (A := ClickHouseClient CQ R)).

Definition database (cfg : Config) : result (PostgresClient Q) :=
  Postgres.New (ParseConfig (DatabaseURL cfg)) (NewWithConfig (DatabaseURL cfg)).

Definition opened_clickhouse (cfg : Config) : option (ClickHouseClient CQ R) * option error :=
  ClickHouse.NewClickHouseClient (clickhouse_Open (ClickHouseAddr cfg)) (NewClusterClient (RedisAddrs cfg)).

(** The handler, the admin handler and the budget processor are given the same
    repository, and the first two the same monitor. *)
Definition main_state (cfg : Config) (w : W) (d : PostgresClient Q) : program :=
  let redisCluster := NewClusterClient (RedisAddrs cfg) in
  let logger := Multi.NewMultiLogger new_writer (KafkaBrokers cfg) "gateway_logs" redisCluster in
  let '(chClient, _) := opened_clickhouse cfg in
  let limiter := TB.NewTokenBucket (RateLimitSyncFreq cfg) in
  let cache := gatewayCache cfg redisCluster ristretto_NewCache in
  let monitor := EWMA.NewEWMAMonitor in
  {| gate := NewGatewayHandler w d limiter cache monitor logger;
     analytics := chClient;
     processor := NewBudgetProcessor;
     processing := true;
     consumed := [] |}.

Definition main_setup (env : gmap string string) (w : W) (d : PostgresClient Q) : setup program (ResilientProvider (base G)) :=
  let cfg := Load env in
  {| state := main_state cfg w d;
     served_providers := providers env cfg (Gemini.NewGeminiProvider (genai_NewClient (GeminiAPIKey cfg)));
     adminSecret := AdminSecret cfg;
     reader := reader_config (KafkaBrokers cfg) "gateway_logs";
     middlewares := main_middlewares;
     served_routes := routes;
     served_server := main_server cfg |}.

Definition main (env : gmap string string) (w : W) : list (main_event (setup program (ResilientProvider (base G)))) :=
  let cfg := Load env in
  match database cfg with
  | inr err => [Prints ("Failed to connect to database: " ++ Error err ++ LF); Exits 1]
  | inl d =>
      let s := main_setup env w d in
      match snd (opened_clickhouse cfg) with
      | Some err => [Prints ("Failed to connect to ClickHouse: " ++ Error err ++ LF)]
      | None => []
      end ++
      [Goes backgroundSync (TB.start_sync (limiter (gate (state s))));
       Goes budgetProcessor_Start (NewTicker (flushInterval (processor (state s))));
       Prints ("👁️ Kenbun Gateway starting on port " ++ Port cfg ++ "..." ++ LF);
       Serves s] ++
      match ListenAndServe (served_server s) with
      | Some err => [Prints ("Server failed: " ++ Error err ++ LF)]
      | None => []
      end ++
      [Closes TheLogger; Closes TheRedisCluster; Closes TheDatabase; Exits 0]
  end.
End main.

(** ** What the choices mean *)

(** The in-memory cache is used exactly when the first address of the list is
    empty - when REDIS_ADDRS is set to nothing or starts with a comma; the
    length test never fires.  Otherwise both tiers are used, and a first tier
    that could not be created is a nil cache. *)
Theorem main_cache {L R} env (r : R) (newCache : result L) :
  RedisAddrs (Load env) <> [] /\
  ((exists m, gatewayCache (Load env) r newCache = InMemory m) <->
     exists rest, env !! "REDIS_ADDRS"%string = Some rest /\ (rest = ""%string \/ exists t, rest = ("," ++ t)%string)) /\
  (forall c, gatewayCache (Load env) r newCache = TwoTiers c -> (c = None <-> exists err, newCache = inr err)).
Proof.
  split; [apply Split_nonempty|]. unfold gatewayCache, Load, getEnv. cbn [RedisAddrs]. split.
  - destruct (env !! "REDIS_ADDRS"%string) as [v|] eqn:E.
    + destruct v as [|a v]; cbn [Split].
      { rewrite decide_True by done. split; [eauto 6|eauto]. }
      destruct (Ascii.eqb_spec a ",") as [->|Na].
      * rewrite decide_True by done. split; [|eauto]. intros _. eexists. split; [done|]. right. by exists v.
      * assert (X : exists p ps, (match Split v with piece :: pieces => String a piece :: pieces | [] => [String a ""] end) = String a p :: ps)
          by (destruct (Split v); eauto).
        destruct X as (p & ps & ->). rewrite decide_False by done. split; [by intros [m ?]|].
        intros (rest & [= <-] & [?|[t X]]); [done|]. by injection X.
    + split; [by intros [m ?]|]. by intros (rest & ? & _).
  - intros c. destruct (Split _) as [|p ps]; [done|]. case_decide; [done|]. intros [= <-].
    unfold TwoTier.NewTwoTierCache. destruct newCache; split; naive_solver.
Qed.

Import (hints) Resilient.Scenario.

(** The retries of a provider may outlast the response: with the limits of
    [main] and an upstream that only answers after its deadlines, a call takes
    90.3 seconds, while the server stops writing after 60. *)
Theorem main_retries_outlast_response cfg :
  let p := NewResilientProvider (100 * Second) main_maxRetries main_timeout in
  let done := now (snd (resilient_Chat Resilient.Scenario.timer p Background Resilient.Scenario.request 0)) in
  done = 90300 * Millisecond /\ WriteTimeout (main_server cfg) < done.
Proof. split; by vm_compute. Qed.

(** ** The running program *)


#[export] Instance sum_Cache {A B} `{Cache A} `{Cache B} : Cache (A + B) := {|
  Get t ctx k c :=
    match c with
    | inl a => let '(r, a) := Get t ctx k a in (r, inl a)
    | inr b => let '(r, b) := Get t ctx k b in (r, inr b)
    end;
  Set_ t ctx k v ttl c :=
    match c with
    | inl a => let '(r, a) := Set_ t ctx k v ttl a in (r, inl a)
    | inr b => let '(r, b) := Set_ t ctx k v ttl b in (r, inr b)
    end
|}.


Section running.
Context {W D L C C' Mon G A : Type}.

End running.

Section starts.
Context {W Q K R CQ L1 G K1 : Type} `{Clock W} `{PoolLaws Q} `{KafkaWriterLaws K} `{RedisPublisher R} `{Redis R} `{Ristretto L1}
  `{Conn CQ} `{OpenAIClient W K1} `{HTTPClient W} `{GenaiClient W G K1} `{LargeSort}.
Context (timer_first : Z -> bool) `{Streamer W (ResilientProvider (base G))}.
#[local] Instance main_Provider : Provider W (ResilientProvider (base G)) := Resilient_Provider timer_first.
#[local] Instance main_selector : ProviderSelector EWMAMonitor (ResilientProvider (base G)) :=
  LatencyAwareSelector (H0 := provider_Named (W := W)).
Context (ParseConfig : string -> result unit) (NewWithConfig : string -> result Q) (NewClusterClient : list string -> R)
  (new_writer : WriterConfig -> K) (clickhouse_Open : string -> result CQ) (ristretto_NewCache : result L1)
  (genai_NewClient : string -> result G) (ListenAndServe : server -> option error).
Abbreviation run := (main ParseConfig NewWithConfig NewClusterClient new_writer clickhouse_Open ristretto_NewCache genai_NewClient ListenAndServe).
Abbreviation set_up := (main_setup (Q := Q) NewClusterClient new_writer clickhouse_Open ristretto_NewCache genai_NewClient).
Abbreviation opened := (database ParseConfig NewWithConfig).

Lemma main_serves env (w : W) s : Serves s ∈ run env w <->
  exists d, opened (Load env) = inl d /\ s = set_up env w d.
Proof.
  unfold main. destruct (database _ _ _) as [d|err].
  - destruct (snd _); destruct (ListenAndServe _); set_solver.
  - set_solver.
Qed.

(** How the goroutines begin. *)
Lemma main_goes env (w : W) g o : Goes g o ∈ run env w <->
  (exists d, opened (Load env) = inl d) /\
  o = match g with backgroundSync => NewTicker (RateLimitSyncFreq (Load env)) | budgetProcessor_Start => Returns (1 * Second) end.
Proof.
  unfold main. destruct (database _ _ _) as [d|err].
  - unfold main_setup, main_state. destruct (opened_clickhouse _ _ _) as [c [e|]]; destruct (ListenAndServe _); destruct g; set_solver.
  - set_solver.
Qed.





(** *** Without a Gemini client *)

Section nil_gemini.
Context `{!LargeSortLaws} `{BodyReader K1} {C : Type} `{Cache C}.
Abbreviation gw := (gateway W (PostgresClient Q) TokenBucket C EWMAMonitor (MultiLogger K R)).

Definition nil_gemini : ResilientProvider (base G) := NewResilientProvider (IsGemini None) main_maxRetries main_timeout.

Lemma served_gemini env (w : W) d err : genai_NewClient (getEnv env "GEMINI_API_KEY" "") = inr err ->
  served_providers (set_up env w d) !! 2%nat = Some nil_gemini.
Proof. intros E. unfold main_setup, providers. cbn. by rewrite E. Qed.

Lemma nil_gemini_Chat timer ctx req (w : W) : resilient_Chat timer nil_gemini ctx req w = (Panics NilDereference, w).
Proof. reflexivity. Qed.

Lemma nil_gemini_handled flushes r req t start (s : gw) : req_Stream req = false ->
  Stages.handle flushes r req nil_gemini t start s = (Panics NilDereference, s).
Proof.
  intros St. unfold Stages.handle. rewrite St. unfold Gateway.handleSync, Gateway.with_world, zoom, mbind, M_bind.
  change (Chat nil_gemini (r_ctx r) req (world s)) with (resilient_Chat timer_first nil_gemini (r_ctx r) req (world s)).
  rewrite nil_gemini_Chat. by destruct s.
Qed.

(** C40: A Gemini client that could not be created is not replaced by the mock:
    the third provider is then a nil pointer in an interface that is not nil.
    A request that gets as far as selecting it panics before anything is
    written, logged or recorded, and as no failure is recorded its health is
    what it was, so that it remains eligible for the next one; and whatever a
    streamed request asks, in every execution its first attempt panics in the
    goroutine of the resilient provider, where nothing recovers it: nothing has
    been delivered or reported, and the process can end at any moment. *)
Theorem nil_gemini_panics env (w : W) s err :
  genai_NewClient (getEnv env "GEMINI_API_KEY" "") = inr err -> Serves s ∈ run env w ->
  exists p, served_providers s !! 2%nat = Some p /\ base_Name (Resilient.base p) = "gemini"%string /\
    (forall flushes r (g : gw) t g1 req, Stages.known r g t g1 -> Stages.admitted g t -> Stages.decoding r = (req, true) ->
       Stages.not_cached r req g t g1 -> req_Stream req = false ->
       fst (Stages.selection (served_providers s) g t) = Some p ->
       exists g', Gateway.ServeHTTP (served_providers s) flushes r g = (Panics NilDereference, g') /\
         writer g' = writer g /\ logger g' = logger g /\ world g' = world g /\
         forall q, observe (monitor g') q = observe (monitor g) q) /\
    (forall body req ctxs worlds ctx_err c, reach (maxRetries p) (attempt_opens body (Resilient.base p) req ctxs worlds) ctx_err c ->
       Stream.delivered c = [] /\ (forall e, e ∈ events c -> e = EvDone) /\ at_ c = Attempting 0 None /\
       crashed c ∈ [None; Some NilDereference] /\
       (crashed c = None -> step (maxRetries p) (attempt_opens body (Resilient.base p) req ctxs worlds) ctx_err c (crash NilDereference c))).
Proof.
  intros E (d & _ & ->)%main_serves. exists nil_gemini. split; [by eapply served_gemini|]. split; [done|]. split.
  - intros flushes r g t g1 req Kn Ad Dc Nc St Sl. pose proof (proj2 Kn) as F.
    destruct (Stages.asked_frame r g t g1 F req) as (Ew & _ & El & Er & _).
    exists (Stages.selected (served_providers (set_up env w d)) r req g t g1). split; [|split; [exact Er|split; [exact El|split; [exact Ew|]]]].
    + assert (Wp : wp (Gateway.ServeHTTP (served_providers (set_up env w d)) flushes r) (fun o g' => o = Panics NilDereference /\
        g' = Stages.selected (served_providers (set_up env w d)) r req g t g1) g).
      { apply (Stages.wp_known _ _ _ _ t g1); [done|]. apply Stages.wp_admitted; [done..|].
        apply (Stages.wp_uncached r g t g1 F _ _ req); [done..|]. apply (Stages.wp_selected r g t g1 F _ _ req nil_gemini); [done|].
        unfold wp. by rewrite nil_gemini_handled. }
      destruct Wp as [E1 E2]. by rewrite (surjective_pairing (Gateway.ServeHTTP _ _ _ _)), E1, E2.
    + intros q. apply Select_observe.
  - intros body req ctxs worlds ctx_err c Rc. destruct (first_attempt_panics main_maxRetries (attempt_opens body (IsGemini None) req ctxs worlds) ctx_err NilDereference c) as [U Cr]; [done|done|exact Rc|].
    destruct U as (A & _ & _ & _ & _ & Ev & Cs). split; [|done]. unfold Stream.delivered.
    induction (events c) as [|e es IH]; [done|]. rewrite (Ev e) by left. apply IH. intros e' I. apply Ev. by right.
Qed.
End nil_gemini.

(** The process survives its start unless the frequency of the
    synchronisation is not positive: a goroutine panics as it begins - and with
    it the process - exactly when the database connects and RL_SYNC_FREQ_MS is
    a number whose milliseconds, as a duration that wraps around, are at most
    zero.  Only the ticker of the rate limiter can; a variable that is not a
    number, or not set, falls back to 100. *)
Theorem main_ticker env (w : W) :
  (exists g p, Goes g (Panics p) ∈ run env w) <->
  (exists d, opened (Load env) = inl d) /\
  exists text ms, env !! "RL_SYNC_FREQ_MS"%string = Some text /\ Atoi text = Some ms /\ wrap64 (ms * Millisecond) <= 0.
Proof.
  assert (T : forall p, NewTicker (RateLimitSyncFreq (Load env)) = Panics p -> exists text ms,
    env !! "RL_SYNC_FREQ_MS"%string = Some text /\ Atoi text = Some ms /\ wrap64 (ms * Millisecond) <= 0).
  { unfold NewTicker, Load, getEnvInt, milliseconds. cbn [RateLimitSyncFreq]. intros p.
    destruct (env !! "RL_SYNC_FREQ_MS"%string) as [text|]; [destruct (Atoi text) as [ms|] eqn:E|]; [|done|done].
    destruct (Z.leb_spec (wrap64 (ms * Millisecond)) 0); [|done]. by exists text, ms. }
  split.
  - intros (g & p & (Ok & E)%main_goes). split; [exact Ok|]. destruct g; [by apply (T p)|done].
  - intros (Ok & text & ms & Et & Em & Le). exists backgroundSync, NonPositiveInterval. apply main_goes. split; [exact Ok|].
    unfold NewTicker, Load, getEnvInt, milliseconds. cbn [RateLimitSyncFreq]. rewrite Et, Em.
    destruct (Z.leb_spec (wrap64 (ms * Millisecond)) 0); [done|lia].
Qed.
End starts.

(** ** A scenario *)

Module Scenario.
(** Every library answers; the first writer has written nothing. *)
#[export] Instance writer_Kafka : KafkaWriter (list kafka_Message) := {|
  WriteMessages := fun ctx m k => (None, k ++ [m]); kafka_Close := fun k => (None, k)
|}.
#[export] Instance writer_laws : KafkaWriterLaws (list kafka_Message).
Proof. refine {| messages := id |}. intros ctx m k. by right. Defined.
#[export] Instance timed_Publisher : RedisPublisher Timed := {| Publish := fun ctx channel payload r => (None, r) |}.
#[export] Instance clock : Clock unit := {| now := fun _ => 0; wait_until := fun _ w => w |}.
#[export] Instance silent_OpenAI : OpenAIClient unit unit := {|
  CreateChatCompletion := fun ctx req w => (Returns (inr DeadlineExceeded), w);
  CreateChatCompletionStream := fun ctx req w => (Returns (inr DeadlineExceeded), w);
  Recv := fun done k => (RecvEOF, k)
|}.
#[export] Instance silent_Genai : GenaiClient unit unit unit := {|
  SendMessage := fun g ctx model h m w => (Returns (inr DeadlineExceeded), w);
  SendMessageStream := fun g ctx model h m w => (Returns tt, w);
  Next := fun done k => (IterDone, k)
|}.
#[export] Instance silent_Streamer : Streamer unit (ResilientProvider (base unit)) := {| ChatStream := fun p ctx req w => (Returns [], w) |}.
#[export] Existing Instances Upstreams.Scenario.overloaded Analytics.Scenario.canned InsertionAsLargeSort.sort.

Definition parse (url : string) : result unit := inl tt.
Definition table : Table := {| Db.rows := []; Db.up := true |}.
Definition connect (url : string) : result Table := inl table.
Definition down (addr : string) : result unit := inr (Errorf "clickhouse: connection refused").
Definition redis_cluster (addrs : list string) : Timed := {| entries := ∅ |}.
Definition first_tier : result Timed := inl {| entries := ∅ |}.
Definition genai (key : string) : result unit := inl tt.
Definition listen (s : server) : option error := None.
Definition environment : gmap string string := {["RL_SYNC_FREQ_MS"%string := "0"%string]}.

(** No Gemini client, and one tenant that asks for nothing else. *)
#[export] Instance silent_body : BodyReader unit := {|
  Call := fun done c k => (inr DeadlineExceeded, k); Read := fun done k => (ReadEOF, k); type_error := fun v => Errorf "json: cannot unmarshal"
|}.
Definition no_genai (key : string) : result unit := inr (Errorf "You need an auth option to use this client").
Definition row : Columns :=
  {| c_id := "t-1"; c_name := "Acme"; c_api_key_hash := key_hash "sk-acme"; c_rate_limit_rpm := 60;
     c_budget_cents := 0; c_spent_cents := 0; c_provider_allowlist := Some ["gemini"]; c_is_active := true |}%string.
Definition gateway : gateway unit (PostgresClient Table) TokenBucket MemoryCache EWMAMonitor (MultiLogger (list kafka_Message) Timed) :=
  NewGatewayHandler tt (Build_PostgresClient {| Db.rows := [row]; Db.up := true |}) (TB.NewTokenBucket 0) Memory.NewMemoryCache
    EWMA.NewEWMAMonitor (Multi.NewMultiLogger (fun _ => @nil kafka_Message) [] "gateway_logs" {| entries := ∅ |}).
Definition request : http_request :=
  {| r_ctx := Background; X_API_Key := "sk-acme"; r_Body := dq "{'model':'gemini-pro','messages':[{'role':'user','content':'Hi'}]}" |}.
Definition chat : ChatRequest := fst (Stages.decoding request).
#[export] Existing Instance InsertionAsLargeSort.laws.
#[export] Instance gemini_Provider : Provider unit (ResilientProvider (base unit)) := Resilient_Provider (fun _ => true).
#[export] Instance selector : ProviderSelector EWMAMonitor (ResilientProvider (base unit)) := LatencyAwareSelector (H0 := provider_Named (W := unit)).
End Scenario.
Import (hints) Scenario.


(** The one request of that tenant panics, and its stream could not be saved by
    any execution. *)
Lemma nil_gemini_panics_witness :
  let s := main_setup Scenario.redis_cluster (fun _ => @nil kafka_Message) Scenario.down Scenario.first_tier Scenario.no_genai
    ∅ tt (Build_PostgresClient Scenario.table) in
  fst (Gateway.ServeHTTP (served_providers s) true Scenario.request Scenario.gateway)
    = Panics NilDereference /\
  step 2 (attempt_opens tt (IsGemini None) Scenario.chat (fun _ => Background) (fun _ => tt)) Canceled start (crash NilDereference start).
Proof.
  intros s.
  destruct (nil_gemini_panics (Q := Table) (K := list kafka_Message) (R := Timed) (CQ := unit) (L1 := Timed) (G := unit) (K1 := unit) (C := MemoryCache)
    (fun _ => true) Scenario.parse Scenario.connect Scenario.redis_cluster (fun _ => @nil kafka_Message) Scenario.down Scenario.first_tier
    Scenario.no_genai Scenario.listen ∅ tt s (Errorf "You need an auth option to use this client") eq_refl) as (p & L & _ & Sync & Stm).
  { apply main_serves. by exists (Build_PostgresClient Scenario.table). }
  injection L as <-.
  destruct (Sync true Scenario.request Scenario.gateway (Postgres.scan Scenario.row)
    (snd (Gateway.lookup_tenant Scenario.request Scenario.gateway)) Scenario.chat) as (g' & E & _);
    [by split; vm_compute|split; [|eexists; split]; by vm_compute|by vm_compute|right; by vm_compute|by vm_compute|by vm_compute|].
  split; [exact (f_equal fst E)|].
  by apply (Stm tt Scenario.chat (fun _ => Background) (fun _ => tt) Canceled start (reach_start _ _ _)).
Defined.

(** With RL_SYNC_FREQ_MS=0 the process does not survive. *)
Lemma main_ticker_zero :
  exists g p, Goes g (Panics p) ∈ main Scenario.parse Scenario.connect Scenario.redis_cluster (fun _ => @nil kafka_Message) Scenario.down
    Scenario.first_tier Scenario.genai Scenario.listen Scenario.environment tt.
Proof. exists backgroundSync, NonPositiveInterval. vm_compute. right. left. Qed.
