(* ===== verification/Simulate.v ===== *)
(** * Simulate: the load generator (scripts/simulate.go)

    Every request that the script sends is determined by three random draws;
    the script shows the outcome by status and cache header.  Its loop, with the
    timer, the signal and the goroutines, is the relation [step]. *)

From Stdlib Require Import Ascii.
From S2P Require Import Prelude Rounding Binary64 Float64 GoTypes Utf8 Json Decode Sha256 Provider Db Handler.
Local Open Scope Z_scope.

Module Simulate.

Definition apiKey : string := "sk-kb-iux3n2bgcjm".

Definition models : list string := ["gpt-4o"; "claude-3-sonnet"; "gemini-1.5-pro"]%string.
Definition prompts : list string := [
  "What is Observation Haki?"; "Explain Kafka in one sentence."; "How do I scale a Go application?";
  "Tell me a joke about Redis."]%string.

(** [rand.Intn(450)] as an argument. *)
Definition nextDelay (n : Z) : Z := (n + 50) * Millisecond.

(** The draws of a request: the indices of the model and of the prompt, and
    whether [rand.Float64() < 0.3]. *)
Definition prompt (j : nat) (same : bool) : option string := if same then prompts !! 0%nat else prompts !! j.

(** Maps are marshalled with their keys in order. *)
Definition payload (model prompt : string) : json :=
  JObj [("messages", JArr [JObj [("content", JStr prompt); ("role", JStr "user")]]); ("model", JStr model);
        ("stream", JBool false)]%string.

Definition request (ctx : context) (model prompt : string) : http_request :=
  {| r_ctx := ctx; X_API_Key := apiKey; r_Body := marshal (payload model prompt) |}.

Definition statusIcon (w : response) : string :=
  let cacheHit := bool_decide (w_header w !! "X-Cache"%string = Some "HIT"%string) in
  if w_status w =? 429 then "⏳ (Rate Limited)"
  else if 500 <=? w_status w then "💥 (Provider Error)"
  else if cacheHit then "⚡ (Cache HIT)"
  else "✅".

(** ** The program *)

Definition LF : string := String (ascii_of_nat 10) "".

(** The verbs %-15s and %4d of [fmt.Printf], for ASCII texts. *)
Definition spaces (n : nat) : string := String.concat "" (replicate n " "%string).
Definition pad_right (n : nat) (s : string) : string := s ++ spaces (n - String.length s).
Definition pad_left (n : nat) (s : string) : string := spaces (n - String.length s) ++ s.

Definition starting : list string :=
  ["👁️ Kenbun Haki Simulator Starting..." ++ LF;
   "Target: http://localhost:8080/v1/chat/completions" ++ LF ++ LF]%string.

(** One outcome; [stamp] is the time of day. *)
Definition report (stamp model : string) (latency : Z) (w : response) : string :=
  "[" ++ stamp ++ "] " ++ statusIcon w ++ " | Model: " ++ pad_right 15 model ++ " | Latency: " ++
  pad_left 4 (Itoa (Z.quot latency Millisecond)) ++ "ms | Status: " ++ Itoa (w_status w) ++ " " ++ statusIcon w ++ LF.

Definition failure (err : error) : string := "❌ Failed to sense: " ++ Error err ++ LF.

Inductive phase := Looping | Waiting | Stopped.

(** A goroutine: started, or waiting for the reply to its request. *)
Inductive job := Spawned | Sent (model : string) (start : Z).

(** [due] is when the timer fires; [sent] and [printed] are what was sent and
    printed so far. *)
Record sim := {
  clock : Z;
  due : Z;
  interrupted : bool;
  at_phase : phase;
  jobs : list job;
  sent : list http_request;
  printed : list string
}.

Definition set_clock (t : Z) (s : sim) : sim := {| clock := t; due := due s; interrupted := interrupted s;
  at_phase := at_phase s; jobs := jobs s; sent := sent s; printed := printed s |}.
Definition interrupt (s : sim) : sim := {| clock := clock s; due := due s; interrupted := true;
  at_phase := at_phase s; jobs := jobs s; sent := sent s; printed := printed s |}.
Definition set_due (t : Z) (s : sim) : sim := {| clock := clock s; due := t; interrupted := interrupted s;
  at_phase := at_phase s; jobs := jobs s; sent := sent s; printed := printed s |}.
Definition go (p : phase) (s : sim) : sim := {| clock := clock s; due := due s; interrupted := interrupted s;
  at_phase := p; jobs := jobs s; sent := sent s; printed := printed s |}.
Definition set_jobs (js : list job) (s : sim) : sim := {| clock := clock s; due := due s; interrupted := interrupted s;
  at_phase := at_phase s; jobs := js; sent := sent s; printed := printed s |}.
Definition send (r : http_request) (s : sim) : sim := {| clock := clock s; due := due s; interrupted := interrupted s;
  at_phase := at_phase s; jobs := jobs s; sent := sent s ++ [r]; printed := printed s |}.
Definition print (lines : list string) (s : sim) : sim := {| clock := clock s; due := due s; interrupted := interrupted s;
  at_phase := at_phase s; jobs := jobs s; sent := sent s; printed := printed s ++ lines |}.

Definition start (t0 n : Z) : sim := {| clock := t0; due := t0 + nextDelay n; interrupted := false; at_phase := Looping;
  jobs := []; sent := []; printed := starting |}.

(** [main] and its goroutines: time passes, the signal arrives, the [select]
    takes one of its two cases, a goroutine sends its request or gets its
    outcome - the context is that of the signal - and [wg.Wait] returns. *)
Inductive step (ctx : context) : sim -> sim -> Prop :=
  | step_time s t : at_phase s <> Stopped -> clock s <= t -> step ctx s (set_clock t s)
  | step_signal s : at_phase s <> Stopped -> step ctx s (interrupt s)
  | step_done s : at_phase s = Looping -> interrupted s = true ->
      step ctx s (go Waiting (print [LF ++ "🛑 Stopping simulator..." ++ LF; "⏳ Waiting for pending requests to finish..." ++ LF]%string s))
  | step_timer s n : at_phase s = Looping -> due s <= clock s -> 0 <= n < 450 ->
      step ctx s (set_due (clock s + nextDelay n) (set_jobs (jobs s ++ [Spawned]) s))
  | step_send s js1 js2 i j same model text : jobs s = js1 ++ Spawned :: js2 ->
      models !! i = Some model -> (j < length prompts)%nat -> prompt j same = Some text ->
      step ctx s (send (request ctx model text) (set_jobs (js1 ++ Sent model (clock s) :: js2) s))
  | step_failed s js1 js2 model started err : jobs s = js1 ++ Sent model started :: js2 ->
      step ctx s (set_jobs (js1 ++ js2) (print (if interrupted s then [] else [failure err]) s))
  | step_replied s js1 js2 model started w stamp : jobs s = js1 ++ Sent model started :: js2 ->
      step ctx s (set_jobs (js1 ++ js2) (print [report stamp model (clock s - started) w] s))
  | step_stopped s : at_phase s = Waiting -> jobs s = [] ->
      step ctx s (go Stopped (print ["👋 Simulator stopped." ++ LF]%string s)).

End Simulate.

(** The gateway reads every request of the load generator as it was meant:
    for every draw, the body decodes without error to the model, one message
    of the user with the prompt, and no streaming; there are at most twelve
    different requests, so that at most twelve answers are cached. *)
Theorem simulate_requests ctx i j same model :
  Simulate.models !! i = Some model -> (j < 4)%nat ->
  exists text, Simulate.prompt j same = Some text /\ text ∈ Simulate.prompts /\
    Decode (dec_struct Provider.Codec.Request_fields) (r_Body (Simulate.request ctx model text)) Provider.Codec.zero_Request =
      ({| req_Model := model; req_Messages := Some [{| Role := "user"; Content := text |}]; req_Stream := false |}, true) /\
    forall tenant, cache_key tenant {| req_Model := model; req_Messages := Some [{| Role := "user"; Content := text |}]; req_Stream := false |}
      ∈ (fun mp => cache_key tenant {| req_Model := fst mp; req_Messages := Some [{| Role := "user"; Content := snd mp |}]; req_Stream := false |})
        <$> (m ← Simulate.models; p ← Simulate.prompts; [(m, p)]).
Proof.
  intros M J.
  assert (P : exists text, Simulate.prompt j same = Some text /\ text ∈ Simulate.prompts).
  { unfold Simulate.prompt. destruct same; [eexists; split; [reflexivity|left]|].
    destruct (lookup_lt_is_Some_2 Simulate.prompts j) as [t E]; [done|]. exists t. split; [done|]. by eapply list_elem_of_lookup_2. }
  destruct P as (text & E & I). exists text. split; [done|]. split; [done|].
  apply list_elem_of_lookup_2 in M. split.
  - assert (All : Forall (fun m => Forall (fun t =>
      Decode (dec_struct Provider.Codec.Request_fields) (marshal (Simulate.payload m t)) Provider.Codec.zero_Request =
      ({| req_Model := m; req_Messages := Some [{| Role := "user"; Content := t |}]; req_Stream := false |}, true))
      Simulate.prompts) Simulate.models) by (apply (bool_decide_unpack (Forall _ _)); by vm_compute).
    rewrite Forall_forall in All. specialize (All model M). rewrite Forall_forall in All. by apply All.
  - intros tenant. apply list_elem_of_fmap. exists (model, text). split; [done|].
    apply list_elem_of_bind. exists model. split; [|done]. apply list_elem_of_bind. exists text. split; [left|done].
Qed.

Lemma simulate_requests_witness : exists text, Simulate.prompt 2 true = Some text /\ text ∈ Simulate.prompts.
Proof.
  destruct (simulate_requests Background 0 2 true "gpt-4o" eq_refl ltac:(lia)) as (text & E & I & _). by exists text.
Defined.

(** The key is not that of the tenant that scripts/postgres-init.sql seeds. *)
Lemma simulate_key_not_seeded :
  key_hash Simulate.apiKey <> "2c76897a806f1188dcd9b074b958e6ba88c82fe3eed21d3db25977059ce29417"%string.
Proof. vm_compute. discriminate. Qed.

(** ** Its executions *)

Section runs.
Context (ctx : context) (t0 n0 : Z) (n0_ok : 0 <= n0 < 450).
Import Simulate.
Implicit Types s : sim.

Abbreviation reached := (rtc (step ctx) (start t0 n0)).

(** The goroutines that have not sent their request. *)
Definition unsent (js : list job) : nat := sum_list_with (fun j => match j with Spawned => 1 | Sent _ _ => 0 end)%nat js.

Definition drawn (r : http_request) : Prop :=
  exists model text, model ∈ models /\ text ∈ prompts /\ r = request ctx model text.

(** The timer has fired once for each goroutine, at least 50 ms apart. *)
Record paced s : Prop := {
  paced_sent : Forall drawn (sent s);
  paced_due : t0 + (Z.of_nat (length (sent s) + unsent (jobs s)) + 1) * (50 * Millisecond) <= due s;
  paced_clock : t0 + Z.of_nat (length (sent s) + unsent (jobs s)) * (50 * Millisecond) <= clock s;
  paced_interrupted : at_phase s <> Looping -> interrupted s = true;
  paced_stopped : at_phase s = Stopped -> jobs s = []
}.

Lemma unsent_app js1 js2 : unsent (js1 ++ js2) = (unsent js1 + unsent js2)%nat.
Proof. apply sum_list_with_app. Qed.

Lemma prompt_drawn j same text : prompt j same = Some text -> text ∈ prompts.
Proof. unfold prompt. destruct same; apply list_elem_of_lookup_2. Qed.

Lemma paced_start : paced (start t0 n0).
Proof using n0_ok. split; simpl; try done; unfold nextDelay, Millisecond; lia. Qed.

Lemma paced_step s s' : paced s -> step ctx s s' -> paced s'.
Proof.
  intros [P1 P2 P3 P4 P5] St.
  destruct St as [s t N T|s N|s A I|s n A Du Hn|s js1 js2 i j same model text J Mo Jl Te|s js1 js2 m st err J|s js1 js2 m st w stamp J|s A J].
  all: try rewrite J in P2, P3; split; simpl in *; rewrite ?J, ?length_app, ?unsent_app in *; simpl in *; try done; try lia.
  all: try (unfold nextDelay, Millisecond in *; lia).
  all: try (intros Ph; specialize (P5 Ph); by destruct js1).
  all: try (intros _; apply P4; congruence).
  - intros Ph. congruence.
  - apply Forall_app. split; [done|]. constructor; [|done]. exists model, text.
    split; [by eapply list_elem_of_lookup_2|]. split; [by eapply prompt_drawn|done].
Qed.

Lemma reached_paced s : reached s -> paced s.
Proof using n0_ok. revert s. apply rtc_ind_r; [exact paced_start|]. intros s s' _ St P. by apply (paced_step s). Qed.

(** After the signal every goroutine can end without printing. *)
Lemma drain js : forall s, jobs s = js -> interrupted s = true -> exists s', rtc (step ctx) s s' /\ jobs s' = [] /\
  at_phase s' = at_phase s /\ printed s' = printed s /\ interrupted s' = true /\
  length (sent s') = (length (sent s) + unsent js)%nat.
Proof.
  induction js as [|j js IH]; intros s J I; [exists s; simpl; by rewrite Nat.add_0_r|].
  assert (G : forall s m st, jobs s = Sent m st :: js -> interrupted s = true -> exists s', rtc (step ctx) s s' /\ jobs s' = [] /\
    at_phase s' = at_phase s /\ printed s' = printed s /\ interrupted s' = true /\ length (sent s') = (length (sent s) + unsent js)%nat).
  { intros u m st Ju Iu. pose proof (step_failed ctx u [] js m st Canceled Ju) as St. rewrite Iu in St.
    destruct (IH _ (eq_refl : jobs (set_jobs ([] ++ js) (print [] u)) = js) Iu) as (s' & R & E & A & P & X & L).
    exists s'. split; [by eapply rtc_l|]. split; [done|]. split; [exact A|]. split; [by rewrite P; simpl; rewrite app_nil_r|done]. }
  destruct j as [|m st]; [|by eapply G].
  pose proof (step_send ctx s [] js 0 0 true "gpt-4o" "What is Observation Haki?" J eq_refl ltac:(simpl; lia) eq_refl) as St.
  destruct (G (send (request ctx "gpt-4o" "What is Observation Haki?") (set_jobs (Sent "gpt-4o" (clock s) :: js) s)) _ _ eq_refl I)
    as (s' & R & E & A & P & X & L).
  exists s'. split; [by eapply rtc_l|]. do 4 (split; [done|]). rewrite L. simpl. rewrite length_app. simpl. unfold unsent. simpl. lia.
Qed.

(** The work that is left after the signal. *)
Definition work s : nat :=
  (sum_list_with (fun j => match j with Spawned => 2 | Sent _ _ => 1 end) (jobs s) +
   match at_phase s with Looping => 2 | Waiting => 1 | Stopped => 0 end)%nat.

Lemma work_shrinks s s' : at_phase s = Waiting -> step ctx s s' ->
  (work s' < work s)%nat \/ (jobs s' = jobs s /\ at_phase s' = Waiting /\ sent s' = sent s /\ printed s' = printed s).
Proof.
  intros W St. destruct St as [s t N T|s N|s A I|s n A Du Hn|s js1 js2 i j same model text J Mo Jl Te|s js1 js2 m st err J|s js1 js2 m st w stamp J|s A J];
    try congruence; [by right|by right|left..]; unfold work; simpl; rewrite ?W, ?J, ?sum_list_with_app; simpl; lia.
Qed.

(** C39: The load generator sends what it says, not faster than one request in
    50 ms.  In every execution, up to any moment: all requests sent are for one
    of its models and prompts, with its key; there are at most twenty a second,
    so many as the timer has fired, goroutines that have not sent included; and
    the program only ends after the signal, when no request is pending. *)
Theorem simulator_sends s : reached s ->
  Forall drawn (sent s) /\
  Z.of_nat (length (sent s) + unsent (jobs s)) * (50 * Millisecond) <= clock s - t0 /\
  (at_phase s = Stopped -> interrupted s = true /\ jobs s = [] /\ forall s', ~ step ctx s s').
Proof using n0_ok.
  intros R. destruct (reached_paced s R) as [P1 P2 P3 P4 P5]. split; [done|]. split; [lia|].
  intros A. specialize (P5 A). rewrite A in P4. split; [by apply P4|]. split; [done|].
  intros s' St. destruct St as [s t N T|s N|s A' I|s n A' Du Hn|s js1 js2 i j same model text J Mo Jl Te|s js1 js2 m st err J|s js1 js2 m st w stamp J|s A' J];
    try congruence; rewrite P5 in J; by destruct js1.
Qed.

(** C38: The load generator can always be stopped: from every state that it
    reaches, some execution ends, after sending what was started and without
    printing a failure; and once it waits, every step but the passing of time
    and further signals brings the end nearer. *)
Theorem simulator_stops s : reached s ->
  (exists s', rtc (step ctx) s s' /\ at_phase s' = Stopped /\ length (sent s') = (length (sent s) + unsent (jobs s))%nat /\
     forall line, line ∈ printed s' -> line ∈ printed s \/ forall err, line <> failure err) /\
  (at_phase s = Waiting -> forall s', step ctx s s' ->
     (work s' < work s)%nat \/ (jobs s' = jobs s /\ at_phase s' = Waiting /\ sent s' = sent s /\ printed s' = printed s)).
Proof using n0_ok.
  intros R. destruct (reached_paced s R) as [_ _ _ P4 P5]. split; [|intros A s'; by apply work_shrinks].
  assert (G : forall s, at_phase s = Waiting -> interrupted s = true -> exists s', rtc (step ctx) s s' /\ at_phase s' = Stopped /\
    length (sent s') = (length (sent s) + unsent (jobs s))%nat /\
    printed s' = printed s ++ ["👋 Simulator stopped." ++ LF]%string).
  { intros u A I. destruct (drain (jobs u) u eq_refl I) as (s' & R' & J & A' & P & _ & L). pose proof (step_stopped ctx s' ltac:(congruence) J) as St. eexists. split; [by eapply rtc_r|].
    split; [done|]. simpl. by rewrite P, L. }
  destruct (at_phase s) eqn:A.
  - pose proof (step_signal ctx s ltac:(congruence)) as S1. pose proof (step_done ctx (interrupt s) A eq_refl) as S2.
    match type of S2 with step _ _ ?u => destruct (G u eq_refl eq_refl) as (s' & R' & A' & L & P) end.
    exists s'. split; [eapply rtc_l; [exact S1|]; eapply rtc_l; [exact S2|exact R']|]. split; [done|]. split; [exact L|].
    rewrite P. simpl. intros line [[I|I]%elem_of_app|I]%elem_of_app; [by left|right..]; intros err;
      repeat (apply elem_of_cons in I as [->|I]; [done|]); by apply elem_of_nil in I.
  - destruct (G s A ltac:(by apply P4)) as (s' & R' & A' & L & P). exists s'. split; [done|]. split; [done|]. split; [done|].
    rewrite P. intros line [I|I]%elem_of_app; [by left|right]. apply list_elem_of_singleton in I as ->. done.
  - exists s. split; [done|]. split; [done|]. rewrite (P5 eq_refl). simpl. split; [lia|]. by left.
Qed.
End runs.

(** ** A scenario: one request is on its way *)

Module Scenario.
Import Simulate.
Definition model : string := "gpt-4o".
Definition text : string := "Tell me a joke about Redis.".
Definition fired : sim := set_due (50 * Millisecond + nextDelay 100) (set_jobs [Spawned] (set_clock (50 * Millisecond) (start 0 0))).
Definition asking : sim := send (request Background model text) (set_jobs [Sent model (50 * Millisecond)] fired).

Lemma asking_reached : rtc (step Background) (start 0 0) asking.
Proof.
  eapply rtc_l; [by apply (step_time Background _ (50 * Millisecond))|].
  eapply rtc_l; [by apply (step_timer Background _ 100)|].
  eapply rtc_l; [by apply (step_send Background fired [] [] 0 3 false model text); [..|simpl; lia|]|]. done.
Qed.
End Scenario.

Lemma simulator_sends_witness : Forall (drawn Background) [Simulate.request Background Scenario.model Scenario.text].
Proof.
  destruct (simulator_sends Background 0 0 ltac:(lia) Scenario.asking Scenario.asking_reached) as (F & _). exact F.
Defined.

Lemma simulator_stops_witness : exists s', rtc (Simulate.step Background) Scenario.asking s' /\ Simulate.at_phase s' = Simulate.Stopped.
Proof.
  destruct (simulator_stops Background 0 0 ltac:(lia) Scenario.asking Scenario.asking_reached) as ((s' & R & A & _) & _). by exists s'.
Defined.
